(** * Authorization flows and credential lifecycle of the connection service

    A shallow embedding of
      - packages/shared/lib/services/connection.service.ts
        (ConnectionService and the EncryptionManager that follows it), and
      - packages/server/lib/controllers/oauth.controller.ts
        (OAuthController),
    together with the properties of the credential parser, the encryption
    envelope, the connection upsert, the one-time encryption migration, the
    refresh coordinator and the OAuth request/callback handlers.

    Layout: part I holds the definitions (the embedding), part II the
    theorems. *)

From Stdlib Require Import ZArith Lia List Ascii String Bool DecimalPos DecimalN.
From stdpp Require Import base option list gmap strings.

Local Open Scope string_scope.
Local Open Scope Z_scope.

#[local] Set Default Proof Using "Type*".
#[local] Arguments String.append : simpl nomatch.

(* ===================================================================== *)
(** * Part I. Definitions                                                 *)
(* ===================================================================== *)

(** ** Errors and fallible computations

    A JavaScript function either returns or throws.  [Result A] is the
    outcome of a call: [Ok a] for a returned value, [Err e] for a thrown
    error. *)

Inductive Error : Type :=
  | NangoError (code : string)     (* new NangoError(code) *)
  | TypeError (what : string)      (* thrown by the JS runtime *)
  | SyntaxError (what : string)    (* thrown by JSON.parse *)
  | PlainError (message : string). (* new Error(message) *)

Inductive Result (A : Type) : Type :=
  | Ok (a : A)
  | Err (e : Error).
Arguments Ok {A} a.
Arguments Err {A} e.

#[global] Instance Result_ret : MRet Result := fun A a => Ok a.
#[global] Instance Result_bind : MBind Result := fun A B k r =>
  match r with
  | Ok a => k a
  | Err e => Err e
  end.

Definition isOk {A} (r : Result A) : bool :=
  match r with Ok _ => true | Err _ => false end.

(** ** JavaScript values

    Credentials, raw provider responses and connection configs are plain
    JavaScript objects.  Numbers are restricted to integers; a [Date] is
    represented by its epoch milliseconds, [JDate None] being the
    "Invalid Date".  The time value of a Date lies within 8.64e15 ms of the
    epoch: [newDate] below is how the code makes one.  A character of a
    string stands for the UTF-16 code unit of the same number, 0 to 255.
    Object fields keep their insertion order. *)

#[local] Unset Elimination Schemes.
Inductive JsValue : Type :=
  | JUndefined
  | JNull
  | JBool (b : bool)
  | JNumber (n : Z)
  | JString (s : string)
  | JDate (ms : option Z)
  | JArray (items : list JsValue)
  | JObject (fields : list (string * JsValue)).
#[local] Set Elimination Schemes.

(** [!!v] in JavaScript: the falsy values are undefined, null, false, 0 and
    the empty string. *)
Definition truthy (v : JsValue) : bool :=
  match v with
  | JUndefined | JNull => false
  | JBool b => b
  | JNumber n => negb (n =? 0)
  | JString s => negb (String.eqb s "")
  | JDate _ | JArray _ | JObject _ => true
  end.

(** [v == null]: true for null and undefined only. *)
Definition isNullish (v : JsValue) : bool :=
  match v with
  | JUndefined | JNull => true
  | _ => false
  end.

(** [new Date(t)] for a number [t] ([None] is NaN): a time further than
    8.64e15 ms from the epoch gives the Invalid Date. *)
Definition maxTimeValue : Z := 8640000000000000.

Definition newDate (t : option Z) : JsValue :=
  match t with
  | Some ms => if Z.abs ms <=? maxTimeValue then JDate (Some ms) else JDate None
  | None => JDate None
  end.

Fixpoint lookupField (k : string) (fs : list (string * JsValue)) : JsValue :=
  match fs with
  | [] => JUndefined
  | (k', v) :: rest => if String.eqb k k' then v else lookupField k rest
  end.

(** [o[k]] for a value that is known not to be null or undefined: a missing
    property reads as undefined, and so does any property of a primitive. *)
Definition getProp (o : JsValue) (k : string) : JsValue :=
  match o with
  | JObject fs => lookupField k fs
  | _ => JUndefined
  end.

(** [o[k]] in general: reading a property of null or undefined throws. *)
Definition readProp (o : JsValue) (k : string) : Result JsValue :=
  if isNullish o then Err (TypeError "Cannot read properties of null or undefined")
  else Ok (getProp o k).

(** ** Auth modes and operations (models/Auth.ts) *)

Inductive AuthModes : Type :=
  | OAuth1 | OAuth2 | OAuth2CC | Basic | ApiKey | AppStore | Custom | App | NoneMode.

#[global] Instance AuthModes_eq_dec : EqDecision AuthModes.
Proof. solve_decision. Defined.

(** Modelled from the spec: the string value that each member of the enum
    [AuthModes] has at run time (models/Auth.ts is not part of the sources at
    hand).  Only the fact that the nine values are pairwise distinct is
    used. *)
Definition authModeTag (m : AuthModes) : string :=
  match m with
  | OAuth1 => "OAUTH1"
  | OAuth2 => "OAUTH2"
  | OAuth2CC => "OAUTH2_CC"
  | Basic => "BASIC"
  | ApiKey => "API_KEY"
  | AppStore => "APP_STORE"
  | Custom => "CUSTOM"
  | App => "APP"
  | NoneMode => "NONE"
  end.

Definition JMode (m : AuthModes) : JsValue := JString (authModeTag m).

(** [credentials.type === ProviderAuthModes.m] *)
Definition hasType (creds : JsValue) (m : AuthModes) : bool :=
  match getProp creds "type" with
  | JString s => String.eqb s (authModeTag m)
  | _ => false
  end.

Inductive AuthOperation : Type :=
  | CREATION   (* reported as "created" *)
  | OVERRIDE   (* reported as "updated" *)
  | UNKNOWN.

(** ** JSON.stringify and JSON.parse

    [JSON.stringify] first replaces a value by its JSON form ([toJSON]): a
    property whose value is undefined is left out, an undefined array element
    becomes null, a Date becomes its ISO string (null for the Invalid Date).
    The JSON form is then written out as JSON text: compact, the way
    [JSON.stringify(v)] writes it ([render]), or indented, the way
    [JSON.stringify(v, undefined, gap)] does ([renderIndented]).  In strings
    the quote, the backslash and the control characters are escaped.
    [JSON.parse] reads JSON text back.

    Range of the model.  Numbers are integers, written in decimal as
    JavaScript writes those below 1e21; fractions and exponents are neither
    written nor read.  [JSON.parse] is modelled on text without white space
    between its tokens, which is the text that [JSON.stringify(v)] writes,
    and a [\u] escape above [00ff] names a code unit that the strings of
    the model do not have: on such text the model gives no value.  A Date
    prints as JavaScript prints it over the whole range of time values. *)

Definition quoteChar : ascii := "034"%char.
Definition backslashChar : ascii := "092"%char.

Definition digitChar (d : Z) : ascii := ascii_of_N (48 + Z.to_N (d mod 10)).

(** [n] in decimal, on exactly [width] digits (the low ones). *)
Fixpoint fixedWidth (width : nat) (n : Z) : string :=
  match width with
  | O => ""
  | S w => fixedWidth w (n / 10) +:+ String (digitChar n) ""
  end.

(** The year of an ISO date: four digits from 0000 to 9999, otherwise a sign
    and six digits. *)
Definition isoYear (y : Z) : string :=
  if (0 <=? y) && (y <=? 9999) then fixedWidth 4 y
  else String (if y <? 0 then "-" else "+") (fixedWidth 6 (Z.abs y)).

(** [new Date(ms).toISOString()]: the proleptic Gregorian calendar date of
    the day [ms / 86400000] after 1970-01-01 (division rounding down), then
    the time of day. *)
Definition toISOString (ms : Z) : string :=
  let days := ms / 86400000 in
  let msOfDay := ms mod 86400000 in
  let z := days + 719468 in
  let era := z / 146097 in
  let doe := z - era * 146097 in
  let yoe := (doe - doe / 1460 + doe / 36524 - doe / 146096) / 365 in
  let doy := doe - (365 * yoe + yoe / 4 - yoe / 100) in
  let mp := (5 * doy + 2) / 153 in
  let d := doy - (153 * mp + 2) / 5 + 1 in
  let m := if mp <? 10 then mp + 3 else mp - 9 in
  let y := yoe + era * 400 + (if m <=? 2 then 1 else 0) in
  isoYear y +:+ "-" +:+ fixedWidth 2 m +:+ "-" +:+ fixedWidth 2 d +:+ "T" +:+
  fixedWidth 2 (msOfDay / 3600000) +:+ ":" +:+
  fixedWidth 2 (msOfDay / 60000 mod 60) +:+ ":" +:+
  fixedWidth 2 (msOfDay / 1000 mod 60) +:+ "." +:+
  fixedWidth 3 (msOfDay mod 1000) +:+ "Z".

(** The JSON form of a value; [None] stands for "left out". *)
Fixpoint toJSON (v : JsValue) : option JsValue :=
  match v with
  | JUndefined => None
  | JDate (Some ms) => Some (JString (toISOString ms))
  | JDate None => Some JNull
  | JArray xs => Some (JArray (map (fun x => default JNull (toJSON x)) xs))
  | JObject fs =>
      Some (JObject
        ((fix members (fs : list (string * JsValue)) : list (string * JsValue) :=
            match fs with
            | [] => []
            | (k, x) :: rest =>
                match toJSON x with
                | Some d => (k, d) :: members rest
                | None => members rest
                end
            end) fs))
  | JNull | JBool _ | JNumber _ | JString _ => Some v
  end.

(** Values that JSON text can express as they are. *)
Fixpoint isPlain (v : JsValue) : bool :=
  match v with
  | JUndefined | JDate _ => false
  | JNull | JBool _ | JNumber _ | JString _ => true
  | JArray xs => forallb isPlain xs
  | JObject fs => forallb (fun kv => isPlain kv.2) fs
  end.

(** The lower-case hexadecimal digit of [n mod 16]. *)
Definition hexChar (n : N) : ascii :=
  let d := (n mod 16)%N in
  ascii_of_N (if (d <? 10)%N then 48 + d else 87 + d)%N.

(** How one character of a string is written: the quote and the backslash
    after a backslash, backspace, tab, line feed, form feed and carriage
    return by their letter, any other control character as [\u00xx]. *)
Definition escapeChar (c : ascii) : string :=
  let n := N_of_ascii c in
  if Ascii.eqb c quoteChar || Ascii.eqb c backslashChar
  then String backslashChar (String c "")
  else if (n =? 8)%N then String backslashChar "b"
  else if (n =? 9)%N then String backslashChar "t"
  else if (n =? 10)%N then String backslashChar "n"
  else if (n =? 12)%N then String backslashChar "f"
  else if (n =? 13)%N then String backslashChar "r"
  else if (n <? 32)%N
  then String backslashChar
         (String "u" (String "0" (String "0"
            (String (hexChar (n / 16)) (String (hexChar n) "")))))
  else String c "".

Fixpoint escape (s : string) : string :=
  match s with
  | EmptyString => EmptyString
  | String c rest => escapeChar c +:+ escape rest
  end.

Definition renderString (s : string) : string :=
  String quoteChar (escape s +:+ String quoteChar "").

Fixpoint renderUint (d : Decimal.uint) : string :=
  match d with
  | Decimal.Nil => ""
  | Decimal.D0 d => String "0" (renderUint d)
  | Decimal.D1 d => String "1" (renderUint d)
  | Decimal.D2 d => String "2" (renderUint d)
  | Decimal.D3 d => String "3" (renderUint d)
  | Decimal.D4 d => String "4" (renderUint d)
  | Decimal.D5 d => String "5" (renderUint d)
  | Decimal.D6 d => String "6" (renderUint d)
  | Decimal.D7 d => String "7" (renderUint d)
  | Decimal.D8 d => String "8" (renderUint d)
  | Decimal.D9 d => String "9" (renderUint d)
  end.

Definition renderNumber (n : Z) : string :=
  if n <? 0 then String "-" (renderUint (N.to_uint (Z.to_N (- n))))
  else renderUint (N.to_uint (Z.to_N n)).

Fixpoint render (v : JsValue) : string :=
  match v with
  | JUndefined | JDate _ | JNull => "null"
  | JBool b => if b then "true" else "false"
  | JNumber n => renderNumber n
  | JString s => renderString s
  | JArray xs =>
      String "["
        ((fix elems (xs : list JsValue) : string :=
            match xs with
            | [] => "]"
            | [x] => render x +:+ "]"
            | x :: rest => render x +:+ String "," (elems rest)
            end) xs)
  | JObject fs =>
      String "{"
        ((fix members (fs : list (string * JsValue)) : string :=
            match fs with
            | [] => "}"
            | [(k, x)] => renderString k +:+ String ":" (render x +:+ "}")
            | (k, x) :: rest =>
                renderString k +:+ String ":" (render x +:+ String "," (members rest))
            end) fs)
  end.

(** [JSON.stringify(v)]: [None] is the result undefined. *)
Definition JSON_stringify (v : JsValue) : option string := render <$> toJSON v.

Fixpoint spaces (n : nat) : string :=
  match n with
  | O => ""
  | S n => String " " (spaces n)
  end.

(** A line feed and the indentation of the next line. *)
Definition lineBreak (indent : nat) : string := String "010"%char (spaces indent).

(** The indented text of a JSON form, for a gap of 1 to 10 spaces: each
    element or member of a non-empty array or object on a line of its own,
    [gap] spaces deeper than the line of the bracket, a space after the
    colon; an empty array or object on one line. *)
Fixpoint renderIndented (gap indent : nat) (v : JsValue) : string :=
  match v with
  | JArray [] => "[]"
  | JArray xs =>
      String "["
        (lineBreak (indent + gap) +:+
         (fix elems (xs : list JsValue) : string :=
            match xs with
            | [] => lineBreak indent +:+ "]"
            | [x] => renderIndented gap (indent + gap) x +:+ lineBreak indent +:+ "]"
            | x :: rest =>
                renderIndented gap (indent + gap) x
                +:+ String "," (lineBreak (indent + gap) +:+ elems rest)
            end) xs)
  | JObject [] => "{}"
  | JObject fs =>
      String "{"
        (lineBreak (indent + gap) +:+
         (fix members (fs : list (string * JsValue)) : string :=
            match fs with
            | [] => lineBreak indent +:+ "}"
            | [(k, x)] =>
                renderString k +:+ ": " +:+ renderIndented gap (indent + gap) x
                +:+ lineBreak indent +:+ "}"
            | (k, x) :: rest =>
                renderString k +:+ ": " +:+ renderIndented gap (indent + gap) x
                +:+ String "," (lineBreak (indent + gap) +:+ members rest)
            end) fs)
  | _ => render v
  end.

(** [JSON.stringify(v, undefined, gap)] for [gap] from 1 to 10. *)
Definition JSON_stringify_indented (gap : nat) (v : JsValue) : option string :=
  renderIndented gap 0 <$> toJSON v.

Definition digitOf (c : ascii) : option (Decimal.uint -> Decimal.uint) :=
  if Ascii.eqb c "0" then Some Decimal.D0
  else if Ascii.eqb c "1" then Some Decimal.D1
  else if Ascii.eqb c "2" then Some Decimal.D2
  else if Ascii.eqb c "3" then Some Decimal.D3
  else if Ascii.eqb c "4" then Some Decimal.D4
  else if Ascii.eqb c "5" then Some Decimal.D5
  else if Ascii.eqb c "6" then Some Decimal.D6
  else if Ascii.eqb c "7" then Some Decimal.D7
  else if Ascii.eqb c "8" then Some Decimal.D8
  else if Ascii.eqb c "9" then Some Decimal.D9
  else None.

(** The longest run of digits at the start of the text, and what follows. *)
Fixpoint readUint (s : string) : Decimal.uint * string :=
  match s with
  | EmptyString => (Decimal.Nil, EmptyString)
  | String c rest =>
      match digitOf c with
      | Some d => let '(u, r) := readUint rest in (d u, r)
      | None => (Decimal.Nil, s)
      end
  end.

Definition readNat (s : string) : option (N * string) :=
  match readUint s with
  | (Decimal.Nil, _) => None
  | (u, r) => Some (N.of_uint u, r)
  end.

(** The character that a one-letter escape stands for. *)
Definition unescapeChar (c : ascii) : option ascii :=
  if Ascii.eqb c quoteChar || Ascii.eqb c backslashChar || Ascii.eqb c "/" then Some c
  else if Ascii.eqb c "b" then Some (ascii_of_N 8)
  else if Ascii.eqb c "t" then Some (ascii_of_N 9)
  else if Ascii.eqb c "n" then Some (ascii_of_N 10)
  else if Ascii.eqb c "f" then Some (ascii_of_N 12)
  else if Ascii.eqb c "r" then Some (ascii_of_N 13)
  else None.

(** The value of a hexadecimal digit, of either case. *)
Definition hexOf (c : ascii) : option N :=
  let n := N_of_ascii c in
  if (48 <=? n)%N && (n <=? 57)%N then Some (n - 48)%N
  else if (97 <=? n)%N && (n <=? 102)%N then Some (n - 87)%N
  else if (65 <=? n)%N && (n <=? 70)%N then Some (n - 55)%N
  else None.

(** The code unit that the four digits of a [\u] escape name, when it is
    one of the model's characters. *)
Definition unicodeEscape (h1 h2 h3 h4 : ascii) : option ascii :=
  match hexOf h1, hexOf h2, hexOf h3, hexOf h4 with
  | Some a, Some b, Some c, Some d =>
      if (a =? 0)%N && (b =? 0)%N then Some (ascii_of_N (16 * c + d)) else None
  | _, _, _, _ => None
  end.

(** The text of a string literal after its opening quote.  A control
    character that is not escaped is a syntax error. *)
Fixpoint readString (s : string) : option (string * string) :=
  match s with
  | EmptyString => None
  | String c rest =>
      if Ascii.eqb c quoteChar then Some (EmptyString, rest)
      else if Ascii.eqb c backslashChar then
        match rest with
        | String c2 rest2 =>
            match unescapeChar c2 with
            | Some c' => '(str, r) ← readString rest2; Some (String c' str, r)
            | None =>
                if Ascii.eqb c2 "u" then
                  match rest2 with
                  | String h1 (String h2 (String h3 (String h4 rest3))) =>
                      match unicodeEscape h1 h2 h3 h4 with
                      | Some c' => '(str, r) ← readString rest3; Some (String c' str, r)
                      | None => None
                      end
                  | _ => None
                  end
                else None
            end
        | EmptyString => None
        end
      else if (N_of_ascii c <? 32)%N then None
      else '(str, r) ← readString rest; Some (String c str, r)
  end.

Fixpoint stripPrefix (p s : string) : option string :=
  match p, s with
  | EmptyString, _ => Some s
  | String a p', String b s' => if Ascii.eqb a b then stripPrefix p' s' else None
  | String _ _, EmptyString => None
  end.

Fixpoint parseValue (fuel : nat) (s : string) : option (JsValue * string) :=
  match fuel with
  | O => None
  | S fuel =>
      match s with
      | EmptyString => None
      | String c rest =>
          if Ascii.eqb c "n" then r ← stripPrefix "ull" rest; Some (JNull, r)
          else if Ascii.eqb c "t" then r ← stripPrefix "rue" rest; Some (JBool true, r)
          else if Ascii.eqb c "f" then r ← stripPrefix "alse" rest; Some (JBool false, r)
          else if Ascii.eqb c quoteChar then
            '(str, r) ← readString rest; Some (JString str, r)
          else if Ascii.eqb c "[" then
            match rest with
            | String c2 rest2 =>
                if Ascii.eqb c2 "]" then Some (JArray [], rest2)
                else '(xs, r) ← parseElems fuel rest; Some (JArray xs, r)
            | EmptyString => None
            end
          else if Ascii.eqb c "{" then
            match rest with
            | String c2 rest2 =>
                if Ascii.eqb c2 "}" then Some (JObject [], rest2)
                else '(fs, r) ← parseMembers fuel rest; Some (JObject fs, r)
            | EmptyString => None
            end
          else if Ascii.eqb c "-" then
            '(n, r) ← readNat rest; Some (JNumber (- Z.of_N n), r)
          else '(n, r) ← readNat s; Some (JNumber (Z.of_N n), r)
      end
  end
with parseElems (fuel : nat) (s : string) : option (list JsValue * string) :=
  match fuel with
  | O => None
  | S fuel =>
      '(x, r) ← parseValue fuel s;
      match r with
      | String c r' =>
          if Ascii.eqb c "," then '(xs, r'') ← parseElems fuel r'; Some (x :: xs, r'')
          else if Ascii.eqb c "]" then Some ([x], r')
          else None
      | EmptyString => None
      end
  end
with parseMembers (fuel : nat) (s : string) : option (list (string * JsValue) * string) :=
  match fuel with
  | O => None
  | S fuel =>
      match s with
      | String c rest =>
          if Ascii.eqb c quoteChar then
            '(k, r) ← readString rest;
            match r with
            | String c1 r1 =>
                if Ascii.eqb c1 ":" then
                  '(x, r2) ← parseValue fuel r1;
                  match r2 with
                  | String c3 r3 =>
                      if Ascii.eqb c3 "," then
                        '(fs, r4) ← parseMembers fuel r3; Some ((k, x) :: fs, r4)
                      else if Ascii.eqb c3 "}" then Some ([(k, x)], r3)
                      else None
                  | EmptyString => None
                  end
                else None
            | EmptyString => None
            end
          else None
      | EmptyString => None
      end
  end.

(** [JSON.parse(text)]: the whole text must be one value. *)
Definition JSON_parse (text : string) : Result JsValue :=
  match parseValue (String.length text) text with
  | Some (v, EmptyString) => Ok v
  | _ => Err (SyntaxError "Unexpected token in JSON")
  end.


(** ** The credential parser: ConnectionService.parseRawCredentials *)

Section Parser.
(** What the parser takes from its environment: the clock, the date
    normaliser of utils.ts and [Number.parseInt(_, 10)] ([None] is NaN). *)
Variable Date_now : Z.
Variable parseTokenExpirationDate : JsValue -> JsValue.
Variable parseInt10 : JsValue -> option Z.

(** The shared expiry computation of the OAuth2 and OAuth2CC cases:
    [expires_at] wins over [expires_in]; neither leaves it undefined.  The
    sum is computed on integers, as JavaScript computes it below 2^53; for a
    clock between the epoch and 2^53 - 8.64e15 a sum that JavaScript would
    round is beyond the range of a Date in both. *)
Definition parseExpiresAt (rawCreds : JsValue) : JsValue :=
  if truthy (getProp rawCreds "expires_at") then
    parseTokenExpirationDate (getProp rawCreds "expires_at")
  else if truthy (getProp rawCreds "expires_in") then
    newDate (n ← parseInt10 (getProp rawCreds "expires_in"); Some (Date_now + n * 1000))
  else JUndefined.

(** The message of the error of the default case ends with the raw
    response as [JSON.stringify(rawCreds, undefined, 2)] prints it; the
    template literal turns the result undefined into the word. *)
Definition unknownCredentialsType (rawCreds : JsValue) : string :=
  "Cannot parse credentials, unknown credentials type: "
  +:+ default "undefined" (JSON_stringify_indented 2 rawCreds).

Definition parseRawCredentials (rawCredentials : JsValue) (authMode : AuthModes)
  : Result JsValue :=
  let rawCreds := rawCredentials in
  match authMode with
  | OAuth2 =>
      access_token ← readProp rawCreds "access_token";
      if negb (truthy access_token) then Err (NangoError "incomplete_raw_credentials")
      else
        let expiresAt := parseExpiresAt rawCreds in
        Ok (JObject [ ("type", JMode OAuth2);
                      ("access_token", getProp rawCreds "access_token");
                      ("refresh_token", getProp rawCreds "refresh_token");
                      ("expires_at", expiresAt);
                      ("raw", rawCreds) ])
  | OAuth1 =>
      oauth_token ← readProp rawCreds "oauth_token";
      if negb (truthy oauth_token) || negb (truthy (getProp rawCreds "oauth_token_secret"))
      then Err (NangoError "incomplete_raw_credentials")
      else
        Ok (JObject [ ("type", JMode OAuth1);
                      ("oauth_token", getProp rawCreds "oauth_token");
                      ("oauth_token_secret", getProp rawCreds "oauth_token_secret");
                      ("raw", rawCreds) ])
  | OAuth2CC =>
      token ← readProp rawCreds "token";
      if negb (truthy token) then Err (NangoError "incomplete_raw_credentials")
      else
        let expiresAt := parseExpiresAt rawCreds in
        Ok (JObject [ ("type", JMode OAuth2CC);
                      ("token", getProp rawCreds "token");
                      ("client_id", JString "");
                      ("client_secret", JString "");
                      ("expires_at", expiresAt);
                      ("raw", rawCreds) ])
  | _ => Err (NangoError (unknownCredentialsType rawCreds))
  end.
End Parser.


(** ** An induction principle for nested values, and the measures used to
    reason about the JSON text of a value *)

Section JsValueInduction.
Variable P : JsValue -> Prop.
Hypothesis Hundef : P JUndefined.
Hypothesis Hnull : P JNull.
Hypothesis Hbool : forall b, P (JBool b).
Hypothesis Hnum : forall n, P (JNumber n).
Hypothesis Hstr : forall s, P (JString s).
Hypothesis Hdate : forall ms, P (JDate ms).
Hypothesis Harr : forall xs, Forall P xs -> P (JArray xs).
Hypothesis Hobj : forall fs, Forall (fun kv => P kv.2) fs -> P (JObject fs).

Fixpoint JsValue_ind (v : JsValue) : P v :=
  match v with
  | JUndefined => Hundef
  | JNull => Hnull
  | JBool b => Hbool b
  | JNumber n => Hnum n
  | JString s => Hstr s
  | JDate ms => Hdate ms
  | JArray xs =>
      Harr xs ((fix go (xs : list JsValue) : Forall P xs :=
                  match xs with
          | [] => @List.Forall_nil _ P
          | x :: rest => @List.Forall_cons _ P x rest (JsValue_ind x) (go rest) 
                  end) xs)
  | JObject fs =>
      Hobj fs ((fix go (fs : list (string * JsValue)) : Forall (fun kv => P kv.2) fs :=
                  match fs with
          | [] => @List.Forall_nil _ (fun kv => P kv.2)
          | kv :: rest => @List.Forall_cons _ (fun kv => P kv.2) kv rest (JsValue_ind kv.2) (go rest) 
                  end) fs)
  end.
End JsValueInduction.

Definition startsWithDigit (s : string) : bool :=
  match s with
  | String c _ => bool_decide (is_Some (digitOf c))
  | EmptyString => false
  end.

(** Fuel that [parseValue] needs for the text of [v]. *)
Fixpoint cost (v : JsValue) : nat :=
  match v with
  | JArray xs => S (list_sum (map (fun x => S (cost x)) xs))
  | JObject fs => S (list_sum (map (fun kv => S (cost kv.2)) fs))
  | _ => 1
  end.

Definition followsValue (rest : string) : Prop := startsWithDigit rest = false.

Fixpoint renderElems (xs : list JsValue) : string :=
  match xs with
  | [] => "]"
  | [x] => render x +:+ "]"
  | x :: rest => render x +:+ String "," (renderElems rest)
  end.

Fixpoint renderMembers (fs : list (string * JsValue)) : string :=
  match fs with
  | [] => "}"
  | [(k, x)] => renderString k +:+ String ":" (render x +:+ "}")
  | (k, x) :: rest =>
      renderString k +:+ String ":" (render x +:+ String "," (renderMembers rest))
  end.

Definition headIs (P : ascii -> Prop) (s : string) : Prop :=
  match s with
  | String c _ => P c
  | EmptyString => False
  end.

Definition parsesBack (v : JsValue) : Prop :=
  isPlain v = true -> forall fuel rest,
    (cost v <= fuel)%nat -> followsValue rest ->
    parseValue fuel (render v +:+ rest) = Some (v, rest).

(** ** The encryption envelope: EncryptionManager *)

(** Modelled from the spec: the [Encryption] base class of @nangohq/utils,
    which is not part of the sources at hand.  An authenticated cipher under
    a symmetric key: [encrypt key random text] draws its IV from [random] (the
    bytes that [crypto.randomBytes] returns for this call) and yields the
    triple [(ciphertext, iv, authTag)]; [decrypt key ciphertext iv authTag]
    yields the text again, or throws when the tag does not verify. *)
Record Encryption : Type := {
  encrypt : string -> string -> string -> string * string * string;
  decrypt : string -> string -> string -> string -> Result string
}.

(** Decryption undoes encryption under the same key. *)
Definition EncryptionSound (E : Encryption) : Prop :=
  forall key random text,
    let '(enc, iv, authTag) := encrypt E key random text in
    decrypt E key enc iv authTag = Ok text.

(** The IV and the tag that [encrypt] returns are never empty strings. *)
Definition EncryptionTagged (E : Encryption) : Prop :=
  forall key random text,
    let '(enc, iv, authTag) := encrypt E key random text in
    iv <> "" /\ authTag <> "".

(** A row of [_nango_connections], and the in-memory connection object; the
    TypeScript types [Connection] and [StoredConnection] describe the same
    run-time object.  [None] in an optional field is null or undefined. *)
Record Connection : Type := {
  id : option Z;
  connection_id : string;
  provider_config_key : string;
  environment_id : Z;
  config_id : option Z;
  credentials : JsValue;
  credentials_iv : option string;
  credentials_tag : option string;
  connection_config : JsValue;
  metadata : JsValue;
  deleted : bool;
  updated_at : option Z
}.

(** [Object.assign({}, connection)] followed by the three assignments to
    [credentials], [credentials_iv] and [credentials_tag]. *)
Definition withCredentials (c : Connection) (creds : JsValue)
    (iv tag : option string) : Connection :=
  {| id := id c;
     connection_id := connection_id c;
     provider_config_key := provider_config_key c;
     environment_id := environment_id c;
     config_id := config_id c;
     credentials := creds;
     credentials_iv := iv;
     credentials_tag := tag;
     connection_config := connection_config c;
     metadata := metadata c;
     deleted := deleted c;
     updated_at := updated_at c |}.

(** [this.encrypt(JSON.stringify(v))] and [JSON.parse(this.decrypt(...))]
    take a string: handing [encrypt] the undefined that [JSON.stringify]
    returns for undefined, or [decrypt] something that is not a string,
    throws. *)
Definition stringArg (v : option string) : Result string :=
  match v with
  | Some s => Ok s
  | None => Err (TypeError "The data argument must be of type string")
  end.

Definition asString (v : JsValue) : option string :=
  match v with
  | JString s => Some s
  | _ => None
  end.

Section EncryptionManager.
Variable E : Encryption.
(** [this.key]: the value of NANGO_ENCRYPTION_KEY, or the empty string. *)
Variable key : string.

Definition shouldEncrypt : bool := negb (String.eqb key "").

Definition encryptConnection (random : string) (connection : Connection)
  : Result Connection :=
  if negb shouldEncrypt then Ok connection
  else
    text ← stringArg (JSON_stringify (credentials connection));
    let '(encryptedClientSecret, iv, authTag) := encrypt E key random text in
    let encryptedCreds := JObject [("encrypted_credentials", JString encryptedClientSecret)] in
    Ok (withCredentials connection encryptedCreds (Some iv) (Some authTag)).

Definition decryptConnection (connection : option Connection)
  : Result (option Connection) :=
  match connection with
  | None => Ok None
  | Some c =>
      match credentials_iv c, credentials_tag c with
      | Some iv, Some tag =>
          encrypted ← readProp (credentials c) "encrypted_credentials";
          enc ← stringArg (asString encrypted);
          text ← decrypt E key enc iv tag;
          creds ← JSON_parse text;
          Ok (Some (withCredentials c creds (credentials_iv c) (credentials_tag c)))
      | _, _ => Ok (Some c)
      end
  end.
End EncryptionManager.

(** A stand-in for the cipher, used to run the model on examples: the text
    is carried as it is, and the tag binds the key, the IV and the text. *)
Definition demoTag (key iv text : string) : string :=
  "tag(" +:+ key +:+ "," +:+ iv +:+ "," +:+ text +:+ ")".

Definition demoCipher : Encryption :=
  {| encrypt := fun key random text =>
       let iv := "iv:" +:+ random in (text, iv, demoTag key iv text);
     decrypt := fun key enc iv authTag =>
       if String.eqb authTag (demoTag key iv enc) then Ok enc
       else Err (PlainError "Unsupported state or unable to authenticate data") |}.

Definition oauth2Connection : Connection :=
  {| id := None; connection_id := "c1"; provider_config_key := "gh";
     environment_id := 1; config_id := Some 7;
     credentials :=
       JObject [ ("type", JMode OAuth2); ("access_token", JString "tok");
                 ("refresh_token", JUndefined);
                 ("expires_at", JDate (Some 1700000000000));
                 ("raw", JObject [("access_token", JString "tok");
                                  ("expires_in", JNumber 3600)]) ];
     credentials_iv := None; credentials_tag := None;
     connection_config := JObject []; metadata := JNull;
     deleted := false; updated_at := None |}.

Definition apiKeyConnection : Connection :=
  {| id := None; connection_id := "c2"; provider_config_key := "stripe";
     environment_id := 1; config_id := Some 8;
     credentials := JObject [ ("type", JMode ApiKey); ("apiKey", JString "sk_1") ];
     credentials_iv := None; credentials_tag := None;
     connection_config := JObject []; metadata := JNull;
     deleted := false; updated_at := None |}.

(** [decryptConnection(encryptConnection(connection))] *)
Definition envelopeRoundTrip (E : Encryption) (key random : string) (c : Connection)
  : Result (option Connection) :=
  match encryptConnection E key random c with
  | Ok stored => decryptConnection E key (Some stored)
  | Err e => Err e
  end.

Definition decryptedCredentials (r : Result (option Connection))
  : Result (option JsValue) :=
  match r with
  | Ok back => Ok (credentials <$> back)
  | Err e => Err e
  end.

(** The required fields of each variant, in the words of the specification's
    table of credential variants. *)
Definition specRequiredFields (m : AuthModes) : list string :=
  match m with
  | OAuth2 => ["access_token"]
  | OAuth1 => ["oauth_token"; "oauth_token_secret"]
  | OAuth2CC => ["token"; "client_id"; "client_secret"]
  | _ => []
  end.

(** The fields that [parseRawCredentials] insists on in the raw response. *)
Definition checkedFields (m : AuthModes) : list string :=
  match m with
  | OAuth2 => ["access_token"]
  | OAuth1 => ["oauth_token"; "oauth_token_secret"]
  | OAuth2CC => ["token"]
  | _ => []
  end.

(** The auth modes that [parseRawCredentials] has a case for. *)
Definition parsedMode (m : AuthModes) : bool :=
  match m with
  | OAuth2 | OAuth1 | OAuth2CC => true
  | _ => false
  end.

(** Every listed field is present and non-empty (truthy). *)
Definition hasFields (fields : list string) (o : JsValue) : bool :=
  forallb (fun k => truthy (getProp o k)) fields.

(** Stand-ins for the clock and the two helpers, to run the parser. *)
Definition demoParseDate (v : JsValue) : JsValue :=
  match v with
  | JNumber n => newDate (Some (n * 1000))
  | JDate ms => JDate ms
  | _ => JDate None
  end.

Definition demoParseInt (v : JsValue) : option Z :=
  match v with
  | JNumber n => Some n
  | _ => None
  end.

Definition demoParse : JsValue -> AuthModes -> Result JsValue :=
  parseRawCredentials 1700000000000 demoParseDate demoParseInt.

(** ** The database *)

(** A row of [_nango_environments]. *)
Record Environment : Type := {
  env_id : Z;
  secret_key : string;
  secret_key_iv : option string;
  secret_key_tag : option string;
  pending_secret_key : option string;
  pending_secret_key_iv : option string;
  pending_secret_key_tag : option string
}.

(** A row of [_nango_configs]: the provider config of an integration. *)
Record ProviderConfig : Type := {
  cfg_id : option Z;
  unique_key : string;
  provider : string;
  oauth_client_id : option string;
  oauth_client_secret : option string;
  oauth_client_secret_iv : option string;
  oauth_client_secret_tag : option string;
  oauth_scopes : option string;
  app_link : option string;
  custom : JsValue
}.

(** A row of [_nango_environment_variables]. *)
Record EnvironmentVariable : Type := {
  var_id : Z;
  value : string;
  value_iv : option string;
  value_tag : option string
}.

(** A row of [_nango_sync_data_records]. *)
Record DataRecord : Type := {
  rec_id : Z;
  json : JsValue
}.

(** The single row of [_nango_db_config]: the migration checkpoint. *)
Record DBConfig : Type := {
  encryption_key_hash : option string;
  encryption_complete : bool
}.

(** The statements that change rows, as they are sent to the database. *)
Inductive Write : Type :=
  | InsertRow (table : string) (row : option Z)
  | UpdateRow (table : string) (row : option Z)
  | SaveDbConfig (cfg : DBConfig).

(** The database, the number of random draws made so far and the log of the
    writes sent, oldest first. *)
Record World : Type := {
  connections : list Connection;
  connections_id_seq : Z;
  environments : list Environment;
  configs : list ProviderConfig;
  environment_variables : list EnvironmentVariable;
  data_records : list DataRecord;
  db_config : option DBConfig;
  draws : nat;
  writes : list Write
}.

Definition setConnections (w : World) (rows : list Connection) (seq : Z) : World :=
  {| connections := rows; connections_id_seq := seq;
     environments := environments w; configs := configs w;
     environment_variables := environment_variables w;
     data_records := data_records w; db_config := db_config w;
     draws := draws w; writes := writes w |}.

Definition setEnvironments (w : World) (rows : list Environment) : World :=
  {| connections := connections w; connections_id_seq := connections_id_seq w;
     environments := rows; configs := configs w;
     environment_variables := environment_variables w;
     data_records := data_records w; db_config := db_config w;
     draws := draws w; writes := writes w |}.

Definition setConfigs (w : World) (rows : list ProviderConfig) : World :=
  {| connections := connections w; connections_id_seq := connections_id_seq w;
     environments := environments w; configs := rows;
     environment_variables := environment_variables w;
     data_records := data_records w; db_config := db_config w;
     draws := draws w; writes := writes w |}.

Definition setEnvironmentVariables (w : World) (rows : list EnvironmentVariable) : World :=
  {| connections := connections w; connections_id_seq := connections_id_seq w;
     environments := environments w; configs := configs w;
     environment_variables := rows;
     data_records := data_records w; db_config := db_config w;
     draws := draws w; writes := writes w |}.

Definition setDataRecords (w : World) (rows : list DataRecord) : World :=
  {| connections := connections w; connections_id_seq := connections_id_seq w;
     environments := environments w; configs := configs w;
     environment_variables := environment_variables w;
     data_records := rows; db_config := db_config w;
     draws := draws w; writes := writes w |}.

Definition setDbConfig (w : World) (cfg : option DBConfig) : World :=
  {| connections := connections w; connections_id_seq := connections_id_seq w;
     environments := environments w; configs := configs w;
     environment_variables := environment_variables w;
     data_records := data_records w; db_config := cfg;
     draws := draws w; writes := writes w |}.

Definition setDraws (w : World) (n : nat) : World :=
  {| connections := connections w; connections_id_seq := connections_id_seq w;
     environments := environments w; configs := configs w;
     environment_variables := environment_variables w;
     data_records := data_records w; db_config := db_config w;
     draws := n; writes := writes w |}.

Definition logWrite (w : World) (q : Write) : World :=
  {| connections := connections w; connections_id_seq := connections_id_seq w;
     environments := environments w; configs := configs w;
     environment_variables := environment_variables w;
     data_records := data_records w; db_config := db_config w;
     draws := draws w; writes := (writes w ++ [q])%list |}.

(** ** ConnectionService: lookup and upsert *)

(** [a || b] on values. *)
Definition jsOr (a b : JsValue) : JsValue := if truthy a then a else b.

(** The natural key of a connection. *)
Definition hasKey (connectionId providerConfigKey : string) (environmentId : Z)
    (r : Connection) : bool :=
  String.eqb (connection_id r) connectionId
  && String.eqb (provider_config_key r) providerConfigKey
  && (environment_id r =? environmentId).

(** [where({ connection_id, provider_config_key, environment_id, deleted: false })] *)
Definition liveWithKey (connectionId providerConfigKey : string) (environmentId : Z)
    (r : Connection) : bool :=
  hasKey connectionId providerConfigKey environmentId r && negb (deleted r).

Definition checkIfConnectionExists (connection_id provider_config_key : string)
    (environment_id : Z) (w : World) : option Connection :=
  let result := filter (fun r => liveWithKey connection_id provider_config_key environment_id r = true)
                       (connections w) in
  head result.

(** [where({ id: i, deleted: false })] *)
Definition liveWithId (i : option Z) (r : Connection) : bool :=
  match i, id r with
  | Some a, Some b => (a =? b) && negb (deleted r)
  | _, _ => false
  end.

(** [update(patch)] on one row: the columns that the object built in
    [upsertConnection] carries are overwritten; [credentials_iv] and
    [credentials_tag] are among them only when the object was encrypted.
    The columns [id] and [deleted] are not touched. *)
Definition applyUpdate (patch row : Connection) : Connection :=
  {| id := id row;
     connection_id := connection_id patch;
     provider_config_key := provider_config_key patch;
     environment_id := environment_id patch;
     config_id := config_id patch;
     credentials := credentials patch;
     credentials_iv := match credentials_iv patch with
                       | Some iv => Some iv
                       | None => credentials_iv row
                       end;
     credentials_tag := match credentials_tag patch with
                        | Some tag => Some tag
                        | None => credentials_tag row
                        end;
     connection_config := connection_config patch;
     metadata := metadata patch;
     deleted := deleted row;
     updated_at := match updated_at patch with
                   | Some t => Some t
                   | None => updated_at row
                   end |}.

(** [insert(object, ['id'])]: the row gets the next id of the sequence and
    the column default [deleted = false]. *)
Definition insertedRow (object : Connection) (seq : Z) : Connection :=
  {| id := Some seq;
     connection_id := connection_id object;
     provider_config_key := provider_config_key object;
     environment_id := environment_id object;
     config_id := config_id object;
     credentials := credentials object;
     credentials_iv := credentials_iv object;
     credentials_tag := credentials_tag object;
     connection_config := connection_config object;
     metadata := metadata object;
     deleted := false;
     updated_at := updated_at object |}.

Definition withUpdatedAt (c : Connection) (t : Z) : Connection :=
  {| id := id c; connection_id := connection_id c;
     provider_config_key := provider_config_key c;
     environment_id := environment_id c; config_id := config_id c;
     credentials := credentials c; credentials_iv := credentials_iv c;
     credentials_tag := credentials_tag c;
     connection_config := connection_config c; metadata := metadata c;
     deleted := deleted c; updated_at := Some t |}.

Record ConnectionUpsertResponse : Type := {
  upserted_id : option Z;
  operation : AuthOperation
}.

Section ConnectionStore.
Variable E : Encryption.
Variable key : string.
(** [entropy n]: the bytes that the n-th call of [crypto.randomBytes]
    returns. *)
Variable entropy : nat -> string.
(** [configService.getIdByProviderConfigKey] *)
Variable getIdByProviderConfigKey : Z -> string -> option Z.

(** [encryptionManager.encryptConnection(object)] as a step: an encryption
    consumes one random draw. *)
Definition encryptConnectionStep (object : Connection) (w : World)
  : Result Connection * World :=
  if shouldEncrypt key
  then (encryptConnection E key (entropy (draws w)) object, setDraws w (S (draws w)))
  else (encryptConnection E key "" object, w).

Definition upsertConnection (connectionId providerConfigKey : string)
    (parsedRawCredentials connectionConfig : JsValue) (environment_id : Z)
    (explicitMetadata : JsValue) (now : Z) (w : World)
  : Result ConnectionUpsertResponse * World :=
  let storedConnection := checkIfConnectionExists connectionId providerConfigKey environment_id w in
  let config_id := getIdByProviderConfigKey environment_id providerConfigKey in
  match storedConnection with
  | Some storedConnection =>
      let object :=
        {| id := None; connection_id := connectionId;
           provider_config_key := providerConfigKey;
           credentials := parsedRawCredentials;
           credentials_iv := None; credentials_tag := None;
           connection_config := connectionConfig;
           environment_id := environment_id;
           config_id := config_id;
           metadata := jsOr explicitMetadata (jsOr (metadata storedConnection) JNull);
           deleted := false; updated_at := None |} in
      match encryptConnectionStep object w with
      | (Err e, w1) => (Err e, w1)
      | (Ok encryptedConnection, w1) =>
          let encryptedConnection := withUpdatedAt encryptedConnection now in
          let rows :=
            map (fun r => if liveWithId (id storedConnection) r
                          then applyUpdate encryptedConnection r else r)
                (connections w1) in
          (Ok {| upserted_id := id storedConnection; operation := OVERRIDE |},
           logWrite (setConnections w1 rows (connections_id_seq w1))
                    (UpdateRow "_nango_connections" (id storedConnection)))
      end
  | None =>
      let object :=
        {| id := None; connection_id := connectionId;
           provider_config_key := providerConfigKey;
           config_id := config_id;
           credentials := parsedRawCredentials;
           credentials_iv := None; credentials_tag := None;
           connection_config := connectionConfig;
           environment_id := environment_id;
           metadata := jsOr explicitMetadata JNull;
           deleted := false; updated_at := None |} in
      match encryptConnectionStep object w with
      | (Err e, w1) => (Err e, w1)
      | (Ok encryptedConnection, w1) =>
          let seq := connections_id_seq w1 in
          let rows := (connections w1 ++ [insertedRow encryptedConnection seq])%list in
          (Ok {| upserted_id := Some seq; operation := CREATION |},
           logWrite (setConnections w1 rows (seq + 1))
                    (InsertRow "_nango_connections" (Some seq)))
      end
  end.
End ConnectionStore.

(** *** Upsert: the notions used in the statements *)


(** Every row has an id, ids are pairwise distinct and below the next value
    of the sequence: what the primary key and its sequence guarantee. *)
Definition tableWf (w : World) : Prop :=
  NoDup (map id (connections w)) /\
  Forall (fun r => exists i, id r = Some i /\ i < connections_id_seq w) (connections w).

Definition demoEntropy (n : nat) : string := "r" +:+ fixedWidth 2 (Z.of_nat n).

Definition demoConfigId (environment_id : Z) (providerConfigKey : string) : option Z :=
  Some 7.

(** A database with a soft-deleted row for the key (c1, gh, 1) and a live row
    for another key. *)
Definition demoWorld : World :=
  {| connections :=
       [ {| id := Some 1; connection_id := "c1"; provider_config_key := "gh";
            environment_id := 1; config_id := Some 7;
            credentials := JObject [("type", JMode ApiKey); ("apiKey", JString "old")];
            credentials_iv := None; credentials_tag := None;
            connection_config := JObject []; metadata := JNull;
            deleted := true; updated_at := None |};
         {| id := Some 2; connection_id := "c2"; provider_config_key := "gh";
            environment_id := 1; config_id := Some 7;
            credentials := JObject [("type", JMode ApiKey); ("apiKey", JString "k2")];
            credentials_iv := None; credentials_tag := None;
            connection_config := JObject []; metadata := JNull;
            deleted := false; updated_at := None |} ];
     connections_id_seq := 3;
     environments := []; configs := []; environment_variables := [];
     data_records := []; db_config := None; draws := 0; writes := [] |}.

(** ** EncryptionManager: the one-time migration of the database *)

(** [a && b] on an optional string: present and not empty. *)
Definition present (s : option string) : bool :=
  match s with
  | Some s => negb (String.eqb s "")
  | None => false
  end.

(** [for (const row of rows) { if (skip(row)) continue; await step(row) }]
    over the rows read before the loop; a step that throws ends the loop. *)
Fixpoint forEachRow {Row : Type} (skip : Row -> bool)
    (step : Row -> World -> Result unit * World)
    (rows : list Row) (w : World) : Result unit * World :=
  match rows with
  | [] => (Ok (), w)
  | row :: rest =>
      if skip row then forEachRow skip step rest w
      else match step row w with
           | (Ok _, w1) => forEachRow skip step rest w1
           | (Err e, w1) => (Err e, w1)
           end
  end.

Definition chunkSize : nat := 1000.

Section Migration.
Variable E : Encryption.
Variable key : string.
Variable entropy : nat -> string.
(** [hashEncryptionKey(key, salt)]: PBKDF2 with SHA-256, 310000 rounds. *)
Variable hashEncryptionKey : string -> string -> string.

Definition keySalt : string := "X89FHEGqR3yNK0+v7rPWxQ==".

(** One call of [this.encrypt(text)]: it consumes one random draw. *)
Definition encryptStep (text : string) (w : World) : (string * string * string) * World :=
  (encrypt E key (entropy (draws w)) text, setDraws w (S (draws w))).

Definition encryptEnvironment (environment : Environment) (w : World)
  : Environment * World :=
  if negb (shouldEncrypt key) then (environment, w)
  else
    let '((encryptedClientSecret, iv, authTag), w1) := encryptStep (secret_key environment) w in
    if present (pending_secret_key environment) then
      let '((encryptedPendingClientSecret, pendingIv, pendingAuthTag), w2) :=
        encryptStep (default "" (pending_secret_key environment)) w1 in
      ({| env_id := env_id environment;
          secret_key := encryptedClientSecret;
          secret_key_iv := Some iv; secret_key_tag := Some authTag;
          pending_secret_key := Some encryptedPendingClientSecret;
          pending_secret_key_iv := Some pendingIv;
          pending_secret_key_tag := Some pendingAuthTag |}, w2)
    else
      ({| env_id := env_id environment;
          secret_key := encryptedClientSecret;
          secret_key_iv := Some iv; secret_key_tag := Some authTag;
          pending_secret_key := pending_secret_key environment;
          pending_secret_key_iv := pending_secret_key_iv environment;
          pending_secret_key_tag := pending_secret_key_tag environment |}, w1).

Definition encryptProviderConfig (config : ProviderConfig) (w : World)
  : Result ProviderConfig * World :=
  if negb (shouldEncrypt key) then (Ok config, w)
  else if negb (present (oauth_client_secret config)) then (Ok config, w)
  else
    let '((encryptedClientSecret, iv, authTag), w1) :=
      encryptStep (default "" (oauth_client_secret config)) w in
    if truthy (custom config) then
      match stringArg (JSON_stringify (custom config)) with
      | Err e => (Err e, w1)
      | Ok text =>
          let '((encryptedValue, iv', authTag'), w2) := encryptStep text w1 in
          (Ok {| cfg_id := cfg_id config; unique_key := unique_key config;
                 provider := provider config;
                 oauth_client_id := oauth_client_id config;
                 oauth_client_secret := Some encryptedClientSecret;
                 oauth_client_secret_iv := Some iv;
                 oauth_client_secret_tag := Some authTag;
                 oauth_scopes := oauth_scopes config;
                 app_link := app_link config;
                 custom := JObject [("encryptedValue", JString encryptedValue);
                                    ("iv", JString iv'); ("authTag", JString authTag')] |},
           w2)
      end
    else
      (Ok {| cfg_id := cfg_id config; unique_key := unique_key config;
             provider := provider config;
             oauth_client_id := oauth_client_id config;
             oauth_client_secret := Some encryptedClientSecret;
             oauth_client_secret_iv := Some iv;
             oauth_client_secret_tag := Some authTag;
             oauth_scopes := oauth_scopes config;
             app_link := app_link config;
             custom := custom config |}, w1).

(** The body of the loop over [_nango_environments]. *)
Definition migrateEnvironment (environment : Environment) (w : World)
  : Result unit * World :=
  let '(environment, w1) := encryptEnvironment environment w in
  let rows := map (fun r => if env_id r =? env_id environment then environment else r)
                  (environments w1) in
  (Ok (), logWrite (setEnvironments w1 rows)
                   (UpdateRow "_nango_environments" (Some (env_id environment)))).

(** The body of the loop over [_nango_connections]:
    [where({ id: storedConnection.id }).update(storedConnection)], the
    object carrying every column of the row. *)
Definition sameId (i j : option Z) : bool :=
  match i, j with
  | Some a, Some b => a =? b
  | _, _ => false
  end.

Definition migrateConnection (connection : Connection) (w : World)
  : Result unit * World :=
  match encryptConnectionStep E key entropy connection w with
  | (Err e, w1) => (Err e, w1)
  | (Ok storedConnection, w1) =>
      let rows := map (fun r => if sameId (id r) (id storedConnection)
                                then storedConnection else r)
                      (connections w1) in
      (Ok (), logWrite (setConnections w1 rows (connections_id_seq w1))
                       (UpdateRow "_nango_connections" (id storedConnection)))
  end.

(** The body of the loop over [_nango_configs]. *)
Definition migrateProviderConfig (providerConfig : ProviderConfig) (w : World)
  : Result unit * World :=
  match encryptProviderConfig providerConfig w with
  | (Err e, w1) => (Err e, w1)
  | (Ok providerConfig, w1) =>
      let rows := map (fun r => if sameId (cfg_id r) (cfg_id providerConfig)
                                then providerConfig else r)
                      (configs w1) in
      (Ok (), logWrite (setConfigs w1 rows)
                       (UpdateRow "_nango_configs" (cfg_id providerConfig)))
  end.

(** The body of the loop over [_nango_environment_variables]. *)
Definition migrateEnvironmentVariable (environmentVariable : EnvironmentVariable)
    (w : World) : Result unit * World :=
  let '((encryptedValue, iv, authTag), w1) := encryptStep (value environmentVariable) w in
  let environmentVariable :=
    {| var_id := var_id environmentVariable; value := encryptedValue;
       value_iv := Some iv; value_tag := Some authTag |} in
  let rows := map (fun r => if var_id r =? var_id environmentVariable
                            then environmentVariable else r)
                  (environment_variables w1) in
  (Ok (), logWrite (setEnvironmentVariables w1 rows)
                   (UpdateRow "_nango_environment_variables"
                              (Some (var_id environmentVariable)))).

(** The transaction that [encryptAndSave] starts for one data record; a
      record that already has an [encryptedValue] is left alone. *)
Definition migrateDataRecord (dataRecord : DataRecord) (w : World)
  : Result unit * World :=
  match readProp (json dataRecord) "encryptedValue" with
  | Err e => (Err e, w)
  | Ok encryptedValue =>
      if truthy encryptedValue then (Ok (), w)
      else
        match stringArg (JSON_stringify (json dataRecord)) with
        | Err e => (Err e, w)
        | Ok text =>
            let '((encryptedValue, iv, authTag), w1) := encryptStep text w in
            let dataRecord :=
              {| rec_id := rec_id dataRecord;
                 json := JObject [("encryptedValue", JString encryptedValue);
                                  ("iv", JString iv); ("authTag", JString authTag)] |} in
            let rows := map (fun r => if rec_id r =? rec_id dataRecord
                                      then dataRecord else r)
                            (data_records w1) in
            (Ok (), logWrite (setDataRecords w1 rows)
                             (UpdateRow "_nango_sync_data_records"
                                        (Some (rec_id dataRecord))))
        end
  end.

(** [encryptAndSave(tableName, offset)]: one chunk of data records.  The
    transactions of a chunk are taken one after the other. *)
Definition encryptAndSave (offset : nat) (w : World) : Result bool * World :=
  let dataRecords := take chunkSize (drop offset (data_records w)) in
  match dataRecords with
  | [] => (Ok false, w)
  | _ =>
      match forEachRow (fun _ => false) migrateDataRecord dataRecords w with
      | (Ok _, w1) => (Ok true, w1)
      | (Err e, w1) => (Err e, w1)
      end
  end.

(** [while (await encryptAndSave(table, offset)) offset += chunkSize] *)
Fixpoint encryptChunks (fuel offset : nat) (w : World) : Result unit * World :=
  match fuel with
  | O => (Err (PlainError "encryptAllDataRecords: out of fuel"), w)
  | S fuel =>
      match encryptAndSave offset w with
      | (Ok true, w1) => encryptChunks fuel (offset + chunkSize) w1
      | (Ok false, w1) => (Ok (), w1)
      | (Err e, w1) => (Err e, w1)
      end
  end.

Definition encryptAllDataRecords (w : World) : Result unit * World :=
  encryptChunks (S (length (data_records w))) 0 w.

(** [saveDbConfig]: delete every row of [_nango_db_config], insert one. *)
Definition saveDbConfig (dbConfig : DBConfig) (w : World) : World :=
  logWrite (setDbConfig w (Some dbConfig)) (SaveDbConfig dbConfig).

(** [a; b] for two steps. *)
Definition andThen (a b : World -> Result unit * World) (w : World)
  : Result unit * World :=
  match a w with
  | (Ok _, w1) => b w1
  | (Err e, w1) => (Err e, w1)
  end.

Definition encryptDatabase (w : World) : Result unit * World :=
  andThen
    (fun w => forEachRow
       (fun environment => present (secret_key_iv environment)
                           && present (secret_key_tag environment))
       migrateEnvironment (environments w) w)
    (andThen
       (fun w => forEachRow
          (fun connection => present (credentials_iv connection)
                             && present (credentials_tag connection))
          migrateConnection (connections w) w)
       (andThen
          (fun w => forEachRow
             (fun providerConfig => present (oauth_client_secret_iv providerConfig)
                                    && present (oauth_client_secret_tag providerConfig))
             migrateProviderConfig (configs w) w)
          (andThen
             (fun w => forEachRow
                (fun environmentVariable => present (value_iv environmentVariable)
                                            && present (value_tag environmentVariable))
                migrateEnvironmentVariable (environment_variables w) w)
             encryptAllDataRecords)))
    w.

Definition encryptDatabaseIfNeeded (w : World) : Result unit * World :=
  let dbConfig := db_config w in
  let previousEncryptionKeyHash := dbConfig ≫= encryption_key_hash in
  let encryptionKeyHash :=
    if negb (String.eqb key "") then Some (hashEncryptionKey key keySalt) else None in
  let isEncryptionKeyNew :=
    bool_decide (dbConfig = None) && negb (String.eqb key "") in
  let isEncryptionIncomplete :=
    match dbConfig with
    | Some cfg => bool_decide (previousEncryptionKeyHash = encryptionKeyHash)
                  && negb (encryption_complete cfg)
    | None => false
    end in
  if isEncryptionKeyNew || isEncryptionIncomplete then
    let w1 :=
      if isEncryptionKeyNew
      then saveDbConfig {| encryption_key_hash := encryptionKeyHash;
                           encryption_complete := false |} w
      else w in
    match encryptDatabase w1 with
    | (Err e, w2) => (Err e, w2)
    | (Ok _, w2) =>
        (Ok (), saveDbConfig {| encryption_key_hash := encryptionKeyHash;
                                encryption_complete := true |} w2)
    end
  else
    let isEncryptionKeyChanged :=
      bool_decide (previousEncryptionKeyHash <> None)
      && negb (bool_decide (previousEncryptionKeyHash = encryptionKeyHash)) in
    if isEncryptionKeyChanged
    then (Err (PlainError "You cannot edit or remove the encryption key once it has been set."), w)
    else (Ok (), w).
End Migration.


(** *** Migration: the notions used in the statements *)

(** The ids of the connection rows that the logged writes updated. *)
Definition connectionUpdates (ws : list Write) : list (option Z) :=
  omap (fun q => match q with
                 | UpdateRow table row =>
                     if String.eqb table "_nango_connections" then Some row else None
                 | _ => None
                 end) ws.

(** A data record whose [json] column is an actual value. *)
Definition recordOk (r : DataRecord) : Prop := isNullish (json r) = false.

(** What the database guarantees of the rows it hands out: a JSON column is
    never undefined, and the [json] of a data record is not null. *)
Definition storable (w : World) : Prop :=
  Forall (fun c => credentials c <> JUndefined) (connections w) /\
  Forall recordOk (data_records w).

(** A step that leaves the connections table, the checkpoint and the log of
    connection updates as they are, and keeps the data records well-formed. *)
Definition Frame (w w' : World) : Prop :=
  connections w' = connections w /\
  connections_id_seq w' = connections_id_seq w /\
  db_config w' = db_config w /\
  connectionUpdates (writes w') = connectionUpdates (writes w) /\
  length (data_records w') = length (data_records w) /\
  (Forall recordOk (data_records w) -> Forall recordOk (data_records w')).

(** The connection row carries an IV and a tag, as the migration tests it. *)
Definition carriesIvTag (c : Connection) : bool :=
  present (credentials_iv c) && present (credentials_tag c).

(** How the migration leaves a connection row: as it was when it carries an
    IV and a tag, encrypted under some random draw otherwise. *)
Definition migratedRow (E : Encryption) (key : string) (r r' : Connection) : Prop :=
  if carriesIvTag r then r' = r
  else exists random, encryptConnection E key random r = Ok r'.

(** The steps of the connection loop change the connections table, the draws
    and the log only. *)
Definition OtherTablesKept (w w' : World) : Prop :=
  connections_id_seq w' = connections_id_seq w /\
  db_config w' = db_config w /\
  environments w' = environments w /\
  configs w' = configs w /\
  environment_variables w' = environment_variables w /\
  data_records w' = data_records w.













(** A step that only draws from the random source. *)
Definition onlyDraws (w w' : World) : Prop :=
  environments w' = environments w /\
  connections w' = connections w /\
  configs w' = configs w /\
  environment_variables w' = environment_variables w /\
  data_records w' = data_records w /\
  connections_id_seq w' = connections_id_seq w /\
  db_config w' = db_config w /\
  writes w' = writes w.

(** What a loop of the migration over one table leaves alone: the other
    tables, the id sequence and the checkpoint.  The table is named by its
    position in the order of the migration. *)
Definition tablesKept (table : nat) (w w' : World) : Prop :=
  (table = 0%nat \/ environments w' = environments w) /\
  (table = 1%nat \/ connections w' = connections w) /\
  (table = 2%nat \/ configs w' = configs w) /\
  (table = 3%nat \/ environment_variables w' = environment_variables w) /\
  (table = 4%nat \/ data_records w' = data_records w) /\
  connections_id_seq w' = connections_id_seq w /\
  db_config w' = db_config w.

Definition demoHash (key salt : string) : string := "pbkdf2(" +:+ key +:+ ")".


(** A database from before the key was set: two plaintext connections (one of
    them soft-deleted) and one connection that already carries an IV and a
    tag, with one row in each of the other tables. *)
Definition migrationWorld : World :=
  {| connections :=
       [ {| id := Some 1; connection_id := "c1"; provider_config_key := "gh";
            environment_id := 1; config_id := Some 7;
            credentials := JObject [("type", JMode ApiKey); ("apiKey", JString "k1")];
            credentials_iv := None; credentials_tag := None;
            connection_config := JObject []; metadata := JNull;
            deleted := false; updated_at := None |};
         {| id := Some 2; connection_id := "c2"; provider_config_key := "gh";
            environment_id := 1; config_id := Some 7;
            credentials := JObject [("encrypted_credentials", JString "zzz")];
            credentials_iv := Some "iv:old"; credentials_tag := Some "tag-old";
            connection_config := JObject []; metadata := JNull;
            deleted := false; updated_at := None |};
         {| id := Some 3; connection_id := "c3"; provider_config_key := "gh";
            environment_id := 1; config_id := Some 7;
            credentials := JObject [("type", JMode Basic); ("username", JString "u")];
            credentials_iv := None; credentials_tag := None;
            connection_config := JObject []; metadata := JNull;
            deleted := true; updated_at := None |} ];
     connections_id_seq := 4;
     environments :=
       [ {| env_id := 1; secret_key := "sk"; secret_key_iv := None; secret_key_tag := None;
            pending_secret_key := None; pending_secret_key_iv := None;
            pending_secret_key_tag := None |} ];
     configs :=
       [ {| cfg_id := Some 7; unique_key := "gh"; provider := "github";
            oauth_client_id := Some "id"; oauth_client_secret := Some "secret";
            oauth_client_secret_iv := None; oauth_client_secret_tag := None;
            oauth_scopes := Some "repo"; app_link := None; custom := JNull |} ];
     environment_variables :=
       [ {| var_id := 1; value := "v"; value_iv := None; value_tag := None |} ];
     data_records := [ {| rec_id := 1; json := JObject [("a", JNumber 1)] |} ];
     db_config := None; draws := 0; writes := [] |}.

(** ** Provider templates *)

Inductive TokenUrl : Type :=
  | SingleUrl (url : string)
  | UrlPerMode (urls : list (AuthModes * string)).

(** The provider template (models/Provider.ts): the static description of a
    provider.  [None] in an optional field is undefined. *)
Record Template : Type := {
  auth_mode : AuthModes;
  authorization_url : string;
  token_url : TokenUrl;
  authorization_params : option (gmap string (option string));
  token_params_grant_type : option (option string);
  disable_pkce : bool;
  scope_separator : option string;
  token_expiration_buffer : option Z;
  authorization_url_replacements : option (list (string * JsValue));
  token_request_auth_method : option string
}.

(** ** The refresh coordinator: ConnectionService.refreshCredentialsIfNeeded *)

(** [ServiceResponse<T>]: [{ success, error, response }]. *)
Record ServiceResponse (A : Type) : Type := {
  success : bool;
  error : option Error;
  response : option A
}.
Arguments success {A} _.
Arguments error {A} _.
Arguments response {A} _.

(** The branch of [getNewCredentials] that is taken; each makes one request
    to the provider. *)
Inductive RefreshPath : Type :=
  | ViaProviderClient      (* providerClientManager.refreshToken *)
  | ViaClientCredentials   (* getOauthClientCredentials *)
  | ViaAppStore            (* getAppStoreCredentials *)
  | ViaApp                 (* getAppCredentials *)
  | ViaRefreshToken.       (* getFreshOAuth2Credentials *)

(** The state shared by the callers of the refresh coordinator: the database,
    the connection objects in memory (a caller holds a reference to one), the
    lock keys that are held and the number of requests made to the provider
    so far. *)
Record System : Type := {
  db : World;
  heap : list Connection;
  locks : gset string;
  providerCalls : nat
}.

(** Where a caller of [refreshCredentialsIfNeeded] stands; control can pass
    to another caller at each [await]. *)
Inductive Pc : Type :=
  | AtStart
  | AtLock
  | InCritical
  | AtUpdate (newCredentials : JsValue)
  | AtRelease (result : ServiceResponse JsValue)
  | Returned (refreshed : bool) (result : ServiceResponse JsValue).

(** One call of [refreshCredentialsIfNeeded]: its arguments (the connection
    object by reference), the [connectionId] and [providerConfigKey] that it
    reads from the object on entry, and where it stands.  [decided] records
    what [shouldRefreshCredentials] returned, once it has been called. *)
Record Caller : Type := {
  connection : nat;
  connectionId : string;
  providerConfigKey : string;
  providerConfig : ProviderConfig;
  template : Template;
  call_environment_id : Z;
  instantRefresh : bool;
  decided : option bool;
  pc : Pc
}.

Definition atPc (c : Caller) (d : option bool) (p : Pc) : Caller :=
  {| connection := connection c; connectionId := connectionId c;
     providerConfigKey := providerConfigKey c; providerConfig := providerConfig c;
     template := template c; call_environment_id := call_environment_id c;
     instantRefresh := instantRefresh c; decided := d; pc := p |}.

Definition setDb (s : System) (w : World) : System :=
  {| db := w; heap := heap s; locks := locks s; providerCalls := providerCalls s |}.

Definition setHeap (s : System) (h : list Connection) : System :=
  {| db := db s; heap := h; locks := locks s; providerCalls := providerCalls s |}.

Definition setLocks (s : System) (l : gset string) : System :=
  {| db := db s; heap := heap s; locks := l; providerCalls := providerCalls s |}.

Definition countProviderCall (s : System) : System :=
  {| db := db s; heap := heap s; locks := locks s; providerCalls := S (providerCalls s) |}.

(** [String(n)] for an integer. *)
Definition showZ (n : Z) : string := renderNumber n.

Section Refresh.
Variable E : Encryption.
Variable key : string.
Variable entropy : nat -> string.
(** The clock and the helpers of the parser. *)
Variable Date_now : Z.
Variable parseTokenExpirationDate : JsValue -> JsValue.
Variable parseInt10 : JsValue -> option Z.
(** [isTokenExpired(expireDate, bufferInSeconds)] of utils.ts: the date is
    less than the buffer away from now. *)
Variable isTokenExpired : JsValue -> Z -> bool.
(** The provider client (clients/provider.client.ts). *)
Variable shouldIntrospectToken : string -> bool.
Variable introspectedTokenExpired : ProviderConfig -> Connection -> bool.
Variable shouldUseProviderClient : string -> bool.
(** The requests to the provider, by branch of [getNewCredentials]; the
    number is the count of requests made before this one.  The provider
    client returns the raw response or throws; the other helpers return a
    service response. *)
Variable refreshToken : nat -> Template -> ProviderConfig -> Connection -> Result JsValue.
Variable requestCredentials :
  RefreshPath -> nat -> Template -> ProviderConfig -> Connection -> ServiceResponse JsValue.

Definition shouldRefreshCredentials (connection : Connection) (credentials : JsValue)
    (providerConfig : ProviderConfig) (template : Template) (instantRefresh : bool) : bool :=
  let refreshCondition :=
    instantRefresh
    || (shouldIntrospectToken (provider providerConfig)
        && introspectedTokenExpired providerConfig connection) in
  let tokenExpirationCondition :=
    refreshCondition
    || (truthy (getProp credentials "expires_at")
        && isTokenExpired (getProp credentials "expires_at")
             (match token_expiration_buffer template with
              | Some b => if b =? 0 then 15 * 60 else b
              | None => 15 * 60
              end)) in
  if (bool_decide (auth_mode template = OAuth2) || hasType credentials OAuth2)
     && negb (String.eqb (provider providerConfig) "facebook")
  then truthy (getProp credentials "refresh_token") && tokenExpirationCondition
  else tokenExpirationCondition.

(** The demand for a refresh, before the refresh token is looked at: a forced
    refresh, a token that introspection reports as invalid, or an expiry
    within the buffer. *)
Definition refreshDemanded (object : Connection) (providerConfig : ProviderConfig)
    (template : Template) (instantRefresh : bool) : bool :=
  instantRefresh
  || (shouldIntrospectToken (provider providerConfig)
      && introspectedTokenExpired providerConfig object)
  || (truthy (getProp (credentials object) "expires_at")
      && isTokenExpired (getProp (credentials object) "expires_at")
           (match token_expiration_buffer template with
            | Some b => if b =? 0 then 15 * 60 else b
            | None => 15 * 60
            end)).

(** Which branch [getNewCredentials] takes. *)
Definition refreshPath (connection : Connection) (providerConfig : ProviderConfig)
    (template : Template) : RefreshPath :=
  if shouldUseProviderClient (provider providerConfig) then ViaProviderClient
  else if bool_decide (auth_mode template = OAuth2CC) then ViaClientCredentials
  else if bool_decide (auth_mode template = AppStore) then ViaAppStore
  else if bool_decide (auth_mode template = App)
          || (bool_decide (auth_mode template = Custom)
              && negb (hasType (credentials connection) OAuth2))
  then ViaApp
  else ViaRefreshToken.

(** [if (!success || !credentials) return { success, error, response: null }]
    and otherwise [{ success: true, error: null, response: credentials }]. *)
Definition checked (r : ServiceResponse JsValue) : ServiceResponse JsValue :=
  match response r with
  | Some credentials =>
      if success r && truthy credentials
      then {| success := true; error := None; response := Some credentials |}
      else {| success := success r; error := error r; response := None |}
  | None => {| success := success r; error := error r; response := None |}
  end.

(** [getNewCredentials], as the [calls]-th request to the provider. *)
Definition getNewCredentials (calls : nat) (connection : Connection)
    (providerConfig : ProviderConfig) (template : Template)
  : Result (ServiceResponse JsValue) :=
  match refreshPath connection providerConfig template with
  | ViaProviderClient =>
      rawCreds ← refreshToken calls template providerConfig connection;
      parsedCreds ← parseRawCredentials Date_now parseTokenExpirationDate parseInt10
                       rawCreds OAuth2;
      Ok {| success := true; error := None; response := Some parsedCreds |}
  | ViaRefreshToken =>
      let r := requestCredentials ViaRefreshToken calls template providerConfig connection in
      Ok {| success := success r; error := error r;
            response := if success r then response r else None |}
  | path =>
      Ok (checked (requestCredentials path calls template providerConfig connection))
  end.

(** [`lock:refresh:${environment_id}:${providerConfigKey}:${connectionId}`] *)
Definition lockKey (environment_id : Z) (providerConfigKey connectionId : string) : string :=
  "lock:refresh:" +:+ showZ environment_id +:+ ":" +:+ providerConfigKey
  +:+ ":" +:+ connectionId.

Definition withNewCredentials (c : Connection) (creds : JsValue) : Connection :=
  withCredentials c creds (credentials_iv c) (credentials_tag c).

(** [updateConnection(connection)]: the live rows with the natural key of the
    object are overwritten with the encrypted object. *)
Definition updateConnection (connection : Connection) (w : World) : Result unit * World :=
  match encryptConnectionStep E key entropy connection w with
  | (Err e, w1) => (Err e, w1)
  | (Ok stored, w1) =>
      let rows :=
        map (fun r => if liveWithKey (connection_id connection)
                           (provider_config_key connection)
                           (environment_id connection) r
                      then stored else r)
            (connections w1) in
      (Ok (), logWrite (setConnections w1 rows (connections_id_seq w1))
                       (UpdateRow "_nango_connections" (id stored)))
  end.

Definition refreshFailure : ServiceResponse JsValue :=
  {| success := false; error := Some (NangoError "refresh_token_external_error");
     response := None |}.

Definition callerLockKey (c : Caller) : string :=
  lockKey (call_environment_id c) (providerConfigKey c) (connectionId c).

(** Entering [refreshCredentialsIfNeeded] with a reference to a connection
    object. *)
Definition enter (connection : nat) (providerConfig : ProviderConfig)
    (template : Template) (environment_id : Z) (instantRefresh : bool) (s : System)
  : option Caller :=
  object ← heap s !! connection;
  Some {| connection := connection; connectionId := connection_id object;
          providerConfigKey := provider_config_key object;
          providerConfig := providerConfig; template := template;
          call_environment_id := environment_id; instantRefresh := instantRefresh;
          decided := None; pc := AtStart |}.

(** One step of a caller, up to its next [await]; [None] when the caller has
    returned, or waits in [tryAcquire] for a lock that another caller holds.

    Modelled from the spec: the lock of utils/lock/locking.ts (not part of
    the sources at hand) is a mutual-exclusion lock by key; [tryAcquire]
    takes the key when it is free and [release] frees the key, whoever took
    it.  This is the step of a caller while no time bound runs out: the TTL
    of the lock (10 s) and the acquisition timeout (12 s) are added by
    [timedStep] below. *)
Definition callerStep (c : Caller) (s : System) : option (Caller * System) :=
  match heap s !! connection c with
  | None => None
  | Some object =>
      match pc c with
      | AtStart =>
          let credentials := credentials object in
          let shouldRefresh :=
            shouldRefreshCredentials object credentials (providerConfig c)
              (template c) (instantRefresh c) in
          if shouldRefresh
          then Some (atPc c (Some true) AtLock, s)
          else Some (atPc c (Some false)
                       (Returned false {| success := true; error := None;
                                          response := Some credentials |}), s)
      | AtLock =>
          let k := callerLockKey c in
          if bool_decide (k ∈ locks s) then None
          else Some (atPc c (decided c) InCritical, setLocks s ({[k]} ∪ locks s))
      | InCritical =>
          let s1 := countProviderCall s in
          match getNewCredentials (providerCalls s) object (providerConfig c) (template c) with
          | Err e => Some (atPc c (decided c) (AtRelease refreshFailure), s1)
          | Ok r =>
              match response r with
              | Some newCredentials =>
                  if success r && truthy newCredentials
                  then Some (atPc c (decided c) (AtUpdate newCredentials), s1)
                  else Some (atPc c (decided c)
                               (AtRelease {| success := success r; error := error r;
                                             response := None |}), s1)
              | None =>
                  Some (atPc c (decided c)
                          (AtRelease {| success := success r; error := error r;
                                        response := None |}), s1)
              end
          end
      | AtUpdate newCredentials =>
          let object := withNewCredentials object newCredentials in
          let s1 := setHeap s (<[connection c := object]> (heap s)) in
          match updateConnection object (db s1) with
          | (Err e, w) => Some (atPc c (decided c) (AtRelease refreshFailure), setDb s1 w)
          | (Ok _, w) =>
              Some (atPc c (decided c)
                      (AtRelease {| success := true; error := None;
                                    response := Some newCredentials |}),
                    setDb s1 w)
          end
      | AtRelease result =>
          let k := callerLockKey c in
          Some (atPc c (decided c) (Returned true result), setLocks s (locks s ∖ {[k]}))
      | Returned _ _ => None
      end
  end.

(** A caller run on its own until it returns or has to wait. *)
Fixpoint runCaller (fuel : nat) (c : Caller) (s : System) : Caller * System :=
  match fuel with
  | O => (c, s)
  | S fuel =>
      match callerStep c s with
      | Some (c1, s1) => runCaller fuel c1 s1
      | None => (c, s)
      end
  end.

(** [refreshCredentialsIfNeeded] called on the object at [connection], with
    no other caller around: the response, or [None] when the call waits for a
    lock that is held (or the reference is dangling). *)
Definition refreshCredentialsIfNeeded (connection : nat) (providerConfig : ProviderConfig)
    (template : Template) (environment_id : Z) (instantRefresh : bool) (s : System)
  : option (ServiceResponse JsValue) * System :=
  match enter connection providerConfig template environment_id instantRefresh s with
  | Some c =>
      let '(c1, s1) := runCaller 5 c s in
      match pc c1 with
      | Returned _ result => (Some result, s1)
      | _ => (None, s1)
      end
  | None => (None, s)
  end.

(** Concurrent callers: any caller that can take a step may take it. *)
Inductive step : list Caller * System -> list Caller * System -> Prop :=
  | step_caller (cs : list Caller) (s : System) (i : nat) (c c1 : Caller) (s1 : System) :
      cs !! i = Some c ->
      callerStep c s = Some (c1, s1) ->
      step (cs, s) (<[i := c1]> cs, s1).

Inductive steps : list Caller * System -> list Caller * System -> Prop :=
  | steps_refl (st : list Caller * System) : steps st st
  | steps_step (st1 st2 st3 : list Caller * System) :
      steps st1 st2 -> step st2 st3 -> steps st1 st3.

(** Modelled from the spec: the lock of utils/lock/locking.ts in real time
    (the file is not part of the sources at hand): a mutual-exclusion lock by
    key with a short TTL and an acquisition timeout greater than the TTL.
    [tryAcquire(lockKey, ttlInMs, acquitistionTimeoutMs)] is called with a
    TTL of 10 s and a timeout of 12 s.  A key that is held becomes free when
    its TTL has run out, released or not ([timed_expiry]).  A caller that has
    waited for the length of the timeout is thrown out of [tryAcquire]: the
    [catch] of [refreshCredentialsIfNeeded] answers
    [refresh_token_external_error] and its [finally] releases the key, by
    key, though another caller holds it ([timed_timeout]).  Durations are not
    measured: either event may happen at any moment, which covers every
    timing of the concurrent calls. *)
Inductive timedStep : list Caller * System -> list Caller * System -> Prop :=
  | timed_caller (cs : list Caller) (s : System) (i : nat) (c c1 : Caller) (s1 : System) :
      cs !! i = Some c ->
      callerStep c s = Some (c1, s1) ->
      timedStep (cs, s) (<[i := c1]> cs, s1)
  | timed_expiry (cs : list Caller) (s : System) (k : string) :
      k ∈ locks s ->
      timedStep (cs, s) (cs, setLocks s (locks s ∖ {[k]}))
  | timed_timeout (cs : list Caller) (s : System) (i : nat) (c : Caller) :
      cs !! i = Some c ->
      pc c = AtLock ->
      callerLockKey c ∈ locks s ->
      timedStep (cs, s)
        (<[i := atPc c (decided c) (Returned false refreshFailure)]> cs,
         setLocks s (locks s ∖ {[callerLockKey c]})).

Inductive timedSteps : list Caller * System -> list Caller * System -> Prop :=
  | timedSteps_refl (st : list Caller * System) : timedSteps st st
  | timedSteps_step (st1 st2 st3 : list Caller * System) :
      timedSteps st1 st2 -> timedStep st2 st3 -> timedSteps st1 st3.

(** Run the callers in the order of a schedule of caller indices; a caller
    that cannot step is skipped. *)
Fixpoint runSchedule (schedule : list nat) (cs : list Caller) (s : System)
  : list Caller * System :=
  match schedule with
  | [] => (cs, s)
  | i :: rest =>
      match cs !! i with
      | Some c =>
          match callerStep c s with
          | Some (c1, s1) => runSchedule rest (<[i := c1]> cs) s1
          | None => runSchedule rest cs s
          end
      | None => runSchedule rest cs s
      end
  end.
End Refresh.


(** *** Refresh: the notions used in the statements *)

(** The caller is between the acquisition of the lock and its release. *)
Definition inCritical (p : Pc) : bool :=
  match p with
  | InCritical | AtUpdate _ | AtRelease _ => true
  | _ => false
  end.

(** The number of requests to the provider that a caller has made: one, once
    it is past [getNewCredentials]. *)
Definition called (p : Pc) : nat :=
  match p with
  | AtUpdate _ | AtRelease _ | Returned true _ => 1
  | _ => 0
  end.

Definition isReturned (p : Pc) : bool :=
  match p with
  | Returned _ _ => true
  | _ => false
  end.

(** What [decided] must be at each point of a call. *)
Definition decidedAt (c : Caller) : Prop :=
  match pc c with
  | AtStart => decided c = None
  | Returned false _ => decided c = Some false
  | _ => decided c = Some true
  end.

Definition callsMade (cs : list Caller) : nat := list_sum (map (fun c => called (pc c)) cs).


(** No two callers with the same lock key are in the critical section, and a
    caller in it holds its key. *)
Definition mutualExclusion (cs : list Caller) (s : System) : Prop :=
  (forall i c, cs !! i = Some c -> inCritical (pc c) = true -> callerLockKey c ∈ locks s) /\
  (forall i j ci cj, cs !! i = Some ci -> cs !! j = Some cj ->
     inCritical (pc ci) = true -> inCritical (pc cj) = true ->
     callerLockKey ci = callerLockKey cj -> i = j).

(** The invariant of the concurrent system; [base] is the number of requests
    made to the provider before the callers started. *)
Definition invariant (base : nat) (st : list Caller * System) : Prop :=
  mutualExclusion st.1 st.2 /\
  providerCalls st.2 = (base + callsMade st.1)%nat /\
  Forall decidedAt st.1.


(** *** A stub provider and two callers *)

Definition demoNow : Z := 1700000000000.

Definition demoIsTokenExpired (expireDate : JsValue) (bufferInSeconds : Z) : bool :=
  match expireDate with
  | JDate (Some ms) => ms - demoNow <? bufferInSeconds * 1000
  | _ => false
  end.

(** A provider that answers every refresh with a token valid for a day. *)
Definition stubProvider (path : RefreshPath) (calls : nat) (t : Template)
    (cfg : ProviderConfig) (c : Connection) : ServiceResponse JsValue :=
  {| success := true; error := None;
     response := Some (JObject [ ("type", JMode OAuth2);
                                 ("access_token", JString ("fresh" +:+ fixedWidth 1 (Z.of_nat calls)));
                                 ("refresh_token", JString "rt");
                                 ("expires_at", JDate (Some (demoNow + 86400000))) ]) |}.

Definition stubRefreshToken (calls : nat) (t : Template) (cfg : ProviderConfig)
    (c : Connection) : Result JsValue :=
  Err (PlainError "no provider client").

Definition githubConfig : ProviderConfig :=
  {| cfg_id := Some 7; unique_key := "gh"; provider := "github";
     oauth_client_id := Some "id"; oauth_client_secret := Some "secret";
     oauth_client_secret_iv := None; oauth_client_secret_tag := None;
     oauth_scopes := Some "repo,user"; app_link := None; custom := JNull |}.

Definition githubTemplate : Template :=
  {| auth_mode := OAuth2;
     authorization_url := "https://github.com/login/oauth/authorize";
     token_url := SingleUrl "https://github.com/login/oauth/access_token";
     authorization_params := None; token_params_grant_type := None;
     disable_pkce := false; scope_separator := None;
     token_expiration_buffer := None; authorization_url_replacements := None;
     token_request_auth_method := None |}.

(** A stored OAuth2 connection whose access token expired long ago. *)
Definition expiredConnection (refresh_token : JsValue) : Connection :=
  {| id := Some 1; connection_id := "c1"; provider_config_key := "gh";
     environment_id := 1; config_id := Some 7;
     credentials := JObject [ ("type", JMode OAuth2); ("access_token", JString "stale");
                              ("refresh_token", refresh_token);
                              ("expires_at", JDate (Some 1600000000000)) ];
     credentials_iv := None; credentials_tag := None;
     connection_config := JObject []; metadata := JNull;
     deleted := false; updated_at := None |}.

Definition expiredSystem (refresh_token : JsValue) : System :=
  {| db := {| connections := [expiredConnection refresh_token]; connections_id_seq := 2;
              environments := []; configs := [githubConfig]; environment_variables := [];
              data_records := []; db_config := None; draws := 0; writes := [] |};
     heap := [expiredConnection refresh_token];
     locks := ∅;
     providerCalls := 0 |}.

Definition demoCaller : Caller :=
  {| connection := 0; connectionId := "c1"; providerConfigKey := "gh";
     providerConfig := githubConfig; template := githubTemplate;
     call_environment_id := 1; instantRefresh := false;
     decided := None; pc := AtStart |}.

Definition demoRunSchedule :=
  runSchedule demoCipher "" demoEntropy demoNow demoParseDate demoParseInt
    demoIsTokenExpired (fun _ => false) (fun _ _ => false) (fun _ => false)
    stubRefreshToken stubProvider.

Definition demoSteps :=
  steps demoCipher "" demoEntropy demoNow demoParseDate demoParseInt
    demoIsTokenExpired (fun _ => false) (fun _ _ => false) (fun _ => false)
    stubRefreshToken stubProvider.

Definition demoTimedSteps :=
  timedSteps demoCipher "" demoEntropy demoNow demoParseDate demoParseInt
    demoIsTokenExpired (fun _ => false) (fun _ _ => false) (fun _ => false)
    stubRefreshToken stubProvider.

Definition demoRefresh :=
  refreshCredentialsIfNeeded demoCipher "" demoEntropy demoNow demoParseDate demoParseInt
    demoIsTokenExpired (fun _ => false) (fun _ _ => false) (fun _ => false)
    stubRefreshToken stubProvider.


(** Both callers enter and decide; then the first takes the lock, refreshes,
    stores and releases; then the second does the same. *)
Definition twoCallersSchedule : list nat := [0; 1; 0; 0; 0; 0; 1; 1; 1; 1]%nat.

Definition twoCallersStart : list Caller * System :=
  ([demoCaller; demoCaller], expiredSystem (JString "rt0")).


Definition twoCallersEnd : list Caller * System :=
  demoRunSchedule twoCallersSchedule twoCallersStart.1 twoCallersStart.2.

(** ** Hashing and encodings used for PKCE (node:crypto)

    [crypto.createHash('sha256').update(text).digest('base64')] is SHA-256
    (FIPS 180-4) over the bytes of the text, written in base64 with padding;
    [crypto.randomBytes(n).toString('hex')] is lower-case hexadecimal.  Bytes
    and 32-bit words are integers; additions wrap around at 2^32. *)

Definition bytesOfString (s : string) : list Z :=
  map (fun c => Z.of_N (N_of_ascii c)) (list_ascii_of_string s).

Definition add32 (a b : Z) : Z := (a + b) mod 4294967296.

Definition rotr (n x : Z) : Z :=
  Z.lor (Z.shiftr x n) (Z.shiftl x (32 - n) mod 4294967296).

Definition not32 (x : Z) : Z := Z.lxor x 4294967295.

Definition Ch (x y z : Z) : Z := Z.lxor (Z.land x y) (Z.land (not32 x) z).
Definition Maj (x y z : Z) : Z :=
  Z.lxor (Z.lxor (Z.land x y) (Z.land x z)) (Z.land y z).
Definition bigSigma0 (x : Z) : Z := Z.lxor (Z.lxor (rotr 2 x) (rotr 13 x)) (rotr 22 x).
Definition bigSigma1 (x : Z) : Z := Z.lxor (Z.lxor (rotr 6 x) (rotr 11 x)) (rotr 25 x).
Definition smallSigma0 (x : Z) : Z := Z.lxor (Z.lxor (rotr 7 x) (rotr 18 x)) (Z.shiftr x 3).
Definition smallSigma1 (x : Z) : Z := Z.lxor (Z.lxor (rotr 17 x) (rotr 19 x)) (Z.shiftr x 10).

(** The constants of the hash function, as the standard defines them: the
    first 32 bits of the fractional parts of the cube roots (for the round
    constants) and of the square roots (for the initial hash value) of the
    first prime numbers. *)
Definition isPrime (n : nat) : bool :=
  (1 <? n)%nat && forallb (fun d => negb (n mod d =? 0)%nat) (seq 2 (n - 2)).

Definition firstPrimes (count : nat) : list Z :=
  map Z.of_nat (take count (filter (fun n => isPrime n) (seq 2 400))).

(** The integer cube root of [n], found bit by bit from bit [bits - 1] down;
    [r] is the root found so far. *)
Fixpoint cubeRoot (bits : nat) (r : Z) (n : Z) : Z :=
  match bits with
  | O => r
  | S bits' =>
      let r' := r + 2 ^ Z.of_nat bits' in
      cubeRoot bits' (if r' * r' * r' <=? n then r' else r) n
  end.

Definition sha256K : list Z :=
  Eval vm_compute in
    map (fun p => cubeRoot 40 0 (p * 2 ^ 96) mod 2 ^ 32) (firstPrimes 64).

Definition sha256H0 : list Z :=
  Eval vm_compute in
    map (fun p => Z.sqrt (p * 2 ^ 64) mod 2 ^ 32) (firstPrimes 8).

(** The message followed by the bit 1, zeros, and its length in bits on 64
    bits, a multiple of 64 bytes in all. *)
Definition sha256Pad (msg : list Z) : list Z :=
  let len := Z.of_nat (length msg) in
  let zeros := Z.to_nat ((55 - len) mod 64) in
  let bits := len * 8 in
  (msg ++ [128] ++ repeat 0 zeros
   ++ map (fun i => Z.shiftr bits (8 * (7 - Z.of_nat i)) mod 256) (seq 0 8))%list.

(** Big-endian 32-bit words of a list of bytes. *)
Fixpoint wordsOfBytes (bytes : list Z) : list Z :=
  match bytes with
  | a :: b :: c :: d :: rest =>
      (a * 16777216 + b * 65536 + c * 256 + d) :: wordsOfBytes rest
  | _ => []
  end.

Definition bytesOfWord (w : Z) : list Z :=
  [ Z.shiftr w 24 mod 256; Z.shiftr w 16 mod 256; Z.shiftr w 8 mod 256; w mod 256 ].

(** The message schedule: [n] more words after the ones of the block. *)
Fixpoint sha256Schedule (n : nat) (w : list Z) : list Z :=
  match n with
  | O => w
  | S n =>
      let t := length w in
      let at_ (k : nat) := nth (t - k) w 0 in
      sha256Schedule n
        (w ++ [add32 (add32 (smallSigma1 (at_ 2%nat)) (at_ 7%nat))
                     (add32 (smallSigma0 (at_ 15%nat)) (at_ 16%nat))])%list
  end.

Definition sha256Round (st : list Z) (kw : Z * Z) : list Z :=
  match st with
  | [a; b; c; d; e; f; g; h] =>
      let t1 := add32 (add32 (add32 h (bigSigma1 e)) (add32 (Ch e f g) kw.1)) kw.2 in
      let t2 := add32 (bigSigma0 a) (Maj a b c) in
      [add32 t1 t2; a; b; c; add32 d t1; e; f; g]
  | _ => st
  end.

Definition sha256Block (h : list Z) (block : list Z) : list Z :=
  let w := sha256Schedule 48 block in
  let st := fold_left sha256Round (combine sha256K w) h in
  map (fun p => add32 p.1 p.2) (combine h st).

(** The 16-word blocks of a list of words. *)
Fixpoint blocksOf (fuel : nat) (words : list Z) : list (list Z) :=
  match fuel with
  | O => []
  | S fuel =>
      match words with
      | [] => []
      | _ => take 16 words :: blocksOf fuel (drop 16 words)
      end
  end.

(** The SHA-256 digest, 32 bytes. *)
Definition sha256 (msg : list Z) : list Z :=
  let words := wordsOfBytes (sha256Pad msg) in
  let h := fold_left sha256Block (blocksOf (length words) words) sha256H0 in
  concat (map bytesOfWord h).

Definition hexDigit (n : Z) : ascii :=
  if n <? 10 then ascii_of_N (Z.to_N (48 + n)) else ascii_of_N (Z.to_N (87 + n)).

(** [Buffer.toString('hex')] *)
Fixpoint hexOfBytes (bytes : list Z) : string :=
  match bytes with
  | [] => ""
  | b :: rest => String (hexDigit (b / 16)) (String (hexDigit (b mod 16)) (hexOfBytes rest))
  end.

Definition base64Alphabet : string :=
  "ABCDEFGHIJKLMNOPQRSTUVWXYZabcdefghijklmnopqrstuvwxyz0123456789+/".

Definition base64urlAlphabet : string :=
  "ABCDEFGHIJKLMNOPQRSTUVWXYZabcdefghijklmnopqrstuvwxyz0123456789-_".

Definition sextet (alphabet : string) (n : Z) : ascii :=
  default "="%char (String.get (Z.to_nat (n mod 64)) alphabet).

(** Base64 over an alphabet, three bytes to four characters, the last group
    padded with [=] when [padding] is set. *)
Fixpoint encode64 (alphabet : string) (padding : bool) (bytes : list Z) : string :=
  match bytes with
  | [] => ""
  | [a] =>
      String (sextet alphabet (a / 4))
        (String (sextet alphabet (a mod 4 * 16))
           (if padding then "==" else ""))
  | [a; b] =>
      String (sextet alphabet (a / 4))
        (String (sextet alphabet (a mod 4 * 16 + b / 16))
           (String (sextet alphabet (b mod 16 * 4))
              (if padding then "=" else "")))
  | a :: b :: c :: rest =>
      String (sextet alphabet (a / 4))
        (String (sextet alphabet (a mod 4 * 16 + b / 16))
           (String (sextet alphabet (b mod 16 * 4 + c / 64))
              (String (sextet alphabet (c mod 64))
                 (encode64 alphabet padding rest))))
  end.

(** [digest('base64')] of a list of bytes. *)
Definition base64 (bytes : list Z) : string := encode64 base64Alphabet true bytes.

(** In the words of the specification: base64url, no padding. *)
Definition base64urlNoPadding (bytes : list Z) : string :=
  encode64 base64urlAlphabet false bytes.

(** [s.replace(/c/g, d)] for a single character [c]. *)
Fixpoint replaceAll (c d : ascii) (s : string) : string :=
  match s with
  | EmptyString => EmptyString
  | String x rest => String (if Ascii.eqb x c then d else x) (replaceAll c d rest)
  end.

(** [s.replace(/=+$/, '')]: the trailing run of [=] is removed. *)
Fixpoint stripPadding (s : string) : string :=
  match s with
  | EmptyString => EmptyString
  | String x rest =>
      match stripPadding rest with
      | EmptyString => if Ascii.eqb x "=" then EmptyString else String x EmptyString
      | rest' => String x rest'
      end
  end.

(** The code challenge as [oauth2Request] computes it from the verifier. *)
Definition codeChallenge (codeVerifier : string) : string :=
  stripPadding
    (replaceAll "/" "_"
       (replaceAll "+" "-" (base64 (sha256 (bytesOfString codeVerifier))))).

(** What the two replacements do to one character. *)
Definition urlSafe (x : ascii) : ascii :=
  let y := if Ascii.eqb x "+" then "-"%char else x in
  if Ascii.eqb y "/" then "_"%char else y.

(** ** The OAuth controller: sessions, authorization requests and callbacks *)

(** [OAuthSession]: the correlation state of one authorization attempt. *)
Record OAuthSession : Type := {
  session_providerConfigKey : string;
  session_provider : string;
  session_connectionId : string;
  session_callbackUrl : string;
  session_authMode : AuthModes;
  session_codeVerifier : string;
  session_id : string;
  session_connectionConfig : gmap string string;
  session_environmentId : Z;
  session_webSocketClientId : option string;
  session_requestTokenSecret : option string
}.

Definition withConnectionConfig (s : OAuthSession) (cfg : gmap string string) : OAuthSession :=
  {| session_providerConfigKey := session_providerConfigKey s;
     session_provider := session_provider s;
     session_connectionId := session_connectionId s;
     session_callbackUrl := session_callbackUrl s;
     session_authMode := session_authMode s;
     session_codeVerifier := session_codeVerifier s;
     session_id := session_id s;
     session_connectionConfig := cfg;
     session_environmentId := session_environmentId s;
     session_webSocketClientId := session_webSocketClientId s;
     session_requestTokenSecret := session_requestTokenSecret s |}.

Definition withRequestTokenSecret (s : OAuthSession) (secret : string) : OAuthSession :=
  {| session_providerConfigKey := session_providerConfigKey s;
     session_provider := session_provider s;
     session_connectionId := session_connectionId s;
     session_callbackUrl := session_callbackUrl s;
     session_authMode := session_authMode s;
     session_codeVerifier := session_codeVerifier s;
     session_id := session_id s;
     session_connectionConfig := session_connectionConfig s;
     session_environmentId := session_environmentId s;
     session_webSocketClientId := session_webSocketClientId s;
     session_requestTokenSecret := Some secret |}.

(** Modelled from the spec: the session store (services/oauth-session.service.ts
    is not part of the sources at hand).  [create] persists a session under
    its id and fails when the id is taken, [findById] returns the session or
    nothing, [delete] removes it and is idempotent. *)
Definition createSession (session : OAuthSession) (store : gmap string OAuthSession)
  : Result (gmap string OAuthSession) :=
  match store !! session_id session with
  | Some _ => Err (PlainError "DuplicateSession")
  | None => Ok (<[session_id session := session]> store)
  end.

Definition findSessionById (id : string) (store : gmap string OAuthSession)
  : option OAuthSession := store !! id.

Definition deleteSession (id : string) (store : gmap string OAuthSession)
  : gmap string OAuthSession := delete id store.

(** The errors of utils/web-socket-error.ts that the two handlers report. *)
Inductive WSErr : Type :=
  | MissingConnectionId
  | MissingProviderConfigKey
  | MissingHmac
  | InvalidHmac
  | UnknownProviderConfigKey (providerConfigKey : string)
  | UnknownProviderTemplate (provider : string)
  | InvalidProviderConfig (providerConfigKey : string)
  | UnknownAuthMode (authMode : AuthModes)
  | InvalidConnectionConfig (url : string)
  | UnknownGrantType (grantType : string)
  | TokenError
  | UnknownError.

(** How the controller answers: [publisher.notifyErr] or
    [publisher.notifySuccess] with the channel of the waiting client,
    [res.redirect], or a promise that rejects. *)
Inductive Response : Type :=
  | NotifyErr (wsClientId : option string) (error : WSErr)
  | NotifySuccess (wsClientId : option string) (providerConfigKey connectionId : string)
  | Redirect (url : string)
  | Rejected (e : Error).

(** The request that [oauthRequest] handles, with its query
    parameters as [getConnectionConfig] and [getAdditionalAuthorizationParams]
    hand them over ([None]: the parameter is not there; a [None] value inside
    [authorization_params]: the value undefined). *)
Record AuthorizeRequest : Type := {
  req_providerConfigKey : option string;
  req_connection_id : option string;
  req_ws_client_id : option string;
  req_user_scope : option string;
  req_hmac : option string;
  req_params : option (gmap string string);
  req_authorization_params : option (gmap string (option string));
  req_credentials : option (gmap string (option string))
}.

(** What [oAuth1Client.getOAuthRequestToken] resolves to. *)
Record OAuth1RequestTokenResult : Type := {
  request_token : string;
  request_token_secret : string
}.

(** [s.split(',').join(separator)] *)
Fixpoint joinScopes (separator : string) (s : string) : string :=
  match s with
  | EmptyString => EmptyString
  | String c rest =>
      if Ascii.eqb c "," then separator +:+ joinScopes separator rest
      else String c (joinScopes separator rest)
  end.

(** [s.replace(pattern, replacement)] for a string pattern: the first
    occurrence only. *)
Fixpoint replaceFirst (pattern replacement : string) (s : string) : string :=
  match stripPrefix pattern s with
  | Some rest => replacement +:+ rest
  | None =>
      match s with
      | EmptyString => EmptyString
      | String c rest => String c (replaceFirst pattern replacement rest)
      end
  end.

(** A value is there and truthy. *)
Definition given (s : option string) : option string :=
  match s with
  | Some v => if String.eqb v "" then None else Some v
  | None => None
  end.

(** The properties whose value is not undefined. *)
Definition defined (m : gmap string (option string)) : gmap string string :=
  omap (M := gmap string) (fun v => v) m.

Definition withOAuthClient (config : ProviderConfig) (clientId clientSecret scopes : option string)
  : ProviderConfig :=
  {| cfg_id := cfg_id config; unique_key := unique_key config; provider := provider config;
     oauth_client_id := clientId; oauth_client_secret := clientSecret;
     oauth_client_secret_iv := oauth_client_secret_iv config;
     oauth_client_secret_tag := oauth_client_secret_tag config;
     oauth_scopes := scopes; app_link := app_link config; custom := custom config |}.

(** The provider configuration after the overrides of the request: a truthy
    [oauth_client_id_override] or [oauth_client_secret_override] among the
    [credentials], a truthy [oauth_scopes_override] among the [params]. *)
Definition applyOverrides (config : ProviderConfig)
    (overrideCredentials : gmap string (option string))
    (connectionConfig : gmap string string) : ProviderConfig :=
  withOAuthClient config
    (match given (overrideCredentials !! "oauth_client_id_override" ≫= fun v => v) with
     | Some v => Some v
     | None => oauth_client_id config
     end)
    (match given (overrideCredentials !! "oauth_client_secret_override" ≫= fun v => v) with
     | Some v => Some v
     | None => oauth_client_secret config
     end)
    (match given (connectionConfig !! "oauth_scopes_override") with
     | Some v => Some v
     | None => oauth_scopes config
     end).

(** The request that [oauthCallback] handles, with the query parameters and the
    header that [oauthCallback] reads; the protocol handlers read the rest of
    the query. *)
Record CallbackRequest : Type := {
  cb_state : option string;
  cb_installation_id : option string;
  cb_setup_action : option string;
  cb_referer : option string;
  cb_query : gmap string string
}.

(** What a callback ends with: an answer to the browser, or only an error
    report and no answer. *)
Inductive CallbackOutcome : Type :=
  | Answered (response : Response)
  | Reported (errorMessage : string).

Section Controller.
(** The collaborators of the controller. *)
Variable getOauthCallbackUrl : Z -> string.
Variable hmacEnabled : Z -> bool.
Variable hmacVerify : string -> Z -> string -> string -> bool.
Variable getProviderConfig : string -> Z -> option ProviderConfig.
(** [configService.getTemplate]; [None] when it throws. *)
Variable getTemplate : string -> option Template.
Variable missesInterpolationParam : string -> gmap string string -> bool.
Variable interpolateStringFromObject : string -> gmap string string -> string.
(** [new simpleOauth2.AuthorizationCode(config).authorizeURL(params)], which
    validates the client configuration and may throw. *)
Variable authorizeURL :
  ProviderConfig -> Template -> gmap string string -> gmap string string -> Result string.
(** The protocol handlers of the callback, [oauth2Callback] and
    [oauth1Callback]: they exchange the code or the verifier for credentials
    at the provider and upsert the connection.  [Backend] is everything they
    can touch: the provider and the database. *)
Variable Backend : Type.
Variable oauth2Callback oauth1Callback :
  Template -> option ProviderConfig -> OAuthSession -> CallbackRequest -> Backend ->
  Response * Backend.
(** The OAuth 1.0a client. *)
Variable getOAuthRequestToken :
  ProviderConfig -> Template -> string -> Result OAuth1RequestTokenResult.
Variable getAuthorizationURL : ProviderConfig -> Template -> OAuth1RequestTokenResult -> string.

Definition tokenUrlFor (t : Template) (m : AuthModes) : string :=
  match token_url t with
  | SingleUrl url => url
  | UrlPerMode urls =>
      default "" (snd <$> head (filter (fun p => bool_decide (p.1 = m)) urls))
  end.

(** The authorization parameters that [oauth2Request] hands to
    [authorizeURL], after those of the request have been merged in and the
    undefined ones removed. *)
Definition allAuthParams (template : Template) (providerConfig : ProviderConfig)
    (session : OAuthSession) (authorizationParams : gmap string (option string))
    (userScope : option string) : gmap string string :=
  let allAuthParams := default ∅ (authorization_params template) in
  let allAuthParams :=
    if negb (disable_pkce template)
    then <["code_challenge_method" := Some "S256"]>
           (<["code_challenge" := Some (codeChallenge (session_codeVerifier session))]>
              allAuthParams)
    else allAuthParams in
  let allAuthParams :=
    match given userScope with
    | Some scope =>
        if String.eqb (provider providerConfig) "slack"
        then <["user_scope" := Some scope]> allAuthParams
        else allAuthParams
    | None => allAuthParams
    end in
  let allAuthParams := authorizationParams ∪ allAuthParams in
  defined allAuthParams.

(** The parameters of the authorization URL:
    [{ redirect_uri, scope, state, ...allAuthParams }]. *)
Definition authorizeParams (template : Template) (providerConfig : ProviderConfig)
    (session : OAuthSession) (callbackUrl : string) (params : gmap string string)
  : gmap string string :=
  params ∪
  <["redirect_uri" := callbackUrl]>
    (<["scope" := match given (oauth_scopes providerConfig) with
                  | Some scopes =>
                      joinScopes (default " " (given (scope_separator template))) scopes
                  | None => ""
                  end]>
       (<["state" := session_id session]> ∅)).

Definition applyReplacements (template : Template) (authorizationUri : string) : string :=
  match authorization_url_replacements template with
  | Some urlReplacements =>
      fold_left (fun uri kv =>
                   match kv.2 with
                   | JString replacement => replaceFirst kv.1 replacement uri
                   | _ => uri
                   end)
                urlReplacements authorizationUri
  | None => authorizationUri
  end.

(** The part of [oauth2Request] that runs once the grant type is accepted.
    The assignments to [allAuthParams] also write into the object that the
    template holds under [authorization_params] when it has one; both PKCE
    keys are written again by every request that reads them. *)
Definition authorizationCodeRequest (template : Template) (providerConfig : ProviderConfig)
    (session : OAuthSession) (connectionConfig : gmap string string)
    (authorizationParams : gmap string (option string)) (callbackUrl : string)
    (userScope : option string) (store : gmap string OAuthSession)
  : Response * gmap string OAuthSession :=
  let channel := session_webSocketClientId session in
  let params := allAuthParams template providerConfig session authorizationParams userScope in
  match createSession session store with
  | Err e => (NotifyErr channel UnknownError, store)
  | Ok store1 =>
      match authorizeURL providerConfig template connectionConfig
              (authorizeParams template providerConfig session callbackUrl params) with
      | Err e => (NotifyErr channel UnknownError, store1)
      | Ok authorizationUri => (Redirect (applyReplacements template authorizationUri), store1)
      end
  end.

Definition oauth2Request (template : Template) (providerConfig : ProviderConfig)
    (session : OAuthSession) (connectionConfig : gmap string string)
    (authorizationParams : gmap string (option string)) (callbackUrl : string)
    (userScope : option string) (store : gmap string OAuthSession)
  : Response * gmap string OAuthSession :=
  let channel := session_webSocketClientId session in
  let tokenUrl := tokenUrlFor template OAuth2 in
  if missesInterpolationParam (authorization_url template) connectionConfig
  then (NotifyErr channel (InvalidConnectionConfig (authorization_url template)), store)
  else if missesInterpolationParam tokenUrl connectionConfig
  then (NotifyErr channel (InvalidConnectionConfig tokenUrl), store)
  else
    match token_params_grant_type template with
    | Some (Some grantType) =>
        if String.eqb grantType "authorization_code"
        then authorizationCodeRequest template providerConfig session connectionConfig
               authorizationParams callbackUrl userScope store
        else (NotifyErr channel (UnknownGrantType grantType), store)
    | _ => authorizationCodeRequest template providerConfig session connectionConfig
             authorizationParams callbackUrl userScope store
    end.

Definition appRequest (template : Template) (providerConfig : ProviderConfig)
    (session : OAuthSession) (authorizationParams : gmap string (option string))
    (store : gmap string OAuthSession) : Response * gmap string OAuthSession :=
  let channel := session_webSocketClientId session in
  let connectionConfig :=
    defined (<["appPublicLink" := app_link providerConfig]> authorizationParams) in
  let session := withConnectionConfig session connectionConfig in
  if missesInterpolationParam (authorization_url template) connectionConfig
  then (NotifyErr channel (InvalidConnectionConfig (authorization_url template)), store)
  else
    match createSession session store with
    | Err e => (NotifyErr channel UnknownError, store)
    | Ok store1 =>
        let appUrl := interpolateStringFromObject (authorization_url template) connectionConfig in
        (Redirect (appUrl +:+ "?state=" +:+ session_id session), store1)
    end.

Definition oauth1Request (template : Template) (config : ProviderConfig)
    (session : OAuthSession) (callbackUrl : string) (store : gmap string OAuthSession)
  : Response * gmap string OAuthSession :=
  let channel := session_webSocketClientId session in
  let oAuth1CallbackURL := callbackUrl +:+ "?state=" +:+ session_id session in
  match getOAuthRequestToken config template oAuth1CallbackURL with
  | Err e => (NotifyErr channel TokenError, store)
  | Ok tokenResult =>
      let session := withRequestTokenSecret session (request_token_secret tokenResult) in
      match createSession session store with
      | Err e => (Rejected e, store)
      | Ok store1 => (Redirect (getAuthorizationURL config template tokenResult), store1)
      end
  end.

(** The HMAC check of [oauthRequest]: the error it reports, if any. *)
Definition checkHmac (req : AuthorizeRequest) (environmentId : Z)
    (providerConfigKey connectionId : string) : option WSErr :=
  if hmacEnabled environmentId then
    match given (req_hmac req) with
    | None => Some MissingHmac
    | Some hmac =>
        if hmacVerify hmac environmentId providerConfigKey connectionId
        then None else Some InvalidHmac
    end
  else None.

(** [oauthRequest]; [randomBytes] is what [crypto.randomBytes(24)] returns
  for this request, so that the code verifier is
  [crypto.randomBytes(24).toString('hex')], and [uuid] what [uuid.v1()]
    returns. *)
Definition oauthRequest (req : AuthorizeRequest) (environmentId : Z)
    (randomBytes : list Z) (uuid : string) (store : gmap string OAuthSession)
  : Response * gmap string OAuthSession :=
  let wsClientId := req_ws_client_id req in
  let userScope := req_user_scope req in
  let callbackUrl := getOauthCallbackUrl environmentId in
  let connectionConfig := default ∅ (req_params req) in
  let authorizationParams := default ∅ (req_authorization_params req) in
  let overrideCredentials := default ∅ (req_credentials req) in
  match req_connection_id req with
  | None => (NotifyErr wsClientId MissingConnectionId, store)
  | Some connectionId =>
  match req_providerConfigKey req with
  | None => (NotifyErr wsClientId MissingProviderConfigKey, store)
  | Some providerConfigKey =>
  match checkHmac req environmentId providerConfigKey connectionId with
  | Some error => (NotifyErr wsClientId error, store)
  | None =>
  match getProviderConfig providerConfigKey environmentId with
  | None => (NotifyErr wsClientId (UnknownProviderConfigKey providerConfigKey), store)
  | Some config =>
  match getTemplate (provider config) with
  | None => (NotifyErr wsClientId (UnknownProviderTemplate (provider config)), store)
  | Some template =>
  (* session.connectionConfig and connectionConfig are one object here *)
  let connectionConfig :=
    match given userScope with
    | Some scope => <["user_scope" := scope]> connectionConfig
    | None => connectionConfig
    end in
  let session :=
    {| session_providerConfigKey := providerConfigKey;
       session_provider := provider config;
       session_connectionId := connectionId;
       session_callbackUrl := callbackUrl;
       session_authMode := auth_mode template;
       session_codeVerifier := hexOfBytes randomBytes;
       session_id := uuid;
       session_connectionConfig := connectionConfig;
       session_environmentId := environmentId;
       session_webSocketClientId := wsClientId;
       session_requestTokenSecret := None |} in
  let clientIdOverride :=
    given (overrideCredentials !! "oauth_client_id_override" ≫= fun v => v) in
  let clientSecretOverride :=
    given (overrideCredentials !! "oauth_client_secret_override" ≫= fun v => v) in
  let config := applyOverrides config overrideCredentials connectionConfig in
  let session :=
    match clientIdOverride with
    | Some v => withConnectionConfig session
                  (<["oauth_client_id_override" := v]> (session_connectionConfig session))
    | None => session
    end in
  let session :=
    match clientSecretOverride with
    | Some v => withConnectionConfig session
                  (<["oauth_client_secret_override" := v]> (session_connectionConfig session))
    | None => session
    end in
  if negb (bool_decide (auth_mode template = App))
     && (bool_decide (oauth_client_id config = None)
         || bool_decide (oauth_client_secret config = None)
         || bool_decide (oauth_scopes config = None))
  then (NotifyErr wsClientId (InvalidProviderConfig providerConfigKey), store)
  else
    match auth_mode template with
    | OAuth2 =>
        oauth2Request template config session connectionConfig authorizationParams
          callbackUrl userScope store
    | App | Custom => appRequest template config session authorizationParams store
    | OAuth1 => oauth1Request template config session callbackUrl store
    | m => (NotifyErr wsClientId (UnknownAuthMode m), store)
    end
  end end end end end.
(** The part of [oauthCallback] that runs after the session has been found
    and deleted. *)
Definition dispatchCallback (session : OAuthSession) (req : CallbackRequest)
    (backend : Backend) : Response * Backend :=
  let channel := session_webSocketClientId session in
  match getTemplate (session_provider session) with
  | None => (NotifyErr channel UnknownError, backend)
  | Some template =>
      let config :=
        getProviderConfig (session_providerConfigKey session) (session_environmentId session) in
      match session_authMode session with
      | OAuth2 | Custom => oauth2Callback template config session req backend
      | OAuth1 => oauth1Callback template config session req backend
      | m => (NotifyErr channel (UnknownAuthMode m), backend)
      end
  end.

Definition oauthCallback (req : CallbackRequest)
    (st : gmap string OAuthSession * Backend)
  : CallbackOutcome * (gmap string OAuthSession * Backend) :=
  let '(store, backend) := st in
  match given (cb_state req), given (cb_installation_id req), given (cb_setup_action req) with
  | None, Some _, Some _ =>
      (Answered (Redirect (default "https://github.com" (given (cb_referer req)))), st)
  | _, _, _ =>
      match cb_state req with
      | None => (Reported "No state found in callback", st)
      | Some state =>
          match findSessionById state store with
          | None => (Reported ("No session found for state: " +:+ state), st)
          | Some session =>
              let store := deleteSession state store in
              let '(response, backend) := dispatchCallback session req backend in
              (Answered response, (store, backend))
          end
      end
  end.

(** Callbacks handled one after the other. *)
Definition oauthCallbacks (reqs : list CallbackRequest)
    (st : gmap string OAuthSession * Backend) : gmap string OAuthSession * Backend :=
  fold_left (fun st req => (oauthCallback req st).2) reqs st.
End Controller.


(** The provider configuration that [oauthRequest] validates and uses for a
    request: the stored one, with the overrides that the request carries. *)
Definition configAfterOverrides (req : AuthorizeRequest) (config : ProviderConfig)
  : ProviderConfig :=
  applyOverrides config (default ∅ (req_credentials req))
    (match given (req_user_scope req) with
     | Some scope => <["user_scope" := scope]> (default ∅ (req_params req))
     | None => default ∅ (req_params req)
     end).

(** A stub environment for the controller: two integrations of one
    environment, no HMAC, URLs that need no interpolation, an HTTP client
    that writes the parameters after the authorization URL, and protocol
    handlers that count the token exchanges. *)
Definition githubAppConfig : ProviderConfig :=
  {| cfg_id := Some 8; unique_key := "gh-app"; provider := "github-app";
     oauth_client_id := None; oauth_client_secret := Some "secret";
     oauth_client_secret_iv := None; oauth_client_secret_tag := None;
     oauth_scopes := None; app_link := Some "https://github.com/apps/demo"; custom := JNull |}.

Definition githubAppTemplate : Template :=
  {| auth_mode := App;
     authorization_url := "https://github.com/apps/demo/installations/new";
     token_url := SingleUrl "https://api.github.com/app/installations";
     authorization_params := None; token_params_grant_type := None;
     disable_pkce := false; scope_separator := None;
     token_expiration_buffer := None; authorization_url_replacements := None;
     token_request_auth_method := None |}.

Definition demoGetProviderConfig (providerConfigKey : string) (environmentId : Z)
  : option ProviderConfig :=
  if negb (environmentId =? 1) then None
  else if String.eqb providerConfigKey "gh" then Some githubConfig
  else if String.eqb providerConfigKey "gh-app" then Some githubAppConfig
  else if String.eqb providerConfigKey "gh-draft"
  then Some (withOAuthClient githubConfig (Some "id") (Some "secret") None)
  else None.

Definition demoGetTemplate (provider : string) : option Template :=
  if String.eqb provider "github" then Some githubTemplate
  else if String.eqb provider "github-app" then Some githubAppTemplate
  else None.

Definition demoAuthorizeURL (config : ProviderConfig) (template : Template)
    (connectionConfig params : gmap string string) : Result string :=
  Ok (fold_left (fun url kv => url +:+ "&" +:+ kv.1 +:+ "=" +:+ kv.2)
        (map_to_list params)
        (authorization_url template +:+ "?client_id=" +:+ default "" (oauth_client_id config))).

Definition demoHandler (template : Template) (config : option ProviderConfig)
    (session : OAuthSession) (req : CallbackRequest) (exchanges : nat) : Response * nat :=
  (NotifySuccess (session_webSocketClientId session) (session_providerConfigKey session)
     (session_connectionId session),
   S exchanges).

Definition demoOauthRequest :=
  oauthRequest (fun _ => "https://api.nango.dev/oauth/callback") (fun _ => false)
    (fun _ _ _ _ => true) demoGetProviderConfig demoGetTemplate (fun _ _ => false)
    (fun url _ => url) demoAuthorizeURL
    (fun _ _ _ => Ok {| request_token := "t"; request_token_secret := "s" |})
    (fun _ _ tokenResult => "https://provider.example/authorize?oauth_token="
                            +:+ request_token tokenResult).

Definition demoOauthCallback :=
  oauthCallback demoGetProviderConfig demoGetTemplate nat demoHandler demoHandler.

Definition demoRequest (providerConfigKey : string)
    (authorizationParams : option (gmap string (option string))) : AuthorizeRequest :=
  {| req_providerConfigKey := Some providerConfigKey; req_connection_id := Some "c1";
     req_ws_client_id := Some "ws1"; req_user_scope := None; req_hmac := None;
     req_params := None; req_authorization_params := authorizationParams;
     req_credentials := None |}.

(** 24 bytes, as [crypto.randomBytes(24)] returns. *)
Definition demoRandomBytes : list Z := map Z.of_nat (seq 1 24).


(** The session that the stub request for the integration [gh] creates. *)
Definition demoSession : OAuthSession :=
  {| session_providerConfigKey := "gh"; session_provider := "github";
     session_connectionId := "c1";
     session_callbackUrl := "https://api.nango.dev/oauth/callback";
     session_authMode := OAuth2;
     session_codeVerifier := "0102030405060708090a0b0c0d0e0f101112131415161718";
     session_id := "uuid-1"; session_connectionConfig := ∅; session_environmentId := 1;
     session_webSocketClientId := Some "ws1"; session_requestTokenSecret := None |}.

(** The callback of the provider for that session. *)
Definition demoCallback : CallbackRequest :=
  {| cb_state := Some "uuid-1"; cb_installation_id := None; cb_setup_action := None;
     cb_referer := None; cb_query := {[ "code" := "granted" ]} |}.

(** ** EncryptionManager: environments, provider configs, environment variables *)

(** The ciphertext of a text that is not empty is not empty. *)
Definition EncryptionKeepsText (E : Encryption) : Prop :=
  forall key random text,
    text <> "" -> (encrypt E key random text).1.1 <> "".

Section EncryptionManagerRows.
Variable E : Encryption.
Variable key : string.

Definition decryptEnvironment (environment : option Environment)
  : Result (option Environment) :=
  match environment with
  | None => Ok None
  | Some environment =>
      match secret_key_iv environment, secret_key_tag environment with
      | Some iv, Some tag =>
          secret ← decrypt E key (secret_key environment) iv tag;
          if present (pending_secret_key environment) then
            text ← stringArg (pending_secret_key environment);
            pendingIv ← stringArg (pending_secret_key_iv environment);
            pendingTag ← stringArg (pending_secret_key_tag environment);
            pending ← decrypt E key text pendingIv pendingTag;
            Ok (Some {| env_id := env_id environment;
                        secret_key := secret;
                        secret_key_iv := secret_key_iv environment;
                        secret_key_tag := secret_key_tag environment;
                        pending_secret_key := Some pending;
                        pending_secret_key_iv := pending_secret_key_iv environment;
                        pending_secret_key_tag := pending_secret_key_tag environment |})
          else
            Ok (Some {| env_id := env_id environment;
                        secret_key := secret;
                        secret_key_iv := secret_key_iv environment;
                        secret_key_tag := secret_key_tag environment;
                        pending_secret_key := pending_secret_key environment;
                        pending_secret_key_iv := pending_secret_key_iv environment;
                        pending_secret_key_tag := pending_secret_key_tag environment |})
      | _, _ => Ok (Some environment)
      end
  end.

Definition decryptProviderConfig (config : option ProviderConfig)
  : Result (option ProviderConfig) :=
  match config with
  | None => Ok None
  | Some config =>
      match oauth_client_secret_iv config, oauth_client_secret_tag config with
      | Some iv, Some tag =>
          text ← stringArg (oauth_client_secret config);
          secret ← decrypt E key text iv tag;
          if truthy (custom config) then
            encryptedValue ← stringArg (asString (getProp (custom config) "encryptedValue"));
            customIv ← stringArg (asString (getProp (custom config) "iv"));
            customTag ← stringArg (asString (getProp (custom config) "authTag"));
            customText ← decrypt E key encryptedValue customIv customTag;
            customValue ← JSON_parse customText;
            Ok (Some {| cfg_id := cfg_id config; unique_key := unique_key config;
                        provider := provider config;
                        oauth_client_id := oauth_client_id config;
                        oauth_client_secret := Some secret;
                        oauth_client_secret_iv := oauth_client_secret_iv config;
                        oauth_client_secret_tag := oauth_client_secret_tag config;
                        oauth_scopes := oauth_scopes config;
                        app_link := app_link config;
                        custom := customValue |})
          else
            Ok (Some {| cfg_id := cfg_id config; unique_key := unique_key config;
                        provider := provider config;
                        oauth_client_id := oauth_client_id config;
                        oauth_client_secret := Some secret;
                        oauth_client_secret_iv := oauth_client_secret_iv config;
                        oauth_client_secret_tag := oauth_client_secret_tag config;
                        oauth_scopes := oauth_scopes config;
                        app_link := app_link config;
                        custom := custom config |})
      | _, _ => Ok (Some config)
      end
  end.

(** [encryptEnvironmentVariables]: every variable of the array is encrypted,
    whatever it carries; [random] gives the bytes drawn for each of them, in
    order.  The loop writes into the objects of the array it was given: the
    result holds the same objects. *)
Fixpoint encryptEach (random : nat -> string) (n : nat)
    (environmentVariables : list EnvironmentVariable) : list EnvironmentVariable :=
  match environmentVariables with
  | [] => []
  | environmentVariable :: rest =>
      let '(encryptedValue, iv, authTag) :=
        encrypt E key (random n) (value environmentVariable) in
      {| var_id := var_id environmentVariable; value := encryptedValue;
         value_iv := Some iv; value_tag := Some authTag |}
      :: encryptEach random (S n) rest
  end.

Definition encryptEnvironmentVariables (random : nat -> string)
    (environmentVariables : list EnvironmentVariable) : list EnvironmentVariable :=
  if negb (shouldEncrypt key) then environmentVariables
  else encryptEach random 0 environmentVariables.

(** The loop of [decryptEnvironmentVariables]; a variable that cannot be
    decrypted makes the call throw. *)
Fixpoint decryptEach (environmentVariables : list EnvironmentVariable)
  : Result (list EnvironmentVariable) :=
  match environmentVariables with
  | [] => Ok []
  | environmentVariable :: rest =>
      match value_iv environmentVariable, value_tag environmentVariable with
      | Some iv, Some tag =>
          text ← decrypt E key (value environmentVariable) iv tag;
          rest' ← decryptEach rest;
          Ok ({| var_id := var_id environmentVariable; value := text;
                 value_iv := value_iv environmentVariable;
                 value_tag := value_tag environmentVariable |} :: rest')
      | _, _ =>
          rest' ← decryptEach rest;
          Ok (environmentVariable :: rest')
      end
  end.

Definition decryptEnvironmentVariables
    (environmentVariables : option (list EnvironmentVariable))
  : Result (option (list EnvironmentVariable)) :=
  match environmentVariables with
  | None => Ok None
  | Some environmentVariables =>
      decrypted ← decryptEach environmentVariables;
      Ok (Some decrypted)
  end.
End EncryptionManagerRows.

(** A row that holds nothing but encrypted credentials, with their IV and
    tag. *)
Definition encryptedRow (r : Connection) : Prop :=
  exists enc iv tag,
    credentials r = JObject [("encrypted_credentials", JString enc)]
    /\ credentials_iv r = Some iv /\ credentials_tag r = Some tag.

Definition demoEnvironment : Environment :=
  {| env_id := 1; secret_key := "sk-live"; secret_key_iv := None; secret_key_tag := None;
     pending_secret_key := Some "sk-next"; pending_secret_key_iv := None;
     pending_secret_key_tag := None |}.

Definition demoVariables : list EnvironmentVariable :=
  [ {| var_id := 1; value := "v1"; value_iv := None; value_tag := None |};
    {| var_id := 2; value := ""; value_iv := Some "stale"; value_tag := None |} ].

Definition customConfig : ProviderConfig :=
  {| cfg_id := Some 9; unique_key := "gh-custom"; provider := "github-app-oauth";
     oauth_client_id := Some "id"; oauth_client_secret := Some "secret";
     oauth_client_secret_iv := None; oauth_client_secret_tag := None;
     oauth_scopes := Some "repo"; app_link := None;
     custom := JObject [("app_id", JString "42"); ("private_key", JString "pk")] |}.

(** A database whose checkpoint records another key. *)
Definition keyedWorld : World :=
  saveDbConfig {| encryption_key_hash := Some (demoHash "first-key" "");
                  encryption_complete := true |} migrationWorld.

(** A database whose migration under the key was interrupted. *)
Definition interruptedWorld : World :=
  setDbConfig migrationWorld
    (Some {| encryption_key_hash := Some (demoHash "secret-key" keySalt);
             encryption_complete := false |}).

(** *** Refresh: progress *)

(** The steps that a call has still to take, at most. *)
Definition remaining (p : Pc) : nat :=
  match p with
  | AtStart => 5
  | AtLock => 4
  | InCritical => 3
  | AtUpdate _ => 2
  | AtRelease _ => 1
  | Returned _ _ => 0
  end.

Definition work (cs : list Caller) : nat := list_sum (map (fun c => remaining (pc c)) cs).

(** The locks that are held are those that were held before the calls,
    [held], and those of the callers between acquisition and release; no
    caller wants a lock of [held]; every caller refers to an object. *)
Definition lockAccounting (held : gset string) (st : list Caller * System) : Prop :=
  (forall k, k ∈ locks st.2 <->
             k ∈ held \/ exists i c, st.1 !! i = Some c /\ inCritical (pc c) = true
                                     /\ callerLockKey c = k) /\
  (forall i c, st.1 !! i = Some c -> callerLockKey c ∉ held) /\
  (forall i c, st.1 !! i = Some c -> is_Some (heap st.2 !! connection c)).

(** What the caller of [getNewCredentials] makes of an answer that is no new
    credentials: a thrown error becomes [refresh_token_external_error], an
    answer without success or without credentials is passed on without its
    response.  [None]: the answer carries new credentials. *)
Definition refusal (answer : Result (ServiceResponse JsValue))
  : option (ServiceResponse JsValue) :=
  match answer with
  | Err e => Some refreshFailure
  | Ok r =>
      match response r with
      | Some newCredentials =>
          if success r && truthy newCredentials then None
          else Some {| success := success r; error := error r; response := None |}
      | None => Some {| success := success r; error := error r; response := None |}
      end
  end.

(** A provider that is down. *)
Definition failingProvider (path : RefreshPath) (calls : nat) (t : Template)
    (cfg : ProviderConfig) (c : Connection) : ServiceResponse JsValue :=
  {| success := false; error := Some (NangoError "refresh_token_external_error");
     response := None |}.

(** The session [s'] is the session [s] of the same authorization attempt,
    possibly with another connection config or with a request token
    secret. *)
Definition sameFlow (s s' : OAuthSession) : Prop :=
  session_id s' = session_id s
  /\ session_providerConfigKey s' = session_providerConfigKey s
  /\ session_provider s' = session_provider s
  /\ session_connectionId s' = session_connectionId s
  /\ session_callbackUrl s' = session_callbackUrl s
  /\ session_authMode s' = session_authMode s
  /\ session_codeVerifier s' = session_codeVerifier s
  /\ session_environmentId s' = session_environmentId s
  /\ session_webSocketClientId s' = session_webSocketClientId s.

(** What a request leaves in the session store: nothing new, or one session
    more, under an id that was free. *)
Definition storedAs (uuid : string) (store store' : gmap string OAuthSession)
    (session : OAuthSession) : Prop :=
  store !! uuid = None /\ store' = <[uuid := session]> store /\ session_id session = uuid.

Definition isRedirect (r : Response) : bool :=
  match r with
  | Redirect _ => true
  | _ => false
  end.

(** What each of the three request handlers leaves in the store. *)
Definition outcome (session : OAuthSession) (store : gmap string OAuthSession)
    (r : Response * gmap string OAuthSession) : Prop :=
  (r.2 = store /\ isRedirect r.1 = false)
  \/ exists session', sameFlow session session'
                      /\ storedAs (session_id session) store r.2 session'.

(** ** PKCE: the shape of the verifier and of the challenge *)

Definition hexAlphabet : string := "0123456789abcdef".

(** Every character of [s] is one of [alphabet]. *)
Definition charsIn (alphabet : string) (s : string) : Prop :=
  Forall (fun c => In c (list_ascii_of_string alphabet)) (list_ascii_of_string s).

(** [o[k] = v] on the fields of an object: the property is overwritten where
    it stands, or added at the end. *)
Fixpoint setField (k : string) (v : JsValue) (fs : list (string * JsValue))
  : list (string * JsValue) :=
  match fs with
  | [] => [(k, v)]
  | (k', v') :: rest =>
      if String.eqb k k' then (k, v) :: rest else (k', v') :: setField k v rest
  end.

Definition setProp (o : JsValue) (k : string) (v : JsValue) : JsValue :=
  match o with
  | JObject fs => JObject (setField k v fs)
  | _ => o
  end.

(** The own enumerable properties of a value, which object spread copies:
    the fields of an object, the elements of an array and the characters of
    a string under their indices, nothing for the other values. *)
Definition ownEntries (v : JsValue) : list (string * JsValue) :=
  match v with
  | JObject fs => fs
  | JArray items => imap (fun i x => (showZ (Z.of_nat i), x)) items
  | JString s =>
      imap (fun i c => (showZ (Z.of_nat i), JString (String c ""))) (list_ascii_of_string s)
  | _ => []
  end.

(** [Object.assign(target, source)] on the fields of the target: each own
    key of the source is set to the value that the source has for it. *)
Definition assign (target : list (string * JsValue)) (source : JsValue)
  : list (string * JsValue) :=
  fold_left (fun acc kv => setField kv.1 (lookupField kv.1 (ownEntries source)) acc)
            (ownEntries source) target.

(** [{ ...a, ...b }] *)
Definition spread2 (a b : JsValue) : JsValue := JObject (assign (assign [] a) b).

(** The value has an own property [k]. *)
Definition hasOwn (v : JsValue) (k : string) : bool :=
  existsb (fun kv => String.eqb k kv.1) (ownEntries v).

Definition withMetadata (c : Connection) (m : JsValue) : Connection :=
  {| id := id c; connection_id := connection_id c;
     provider_config_key := provider_config_key c;
     environment_id := environment_id c; config_id := config_id c;
     credentials := credentials c; credentials_iv := credentials_iv c;
     credentials_tag := credentials_tag c;
     connection_config := connection_config c; metadata := m;
     deleted := deleted c; updated_at := updated_at c |}.

(** [update({ deleted: true, credentials: {}, credentials_iv: null,
    credentials_tag: null, deleted_at: new Date() })] on one row. *)
Definition deletedRow (c : Connection) : Connection :=
  {| id := id c; connection_id := connection_id c;
     provider_config_key := provider_config_key c;
     environment_id := environment_id c; config_id := config_id c;
     credentials := JObject []; credentials_iv := None; credentials_tag := None;
     connection_config := connection_config c; metadata := metadata c;
     deleted := true; updated_at := updated_at c |}.

Definition getMetadata (connection : Connection) (w : World) : JsValue :=
  let result :=
    filter (fun r => liveWithKey (connection_id connection) (provider_config_key connection)
                       (environment_id connection) r = true)
           (connections w) in
  match head result with
  | None => JObject []
  | Some row => metadata row
  end.

(** [where({ id: connection.id, deleted: false }).update({ metadata })]; an
    id that is null matches no row. *)
Definition replaceMetadata (connection : Connection) (newMetadata : JsValue) (w : World)
  : World :=
  let rows := map (fun r => if liveWithId (id connection) r
                            then withMetadata r newMetadata else r)
                  (connections w) in
  logWrite (setConnections w rows (connections_id_seq w))
           (UpdateRow "_nango_connections" (id connection)).

Definition updateMetadata (connection : Connection) (newValues : JsValue) (w : World)
  : JsValue * World :=
  let existingMetadata := getMetadata connection w in
  let newMetadata := spread2 existingMetadata newValues in
  (newMetadata, replaceMetadata connection newMetadata w).

(** [updateLastFetched(id)]: the statement sets [last_fetched_at] only. *)
Definition updateLastFetched (i : option Z) (w : World) : World :=
  logWrite w (UpdateRow "_nango_connections" i).

Definition failed {A : Type} (code : string) : ServiceResponse A :=
  {| success := false; error := Some (NangoError code); response := None |}.

Section ConnectionReads.
Variable E : Encryption.
Variable key : string.
Variable parseTokenExpirationDate : JsValue -> JsValue.
(** [environmentService.getEnvironmentName], which is asked for the payload
    of the error [unknown_connection]. *)
Variable getEnvironmentName : Z -> Result (option string).
(** [syncOrchestrator.softDeleteSyncsByConnection] *)
Variable softDeleteSyncsByConnection : Connection -> Result unit.

(** One of the three blocks of [getConnection] that parse the expiration
    date again, for the credentials of type [m]. *)
Definition reparseExpiresAt (m : AuthModes) (credentials : JsValue) : JsValue :=
  if hasType credentials m
  then setProp credentials "expires_at"
         (if isNullish (getProp credentials "expires_at") then JUndefined
          else parseTokenExpirationDate (getProp credentials "expires_at"))
  else credentials.

(** The three blocks in their order: OAuth2, App, OAuth2CC. *)
Definition reparseCredentials (credentials : JsValue) : JsValue :=
  reparseExpiresAt OAuth2CC (reparseExpiresAt App (reparseExpiresAt OAuth2 credentials)).

Definition getConnection (connectionId providerConfigKey : string) (environment_id : Z)
    (w : World) : Result (ServiceResponse Connection) * World :=
  if environment_id =? 0 then (Ok (failed "missing_environment"), w)
  else if String.eqb connectionId "" then (Ok (failed "missing_connection"), w)
  else if String.eqb providerConfigKey "" then (Ok (failed "missing_provider_config"), w)
  else
    let result :=
      filter (fun r => liveWithKey connectionId providerConfigKey environment_id r = true)
             (connections w) in
    match head result with
    | None =>
        match getEnvironmentName environment_id with
        | Err e => (Err e, w)
        | Ok environmentName => (Ok (failed "unknown_connection"), w)
        end
    | Some storedConnection =>
        match decryptConnection E key (Some storedConnection) with
        | Err e => (Err e, w)
        | Ok None =>
            (Ok {| success := true; error := None; response := None |},
             updateLastFetched None w)
        | Ok (Some connection) =>
            match readProp (credentials connection) "type" with
            | Err e => (Err e, w)
            | Ok _ =>
                let connection :=
                  withNewCredentials connection
                    (reparseCredentials (credentials connection)) in
                (Ok {| success := true; error := None; response := Some connection |},
                 updateLastFetched (id connection) w)
            end
        end
    end.

Definition deleteConnection (connection : Connection) (providerConfigKey : string)
    (environment_id : Z) (w : World) : Result nat * World :=
  let matches r :=
    liveWithKey (connection_id connection) providerConfigKey environment_id r in
  let del := length (filter (fun r => matches r = true) (connections w)) in
  let rows := map (fun r => if matches r then deletedRow r else r) (connections w) in
  let w1 := logWrite (setConnections w rows (connections_id_seq w))
                     (UpdateRow "_nango_connections" None) in
  match softDeleteSyncsByConnection connection with
  | Err e => (Err e, w1)
  | Ok _ => (Ok del, w1)
  end.
End ConnectionReads.

(** The live row of [demoWorld]. *)
Definition demoLiveRow : Connection :=
  {| id := Some 2; connection_id := "c2"; provider_config_key := "gh";
     environment_id := 1; config_id := Some 7;
     credentials := JObject [("type", JMode ApiKey); ("apiKey", JString "k2")];
     credentials_iv := None; credentials_tag := None;
     connection_config := JObject []; metadata := JNull;
     deleted := false; updated_at := None |}.

(** ** OAuth2 client credentials: getOauthClientCredentials and oauth2RequestCC *)

(** [s.split(' ')] *)
Fixpoint splitSpaces (s : string) : list string :=
  match s with
  | EmptyString => [EmptyString]
  | String c rest =>
      if Ascii.eqb c " " then EmptyString :: splitSpaces rest
      else match splitSpaces rest with
           | word :: words => String c word :: words
           | [] => [String c EmptyString]
           end
  end.

(** [Array.isArray(scope) ? scope : scope.split(' ')] *)
Definition scopesOf (scope : JsValue) : Result JsValue :=
  match scope with
  | JArray items => Ok (JArray items)
  | JString s => Ok (JArray (map JString (splitSpaces s)))
  | JUndefined | JNull =>
      Err (TypeError "Cannot read properties of undefined (reading 'split')")
  | _ => Err (TypeError "credentials.raw.scope.split is not a function")
  end.

(** How [oauth2RequestCC] answers: [errorManager.errRes(res, code)],
    [res.status(200).send(body)], or [next(err)]. *)
Inductive HttpAnswer : Type :=
  | ErrRes (code : string)
  | Status200 (body : JsValue)
  | NextErr (err : Error).

(** The request that [oauth2RequestCC] handles: the provider config key of
    the path, the query parameters ([params] as [getConnectionConfig] hands
    them over) and the body. *)
Record ClientCredentialsRequest : Type := {
  cc_providerConfigKey : option string;
  cc_connection_id : option string;
  cc_hmac : option string;
  cc_params : option (list (string * string));
  cc_body : JsValue
}.

Section ClientCredentials.
Variable E : Encryption.
Variable key : string.
Variable entropy : nat -> string.
Variable getIdByProviderConfigKey : Z -> string -> option Z.
Variable Date_now : Z.
Variable parseTokenExpirationDate : JsValue -> JsValue.
Variable parseInt10 : JsValue -> option Z.
(** [axios.post(`${url}?${params}`)] with the parameters [client_id] and
    [client_secret]: the [data] of the response, or the error thrown. *)
Variable post : string -> JsValue -> JsValue -> Result JsValue.
Variable hmacEnabled : Z -> bool.
Variable hmacVerify : string -> Z -> string -> string -> bool.
Variable getProviderConfig : string -> Z -> option ProviderConfig.
(** [configService.getTemplate], which throws for a provider it does not
    know. *)
Variable getTemplate : string -> Result Template.

Definition getOauthClientCredentials (template : Template) (client_id client_secret : JsValue)
  : ServiceResponse JsValue :=
  let url := authorization_url template in
  match post url client_id client_secret with
  | Err e => failed "client_credentials_fetch_error"
  | Ok data =>
      if negb (truthy data) || negb (truthy (getProp data "success"))
      then failed "invalid_client_credentials"
      else
        match parseRawCredentials Date_now parseTokenExpirationDate parseInt10
                (getProp data "data") OAuth2CC with
        | Err e => failed "client_credentials_fetch_error"
        | Ok parsedCreds =>
            let parsedCreds := setProp parsedCreds "client_id" client_id in
            let parsedCreds := setProp parsedCreds "client_secret" client_secret in
            {| success := true; error := None; response := Some parsedCreds |}
        end
  end.

Definition oauth2RequestCC (req : ClientCredentialsRequest) (environmentId : Z) (now : Z)
    (w : World) : Result HttpAnswer * World :=
  let connectionConfig :=
    JObject (map (fun kv => (kv.1, JString kv.2)) (default [] (cc_params req))) in
  match readProp (cc_body req) "client_id" with
  | Err e => (Err e, w)
  | Ok client_id =>
  if negb (truthy client_id) then (Ok (ErrRes "missing_client_id"), w)
  else
  let client_secret := getProp (cc_body req) "client_secret" in
  if negb (truthy client_secret) then (Ok (ErrRes "missing_client_secret"), w)
  else
  match given (cc_providerConfigKey req) with
  | None => (Ok (ErrRes "missing_connection"), w)
  | Some providerConfigKey =>
  match given (cc_connection_id req) with
  | None => (Ok (ErrRes "missing_connection_id"), w)
  | Some connectionId =>
  let hmacFailure :=
    if hmacEnabled environmentId then
      match given (cc_hmac req) with
      | None => Some "missing_hmac"
      | Some hmac =>
          if hmacVerify hmac environmentId providerConfigKey connectionId
          then None else Some "invalid_hmac"
      end
    else None in
  match hmacFailure with
  | Some code => (Ok (ErrRes code), w)
  | None =>
  match getProviderConfig providerConfigKey environmentId with
  | None => (Ok (ErrRes "unknown_provider_config"), w)
  | Some config =>
  match getTemplate (provider config) with
  | Err e => (Ok (NextErr e), w)
  | Ok template =>
  if negb (bool_decide (auth_mode template = OAuth2CC))
  then (Ok (ErrRes "invalid_auth_mode"), w)
  else
  let r := getOauthClientCredentials template client_id client_secret in
  match response r with
  | None => (Ok (ErrRes "oauth2_cc_error"), w)
  | Some credentials =>
  if negb (success r) || negb (truthy credentials) then (Ok (ErrRes "oauth2_cc_error"), w)
  else
  match raw ← readProp (getProp credentials "raw") "scope"; scopesOf raw with
  | Err e => (Ok (NextErr e), w)
  | Ok scopes =>
      let connectionConfig := setProp connectionConfig "scopes" scopes in
      match upsertConnection E key entropy getIdByProviderConfigKey connectionId
              providerConfigKey credentials connectionConfig environmentId JUndefined
              now w with
      | (Err e, w1) => (Ok (NextErr e), w1)
      | (Ok updatedConnection, w1) =>
          (Ok (Status200 (JObject [("providerConfigKey", JString providerConfigKey);
                                   ("connectionId", JString connectionId)])), w1)
      end
  end end end end end end end end.
End ClientCredentials.

(** What a successful fetch of client credentials holds. *)
Definition clientCredentialsOf (data client_id client_secret : JsValue)
    (fields : list (string * JsValue)) : Prop :=
  truthy (getProp data "success") = true
  /\ lookupField "type" fields = JMode OAuth2CC
  /\ lookupField "token" fields = getProp (getProp data "data") "token"
  /\ truthy (lookupField "token" fields) = true
  /\ lookupField "client_id" fields = client_id
  /\ lookupField "client_secret" fields = client_secret
  /\ lookupField "raw" fields = getProp data "data".

(** ** getConnectionCredentials: read, then refresh where the type calls for it *)

(** [connection?.credentials?.type] is OAUTH2, APP or OAUTH2_CC. *)
Definition refreshable (credentials : JsValue) : bool :=
  hasType credentials OAuth2 || hasType credentials App || hasType credentials OAuth2CC.

Section ConnectionCredentials.
Variable E : Encryption.
Variable key : string.
Variable entropy : nat -> string.
Variable Date_now : Z.
Variable parseTokenExpirationDate : JsValue -> JsValue.
Variable parseInt10 : JsValue -> option Z.
Variable isTokenExpired : JsValue -> Z -> bool.
Variable shouldIntrospectToken : string -> bool.
Variable introspectedTokenExpired : ProviderConfig -> Connection -> bool.
Variable shouldUseProviderClient : string -> bool.
Variable refreshToken : nat -> Template -> ProviderConfig -> Connection -> Result JsValue.
Variable requestCredentials :
  RefreshPath -> nat -> Template -> ProviderConfig -> Connection -> ServiceResponse JsValue.
Variable getEnvironmentName : Z -> Result (option string).
Variable getProviderConfig : string -> Z -> option ProviderConfig.
Variable getTemplate : string -> Result Template.

(** [getConnectionCredentials]; a [connectionId] or [providerConfigKey] that
    is [None] is null.  The connection that [getConnection] returns is a new
    object, which [refreshCredentialsIfNeeded] gets by reference.  The
    answer is [None] when the refresh waits for a lock that is held. *)
Definition getConnectionCredentials (environmentId : Z)
    (connectionId providerConfigKey : option string) (instantRefresh : bool) (s : System)
  : Result (option (ServiceResponse Connection)) * System :=
  match connectionId with
  | None => (Ok (Some (failed "missing_connection")), s)
  | Some connectionId =>
  match providerConfigKey with
  | None => (Ok (Some (failed "missing_provider_config")), s)
  | Some providerConfigKey =>
  match getConnection E key parseTokenExpirationDate getEnvironmentName
          connectionId providerConfigKey environmentId (db s) with
  | (Err e, w) => (Err e, setDb s w)
  | (Ok r, w) =>
  let s := setDb s w in
  if negb (success r)
  then (Ok (Some {| success := success r; error := error r; response := None |}), s)
  else
  match response r with
  | None =>
      match getEnvironmentName environmentId with
      | Err e => (Err e, s)
      | Ok environmentName => (Ok (Some (failed "unknown_connection")), s)
      end
  | Some connection =>
  match getProviderConfig (provider_config_key connection) environmentId with
  | None => (Ok (Some (failed "unknown_provider_config")), s)
  | Some config =>
  match getTemplate (provider config) with
  | Err e => (Err e, s)
  | Ok template =>
  if refreshable (credentials connection)
  then
    let ref := length (heap s) in
    let s := setHeap s (heap s ++ [connection]) in
    match refreshCredentialsIfNeeded E key entropy Date_now parseTokenExpirationDate
            parseInt10 isTokenExpired shouldIntrospectToken introspectedTokenExpired
            shouldUseProviderClient refreshToken requestCredentials
            ref config template environmentId instantRefresh s with
    | (None, s) => (Ok None, s)
    | (Some refreshed, s) =>
        if negb (success refreshed)
        then (Ok (Some {| success := success refreshed; error := error refreshed;
                          response := None |}), s)
        else
          let connection :=
            withNewCredentials (default connection (heap s !! ref))
              (default JNull (response refreshed)) in
          (Ok (Some {| success := true; error := None; response := Some connection |}),
           setHeap s (<[ref := connection]> (heap s)))
    end
  else (Ok (Some {| success := true; error := None; response := Some connection |}), s)
  end end end end end end.
End ConnectionCredentials.

(** A system at rest over a database: no object in memory, no lock held, no
    request made. *)
Definition atRest (w : World) : System :=
  {| db := w; heap := []; locks := ∅; providerCalls := 0 |}.

(** ** Connections without OAuth: upsertApiConnection, upsertUnauthConnection
       and the two imports *)

(** [encryptionManager.encryptApiConnection]: the body of
    [encryptConnection], for a connection with API credentials. *)
Definition encryptApiConnection (E : Encryption) (key : string) (random : string)
    (connection : Connection) : Result Connection :=
  if negb (shouldEncrypt key) then Ok connection
  else
    text ← stringArg (JSON_stringify (credentials connection));
    let '(encryptedClientSecret, iv, authTag) := encrypt E key random text in
    let encryptedCreds := JObject [("encrypted_credentials", JString encryptedClientSecret)] in
    Ok (withCredentials connection encryptedCreds (Some iv) (Some authTag)).

(** [update(patch)] with the object that [upsertApiConnection] builds: as
    [applyUpdate], but the object has no [metadata], so that column is not
    touched. *)
Definition applyApiUpdate (patch row : Connection) : Connection :=
  {| id := id row;
     connection_id := connection_id patch;
     provider_config_key := provider_config_key patch;
     environment_id := environment_id patch;
     config_id := config_id patch;
     credentials := credentials patch;
     credentials_iv := match credentials_iv patch with
                       | Some iv => Some iv
                       | None => credentials_iv row
                       end;
     credentials_tag := match credentials_tag patch with
                        | Some tag => Some tag
                        | None => credentials_tag row
                        end;
     connection_config := connection_config patch;
     metadata := metadata row;
     deleted := deleted row;
     updated_at := match updated_at patch with
                   | Some t => Some t
                   | None => updated_at row
                   end |}.

(** [update({ connection_id, provider_config_key, config_id, updated_at })]
    of [upsertUnauthConnection]. *)
Definition applyUnauthUpdate (connectionId providerConfigKey : string)
    (config_id : option Z) (now : Z) (row : Connection) : Connection :=
  {| id := id row;
     connection_id := connectionId;
     provider_config_key := providerConfigKey;
     environment_id := environment_id row;
     config_id := config_id;
     credentials := credentials row;
     credentials_iv := credentials_iv row;
     credentials_tag := credentials_tag row;
     connection_config := connection_config row;
     metadata := metadata row;
     deleted := deleted row;
     updated_at := Some now |}.

Section OtherConnections.
Variable E : Encryption.
Variable key : string.
Variable entropy : nat -> string.
Variable getIdByProviderConfigKey : Z -> string -> option Z.
(** [connectionCreatedHook], which the imports await: it returns or
    throws. *)
Variable connectionCreatedHook : ConnectionUpsertResponse -> AuthModes -> Result unit.

(** In the objects below, a column that the source object does not name is
    given the value the column has after an insert ([metadata] null, no
    [config_id]); an update does not read it. *)
Definition upsertApiConnection (connectionId providerConfigKey : string)
    (credentials connectionConfig : JsValue) (environment_id : Z) (now : Z) (w : World)
  : Result ConnectionUpsertResponse * World :=
  let storedConnection := checkIfConnectionExists connectionId providerConfigKey environment_id w in
  let config_id := getIdByProviderConfigKey environment_id providerConfigKey in
  let object :=
    {| id := None; connection_id := connectionId;
       config_id := config_id;
       provider_config_key := providerConfigKey;
       credentials := credentials;
       credentials_iv := None; credentials_tag := None;
       connection_config := connectionConfig;
       environment_id := environment_id;
       metadata := JNull; deleted := false; updated_at := None |} in
  match storedConnection with
  | Some storedConnection =>
      match encryptConnectionStep E key entropy object w with
      | (Err e, w1) => (Err e, w1)
      | (Ok encryptedConnection, w1) =>
          let encryptedConnection := withUpdatedAt encryptedConnection now in
          let rows :=
            map (fun r => if liveWithId (id storedConnection) r
                          then applyApiUpdate encryptedConnection r else r)
                (connections w1) in
          (Ok {| upserted_id := id storedConnection; operation := OVERRIDE |},
           logWrite (setConnections w1 rows (connections_id_seq w1))
                    (UpdateRow "_nango_connections" (id storedConnection)))
      end
  | None =>
      let '(encrypted, w1) :=
        if shouldEncrypt key
        then (encryptApiConnection E key (entropy (draws w)) object,
              setDraws w (S (draws w)))
        else (encryptApiConnection E key "" object, w) in
      match encrypted with
      | Err e => (Err e, w1)
      | Ok encryptedConnection =>
          let seq := connections_id_seq w1 in
          let rows := (connections w1 ++ [insertedRow encryptedConnection seq])%list in
          (Ok {| upserted_id := Some seq; operation := CREATION |},
           logWrite (setConnections w1 rows (seq + 1))
                    (InsertRow "_nango_connections" (Some seq)))
      end
  end.

Definition upsertUnauthConnection (connectionId providerConfigKey : string)
    (environment_id : Z) (now : Z) (w : World)
  : Result ConnectionUpsertResponse * World :=
  let storedConnection := checkIfConnectionExists connectionId providerConfigKey environment_id w in
  let config_id := getIdByProviderConfigKey environment_id providerConfigKey in
  match storedConnection with
  | Some storedConnection =>
      let rows :=
        map (fun r => if liveWithId (id storedConnection) r
                      then applyUnauthUpdate connectionId providerConfigKey config_id now r
                      else r)
            (connections w) in
      (Ok {| upserted_id := id storedConnection; operation := OVERRIDE |},
       logWrite (setConnections w rows (connections_id_seq w))
                (UpdateRow "_nango_connections" (id storedConnection)))
  | None =>
      let seq := connections_id_seq w in
      let row :=
        {| id := Some seq; connection_id := connectionId;
           provider_config_key := providerConfigKey;
           credentials := JObject [];
           credentials_iv := None; credentials_tag := None;
           connection_config := JObject [];
           environment_id := environment_id;
           config_id := None; metadata := JNull; deleted := false;
           updated_at := None |} in
      (Ok {| upserted_id := Some seq; operation := CREATION |},
       logWrite (setConnections w (connections w ++ [row])%list (seq + 1))
                (InsertRow "_nango_connections" (Some seq)))
  end.

Definition importOAuthConnection (connection_id provider_config_key : string)
    (environmentId : Z) (parsedRawCredentials : JsValue) (now : Z) (w : World)
  : Result ConnectionUpsertResponse * World :=
  match readProp parsedRawCredentials "connection_config" with
  | Err e => (Err e, w)
  | Ok connection_config =>
      let metadata := getProp parsedRawCredentials "metadata" in
      match upsertConnection E key entropy getIdByProviderConfigKey
              connection_id provider_config_key parsedRawCredentials
              (jsOr connection_config (JObject [])) environmentId
              (jsOr metadata JUndefined) now w with
      | (Err e, w1) => (Err e, w1)
      | (Ok importedConnection, w1) =>
          match connectionCreatedHook importedConnection OAuth2 with
          | Err e => (Err e, w1)
          | Ok _ => (Ok importedConnection, w1)
          end
      end
  end.

Definition importApiAuthConnection (connection_id provider_config_key : string)
    (environmentId : Z) (credentials : JsValue) (now : Z) (w : World)
  : Result ConnectionUpsertResponse * World :=
  match checkIfConnectionExists connection_id provider_config_key environmentId w with
  | Some connection => (Err (NangoError "connection_already_exists"), w)
  | None =>
      match upsertApiConnection connection_id provider_config_key credentials
              (JObject []) environmentId now w with
      | (Err e, w1) => (Err e, w1)
      | (Ok importedConnection, w1) =>
          match connectionCreatedHook importedConnection ApiKey with
          | Err e => (Err e, w1)
          | Ok _ => (Ok importedConnection, w1)
          end
      end
  end.
End OtherConnections.

(** ** The protocol handlers of the callback: oauth1Callback *)

(** [{ ...m }] for a record of strings, as a value; the properties come in
    the order of the keys of the map. *)
Definition objectOfMap (m : gmap string string) : JsValue :=
  JObject (map (fun kv => (kv.1, JString kv.2)) (map_to_list m)).

(** The errors of [WSErrBuilder] that the protocol handlers publish; the
    unknown error carries what was caught, where the handler passes it on. *)
Inductive HandlerError : Type :=
  | InvalidCallbackOAuth1
  | InvalidCallbackOAuth2
  | UnknownHandlerError (cause : option Error).

(** How a protocol handler ends: [publisher.notifyErr] or
    [publisher.notifySuccess] with the channel, the provider config key and
    the connection id, [res.redirect], or a promise that rejects. *)
Inductive HandlerAnswer : Type :=
  | NotifiedErr (wsClientId : option string) (providerConfigKey connectionId : string)
      (error : HandlerError)
  | NotifiedSuccess (wsClientId : option string) (providerConfigKey connectionId : string)
      (pending : bool)
  | Redirected (url : string)
  | Threw (e : Error).

Section OAuth1Callback.
Variable E : Encryption.
Variable key : string.
Variable entropy : nat -> string.
Variable getIdByProviderConfigKey : Z -> string -> option Z.
Variable Date_now : Z.
Variable parseTokenExpirationDate : JsValue -> JsValue.
Variable parseInt10 : JsValue -> option Z.
Variable getConnectionMetadataFromCallbackRequest :
  gmap string string -> Template -> gmap string string.
Variable getAccountIdFromEnvironment : Z -> Result (option Z).
(** [new OAuth1Client(config, template, '').getOAuthAccessToken(token,
    secret, verifier)]: the access token result, or the rejection. *)
Variable getOAuthAccessToken :
  ProviderConfig -> Template -> string -> option string -> string -> Result JsValue.

(** [oauth1Callback].  The handler starts the token exchange and returns;
    the exchange, the upsert and the notification run in the promise chain
    that it leaves behind, which is followed here to its end. *)
Definition oauth1Callback (template : Template) (config : ProviderConfig)
    (session : OAuthSession) (req : CallbackRequest) (now : Z) (w : World)
  : HandlerAnswer * World :=
  let oauth_token := cb_query req !! "oauth_token" in
  let oauth_verifier := cb_query req !! "oauth_verifier" in
  let providerConfigKey := session_providerConfigKey session in
  let connectionId := session_connectionId session in
  let channel := session_webSocketClientId session in
  let metadata := getConnectionMetadataFromCallbackRequest (cb_query req) template in
  match given oauth_token, given oauth_verifier with
  | Some oauth_token, Some oauth_verifier =>
      let oauth_token_secret := session_requestTokenSecret session in
      match getAccountIdFromEnvironment (session_environmentId session) with
      | Err e => (Threw e, w)
      | Ok accountId =>
          let failure err :=
            NotifiedErr channel providerConfigKey connectionId
              (UnknownHandlerError (Some err)) in
          match getOAuthAccessToken config template oauth_token oauth_token_secret
                  oauth_verifier with
          | Err err => (failure err, w)
          | Ok accessTokenResult =>
              match parseRawCredentials Date_now parseTokenExpirationDate parseInt10
                      accessTokenResult OAuth1 with
              | Err err => (failure err, w)
              | Ok parsedAccessTokenResult =>
                  match upsertConnection E key entropy getIdByProviderConfigKey
                          connectionId providerConfigKey parsedAccessTokenResult
                          (objectOfMap (metadata ∪ session_connectionConfig session))
                          (session_environmentId session) JUndefined now w with
                  | (Err err, w1) => (failure err, w1)
                  | (Ok updatedConnection, w1) =>
                      (NotifiedSuccess channel providerConfigKey connectionId false, w1)
                  end
              end
          end
      end
  | _, _ =>
      (NotifiedErr channel providerConfigKey connectionId InvalidCallbackOAuth1, w)
  end.
End OAuth1Callback.

(** ** The protocol handlers of the callback: oauth2Callback *)

(** [s.split(sep)] for a separator of one character. *)
Fixpoint splitOn (sep : ascii) (s : string) : list string :=
  match s with
  | EmptyString => [EmptyString]
  | String c rest =>
      if Ascii.eqb c sep then EmptyString :: splitOn sep rest
      else match splitOn sep rest with
           | word :: words => String c word :: words
           | [] => [String c EmptyString]
           end
  end.

(** The overrides that [oauth2Callback] takes from the connection config of
    the session: a truthy [oauth_client_id_override],
    [oauth_client_secret_override] or [oauth_scopes]. *)
Definition callbackOverrides (config : ProviderConfig) (connectionConfig : gmap string string)
  : ProviderConfig :=
  withOAuthClient config
    (match given (connectionConfig !! "oauth_client_id_override") with
     | Some v => Some v
     | None => oauth_client_id config
     end)
    (match given (connectionConfig !! "oauth_client_secret_override") with
     | Some v => Some v
     | None => oauth_client_secret config
     end)
    (match given (connectionConfig !! "oauth_scopes") with
     | Some v => Some v
     | None => oauth_scopes config
     end).

(** ['Basic ' + Buffer.from(client_id + ':' + client_secret).toString('base64')];
    a null id or secret is written as the text null. *)
Definition basicAuthorization (config : ProviderConfig) : string :=
  "Basic " +:+ base64 (bytesOfString (default "null" (oauth_client_id config) +:+ ":"
                                      +:+ default "null" (oauth_client_secret config))).

(** [Object.keys(session.connectionConfig).reduce(...)]: the keys of the
    connection config of the session other than [name], each with the value
    that [connectionConfig] has for it. *)
Definition sessionKeysExcept (name : string) (sessionConfig : gmap string string)
    (connectionConfig : JsValue) : JsValue :=
  JObject (map (fun k => (k, getProp connectionConfig k))
               (filter (fun k => k <> name) (map_to_list sessionConfig).*1)).

(** The part of [oauth2Callback] between the parse of the credentials and
    the upsert: the credentials and the connection config to store, and
    whether the connection is pending. *)
Definition connectionToStore (template : Template) (config : ProviderConfig)
    (session : OAuthSession) (installationId : option string) (activityLogId : Z)
    (tokenMetadata callbackMetadata : gmap string string) (parsedRawCredentials : JsValue)
  : Result (JsValue * JsValue * bool) :=
  let connectionConfig :=
    objectOfMap (callbackMetadata ∪ tokenMetadata ∪ session_connectionConfig session) in
  '(connectionConfig, pending) ←
    (if bool_decide (auth_mode template = Custom)
        && negb (truthy (getProp connectionConfig "installation_id"))
        && bool_decide (installationId = None)
     then
       app_id ← readProp (custom config) "app_id";
       Ok (setProp (setProp (setProp connectionConfig "app_id" app_id)
                      "pending" (JBool true))
             "pendingLog" (JString (showZ activityLogId)), true)
     else Ok (connectionConfig, false));
  let connectionConfig :=
    match installationId with
    | Some installationId =>
        if bool_decide (auth_mode template = Custom)
        then setProp connectionConfig "installation_id" (JString installationId)
        else connectionConfig
    | None => connectionConfig
    end in
  let '(parsedRawCredentials, connectionConfig) :=
    if truthy (getProp connectionConfig "oauth_client_id_override")
    then (setProp parsedRawCredentials "config_override"
            (JObject [("client_id", getProp connectionConfig "oauth_client_id_override")]),
          sessionKeysExcept "oauth_client_id_override" (session_connectionConfig session)
            connectionConfig)
    else (parsedRawCredentials, connectionConfig) in
  let '(parsedRawCredentials, connectionConfig) :=
    if truthy (getProp connectionConfig "oauth_client_secret_override")
    then (setProp parsedRawCredentials "config_override"
            (setProp (JObject (assign [] (getProp parsedRawCredentials "config_override")))
               "client_secret" (getProp connectionConfig "oauth_client_secret_override")),
          sessionKeysExcept "oauth_client_secret_override" (session_connectionConfig session)
            connectionConfig)
    else (parsedRawCredentials, connectionConfig) in
  connectionConfig ←
    (let scopes := getProp connectionConfig "oauth_scopes_override" in
     if truthy scopes
     then match scopes with
          | JArray items => Ok connectionConfig
          | JString s =>
              Ok (setProp connectionConfig "oauth_scopes_override"
                    (JArray (map JString (splitOn "," s))))
          | _ => Err (TypeError "connectionConfig.oauth_scopes_override.split is not a function")
          end
     else Ok connectionConfig);
  Ok (parsedRawCredentials, connectionConfig, pending).

Section OAuth2Callback.
Variable E : Encryption.
Variable key : string.
Variable entropy : nat -> string.
Variable getIdByProviderConfigKey : Z -> string -> option Z.
Variable Date_now : Z.
Variable parseTokenExpirationDate : JsValue -> JsValue.
Variable parseInt10 : JsValue -> option Z.
Variable getConnectionMetadataFromCallbackRequest :
  gmap string string -> Template -> gmap string string.
Variable getConnectionMetadataFromTokenResponse : JsValue -> Template -> gmap string string.
Variable getAccountIdFromEnvironment : Z -> Result (option Z).
(** The [token_params] of a template; the record [Template] keeps their
    grant type only. *)
Variable token_params : Template -> option (gmap string string).
(** [new simpleOauth2.AuthorizationCode(getSimpleOAuth2ClientConfig(config,
    template, connectionConfig))]: the error it throws for a configuration
    that it does not accept. *)
Variable newAuthorizationCode :
  ProviderConfig -> Template -> gmap string string -> option Error.
(** [simpleOAuthClient.getToken(params, { headers })]: the token of the
    answer, or the error thrown. *)
Variable simpleGetToken :
  ProviderConfig -> Template -> gmap string string ->
  gmap string string -> gmap string string -> Result JsValue.
Variable shouldUseProviderClient : string -> bool.
(** [providerClientManager.getToken(config, tokenUrl, code, callbackUrl,
    codeVerifier)] *)
Variable providerGetToken :
  ProviderConfig -> string -> string -> string -> string -> Result JsValue.
(** [connectionService.getAppCredentialsAndFinishConnection], which fetches
    the credentials of the app installation and stores them. *)
Variable getAppCredentialsAndFinishConnection :
  string -> ProviderConfig -> Template -> JsValue -> Z -> World -> Result unit * World.

(** The token parameters that [oauth2Callback] adds to the code and the
    redirect URI: the [token_params] of the template and, unless the
    template disables PKCE, the code verifier of the session. *)
Definition additionalTokenParams (template : Template) (session : OAuthSession)
  : gmap string string :=
  let additionalTokenParams := default ∅ (token_params template) in
  if negb (disable_pkce template)
  then <["code_verifier" := session_codeVerifier session]> additionalTokenParams
  else additionalTokenParams.

(** [headers] of the token request. *)
Definition tokenRequestHeaders (template : Template) (config : ProviderConfig)
  : gmap string string :=
  if bool_decide (token_request_auth_method template = Some "basic")
  then {["Authorization" := basicAuthorization config]}
  else ∅.

(** The exchange of the code for the raw credentials, by the provider
    client or by the generic client. *)
Definition exchangeCode (template : Template) (config : ProviderConfig)
    (session : OAuthSession) (code : string) : Result JsValue :=
  let tokenUrl := tokenUrlFor template OAuth2 in
  if shouldUseProviderClient (session_provider session)
  then providerGetToken config tokenUrl code (session_callbackUrl session)
         (session_codeVerifier session)
  else simpleGetToken config template (session_connectionConfig session)
         (additionalTokenParams template session
          ∪ {[ "code" := code; "redirect_uri" := session_callbackUrl session ]})
         (tokenRequestHeaders template config).

Definition oauth2Callback (template : Template) (config : ProviderConfig)
    (session : OAuthSession) (req : CallbackRequest) (activityLogId : Z) (now : Z)
    (w : World) : HandlerAnswer * World :=
  let providerConfigKey := session_providerConfigKey session in
  let connectionId := session_connectionId session in
  let channel := session_webSocketClientId session in
  let callbackMetadata := getConnectionMetadataFromCallbackRequest (cb_query req) template in
  let installationId := given (cb_installation_id req) in
  match given (cb_query req !! "code") with
  | None => (NotifiedErr channel providerConfigKey connectionId InvalidCallbackOAuth2, w)
  | Some code =>
  if bool_decide (session_authMode session = Custom)
     && bool_decide (cb_setup_action req = Some "update")
     && bool_decide (installationId <> None)
  then
    match given (cb_state req) with
    | None => (Redirected (default "https://github.com" (given (cb_referer req))), w)
    | Some _ => (NotifiedSuccess channel providerConfigKey connectionId false, w)
    end
  else
  let config := callbackOverrides config (session_connectionConfig session) in
  match newAuthorizationCode config template (session_connectionConfig session) with
  | Some e => (Threw e, w)
  | None =>
  let unknown :=
    NotifiedErr channel providerConfigKey connectionId (UnknownHandlerError None) in
  match exchangeCode template config session code with
  | Err err => (unknown, w)
  | Ok rawCredentials =>
  let tokenMetadata := getConnectionMetadataFromTokenResponse rawCredentials template in
  match parseRawCredentials Date_now parseTokenExpirationDate parseInt10
          rawCredentials OAuth2 with
  | Err err => (unknown, w)
  | Ok parsedRawCredentials =>
  match getAccountIdFromEnvironment (session_environmentId session) with
  | Err err => (unknown, w)
  | Ok accountId =>
  match connectionToStore template config session installationId activityLogId
          tokenMetadata callbackMetadata parsedRawCredentials with
  | Err err => (unknown, w)
  | Ok (parsedRawCredentials, connectionConfig, pending) =>
  match upsertConnection E key entropy getIdByProviderConfigKey
          connectionId providerConfigKey parsedRawCredentials connectionConfig
          (session_environmentId session) JUndefined now w with
  | (Err err, w1) => (unknown, w1)
  | (Ok updatedConnection, w1) =>
      if bool_decide (auth_mode template = Custom) && bool_decide (installationId <> None)
      then
        match getAppCredentialsAndFinishConnection connectionId config template
                connectionConfig activityLogId w1 with
        | (Err err, w2) => (unknown, w2)
        | (Ok _, w2) => (NotifiedSuccess channel providerConfigKey connectionId false, w2)
        end
      else (NotifiedSuccess channel providerConfigKey connectionId pending, w1)
  end end end end end end end.
End OAuth2Callback.

(** The update request that the provider itself sends for a custom app. *)
Definition updateRequested (session : OAuthSession) (req : CallbackRequest) : bool :=
  bool_decide (session_authMode session = Custom)
  && bool_decide (cb_setup_action req = Some "update")
  && bool_decide (given (cb_installation_id req) <> None).

(** The credentials of an app installation are fetched after the upsert. *)
Definition finishesApp (template : Template) (req : CallbackRequest) : bool :=
  bool_decide (auth_mode template = Custom)
  && bool_decide (given (cb_installation_id req) <> None).

(** A generic client that answers every exchange with a token, and a
    session whose connection config overrides the client id. *)
Definition demoGetToken (config : ProviderConfig) (template : Template)
    (connectionConfig params headers : gmap string string) : Result JsValue :=
  Ok (JObject [("access_token", JString "at"); ("refresh_token", JString "rt")]).

Definition demoOauth2Callback :=
  oauth2Callback demoCipher "" demoEntropy demoConfigId demoNow demoParseDate demoParseInt
    (fun _ _ => ∅) (fun _ _ => ∅) (fun _ => Ok (Some 1)) (fun _ => None)
    (fun _ _ _ => None) demoGetToken (fun _ => false)
    (fun _ _ _ _ _ => Err (PlainError "no provider client"))
    (fun _ _ _ _ _ w => (Ok tt, w)).

Definition overrideSession : OAuthSession :=
  withConnectionConfig demoSession
    {[ "oauth_client_id_override" := "my-client"; "region" := "eu" ]}.

(** ** EncryptionManager: data records *)

(** The own properties of an object other than [k]: [rest] in
    [const { k: _, ...rest } = v]. *)
Definition withoutField (k : string) (v : JsValue) : list (string * JsValue) :=
  filter (fun kv => kv.1 <> k) (assign [] v).

Section DataRecords.
Variable E : Encryption.
Variable key : string.

(** The loop of [encryptDataRecords]: the [json] of every record is replaced
    by its envelope; [random] gives the bytes drawn for each record, in
    order.  The loop writes into the records of the array it was given.  A
    record is an object, as the type [DataRecord] has it; the assignment to
    a property of a primitive throws in strict mode. *)
Fixpoint encryptRecords (random : nat -> string) (n : nat) (dataRecords : list JsValue)
  : Result (list JsValue) :=
  match dataRecords with
  | [] => Ok []
  | dataRecord :: rest =>
      json ← readProp dataRecord "json";
      text ← stringArg (JSON_stringify json);
      let '(encryptedValue, iv, authTag) := encrypt E key (random n) text in
      match dataRecord with
      | JObject _ =>
          rest' ← encryptRecords random (S n) rest;
          Ok (setProp dataRecord "json"
                (JObject [ ("encryptedValue", JString encryptedValue);
                           ("iv", JString iv);
                           ("authTag", JString authTag) ])
              :: rest')
      | _ => Err (TypeError "Cannot create property 'json'")
      end
  end.

Definition encryptDataRecords (random : nat -> string) (dataRecords : list JsValue)
  : Result (list JsValue) :=
  if negb (shouldEncrypt key) then Ok dataRecords
  else encryptRecords random 0 dataRecords.

(** The loop of [decryptDataRecords]. *)
Fixpoint decryptRecords (field : string) (dataRecords : list JsValue)
  : Result (list JsValue) :=
  match dataRecords with
  | [] => Ok []
  | dataRecord :: rest =>
      record ← readProp dataRecord field;
      encryptedValue ← readProp record "encryptedValue";
      if negb (truthy encryptedValue) then
        rest' ← decryptRecords field rest;
        Ok (dataRecord :: rest')
      else
        text ← stringArg (asString encryptedValue);
        iv ← stringArg (asString (getProp record "iv"));
        authTag ← stringArg (asString (getProp record "authTag"));
        decryptedString ← decrypt E key text iv authTag;
        parsed ← JSON_parse decryptedString;
        let updatedRecord := JObject (assign [] parsed) in
        let decrypted :=
          if truthy (getProp record "_nango_metadata")
          then JObject [(field, setProp updatedRecord "_nango_metadata"
                                  (getProp record "_nango_metadata"))]
          else JObject (setField "record" updatedRecord (withoutField "record" dataRecord)) in
        rest' ← decryptRecords field rest;
        Ok (decrypted :: rest')
  end.

Definition decryptDataRecords (dataRecords : option (list JsValue)) (field : string)
  : Result (option (list JsValue)) :=
  match dataRecords with
  | None => Ok None
  | Some dataRecords =>
      decrypted ← decryptRecords field dataRecords;
      Ok (Some decrypted)
  end.
End DataRecords.

(** What a record that went through both loops looks like. *)
Definition readsBackAs (original decrypted : JsValue) : Prop :=
  exists d,
    toJSON (getProp original "json") = Some d
    /\ getProp decrypted "record" = JObject (assign [] d)
    /\ truthy (getProp (getProp decrypted "json") "encryptedValue") = true
    /\ forall k, k <> "json" -> k <> "record" -> getProp decrypted k = getProp original k.

Definition demoDataRecords : list JsValue :=
  [ JObject [("id", JNumber 1); ("json", JObject [("name", JString "ada")])];
    JObject [("id", JNumber 2); ("json", JObject [("name", JString "bob"); ("n", JNumber 7)])] ].

(** ** The controller of connections without credentials: UnAuthController.create *)

(** The request that [create] handles: the provider config key of the path
    and the query parameters that it reads. *)
Record UnauthRequest : Type := {
  ua_providerConfigKey : option string;
  ua_connection_id : option string;
  ua_hmac : option string
}.

Section UnAuthController.
Variable getIdByProviderConfigKey : Z -> string -> option Z.
Variable hmacEnabled : Z -> bool.
Variable hmacVerify : string -> Z -> string -> string -> bool.
Variable getProviderConfig : string -> Z -> option ProviderConfig.
Variable getTemplate : string -> Result Template.

Definition create (req : UnauthRequest) (environmentId : Z) (now : Z) (w : World)
  : HttpAnswer * World :=
  match given (ua_providerConfigKey req) with
  | None => (ErrRes "missing_connection", w)
  | Some providerConfigKey =>
  match given (ua_connection_id req) with
  | None => (ErrRes "missing_connection_id", w)
  | Some connectionId =>
  let hmacFailure :=
    if hmacEnabled environmentId then
      match given (ua_hmac req) with
      | None => Some "missing_hmac"
      | Some hmac =>
          if hmacVerify hmac environmentId providerConfigKey connectionId
          then None else Some "invalid_hmac"
      end
    else None in
  match hmacFailure with
  | Some code => (ErrRes code, w)
  | None =>
  match getProviderConfig providerConfigKey environmentId with
  | None => (ErrRes "unknown_provider_config", w)
  | Some config =>
  match getTemplate (provider config) with
  | Err e => (NextErr e, w)
  | Ok template =>
  if negb (bool_decide (auth_mode template = NoneMode))
  then (ErrRes "invalid_auth_mode", w)
  else
    match upsertUnauthConnection getIdByProviderConfigKey connectionId providerConfigKey
            environmentId now w with
    | (Err e, w1) => (NextErr e, w1)
    | (Ok updatedConnection, w1) =>
        (Status200 (JObject [("providerConfigKey", JString providerConfigKey);
                             ("connectionId", JString connectionId)]), w1)
    end
  end end end end end.
End UnAuthController.

(* ===================================================================== *)
(** * Part II. Theorems                                                   *)
(* ===================================================================== *)

(** ** JSON text: reading back what was written *)

Lemma append_assoc_str (a b c : string) : (a +:+ b) +:+ c = a +:+ (b +:+ c).
Proof. induction a; simpl; congruence. Qed.

Lemma readUint_render (u : Decimal.uint) (rest : string) :
  startsWithDigit rest = false ->
  readUint (renderUint u +:+ rest) = (u, rest).
Proof.
  intros Hrest. induction u; simpl; try (rewrite IHu; reflexivity).
  destruct rest as [|c r]; [reflexivity|]. simpl in *.
  destruct (digitOf c); [|reflexivity].
  rewrite bool_decide_eq_false in Hrest. exfalso. apply Hrest. eauto.
Qed.

(** Reading back one written character, whatever it is. *)
Lemma readString_escapeChar (c : ascii) (rest : string) :
  readString (escapeChar c +:+ rest)
  = '(str, r) ← readString rest; Some (String c str, r).
Proof.
  destruct c as [[] [] [] [] [] [] [] []]; reflexivity.
Qed.

Lemma readString_escape (s rest : string) :
  readString (escape s +:+ String quoteChar rest) = Some (s, rest).
Proof.
  induction s as [|c s IH]; [reflexivity|].
  cbn [escape]. rewrite append_assoc_str, readString_escapeChar, IH. reflexivity.
Qed.

Lemma append_nil_r_str (a : string) : a +:+ "" = a.
Proof. induction a; simpl; congruence. Qed.

Lemma length_append_str (a b : string) :
  String.length (a +:+ b) = (String.length a + String.length b)%nat.
Proof. induction a; simpl; congruence. Qed.

Lemma renderUint_digits_nonempty u : u <> Decimal.Nil -> renderUint u <> "".
Proof. destruct u; simpl; congruence. Qed.

Lemma N_to_uint_not_nil n : N.to_uint n <> Decimal.Nil.
Proof.
  destruct n as [|p]; simpl; [discriminate|].
  intros H. pose proof (DecimalPos.Unsigned.to_uint_nonnil p). contradiction.
Qed.

Lemma readNat_render (n : N) (rest : string) :
  startsWithDigit rest = false ->
  readNat (renderUint (N.to_uint n) +:+ rest) = Some (n, rest).
Proof.
  intros Hrest. unfold readNat. rewrite readUint_render by assumption.
  pose proof (N_to_uint_not_nil n) as Hn.
  destruct (N.to_uint n) eqn:E; try contradiction; rewrite <- E;
    rewrite DecimalN.Unsigned.of_to; reflexivity.
Qed.

Lemma renderNumber_parse fuel n rest :
  followsValue rest ->
  parseValue (S fuel) (renderNumber n +:+ rest) = Some (JNumber n, rest).
Proof.
  intros Hrest. unfold renderNumber.
  destruct (n <? 0) eqn:Hneg.
  - simpl. rewrite readNat_render by assumption. simpl.
    f_equal. f_equal. f_equal. apply Z.ltb_lt in Hneg. lia.
  - apply Z.ltb_ge in Hneg.
    pose proof (N_to_uint_not_nil (Z.to_N n)) as Hn.
    pose proof (readNat_render (Z.to_N n) rest Hrest) as Hread.
    destruct (N.to_uint (Z.to_N n)) eqn:E; try contradiction;
      simpl in *; rewrite Hread; simpl; rewrite Z2N.id by assumption; reflexivity.
Qed.

Lemma render_array xs : render (JArray xs) = String "[" (renderElems xs).
Proof.
  reflexivity.
Qed.

Lemma render_object fs : render (JObject fs) = String "{" (renderMembers fs).
Proof.
  reflexivity.
Qed.

Lemma headIs_append P s t : headIs P s -> headIs P (s +:+ t).
Proof. destruct s; simpl; tauto. Qed.

Lemma renderUint_head u :
  u <> Decimal.Nil -> headIs (fun c => is_Some (digitOf c)) (renderUint u).
Proof. destruct u; simpl; intros; try congruence; eauto. Qed.

(** The text of a value never starts with a closing bracket or brace. *)
Lemma render_head v :
  headIs (fun c => Ascii.eqb c "]" = false /\ Ascii.eqb c "}" = false) (render v).
Proof.
  destruct v; simpl; auto.
  - destruct b; simpl; auto.
  - unfold renderNumber. destruct (n <? 0); simpl; auto.
    pose proof (renderUint_head _ (N_to_uint_not_nil (Z.to_N n))) as H.
    destruct (renderUint (N.to_uint (Z.to_N n))) as [|c s]; simpl in *; [tauto|].
    destruct H as [d Hd]. unfold digitOf in Hd.
    repeat match type of Hd with
           | context [Ascii.eqb c ?k] =>
               let E := fresh in destruct (Ascii.eqb c k) eqn:E;
               [apply Ascii.eqb_eq in E; subst c; simpl; auto|]
           end.
    discriminate.
Qed.

Ltac parse_head Hx Hpx :=
  rewrite ?append_assoc_str; simpl String.append;
  match goal with
  | |- context [parseValue ?f (render ?x +:+ ?r)] =>
      let H := fresh in
      assert (parseValue f (render x +:+ r) = Some (x, r)) as H
        by (apply (Hx Hpx f r); [lia | reflexivity]);
      rewrite H; clear H
  end.

Lemma renderElems_cons x xs :
  xs <> [] -> renderElems (x :: xs) = render x +:+ String "," (renderElems xs).
Proof. destruct xs; [congruence | reflexivity]. Qed.

Lemma renderMembers_cons k x fs :
  fs <> [] ->
  renderMembers ((k, x) :: fs)
  = renderString k +:+ String ":" (render x +:+ String "," (renderMembers fs)).
Proof. destruct fs as [|[? ?] ?]; [congruence | reflexivity]. Qed.

Lemma parseElems_render xs :
  xs <> [] -> Forall parsesBack xs -> forallb isPlain xs = true ->
  forall fuel rest,
    (list_sum (map (fun x => S (cost x)) xs) <= fuel)%nat ->
    parseElems fuel (renderElems xs +:+ rest) = Some (xs, rest).
Proof.
  induction xs as [|x xs IH]; [congruence|].
  intros _ Hall Hplain fuel rest Hfuel.
  inversion Hall as [|? ? Hx Hxs]; subst.
  simpl in Hplain. apply andb_true_iff in Hplain as [Hpx Hpxs].
  simpl in Hfuel. destruct fuel as [|fuel]; [lia|].
  destruct (decide (xs = [])) as [->|Hne].
  - change (renderElems [x]) with (render x +:+ "]").
    cbn [parseElems]. parse_head Hx Hpx. reflexivity.
  - rewrite renderElems_cons by assumption.
    cbn [parseElems]. parse_head Hx Hpx.
    cbn [mbind option_bind]. simpl Ascii.eqb. cbv iota.
    rewrite IH; [reflexivity|assumption|assumption|assumption|lia].
Qed.

Lemma parseMembers_render fs :
  fs <> [] -> Forall (fun kv => parsesBack kv.2) fs ->
  forallb (fun kv => isPlain kv.2) fs = true ->
  forall fuel rest,
    (list_sum (map (fun kv => S (cost kv.2)) fs) <= fuel)%nat ->
    parseMembers fuel (renderMembers fs +:+ rest) = Some (fs, rest).
Proof.
  induction fs as [|[k x] fs IH]; [congruence|].
  intros _ Hall Hplain fuel rest Hfuel.
  inversion Hall as [|? ? Hx Hxs]; subst. simpl in Hx.
  simpl in Hplain. apply andb_true_iff in Hplain as [Hpx Hpxs].
  simpl in Hfuel. destruct fuel as [|fuel]; [lia|].
  destruct (decide (fs = [])) as [->|Hne].
  - change (renderMembers [(k, x)])
      with (renderString k +:+ String ":" (render x +:+ "}")).
    unfold renderString at 1. simpl String.append. rewrite !append_assoc_str.
    simpl String.append. cbn [parseMembers]. simpl Ascii.eqb. cbv iota.
    rewrite readString_escape. cbn [mbind option_bind]. simpl Ascii.eqb. cbv iota.
    parse_head Hx Hpx. reflexivity.
  - rewrite renderMembers_cons by assumption.
    unfold renderString at 1. simpl String.append. rewrite !append_assoc_str.
    simpl String.append. cbn [parseMembers]. simpl Ascii.eqb. cbv iota.
    rewrite readString_escape. cbn [mbind option_bind]. simpl Ascii.eqb. cbv iota.
    parse_head Hx Hpx.
    cbn [mbind option_bind]. simpl Ascii.eqb. cbv iota.
    rewrite IH; [reflexivity|assumption|assumption|assumption|lia].
Qed.

Lemma renderElems_head x xs rest :
  exists c s, renderElems (x :: xs) +:+ rest = String c s /\ Ascii.eqb c "]" = false.
Proof.
  pose proof (render_head x) as Hhead.
  destruct xs; simpl; destruct (render x) as [|c s]; simpl in *; try tauto;
    eexists _, _; (split; [reflexivity | tauto]).
Qed.

Lemma renderMembers_head k x fs rest :
  exists c s, renderMembers ((k, x) :: fs) +:+ rest = String c s /\ Ascii.eqb c "}" = false.
Proof.
  destruct fs as [|[? ?] ?]; simpl; eexists _, _; (split; [reflexivity | reflexivity]).
Qed.

Lemma parse_render v : parsesBack v.
Proof.
  induction v using JsValue_ind; intros Hplain fuel rest Hfuel Hrest;
    try discriminate; (destruct fuel as [|fuel]; [simpl in Hfuel; lia|]).
  - reflexivity.
  - destruct b; reflexivity.
  - apply renderNumber_parse; assumption.
  - simpl. rewrite append_assoc_str. simpl. rewrite readString_escape. reflexivity.
  - destruct xs as [|x xs]; [reflexivity|].
    simpl in Hplain, Hfuel.
    pose proof (parseElems_render (x :: xs)) as HE.
    specialize (HE ltac:(congruence) H Hplain fuel rest ltac:(simpl; lia)).
    destruct (renderElems_head x xs rest) as (c & s & E & Hc).
    change (render (JArray (x :: xs)) +:+ rest)
      with (String "[" (renderElems (x :: xs) +:+ rest)).
    rewrite E in *. cbn [parseValue]. simpl Ascii.eqb. cbv iota.
    rewrite Hc, HE. reflexivity.
  - destruct fs as [|[k x] fs]; [reflexivity|].
    simpl in Hplain, Hfuel.
    pose proof (parseMembers_render ((k, x) :: fs)) as HE.
    specialize (HE ltac:(congruence) H Hplain fuel rest ltac:(simpl; lia)).
    destruct (renderMembers_head k x fs rest) as (c & s & E & Hc).
    change (render (JObject ((k, x) :: fs)) +:+ rest)
      with (String "{" (renderMembers ((k, x) :: fs) +:+ rest)).
    rewrite E in *. cbn [parseValue]. simpl Ascii.eqb. cbv iota.
    rewrite Hc, HE. reflexivity.
Qed.

Lemma cost_le_length v : (cost v <= String.length (render v))%nat.
Proof.
  induction v using JsValue_ind; simpl; try lia.
  - destruct b; simpl; lia.
  - unfold renderNumber. destruct (n <? 0); simpl; [lia|].
    pose proof (renderUint_head _ (N_to_uint_not_nil (Z.to_N n))).
    destruct (renderUint _); simpl in *; [tauto | lia].
  - change (S (list_sum (map (fun x => S (cost x)) xs))
            <= S (String.length (renderElems xs)))%nat.
    apply le_n_S. induction H as [|x xs Hx Hxs IH]; simpl; [lia|].
    destruct xs; simpl in *; rewrite length_append_str; simpl; lia.
  - change (S (list_sum (map (fun kv => S (cost kv.2)) fs))
            <= S (String.length (renderMembers fs)))%nat.
    apply le_n_S. induction H as [|[k x] fs Hx Hxs IH]; simpl in *; [lia|].
    destruct fs as [|[? ?] ?]; simpl in *;
      rewrite ?length_append_str; simpl; rewrite ?length_append_str; simpl; lia.
Qed.

Theorem JSON_parse_render v : isPlain v = true -> JSON_parse (render v) = Ok v.
Proof.
  intros Hplain. unfold JSON_parse.
  pose proof (parse_render v Hplain (String.length (render v)) "" (cost_le_length v) eq_refl) as H.
  rewrite append_nil_r_str in H. rewrite H. reflexivity.
Qed.


(** ** The encryption envelope *)

Lemma toJSON_plain v : isPlain v = true -> toJSON v = Some v.
Proof.
  induction v using JsValue_ind; simpl; intros Hp; try reflexivity; try discriminate.
  - f_equal. f_equal. induction H as [|x xs Hx Hxs IH]; [reflexivity|].
    simpl in Hp. apply andb_true_iff in Hp as [Hpx Hpxs].
    simpl. rewrite (Hx Hpx). simpl. f_equal. auto.
  - f_equal. f_equal. induction H as [|[k x] fs Hx Hxs IH]; [reflexivity|].
    simpl in Hp, Hx. apply andb_true_iff in Hp as [Hpx Hpxs].
    rewrite (Hx Hpx). f_equal. auto.
Qed.

Lemma toJSON_isPlain v d : toJSON v = Some d -> isPlain d = true.
Proof.
  revert d. induction v using JsValue_ind; simpl; intros d Hd;
    try (injection Hd as <-; reflexivity); try discriminate.
  - destruct ms; injection Hd as <-; reflexivity.
  - injection Hd as <-. simpl.
    induction H as [|x xs Hx Hxs IH]; [reflexivity|].
    simpl. rewrite IH, andb_true_r.
    destruct (toJSON x) as [dx|]; simpl; eauto.
  - injection Hd as <-. simpl.
    induction H as [|[k x] fs Hx Hxs IH]; [reflexivity|].
    simpl in Hx. destruct (toJSON x) as [dx|]; simpl; [|exact IH].
    rewrite IH, andb_true_r. eauto.
Qed.

(** What [JSON.parse(JSON.stringify(v))] evaluates to. *)
Lemma JSON_parse_stringify v d :
  toJSON v = Some d -> JSON_stringify v = Some (render d) /\ JSON_parse (render d) = Ok d.
Proof.
  intros Hd. unfold JSON_stringify. rewrite Hd. split; [reflexivity|].
  apply JSON_parse_render. eapply toJSON_isPlain; eassumption.
Qed.

Lemma demoCipher_sound : EncryptionSound demoCipher.
Proof.
  intros key random text. simpl. rewrite String.eqb_refl. reflexivity.
Qed.

Lemma demoCipher_tagged : EncryptionTagged demoCipher.
Proof. intros key random text. simpl. split; discriminate. Qed.

Section EnvelopeFacts.
Variable E : Encryption.
Variable key : string.

Lemma encryptConnection_disabled random c :
  shouldEncrypt key = false -> encryptConnection E key random c = Ok c.
Proof. unfold encryptConnection. intros ->. reflexivity. Qed.

Lemma decryptConnection_unencrypted c :
  credentials_iv c = None \/ credentials_tag c = None ->
  decryptConnection E key (Some c) = Ok (Some c).
Proof.
  unfold decryptConnection. intros [-> | ->]; [reflexivity|].
  destruct (credentials_iv c); reflexivity.
Qed.

Lemma encryptConnection_enabled random c d :
  shouldEncrypt key = true -> toJSON (credentials c) = Some d ->
  encryptConnection E key random c
  = Ok (let '(enc, iv, authTag) := encrypt E key random (render d) in
        withCredentials c (JObject [("encrypted_credentials", JString enc)])
          (Some iv) (Some authTag)).
Proof.
  intros Hkey Hd. unfold encryptConnection. rewrite Hkey. simpl.
  unfold JSON_stringify. rewrite Hd. simpl.
  destruct (encrypt E key random (render d)) as [[enc iv] tag]. reflexivity.
Qed.
End EnvelopeFacts.

(** C6 (as amended).  With a key configured, [encryptConnection] stores the
    connection with the cipher text of [JSON.stringify(credentials)] for
    credentials and the IV and tag of this encryption, whatever IV and tag the
    connection carried before; decrypting what was stored gives the
    connection back with these IV and tag and with the JSON form of its
    credentials, [JSON.parse(JSON.stringify(credentials))], which is the
    input itself when the credentials hold JSON values only.  Credentials
    that are undefined make [encryptConnection] throw.  Without a key the
    connection is stored as it is, and it is read back as it is when it
    carries no IV or no tag. *)
Theorem envelope_round_trip (E : Encryption) (key random : string)
    (c : Connection) :
  EncryptionSound E ->
  if shouldEncrypt key then
    match toJSON (credentials c) with
    | Some d =>
        exists enc iv tag,
          encryptConnection E key random c
          = Ok (withCredentials c (JObject [("encrypted_credentials", JString enc)])
                  (Some iv) (Some tag)) /\
          decryptConnection E key
            (Some (withCredentials c (JObject [("encrypted_credentials", JString enc)])
                     (Some iv) (Some tag)))
          = Ok (Some (withCredentials c d (Some iv) (Some tag))) /\
          JSON_stringify (credentials c) = Some (render d) /\
          JSON_parse (render d) = Ok d /\
          (isPlain (credentials c) = true -> d = credentials c)
    | None => exists e, encryptConnection E key random c = Err e
    end
  else
    encryptConnection E key random c = Ok c /\
    (credentials_iv c = None \/ credentials_tag c = None ->
     decryptConnection E key (Some c) = Ok (Some c)).
Proof.
  intros Hsound.
  destruct (shouldEncrypt key) eqn:Hkey.
  - destruct (toJSON (credentials c)) as [d|] eqn:Hd.
    + rewrite (encryptConnection_enabled E key random c d Hkey Hd).
      specialize (Hsound key random (render d)).
      destruct (encrypt E key random (render d)) as [[enc iv] tag].
      exists enc, iv, tag. split; [reflexivity|].
      destruct (JSON_parse_stringify _ _ Hd) as [Hs Hp].
      split; [|split; [exact Hs|split; [exact Hp|]]].
      * simpl. rewrite Hsound. simpl. rewrite Hp. reflexivity.
      * intros Hplain. apply toJSON_plain in Hplain. congruence.
    + unfold encryptConnection, JSON_stringify. rewrite Hkey, Hd. simpl. eauto.
  - split; [apply encryptConnection_disabled; exact Hkey|].
    apply decryptConnection_unencrypted.
Qed.

Lemma envelope_round_trip_witness :
  exists stored,
    encryptConnection demoCipher "k" "r" apiKeyConnection = Ok stored /\
    decryptConnection demoCipher "k" (Some stored)
    = Ok (Some (withCredentials apiKeyConnection (credentials apiKeyConnection)
                  (credentials_iv stored) (credentials_tag stored))).
Proof.
  destruct (envelope_round_trip demoCipher "k" "r" apiKeyConnection demoCipher_sound)
    as (enc & iv & tag & Henc & Hdec & _).
  eexists. split; [exact Henc|]. exact Hdec.
Defined.

(** C6, the claim as stated fails: a freshly parsed OAuth2 credential carries
    a [Date] in [expires_at] and an undefined [refresh_token]; after
    encryption and decryption [expires_at] is a string and [refresh_token] is
    gone. *)
Lemma envelope_round_trip_changes_dates :
  decryptedCredentials (envelopeRoundTrip demoCipher "k" "r" oauth2Connection)
  = Ok (Some (JObject [ ("type", JMode OAuth2); ("access_token", JString "tok");
                        ("expires_at", JString "2023-11-14T22:13:20.000Z");
                        ("raw", JObject [("access_token", JString "tok");
                                         ("expires_in", JNumber 3600)]) ]))
  /\ JObject [ ("type", JMode OAuth2); ("access_token", JString "tok");
               ("expires_at", JString "2023-11-14T22:13:20.000Z");
               ("raw", JObject [("access_token", JString "tok");
                                ("expires_in", JNumber 3600)]) ]
     <> credentials oauth2Connection.
Proof. split; [vm_compute; reflexivity | discriminate]. Qed.

(** C10.  A stored row whose IV or tag is null is returned as it is, with no
    decryption attempted, whatever the key. *)
Theorem decryptConnection_skips_plain_rows (E : Encryption) (key : string)
    (c : Connection) :
  credentials_iv c = None \/ credentials_tag c = None ->
  decryptConnection E key (Some c) = Ok (Some c).
Proof. apply decryptConnection_unencrypted. Qed.

Lemma decryptConnection_skips_plain_rows_witness :
  decryptConnection demoCipher "secret-key" (Some oauth2Connection)
  = Ok (Some oauth2Connection).
Proof.
  apply (decryptConnection_skips_plain_rows demoCipher "secret-key" oauth2Connection).
  left. reflexivity.
Defined.


(** ** The credential parser *)

Section ParserFacts.
Variable Date_now : Z.
Variable parseTokenExpirationDate : JsValue -> JsValue.
Variable parseInt10 : JsValue -> option Z.

Lemma readProp_Ok o k v : readProp o k = Ok v -> isNullish o = false /\ v = getProp o k.
Proof.
  unfold readProp. destruct (isNullish o); [discriminate|].
  intros [= <-]. auto.
Qed.

Lemma parse_unsupported raw m :
  parsedMode m = false ->
  parseRawCredentials Date_now parseTokenExpirationDate parseInt10 raw m
  = Err (NangoError (unknownCredentialsType raw)).
Proof. destruct m; simpl; intros; try discriminate; reflexivity. Qed.


(** C7 (as amended).  [parseRawCredentials] either returns a complete
    credential object of the requested variant or throws.  On success the
    mode is one of OAuth2, OAuth1 and OAuth2CC, every field the parser
    insists on (OAuth2: access_token; OAuth1: oauth_token and
    oauth_token_secret; OAuth2CC: token) is present and non-empty in the
    result, the raw response is retained, and for OAuth2CC [client_id] and
    [client_secret] are the empty string, left for the caller to fill in.
    It throws exactly when the mode is another one, the raw response is
    null or undefined, or one of those fields is missing or empty; for
    another mode the message of the error ends with the raw response as
    [JSON.stringify(rawCreds, undefined, 2)] prints it. *)
Theorem parseRawCredentials_all_or_nothing (raw : JsValue) (m : AuthModes) :
  match parseRawCredentials Date_now parseTokenExpirationDate parseInt10 raw m with
  | Ok creds =>
      parsedMode m = true /\
      hasType creds m = true /\
      hasFields (checkedFields m) creds = true /\
      hasFields (checkedFields m) raw = true /\
      getProp creds "raw" = raw /\
      match m with
      | OAuth2CC =>
          getProp creds "client_id" = JString "" /\
          getProp creds "client_secret" = JString ""
      | _ => True
      end
  | Err e =>
      (parsedMode m = false /\
       e = NangoError ("Cannot parse credentials, unknown credentials type: "
                       +:+ default "undefined" (JSON_stringify_indented 2 raw))) \/
      (parsedMode m = true /\ isNullish raw = true) \/
      (parsedMode m = true /\ hasFields (checkedFields m) raw = false /\
       e = NangoError "incomplete_raw_credentials")
  end.
Proof.
    unfold parseRawCredentials, readProp.
    destruct m; try (left; split; reflexivity);
      (destruct (isNullish raw) eqn:Hnull; [right; left; split; reflexivity|]);
      cbn [mbind Result_bind negb orb].
    - (* OAuth1 *)
      destruct (truthy (getProp raw "oauth_token")) eqn:H1;
        [destruct (truthy (getProp raw "oauth_token_secret")) eqn:H2|];
        cbn [negb orb].
      + unfold hasType, hasFields, checkedFields. cbn. rewrite H1, H2.
        repeat split; reflexivity.
      + right; right. unfold hasFields; cbn. rewrite H1, H2. auto.
      + right; right. unfold hasFields; cbn. rewrite H1. auto.
    - (* OAuth2 *)
      destruct (truthy (getProp raw "access_token")) eqn:H1; cbn [negb].
      + unfold hasType, hasFields, checkedFields. cbn. rewrite H1.
        repeat split; reflexivity.
      + right; right. unfold hasFields; cbn. rewrite H1. auto.
    - (* OAuth2CC *)
      destruct (truthy (getProp raw "token")) eqn:H1; cbn [negb].
      + unfold hasType, hasFields, checkedFields. cbn. rewrite H1.
        repeat split; reflexivity.
      + right; right. unfold hasFields; cbn. rewrite H1. auto.
Qed.
End ParserFacts.

(** C7, the claim as stated fails: a client-credentials response with a token
    is accepted, and the credential it yields has an empty [client_id] and an
    empty [client_secret], two of the fields the claim requires to be
    non-empty. *)
Lemma parseRawCredentials_client_credentials_empty :
  demoParse (JObject [("token", JString "t0"); ("expires_in", JNumber 3600)]) OAuth2CC
  = Ok (JObject [ ("type", JString "OAUTH2_CC"); ("token", JString "t0");
                  ("client_id", JString ""); ("client_secret", JString "");
                  ("expires_at", JDate (Some 1700003600000));
                  ("raw", JObject [("token", JString "t0"); ("expires_in", JNumber 3600)]) ])
  /\ hasFields (specRequiredFields OAuth2CC)
       (JObject [ ("type", JString "OAUTH2_CC"); ("token", JString "t0");
                  ("client_id", JString ""); ("client_secret", JString "");
                  ("expires_at", JDate (Some 1700003600000));
                  ("raw", JObject [("token", JString "t0"); ("expires_in", JNumber 3600)]) ])
     = false.
Proof. split; reflexivity. Qed.

(** The error of the default case on an example: the message ends with the
    raw response on three lines, the member indented by two spaces. *)
Lemma parseRawCredentials_unknown_mode_message :
  demoParse (JObject [("apiKey", JString "k"); ("note", JUndefined)]) ApiKey
  = Err (NangoError
           ("Cannot parse credentials, unknown credentials type: {" +:+ lineBreak 2
            +:+ renderString "apiKey" +:+ ": " +:+ renderString "k"
            +:+ lineBreak 0 +:+ "}"))
  /\ demoParse JUndefined Basic
     = Err (NangoError "Cannot parse credentials, unknown credentials type: undefined").
Proof. split; reflexivity. Qed.

(** ** The connections table: lookup and upsert *)

Lemma toJSON_defined v : v <> JUndefined -> exists d, toJSON v = Some d.
Proof. destruct v; simpl; try destruct ms; eauto; congruence. Qed.

Lemma checkIfConnectionExists_Some cid pck env w r :
  checkIfConnectionExists cid pck env w = Some r ->
  r ∈ connections w /\ hasKey cid pck env r = true /\ deleted r = false.
Proof.
  unfold checkIfConnectionExists. intros H.
  apply head_Some_elem_of in H. apply list_elem_of_filter in H as [Hlive Hin].
  unfold liveWithKey in Hlive. apply andb_true_iff in Hlive as [Hk Hd].
  apply negb_true_iff in Hd. auto.
Qed.

Lemma checkIfConnectionExists_None cid pck env w :
  checkIfConnectionExists cid pck env w = None ->
  Forall (fun r => liveWithKey cid pck env r = false) (connections w).
Proof.
  unfold checkIfConnectionExists. intros H. apply head_None in H.
  apply Forall_forall. intros r Hin.
  destruct (liveWithKey cid pck env r) eqn:Hl; [|reflexivity].
  assert (r ∈ filter (fun r => liveWithKey cid pck env r = true) (connections w)) as Hf
    by (apply list_elem_of_filter; auto).
  rewrite H in Hf. inversion Hf.
Qed.

Section UpsertFacts.
Variable E : Encryption.
Variable key : string.
Variable entropy : nat -> string.
Variable getIdByProviderConfigKey : Z -> string -> option Z.

(** Encrypting the object built by [upsertConnection] succeeds when the
    credentials are not undefined, leaves the tables alone and keeps every
    field but the credentials, the IV and the tag. *)
Lemma encryptConnectionStep_ok object w :
  credentials object <> JUndefined ->
  exists creds iv tag w1,
    encryptConnectionStep E key entropy object w
    = (Ok (withCredentials object creds iv tag), w1) /\
    connections w1 = connections w /\
    connections_id_seq w1 = connections_id_seq w /\
    writes w1 = writes w.
Proof.
  intros Hdef. destruct (toJSON_defined _ Hdef) as [d Hd].
  unfold encryptConnectionStep. destruct (shouldEncrypt key) eqn:Hkey.
  - rewrite (encryptConnection_enabled E key _ object d Hkey Hd).
    destruct (encrypt E key (entropy (draws w)) (render d)) as [[enc iv] tag].
    eexists _, _, _, _. split; [reflexivity|]. auto.
  - rewrite encryptConnection_disabled by assumption.
    exists (credentials object), (credentials_iv object), (credentials_tag object), w.
    destruct object; auto.
Qed.

Lemma liveWithId_unique w stored r :
  tableWf w -> stored ∈ connections w -> r ∈ connections w ->
  liveWithId (id stored) r = true -> r = stored.
Proof.
  intros [Hnodup _] Hs Hr Hlive. unfold liveWithId in Hlive.
  destruct (id stored) as [a|] eqn:Ha; [|discriminate].
  destruct (id r) as [b|] eqn:Hb; [|discriminate].
  apply andb_true_iff in Hlive as [Hab _]. apply Z.eqb_eq in Hab. subst b.
  apply list_elem_of_lookup in Hs as [i Hi]. apply list_elem_of_lookup in Hr as [j Hj].
  assert (i = j) as ->.
  { eapply NoDup_lookup; [exact Hnodup| |]; rewrite list_lookup_fmap.
    - rewrite Hi. simpl. rewrite Ha. reflexivity.
    - rewrite Hj. simpl. rewrite Hb. reflexivity. }
  congruence.
Qed.



Lemma filter_none_live cid pck env rows :
  Forall (fun r => liveWithKey cid pck env r = false) rows ->
  filter (fun r => liveWithKey cid pck env r = true) rows = [].
Proof.
  induction 1 as [|r rows Hr _ IH]; [reflexivity|].
  rewrite filter_cons. rewrite decide_False by congruence. exact IH.
Qed.




End UpsertFacts.

Lemma demoWorld_wf : tableWf demoWorld.
Proof.
  split.
  - apply (bool_decide_unpack _). vm_compute. exact I.
  - repeat constructor; simpl; eexists; (split; [reflexivity | lia]).
Qed.


(** ** The one-time migration *)

Lemma Frame_refl w : Frame w w.
Proof. unfold Frame. auto 10. Qed.

Lemma Frame_trans w1 w2 w3 : Frame w1 w2 -> Frame w2 w3 -> Frame w1 w3.
Proof.
  unfold Frame. intros (A1 & A2 & A3 & A4 & A5 & A6) (B1 & B2 & B3 & B4 & B5 & B6).
  repeat split; try congruence. auto.
Qed.

Lemma connectionUpdates_app ws ws' :
  connectionUpdates (ws ++ ws') = (connectionUpdates ws ++ connectionUpdates ws')%list.
Proof. unfold connectionUpdates. apply omap_app. Qed.

(** A loop all of whose steps succeed within a frame succeeds within it. *)
Lemma forEachRow_Frame {Row : Type} (P : Row -> Prop) (skip : Row -> bool)
    (step : Row -> World -> Result unit * World) (Inv : World -> Prop) :
  (forall row w, P row -> Inv w ->
     exists w', step row w = (Ok (), w') /\ Frame w w' /\ Inv w') ->
  forall rows w, Forall P rows -> Inv w ->
    exists w', forEachRow skip step rows w = (Ok (), w') /\ Frame w w' /\ Inv w'.
Proof.
  intros Hstep rows. induction rows as [|row rows IH]; intros w Hrows Hinv; simpl.
  - exists w. auto using Frame_refl.
  - inversion Hrows as [|? ? Hrow Hrest]; subst.
    destruct (skip row); [auto|].
    destruct (Hstep row w Hrow Hinv) as (w1 & -> & HF1 & Hinv1).
    destruct (IH w1 Hrest Hinv1) as (w2 & -> & HF2 & Hinv2).
    exists w2. eauto using Frame_trans.
Qed.

Section MigrationFacts.
Variable E : Encryption.
Variable key : string.
Variable entropy : nat -> string.
Variable hashEncryptionKey : string -> string -> string.

Lemma encryptStep_Frame text w :
  exists enc iv tag w',
    encryptStep E key entropy text w = ((enc, iv, tag), w') /\ Frame w w' /\
    environments w' = environments w /\ configs w' = configs w /\
    environment_variables w' = environment_variables w /\
    data_records w' = data_records w.
Proof.
  unfold encryptStep.
  destruct (encrypt E key (entropy (draws w)) text) as [[enc iv] tag].
  eexists _, _, _, _. split; [reflexivity|]. unfold Frame. cbn. auto 10.
Qed.

Lemma migrateEnvironment_Frame environment w :
  exists w', migrateEnvironment E key entropy environment w = (Ok (), w') /\ Frame w w'.
Proof.
  unfold migrateEnvironment, encryptEnvironment.
  destruct (negb (shouldEncrypt key)).
  - eexists. split; [reflexivity|]. unfold Frame. cbn.
    rewrite connectionUpdates_app. cbn. rewrite app_nil_r. auto 10.
  - destruct (encryptStep_Frame (secret_key environment) w)
      as (enc & iv & tag & w1 & -> & HF1 & _).
    destruct (present (pending_secret_key environment)).
    + destruct (encryptStep_Frame (default "" (pending_secret_key environment)) w1)
        as (enc2 & iv2 & tag2 & w2 & -> & HF2 & _).
      eexists. split; [reflexivity|].
      eapply Frame_trans; [exact HF1|]. eapply Frame_trans; [exact HF2|].
      unfold Frame. cbn. rewrite connectionUpdates_app. cbn. rewrite app_nil_r. auto 10.
    + eexists. split; [reflexivity|].
      eapply Frame_trans; [exact HF1|].
      unfold Frame. cbn. rewrite connectionUpdates_app. cbn. rewrite app_nil_r. auto 10.
Qed.

Ltac frame_after_update :=
  unfold Frame; cbn; rewrite connectionUpdates_app; cbn; rewrite app_nil_r; auto 10.

Lemma migrateProviderConfig_Frame providerConfig w :
  exists w', migrateProviderConfig E key entropy providerConfig w = (Ok (), w') /\ Frame w w'.
Proof.
  unfold migrateProviderConfig, encryptProviderConfig.
  destruct (negb (shouldEncrypt key)); [eexists; split; [reflexivity|]; frame_after_update|].
  destruct (negb (present (oauth_client_secret providerConfig)));
    [eexists; split; [reflexivity|]; frame_after_update|].
  destruct (encryptStep_Frame (default "" (oauth_client_secret providerConfig)) w)
    as (enc & iv & tag & w1 & -> & HF1 & _).
  destruct (truthy (custom providerConfig)) eqn:Hcustom.
  - destruct (toJSON_defined (custom providerConfig)) as [d Hd].
    { intros Hu. rewrite Hu in Hcustom. discriminate. }
    unfold JSON_stringify. rewrite Hd. cbn [fmap option_fmap option_map stringArg].
    destruct (encryptStep_Frame (render d) w1) as (enc2 & iv2 & tag2 & w2 & -> & HF2 & _).
    eexists. split; [reflexivity|].
    eapply Frame_trans; [exact HF1|]. eapply Frame_trans; [exact HF2|]. frame_after_update.
  - eexists. split; [reflexivity|].
    eapply Frame_trans; [exact HF1|]. frame_after_update.
Qed.

Lemma migrateEnvironmentVariable_Frame environmentVariable w :
  exists w', migrateEnvironmentVariable E key entropy environmentVariable w = (Ok (), w')
     /\ Frame w w'.
Proof.
  unfold migrateEnvironmentVariable.
  destruct (encryptStep_Frame (value environmentVariable) w)
    as (enc & iv & tag & w1 & -> & HF1 & _).
  eexists. split; [reflexivity|].
  eapply Frame_trans; [exact HF1|]. frame_after_update.
Qed.

Lemma migrateDataRecord_Frame dataRecord w :
  recordOk dataRecord ->
  exists w', migrateDataRecord E key entropy dataRecord w = (Ok (), w') /\ Frame w w'.
Proof.
  unfold recordOk, migrateDataRecord, readProp. intros Hok. rewrite Hok.
  destruct (truthy (getProp (json dataRecord) "encryptedValue"));
    [exists w; split; [reflexivity | apply Frame_refl]|].
  destruct (toJSON_defined (json dataRecord)) as [d Hd].
  { intros Hu. rewrite Hu in Hok. discriminate. }
  unfold JSON_stringify. rewrite Hd. cbn [fmap option_fmap option_map stringArg].
  destruct (encryptStep_Frame (render d) w) as (enc & iv & tag & w1 & -> & HF1 & _ & _ & _ & Hrec).
  eexists. split; [reflexivity|].
  eapply Frame_trans; [exact HF1|].
  unfold Frame. cbn. rewrite connectionUpdates_app. cbn. rewrite app_nil_r.
  repeat split; auto.
  - rewrite length_map. reflexivity.
  - intros Hall. apply Forall_fmap. eapply Forall_impl; [exact Hall|].
    intros r Hr. cbn. destruct (rec_id r =? rec_id dataRecord); [reflexivity | exact Hr].
Qed.

Lemma chunkSize_pos : (0 < chunkSize)%nat.
Proof. unfold chunkSize. lia. Qed.

Lemma encryptChunks_Frame fuel : forall offset w,
  Forall recordOk (data_records w) ->
  (length (data_records w) - offset < fuel)%nat ->
  exists w', encryptChunks E key entropy fuel offset w = (Ok (), w') /\ Frame w w'.
Proof.
  pose proof chunkSize_pos as Hpos.
  induction fuel as [|fuel IH]; intros offset w Hall Hfuel; [lia|].
  cbn [encryptChunks]. unfold encryptAndSave.
  destruct (take chunkSize (drop offset (data_records w))) as [|r chunk] eqn:Hchunk.
  - exists w. split; [reflexivity | apply Frame_refl].
  - assert (Hlt : (offset < length (data_records w))%nat).
    { destruct (decide (offset < length (data_records w))%nat) as [|Hge]; [assumption|].
      rewrite drop_ge in Hchunk by lia. rewrite take_nil in Hchunk. discriminate. }
    assert (Hchunk_ok : Forall recordOk (r :: chunk)).
    { rewrite <- Hchunk. apply Forall_take, Forall_drop. assumption. }
    destruct (forEachRow_Frame recordOk (fun _ => false)
                (migrateDataRecord E key entropy)
                (fun w => Forall recordOk (data_records w))) with
      (rows := r :: chunk) (w := w) as (w1 & Hloop & HF1 & Hall1); try assumption.
    { intros row w0 Hrow Hw0.
      destruct (migrateDataRecord_Frame row w0 Hrow) as (w' & Hs & HF).
      exists w'. split; [assumption|]. split; [assumption|].
      apply HF. assumption. }
    rewrite Hloop.
    assert (Hlen : length (data_records w1) = length (data_records w)) by apply HF1.
    destruct (IH (offset + chunkSize)%nat w1 Hall1 ltac:(lia)) as (w2 & Hrec & HF2).
    exists w2. split; [assumption|]. eapply Frame_trans; eassumption.
Qed.

Lemma encryptAllDataRecords_Frame w :
  Forall recordOk (data_records w) ->
  exists w', encryptAllDataRecords E key entropy w = (Ok (), w') /\ Frame w w'.
Proof. intros Hall. apply encryptChunks_Frame; [assumption | lia]. Qed.

Lemma encryptConnectionStep_spec object w :
  exists random w1,
    encryptConnectionStep E key entropy object w
  = (encryptConnection E key random object, w1) /\
  connections w1 = connections w /\ writes w1 = writes w /\ OtherTablesKept w w1.
Proof.
  unfold encryptConnectionStep, OtherTablesKept.
  destruct (shouldEncrypt key); eexists _, _; (split; [reflexivity|]); cbn; auto 10.
Qed.

Lemma encryptConnection_total random c :
  credentials c <> JUndefined ->
  exists creds iv tag, encryptConnection E key random c = Ok (withCredentials c creds iv tag).
Proof.
  intros Hdef. destruct (toJSON_defined _ Hdef) as [d Hd].
  destruct (shouldEncrypt key) eqn:Hkey.
  - rewrite (encryptConnection_enabled E key random c d Hkey Hd).
    destruct (encrypt E key random (render d)) as [[enc iv] tag]. eauto.
  - rewrite encryptConnection_disabled by assumption.
    exists (credentials c), (credentials_iv c), (credentials_tag c). destruct c; reflexivity.
Qed.

(** With distinct ids, the update by id rewrites the one row it is meant
    for. *)
Lemma update_by_id done c rest sc i :
  NoDup (map id (done ++ c :: rest)) -> id c = Some i -> id sc = Some i ->
  map (fun r => if sameId (id r) (id sc) then sc else r) (done ++ c :: rest)
  = (done ++ sc :: rest)%list.
Proof.
  intros Hnodup Hc Hsc. rewrite map_app in Hnodup. cbn [map] in Hnodup.
  apply NoDup_app in Hnodup as (_ & Hdisj & Hright).
  apply NoDup_cons in Hright as [Hnotin _].
  rewrite map_app. cbn [map]. rewrite Hsc.
  assert (Hkeep : forall l, id c ∉ map id l ->
            map (fun r => if sameId (id r) (Some i) then sc else r) l = l).
  { induction l as [|r l IH]; intros Hl; [reflexivity|]. cbn [map] in *.
    apply not_elem_of_cons in Hl as [Hne Hl]. rewrite IH by assumption.
    unfold sameId. destruct (id r) as [j|]; [|reflexivity].
    destruct (Z.eqb_spec j i); [|reflexivity]. subst j. congruence. }
  rewrite !Hkeep.
  - unfold sameId. rewrite Hc, Z.eqb_refl. reflexivity.
  - assumption.
  - intros Hin. apply (Hdisj _ Hin). left.
Qed.

Lemma migrateConnections_spec rows : forall done w,
  connections w = (done ++ rows)%list ->
  NoDup (map id (done ++ rows)) ->
  Forall (fun r => is_Some (id r)) rows ->
  Forall (fun r => credentials r <> JUndefined) rows ->
  exists rows' w',
  forEachRow carriesIvTag (migrateConnection E key entropy) rows w = (Ok (), w') /\
  connections w' = (done ++ rows')%list /\
  Forall2 (migratedRow E key) rows rows' /\
    connectionUpdates (writes w')
    = (connectionUpdates (writes w)
 ++ map id (filter (fun r => carriesIvTag r = false) rows))%list /\
    OtherTablesKept w w'.
Proof.
  induction rows as [|c rest IH]; intros done w Hrows Hnodup Hids Hdefs.
  - exists [], w. cbn. rewrite !app_nil_r. unfold OtherTablesKept.
      split; [reflexivity|]. split; [rewrite app_nil_r in Hrows; assumption|].
      split; [constructor|]. auto 10.
  - inversion Hids as [|? ? [i Hi] Hids']; subst.
    inversion Hdefs as [|? ? Hdef Hdefs']; subst.
    cbn [forEachRow]. destruct (carriesIvTag c) eqn:Hcarries.
    + destruct (IH (done ++ [c])%list w) as (rows' & w' & Hloop & Hconn & Hall & Hlog & Hkept);
        rewrite <- ?app_assoc; try assumption.
      exists (c :: rows'), w'. split; [assumption|].
      rewrite <- app_assoc in Hconn. split; [assumption|]. split.
      * constructor; [|assumption]. unfold migratedRow. rewrite Hcarries. reflexivity.
      * rewrite filter_cons, decide_False by congruence. auto.
    + unfold migrateConnection.
      destruct (encryptConnectionStep_spec c w) as (random & w1 & -> & Hc1 & Hw1 & Hk1).
      destruct (encryptConnection_total random c Hdef) as (creds & iv & tag & Henc).
      rewrite Henc. set (sc := withCredentials c creds iv tag) in *.
      set (w2 := logWrite _ _).
      assert (Hconn2 : connections w2 = ((done ++ [sc]) ++ rest)%list).
  { subst w2. cbn [connections logWrite setConnections].
    rewrite Hc1, Hrows. rewrite <- app_assoc. cbn [app].
    apply update_by_id with (i := i); [assumption | assumption | exact Hi]. }
      destruct (IH (done ++ [sc])%list w2) as (rows' & w' & Hloop & Hconn & Hall & Hlog & Hkept);
        try assumption.
      { rewrite <- app_assoc. cbn. rewrite map_app in *. cbn in *. assumption. }
      exists (sc :: rows'), w'. split; [assumption|].
      rewrite <- app_assoc in Hconn. split; [assumption|]. split; [|split].
      * constructor; [|assumption]. unfold migratedRow. rewrite Hcarries. eauto.
      * rewrite Hlog. subst w2. cbn [writes logWrite setConnections].
        rewrite connectionUpdates_app, Hw1.
        rewrite filter_cons, decide_True by assumption. cbn. rewrite <- app_assoc.
        reflexivity.
      * unfold OtherTablesKept in *. subst w2. cbn in Hkept.
        destruct Hk1 as (? & ? & ? & ? & ? & ?), Hkept as (? & ? & ? & ? & ? & ?).
        repeat split; congruence.
Qed.

Lemma encryptDatabase_spec w :
  tableWf w -> storable w ->
  exists w',
  encryptDatabase E key entropy w = (Ok (), w') /\
  Forall2 (migratedRow E key) (connections w) (connections w') /\
    connectionUpdates (writes w')
    = (connectionUpdates (writes w)
 ++ map id (filter (fun r => carriesIvTag r = false) (connections w)))%list /\
    db_config w' = db_config w.
Proof.
  intros [Hnodup Hids] [Hcreds Hrecs]. unfold encryptDatabase, andThen.
  (* environments *)
  destruct (forEachRow_Frame (fun _ => True)
              (fun environment => present (secret_key_iv environment)
                                  && present (secret_key_tag environment))
              (migrateEnvironment E key entropy) (fun _ => True))
    with (rows := environments w) (w := w) as (w1 & -> & HF1 & _);
    [ intros row w0 _ _; destruct (migrateEnvironment_Frame row w0) as (w' & ? & ?); eauto
    | apply Forall_true; auto | exact I | ].
  destruct HF1 as (Hc1 & Hs1 & Hd1 & Hl1 & _ & Hr1).
  (* connections *)
  destruct (migrateConnections_spec (connections w1) [] w1)
    as (rows' & w2 & Hloop & Hc2 & Hall & Hl2 & Hk2).
  { reflexivity. }
  { rewrite Hc1. assumption. }
  { rewrite Hc1. eapply Forall_impl; [exact Hids|]. intros r (i & Hi & _). eauto. }
  { rewrite Hc1. assumption. }
  change (fun connection => present (credentials_iv connection)
                            && present (credentials_tag connection)) with carriesIvTag.
  rewrite Hloop. destruct Hk2 as (Hs2 & Hd2 & _ & _ & _ & Hr2).
  (* provider configs *)
  destruct (forEachRow_Frame (fun _ => True)
              (fun providerConfig => present (oauth_client_secret_iv providerConfig)
                                     && present (oauth_client_secret_tag providerConfig))
              (migrateProviderConfig E key entropy) (fun _ => True))
    with (rows := configs w2) (w := w2) as (w3 & -> & HF3 & _);
    [ intros row w0 _ _; destruct (migrateProviderConfig_Frame row w0) as (w' & ? & ?); eauto
    | apply Forall_true; auto | exact I | ].
  (* environment variables *)
  destruct (forEachRow_Frame (fun _ => True)
              (fun environmentVariable => present (value_iv environmentVariable)
                                          && present (value_tag environmentVariable))
              (migrateEnvironmentVariable E key entropy) (fun _ => True))
    with (rows := environment_variables w3) (w := w3) as (w4 & -> & HF4 & _);
    [ intros row w0 _ _; destruct (migrateEnvironmentVariable_Frame row w0) as (w' & ? & ?); eauto
    | apply Forall_true; auto | exact I | ].
  (* data records *)
  pose proof (Frame_trans _ _ _ HF3 HF4) as HF34.
  destruct (encryptAllDataRecords_Frame w4) as (w5 & -> & HF5).
  { apply HF34. rewrite Hr2. auto. }
  destruct (Frame_trans _ _ _ HF34 HF5) as (Hc5 & _ & Hd5 & Hl5 & _).
  exists w5. split; [reflexivity|].
  rewrite Hc5, Hc2, Hl5, Hl2, Hl1, Hd5, Hd2, Hd1. cbn [app].
  rewrite Hc1 in Hall |- *. auto.
Qed.

End MigrationFacts.

Lemma migrationWorld_wf : tableWf migrationWorld.
Proof.
  split.
  - apply (bool_decide_unpack _). vm_compute. exact I.
  - repeat constructor; simpl; eexists; (split; [reflexivity | lia]).
Qed.

Lemma migrationWorld_storable : storable migrationWorld.
Proof. split; repeat constructor; discriminate. Qed.

(** ** The one-time migration, table by table *)




Lemma onlyDraws_trans w1 w2 w3 : onlyDraws w1 w2 -> onlyDraws w2 w3 -> onlyDraws w1 w3.
Proof.
  unfold onlyDraws.
  intros (A0 & A1 & A2 & A3 & A4 & A5 & A6 & A7) (B0 & B1 & B2 & B3 & B4 & B5 & B6 & B7).
  repeat split; congruence.
Qed.


(** A loop of the migration over the rows of one table, each step of which
    rewrites the row with the id of its own row. *)
Section TableLoop.
Context {Row K : Type}.
Variable get : World -> list Row.
Variable ident : Row -> K.
Variable upd : Row -> Row -> bool.
Variable valid : Row -> Prop.
Variable skip : Row -> bool.
Variable step : Row -> World -> Result unit * World.
Variable R : Row -> Row -> Prop.
Variable log : Row -> list Write.
Variable table : nat.

Hypothesis upd_spec : forall r old new,
  valid old -> ident new = ident old -> (upd r new = true <-> ident r = ident old).
Hypothesis step_spec : forall row w, valid row -> skip row = false ->
  exists row' w',
    step row w = (Ok (), w') /\ R row row' /\ ident row' = ident row /\
    (get w' = map (fun r => if upd r row' then row' else r) (get w)
     \/ (row' = row /\ get w' = get w)) /\
    writes w' = (writes w ++ log row)%list /\
    tablesKept table w w'.


End TableLoop.

Section MigrationTables.
Variable E : Encryption.
Variable key : string.
Variable entropy : nat -> string.
Variable hashEncryptionKey : string -> string -> string.

Lemma encryptStep_onlyDraws text w :
  encryptStep E key entropy text w
  = (encrypt E key (entropy (draws w)) text, setDraws w (S (draws w)))
  /\ onlyDraws w (setDraws w (S (draws w))).
Proof. split; [reflexivity|]. unfold onlyDraws. cbn. auto 10. Qed.

Lemma onlyDraws_tablesKept table w w' : onlyDraws w w' -> tablesKept table w w'.
Proof.
  unfold onlyDraws, tablesKept. intros (A0 & A1 & A2 & A3 & A4 & A5 & A6 & A7). auto 10.
Qed.

(** *** Environments *)



(** *** Connections *)

Lemma encryptConnection_keeps_id random c enc :
  encryptConnection E key random c = Ok enc -> id enc = id c.
Proof.
  unfold encryptConnection. destruct (negb (shouldEncrypt key)); [intros [= <-]; reflexivity|].
  destruct (JSON_stringify (credentials c)) as [text|]; [|discriminate].
  cbn [stringArg mbind Result_bind].
  destruct (encrypt E key random text) as [[a iv] tag]. intros [= <-]. reflexivity.
Qed.


(** *** Provider configs *)



(** *** Environment variables *)


(** *** Data records *)


(** *** The five loops *)













End MigrationTables.




(** ** The refresh coordinator *)

Section RefreshFacts.
Variable E : Encryption.
Variable key : string.
Variable entropy : nat -> string.
Variable Date_now : Z.
Variable parseTokenExpirationDate : JsValue -> JsValue.
Variable parseInt10 : JsValue -> option Z.
Variable isTokenExpired : JsValue -> Z -> bool.
Variable shouldIntrospectToken : string -> bool.
Variable introspectedTokenExpired : ProviderConfig -> Connection -> bool.
Variable shouldUseProviderClient : string -> bool.
Variable refreshToken : nat -> Template -> ProviderConfig -> Connection -> Result JsValue.
Variable requestCredentials :
  RefreshPath -> nat -> Template -> ProviderConfig -> Connection -> ServiceResponse JsValue.

#[local] Abbreviation shouldRefresh_ :=
  (shouldRefreshCredentials isTokenExpired shouldIntrospectToken introspectedTokenExpired).
#[local] Abbreviation callerStep_ :=
  (callerStep E key entropy Date_now parseTokenExpirationDate parseInt10
     isTokenExpired shouldIntrospectToken introspectedTokenExpired
     shouldUseProviderClient refreshToken requestCredentials).
#[local] Abbreviation runCaller_ :=
  (runCaller E key entropy Date_now parseTokenExpirationDate parseInt10
     isTokenExpired shouldIntrospectToken introspectedTokenExpired
     shouldUseProviderClient refreshToken requestCredentials).
#[local] Abbreviation refreshCredentialsIfNeeded_ :=
  (refreshCredentialsIfNeeded E key entropy Date_now parseTokenExpirationDate parseInt10
     isTokenExpired shouldIntrospectToken introspectedTokenExpired
     shouldUseProviderClient refreshToken requestCredentials).
#[local] Abbreviation step_ :=
  (step E key entropy Date_now parseTokenExpirationDate parseInt10
     isTokenExpired shouldIntrospectToken introspectedTokenExpired
     shouldUseProviderClient refreshToken requestCredentials).
#[local] Abbreviation steps_ :=
  (steps E key entropy Date_now parseTokenExpirationDate parseInt10
     isTokenExpired shouldIntrospectToken introspectedTokenExpired
     shouldUseProviderClient refreshToken requestCredentials).
#[local] Abbreviation runSchedule_ :=
  (runSchedule E key entropy Date_now parseTokenExpirationDate parseInt10
     isTokenExpired shouldIntrospectToken introspectedTokenExpired
     shouldUseProviderClient refreshToken requestCredentials).
#[local] Abbreviation timedStep_ :=
  (timedStep E key entropy Date_now parseTokenExpirationDate parseInt10
     isTokenExpired shouldIntrospectToken introspectedTokenExpired
     shouldUseProviderClient refreshToken requestCredentials).
#[local] Abbreviation timedSteps_ :=
  (timedSteps E key entropy Date_now parseTokenExpirationDate parseInt10
     isTokenExpired shouldIntrospectToken introspectedTokenExpired
     shouldUseProviderClient refreshToken requestCredentials).

Lemma callerStep_start c s object :
  heap s !! connection c = Some object -> pc c = AtStart ->
  callerStep_ c s
  = Some (if shouldRefresh_ object (credentials object) (providerConfig c) (template c)
               (instantRefresh c)
          then atPc c (Some true) AtLock
          else atPc c (Some false)
                 (Returned false {| success := true; error := None;
                                    response := Some (credentials object) |}),
          s).
Proof.
  intros Hobj Hpc. unfold callerStep. rewrite Hobj, Hpc.
  destruct (shouldRefresh_ _ _ _ _ _); reflexivity.
Qed.

Lemma callerStep_returned c s refreshed result :
  pc c = Returned refreshed result -> callerStep_ c s = None.
Proof.
  intros Hpc. unfold callerStep. rewrite Hpc. destruct (heap s !! connection c); reflexivity.
Qed.

(** C4.  For a plain OAuth2 connection (the template or the stored
    credentials say OAuth2) of a provider other than facebook, the refresh
    decision is the conjunction of "a refresh_token is present" and the
    demand for a refresh; without a refresh_token the call returns the stored
    credentials, with success, and changes nothing: no request to the
    provider, no lock, no write. *)
Theorem refresh_requires_refresh_token (ref : nat) (object : Connection)
    (config : ProviderConfig) (tpl : Template) (environment_id : Z)
    (force : bool) (s : System) :
  heap s !! ref = Some object ->
  auth_mode tpl = OAuth2 \/ hasType (credentials object) OAuth2 = true ->
  provider config <> "facebook" ->
  shouldRefresh_ object (credentials object) config tpl force
  = truthy (getProp (credentials object) "refresh_token")
    && refreshDemanded isTokenExpired shouldIntrospectToken introspectedTokenExpired
         object config tpl force
  /\ (if truthy (getProp (credentials object) "refresh_token")
      then True
      else refreshCredentialsIfNeeded_ ref config tpl environment_id force s
           = (Some {| success := true; error := None;
                      response := Some (credentials object) |}, s))
  /\ (providerCalls (snd (refreshCredentialsIfNeeded_ ref config tpl environment_id force s))
      = providerCalls s
      \/ truthy (getProp (credentials object) "refresh_token") = true).
Proof.
  intros Hobj Hmode Hprov.
  assert (Hdecision :
  shouldRefresh_ object (credentials object) config tpl force
    = truthy (getProp (credentials object) "refresh_token")
    && refreshDemanded isTokenExpired shouldIntrospectToken introspectedTokenExpired
    object config tpl force).
  { unfold shouldRefreshCredentials, refreshDemanded.
    assert (String.eqb (provider config) "facebook" = false) as ->
      by (apply String.eqb_neq; assumption).
      assert (bool_decide (auth_mode tpl = OAuth2) || hasType (credentials object) OAuth2
            = true) as ->.
    { destruct Hmode as [-> | ->]; [reflexivity | apply orb_true_r]. }
    reflexivity. }
  assert (Hskip : truthy (getProp (credentials object) "refresh_token") = false ->
  refreshCredentialsIfNeeded_ ref config tpl environment_id
  force s
    = (Some {| success := true; error := None; response := Some (credentials object) |}, s)).
    { intros Hrt. unfold refreshCredentialsIfNeeded, enter. rewrite Hobj.
    cbn [mbind option_bind runCaller].
    rewrite (callerStep_start _ s object) by (first [exact Hobj | reflexivity]).
    cbn [providerConfig template instantRefresh]. rewrite Hdecision, Hrt.
    cbn [andb]. erewrite callerStep_returned by reflexivity. reflexivity. }
  split; [exact Hdecision|].
  destruct (truthy (getProp (credentials object) "refresh_token")) eqn:Hrt.
  - split; [exact I | right; reflexivity].
  - split; [apply Hskip; reflexivity|]. left. rewrite Hskip by reflexivity. reflexivity.
Qed.

(** What one step of a caller does to the lock, the count of provider calls
    and the bookkeeping of the caller. *)
Lemma callerStep_effect c s c1 s1 :
  callerStep_ c s = Some (c1, s1) ->
  callerLockKey c1 = callerLockKey c /\
  (providerCalls s1 + called (pc c) = providerCalls s + called (pc c1))%nat /\
  (decidedAt c -> decidedAt c1) /\
  match inCritical (pc c), inCritical (pc c1) with
  | false, true => (callerLockKey c ∉ locks s) /\ locks s1 = {[callerLockKey c]} ∪ locks s
  | true, false => locks s1 = locks s ∖ {[callerLockKey c]}
  | _, _ => locks s1 = locks s
  end.
Proof.
  unfold callerStep. destruct (heap s !! connection c) as [object|]; [|discriminate].
  destruct (pc c) eqn:Hpc.
  - (* AtStart *)
    destruct (shouldRefresh_ _ _ _ _ _); intros [= <- <-]; unfold decidedAt; cbn; auto.
  - (* AtLock *)
    case_bool_decide as Hheld; [discriminate|]. intros [= <- <-].
    unfold decidedAt; cbn. rewrite Hpc. auto.
  - (* InCritical *)
    destruct (getNewCredentials _ _ _ _ _ _ _ _ _ _) as [r|e].
    + destruct (response r) as [newCredentials|];
        [destruct (success r && truthy newCredentials)|];
        intros [= <- <-]; unfold decidedAt; cbn; rewrite Hpc; repeat split; auto; lia.
    + intros [= <- <-]. unfold decidedAt; cbn; rewrite Hpc. repeat split; auto; lia.
  - (* AtUpdate *)
    destruct (updateConnection _ _ _ _ _) as [[u|e] w];
      intros [= <- <-]; unfold decidedAt; cbn; rewrite Hpc; auto.
  - (* AtRelease *)
    intros [= <- <-]. unfold decidedAt; cbn; rewrite Hpc. auto.
  - discriminate.
Qed.

Lemma callsMade_insert cs i c c1 :
  cs !! i = Some c ->
  (callsMade (<[i := c1]> cs) + called (pc c) = callsMade cs + called (pc c1))%nat.
Proof.
  intros Hi. unfold callsMade.
  rewrite insert_take_drop by (eapply lookup_lt_Some; eassumption).
  rewrite <- (take_drop_middle cs i c Hi) at 3.
  rewrite !map_app, !list_sum_app. cbn [map].
  change (list_sum (called (pc c1) :: ?l)) with (called (pc c1) + list_sum l)%nat.
  change (list_sum (called (pc c) :: ?l)) with (called (pc c) + list_sum l)%nat.
  lia.
Qed.

Lemma step_invariant base st st1 :
  step_ st st1 -> invariant base st -> invariant base st1.
Proof.
  intros Hstep ([Hheld Huniq] & Hcalls & Hdec).
  destruct Hstep as [cs s i c c1 s1 Hi Hc]. unfold invariant. cbn [fst snd] in *.
  destruct (callerStep_effect _ _ _ _ Hc) as (Hkey & Hcount & Hdecided & Hlocks).
  pose proof (lookup_lt_Some _ _ _ Hi) as Hlen.
  split; [split|split].
  - (* a caller in the critical section holds its key *)
    intros j cj Hj Hcrit. destruct (decide (j = i)) as [->|Hne].
    + rewrite list_lookup_insert_eq in Hj by assumption. injection Hj as <-.
      rewrite Hkey. destruct (inCritical (pc c)) eqn:Hbefore; rewrite Hcrit in Hlocks.
      * rewrite Hlocks. eauto.
      * destruct Hlocks as [_ ->]. set_solver.
    + rewrite list_lookup_insert_ne in Hj by congruence.
      pose proof (Hheld j cj Hj Hcrit) as Hin.
      destruct (inCritical (pc c)) eqn:Hbefore, (inCritical (pc c1)) eqn:Hafter;
        try (rewrite Hlocks; assumption).
      * rewrite Hlocks. apply elem_of_difference. split; [assumption|].
        intros Hk. apply elem_of_singleton in Hk.
        apply Hne. eapply Huniq; eauto.
      * destruct Hlocks as [_ ->]. set_solver.
  - (* no two callers with one key are in the critical section *)
    assert (Hother : forall j cj, j <> i -> cs !! j = Some cj ->
              inCritical (pc cj) = true -> inCritical (pc c1) = true ->
              callerLockKey cj = callerLockKey c -> False).
    { intros j cj Hne Hj Hcj Hc1 Hk.
      destruct (inCritical (pc c)) eqn:Hbefore.
      - apply Hne. eapply Huniq; eauto.
      - rewrite Hc1 in Hlocks. destruct Hlocks as [Hfree _].
        apply Hfree. rewrite <- Hk. eauto. }
    intros a b ca cb Ha Hb Hca Hcb Hk.
    destruct (decide (a = i)) as [->|Hai], (decide (b = i)) as [->|Hbi]; try reflexivity.
    + rewrite list_lookup_insert_eq in Ha by assumption. injection Ha as <-.
      rewrite list_lookup_insert_ne in Hb by congruence.
      exfalso. eapply (Hother b cb); eauto. congruence.
    + rewrite list_lookup_insert_eq in Hb by assumption. injection Hb as <-.
      rewrite list_lookup_insert_ne in Ha by congruence.
      exfalso. eapply (Hother a ca); eauto. congruence.
    + rewrite list_lookup_insert_ne in Ha, Hb by congruence. eauto.
  - pose proof (callsMade_insert cs i c c1 Hi). lia.
  - rewrite Forall_lookup in Hdec |- *. intros j cj Hj.
    destruct (decide (j = i)) as [->|Hne].
    + rewrite list_lookup_insert_eq in Hj by assumption. injection Hj as <-. eauto.
    + rewrite list_lookup_insert_ne in Hj by congruence. eauto.
Qed.

Lemma runSchedule_steps schedule : forall cs s,
  steps_ (cs, s) (runSchedule_ schedule cs s).
Proof.
  assert (Htrans : forall st1 st2 st3, steps_ st1 st2 -> steps_ st2 st3 -> steps_ st1 st3).
  { intros st1 st2 st3 H12 H23. revert H12.
    induction H23 as [st|a b c Hab IHab Hbc]; intros H12; [assumption|].
    eapply steps_step; [apply IHab; exact H12 | exact Hbc]. }
  induction schedule as [|i rest IH]; intros cs s; cbn [runSchedule]; [constructor|].
  destruct (cs !! i) as [c|] eqn:Hi; [|apply IH].
  destruct (callerStep_ c s) as [[c1 s1]|] eqn:Hc; [|apply IH].
  eapply Htrans; [|apply IH].
  eapply steps_step; [apply steps_refl|]. econstructor; eassumption.
Qed.

Lemma callsMade_returned cs :
  Forall decidedAt cs -> forallb (fun c => isReturned (pc c)) cs = true ->
  callsMade cs = length (filter (fun c => decided c = Some true) cs).
Proof.
  unfold callsMade. induction 1 as [|c cs Hc _ IH]; [reflexivity|].
  cbn [forallb map]. intros Hall. apply andb_true_iff in Hall as [Hret Hall].
  change (list_sum (?x :: ?l)) with (x + list_sum l)%nat.
  rewrite filter_cons, IH by assumption. unfold decidedAt in Hc.
  destruct (pc c) as [| | | | |[|] r]; try discriminate; cbn [called Nat.add].
  - rewrite decide_True by assumption. reflexivity.
  - rewrite decide_False by congruence. reflexivity.
Qed.

Lemma steps_invariant base st0 st :
  steps_ st0 st -> invariant base st0 -> invariant base st.
Proof.
  induction 1 as [st|st1 st2 st3 H12 IH H23]; [auto|].
  intros Hinv. eapply step_invariant; [exact H23 | auto].
Qed.

Lemma initial_invariant cs0 s0 :
  Forall (fun c => pc c = AtStart /\ decided c = None) cs0 ->
  invariant (providerCalls s0) (cs0, s0).
Proof.
  intros Hinit.
  assert (Hnone : forall i c, cs0 !! i = Some c -> inCritical (pc c) = true -> False).
  { intros i c Hi Hc. rewrite Forall_lookup in Hinit.
    destruct (Hinit i c Hi) as [Hpc _]. rewrite Hpc in Hc. discriminate. }
  split; [split|split]; cbn [fst snd].
  - intros i c Hi Hc. exfalso. eauto.
  - intros i j ci cj Hi _ Hci. exfalso. eauto.
  - assert (callsMade cs0 = 0%nat) as ->; [|lia].
    unfold callsMade. induction Hinit as [|c cs' [Hpc _] _ IHc]; [reflexivity|].
    cbn [map]. change (list_sum (?x :: ?l)) with (x + list_sum l)%nat.
    rewrite Hpc, IHc; [reflexivity|].
    intros i c' Hi. apply (Hnone (S i) c'). exact Hi.
  - eapply Forall_impl; [exact Hinit|]. intros c [Hpc Hd]. unfold decidedAt.
    rewrite Hpc. assumption.
Qed.

(** While no time bound of the lock runs out.  From any number of callers
    that are about to start, in every state that the interleaved calls can
    reach by steps of the callers alone: no two callers with the
    same lock key are between the acquisition of the lock and its release;
    the number of requests made to the provider is the number of callers that
    are past [getNewCredentials]; and once all callers have returned it is
    the number of callers whose decision, taken once on entry and before the
    lock is requested, was to refresh. *)
Theorem refresh_calls_are_serialised_not_merged (cs0 cs : list Caller) (s0 s : System) :
  Forall (fun c => pc c = AtStart /\ decided c = None) cs0 ->
  steps_ (cs0, s0) (cs, s) ->
  mutualExclusion cs s /\
  providerCalls s = (providerCalls s0 + callsMade cs)%nat /\
  Forall decidedAt cs /\
  (if forallb (fun c => isReturned (pc c)) cs
   then providerCalls s
        = (providerCalls s0 + length (filter (fun c => decided c = Some true) cs))%nat
   else True).
Proof.
  intros Hinit Hsteps.
  assert (Hinv : invariant (providerCalls s0) (cs, s)).
  { eapply steps_invariant; [exact Hsteps|]. apply initial_invariant. assumption. }
  destruct Hinv as (Hmutex & Hcalls & Hdec). cbn [fst snd] in *.
  repeat split; try assumption; try apply Hmutex.
  destruct (forallb (fun c => isReturned (pc c)) cs) eqn:Hret; [|exact I].
  rewrite Hcalls, callsMade_returned by assumption. reflexivity.
Qed.






Lemma steps_timedSteps st0 st : steps_ st0 st -> timedSteps_ st0 st.
Proof.
  induction 1 as [st|st1 st2 st3 H12 IH H23]; [constructor|].
  eapply timedSteps_step; [exact IH|].
  destruct H23 as [cs s i c c1 s1 Hi Hc]. eapply timed_caller; eassumption.
Qed.



End RefreshFacts.


Lemma refresh_calls_are_serialised_not_merged_witness :
  mutualExclusion twoCallersEnd.1 twoCallersEnd.2 /\
  providerCalls twoCallersEnd.2 = (0 + callsMade twoCallersEnd.1)%nat /\
  Forall decidedAt twoCallersEnd.1 /\
  providerCalls twoCallersEnd.2
  = (0 + length (filter (fun c => decided c = Some true) twoCallersEnd.1))%nat.
Proof.
  pose proof (refresh_calls_are_serialised_not_merged
                demoCipher "" demoEntropy demoNow demoParseDate demoParseInt
                demoIsTokenExpired (fun _ => false) (fun _ _ => false) (fun _ => false)
                stubRefreshToken stubProvider
                twoCallersStart.1 twoCallersEnd.1 twoCallersStart.2 twoCallersEnd.2) as H.
  destruct H as (Hmutex & Hcalls & Hdec & Hend).
  - repeat constructor.
  - rewrite <- (surjective_pairing twoCallersEnd). apply runSchedule_steps.
  - split; [exact Hmutex|]. split; [exact Hcalls|]. split; [exact Hdec|]. exact Hend.
Defined.


(** Why the calls are not said to be serialised in real time: the first
    caller holds the lock when its TTL runs out; the second caller then
    acquires the key, and both are between acquisition and release. *)
Lemma lock_expiry_lets_two_callers_in :
  exists st,
    demoTimedSteps twoCallersStart st /\
    map (fun c => inCritical (pc c)) st.1 = [true; true] /\
    map callerLockKey st.1 = ["lock:refresh:1:gh:c1"; "lock:refresh:1:gh:c1"].
Proof.
  pose proof (runSchedule_steps demoCipher "" demoEntropy demoNow demoParseDate demoParseInt
                demoIsTokenExpired (fun _ => false) (fun _ _ => false) (fun _ => false)
                stubRefreshToken stubProvider [0; 0; 1]%nat
                twoCallersStart.1 twoCallersStart.2) as Hrun.
  apply steps_timedSteps in Hrun.
  match type of Hrun with
  | timedSteps _ _ _ _ _ _ _ _ _ _ _ _ _ ?p =>
      destruct p as [cs s] eqn:Hp; vm_compute in Hp; injection Hp as <- <-
  end.
  eexists. split.
  - unfold demoTimedSteps.
    eapply timedSteps_step; [eapply timedSteps_step; [exact Hrun|] |].
    + apply timed_expiry with (k := "lock:refresh:1:gh:c1").
      apply (bool_decide_unpack _). vm_compute. exact I.
    + eapply (timed_caller _ _ _ _ _ _ _ _ _ _ _ _ _ _ 1%nat);
        [reflexivity | vm_compute; reflexivity].
  - split; vm_compute; reflexivity.
Qed.

Lemma refresh_requires_refresh_token_witness :
  demoRefresh 0%nat githubConfig githubTemplate 1 false (expiredSystem JUndefined)
  = (Some {| success := true; error := None;
             response := Some (credentials (expiredConnection JUndefined)) |},
     expiredSystem JUndefined).
Proof.
  destruct (refresh_requires_refresh_token
              demoCipher "" demoEntropy demoNow demoParseDate demoParseInt
              demoIsTokenExpired (fun _ => false) (fun _ _ => false) (fun _ => false)
              stubRefreshToken stubProvider
              0%nat (expiredConnection JUndefined) githubConfig githubTemplate 1 false
              (expiredSystem JUndefined) eq_refl (or_introl eq_refl) ltac:(discriminate))
    as (_ & H & _).
  exact H.
Defined.


(** ** PKCE: the code challenge *)

Example sha256_abc :
  hexOfBytes (sha256 (bytesOfString "abc"))
  = "ba7816bf8f01cfea414140de5dae2223b00361a396177a9cb410ff61f20015ad".
Proof. vm_compute. reflexivity. Qed.

Example sha256_two_blocks :
  hexOfBytes (sha256 (bytesOfString "abcdbcdecdefdefgefghfghighijhijkijkljklmklmnlmnomnopnopq"))
  = "248d6a61d20638b8e5c026930c3e6039a33ce45964ff2167f6ecedd419db06c1".
Proof. vm_compute. reflexivity. Qed.

Example base64_padding : base64 [102; 111] = "Zm8=" /\ base64 [102] = "Zg==".
Proof. split; vm_compute; reflexivity. Qed.

(** The example of RFC 7636, appendix B. *)
Example codeChallenge_rfc7636 :
  codeChallenge "dBjftJeZ4CVP-mB92K27uhbUJU1p1r_wW1gFWFOEjXk"
  = "E9Melhoa2OwvFrEMTJguCHaoeK1t8URWbuGJSstw-cM".
Proof. vm_compute. reflexivity. Qed.

Lemma list_ind3 (P : list Z -> Prop) :
  P [] -> (forall a, P [a]) -> (forall a b, P [a; b]) ->
  (forall a b c rest, P rest -> P (a :: b :: c :: rest)) ->
  forall l, P l.
Proof.
  intros H0 H1 H2 H3. fix IH 1.
  intros [|a [|b [|c rest]]]; [apply H0 | apply H1 | apply H2 | apply H3; apply IH].
Qed.

Lemma replaceAll_twice s :
  replaceAll "/" "_" (replaceAll "+" "-" s)
  = (fix go (s : string) : string :=
       match s with
       | EmptyString => EmptyString
       | String x rest => String (urlSafe x) (go rest)
       end) s.
Proof. induction s as [|x s IH]; simpl; [reflexivity|]. rewrite IH. reflexivity. Qed.

Lemma below_64 (p : nat -> bool) :
  forallb p (seq 0 64) = true -> forall k, (k < 64)%nat -> p k = true.
Proof.
  intros H k Hk. rewrite forallb_forall in H. apply H. apply in_seq. lia.
Qed.

Lemma sextet_urlSafe n : urlSafe (sextet base64Alphabet n) = sextet base64urlAlphabet n.
Proof.
  unfold sextet.
  assert (Hlt : (Z.to_nat (n mod 64) < 64)%nat)
    by (pose proof (Z.mod_pos_bound n 64 ltac:(lia)); lia).
  revert Hlt. generalize (Z.to_nat (n mod 64)). intros k Hk.
  apply (below_64 (fun k => bool_decide
           (urlSafe (default "="%char (String.get k base64Alphabet))
            = default "="%char (String.get k base64urlAlphabet)))) in Hk;
    [apply bool_decide_eq_true in Hk; exact Hk | vm_compute; reflexivity].
Qed.

Lemma sextet_not_padding n : Ascii.eqb (sextet base64urlAlphabet n) "=" = false.
Proof.
  unfold sextet.
  assert (Hlt : (Z.to_nat (n mod 64) < 64)%nat)
    by (pose proof (Z.mod_pos_bound n 64 ltac:(lia)); lia).
  revert Hlt. generalize (Z.to_nat (n mod 64)). intros k Hk.
  apply (below_64 (fun k => negb (Ascii.eqb
           (default "="%char (String.get k base64urlAlphabet)) "="))) in Hk;
    [apply negb_true_iff in Hk; exact Hk | vm_compute; reflexivity].
Qed.

Lemma stripPadding_keep x rest :
  Ascii.eqb x "=" = false -> stripPadding (String x rest) = String x (stripPadding rest).
Proof. intros Hx. simpl. rewrite Hx. destruct (stripPadding rest); reflexivity. Qed.

(** The digest written in base64, with [+] and [/] replaced and the padding
    stripped, is the digest written in base64url without padding. *)
Lemma urlSafe_base64 bytes :
  stripPadding (replaceAll "/" "_" (replaceAll "+" "-" (base64 bytes)))
  = base64urlNoPadding bytes.
Proof.
  rewrite replaceAll_twice. unfold base64, base64urlNoPadding.
  induction bytes as [|a|a b|a b c rest IH] using list_ind3;
    cbn [encode64]; rewrite ?sextet_urlSafe.
  - reflexivity.
  - rewrite !stripPadding_keep by apply sextet_not_padding. reflexivity.
  - rewrite !stripPadding_keep by apply sextet_not_padding. reflexivity.
  - rewrite !stripPadding_keep by apply sextet_not_padding. rewrite IH. reflexivity.
Qed.

Lemma codeChallenge_base64url codeVerifier :
  codeChallenge codeVerifier = base64urlNoPadding (sha256 (bytesOfString codeVerifier)).
Proof. apply urlSafe_base64. Qed.


(** ** The OAuth controller *)

Section ControllerFacts.
Variable getOauthCallbackUrl : Z -> string.
Variable hmacEnabled : Z -> bool.
Variable hmacVerify : string -> Z -> string -> string -> bool.
Variable getProviderConfig : string -> Z -> option ProviderConfig.
Variable getTemplate : string -> option Template.
Variable missesInterpolationParam : string -> gmap string string -> bool.
Variable interpolateStringFromObject : string -> gmap string string -> string.
Variable authorizeURL :
  ProviderConfig -> Template -> gmap string string -> gmap string string -> Result string.
Variable Backend : Type.
Variable oauth2Callback oauth1Callback :
  Template -> option ProviderConfig -> OAuthSession -> CallbackRequest -> Backend ->
  Response * Backend.
Variable getOAuthRequestToken :
  ProviderConfig -> Template -> string -> Result OAuth1RequestTokenResult.
Variable getAuthorizationURL : ProviderConfig -> Template -> OAuth1RequestTokenResult -> string.

#[local] Abbreviation oauthRequest_ :=
  (oauthRequest getOauthCallbackUrl hmacEnabled hmacVerify getProviderConfig getTemplate
     missesInterpolationParam interpolateStringFromObject authorizeURL
     getOAuthRequestToken getAuthorizationURL).
#[local] Abbreviation oauth2Request_ := (oauth2Request missesInterpolationParam authorizeURL).
#[local] Abbreviation oauthCallback_ :=
  (oauthCallback getProviderConfig getTemplate Backend oauth2Callback oauth1Callback).
#[local] Abbreviation oauthCallbacks_ :=
  (oauthCallbacks getProviderConfig getTemplate Backend oauth2Callback oauth1Callback).
#[local] Abbreviation dispatchCallback_ :=
  (dispatchCallback getProviderConfig getTemplate Backend oauth2Callback oauth1Callback).

(** C5 (as amended).  Once the provider configuration and the template are
    loaded, for every auth mode other than App: if the client id, the client
    secret or the scopes are absent after the overrides of the request, the
    request ends with InvalidProviderConfig reported to the caller; no
    session is created and nothing is redirected. *)
Theorem oauthRequest_invalid_provider_config (req : AuthorizeRequest) (environmentId : Z)
    (randomBytes : list Z) (uuid : string) (store : gmap string OAuthSession)
    (connectionId providerConfigKey : string) (config : ProviderConfig)
    (template : Template) :
  req_connection_id req = Some connectionId ->
  req_providerConfigKey req = Some providerConfigKey ->
  checkHmac hmacEnabled hmacVerify req environmentId providerConfigKey connectionId = None ->
  getProviderConfig providerConfigKey environmentId = Some config ->
  getTemplate (provider config) = Some template ->
  auth_mode template <> App ->
  (let config' := configAfterOverrides req config in
   oauth_client_id config' = None \/ oauth_client_secret config' = None
   \/ oauth_scopes config' = None) ->
  oauthRequest_ req environmentId randomBytes uuid store
  = (NotifyErr (req_ws_client_id req) (InvalidProviderConfig providerConfigKey), store).
Proof.
  intros Hconn Hkey Hhmac Hconfig Htemplate Hmode Habsent.
  unfold configAfterOverrides in Habsent.
  unfold oauthRequest. rewrite Hconn, Hkey, Hhmac, Hconfig. cbn [provider withOAuthClient].
  rewrite Htemplate.
  set (config' := applyOverrides _ _ _) in *.
  assert (Hguard :
    negb (bool_decide (auth_mode template = App))
    && (bool_decide (oauth_client_id config' = None)
        || bool_decide (oauth_client_secret config' = None)
        || bool_decide (oauth_scopes config' = None)) = true).
  { apply andb_true_intro. split.
    - rewrite bool_decide_false by assumption. reflexivity.
    - cbv zeta in Habsent. destruct Habsent as [H | [H | H]]; rewrite H;
        repeat case_bool_decide; try congruence; reflexivity. }
  rewrite Hguard. reflexivity.
Qed.
Lemma given_Some (v : string) : v <> "" -> given (Some v) = Some v.
Proof.
  intros Hv. unfold given. apply String.eqb_neq in Hv. rewrite Hv. reflexivity.
Qed.

Lemma defined_lookup (m : gmap string (option string)) (k : string) :
  defined m !! k = m !! k ≫= fun v => v.
Proof. unfold defined. apply lookup_omap. Qed.

(** The PKCE parameters survive the merge when the request does not name
    them. *)
Lemma allAuthParams_pkce (template : Template) (providerConfig : ProviderConfig)
    (session : OAuthSession) (authorizationParams : gmap string (option string))
    (userScope : option string) :
  disable_pkce template = false ->
  authorizationParams !! "code_challenge" = None ->
  authorizationParams !! "code_challenge_method" = None ->
  allAuthParams template providerConfig session authorizationParams userScope
    !! "code_challenge" = Some (codeChallenge (session_codeVerifier session))
  /\ allAuthParams template providerConfig session authorizationParams userScope
       !! "code_challenge_method" = Some "S256".
Proof.
  intros Hpkce Hc Hm. unfold allAuthParams. rewrite Hpkce. cbn [negb].
  rewrite !defined_lookup.
  rewrite (lookup_union_r _ _ _ Hc), (lookup_union_r _ _ _ Hm).
  destruct (given userScope) as [scope|];
    [destruct (String.eqb (provider providerConfig) "slack")|];
    rewrite ?(lookup_insert_ne _ "user_scope") by discriminate;
    rewrite (lookup_insert_ne _ "code_challenge_method" "code_challenge") by discriminate;
    rewrite !lookup_insert_eq; split; reflexivity.
Qed.

(** The PKCE pair of a request that does not name it.  In an OAuth2
    authorization request whose template does not disable PKCE and whose own
    [authorization_params] name neither [code_challenge] nor
    [code_challenge_method]: when the request is accepted
    (the URLs of the template need no parameter that is missing, the grant
    type is the authorization code, the session id is free and the client
    builds a URL), the session is persisted as it is, the browser is
    redirected to the URL built from the authorization parameters, and among
    these [code_challenge] is the unpadded base64url encoding of the SHA-256
    hash of the session's [codeVerifier] and [code_challenge_method] is
    [S256]. *)
Theorem oauth2Request_code_challenge (template : Template) (providerConfig : ProviderConfig)
    (session : OAuthSession) (connectionConfig : gmap string string)
    (authorizationParams : gmap string (option string)) (callbackUrl : string)
    (userScope : option string) (store : gmap string OAuthSession)
    (authorizationUri : string) :
  disable_pkce template = false ->
  authorizationParams !! "code_challenge" = None ->
  authorizationParams !! "code_challenge_method" = None ->
  missesInterpolationParam (authorization_url template) connectionConfig = false ->
  missesInterpolationParam (tokenUrlFor template OAuth2) connectionConfig = false ->
  (forall grantType, token_params_grant_type template = Some (Some grantType) ->
                     grantType = "authorization_code") ->
  store !! session_id session = None ->
  let params :=
    authorizeParams template providerConfig session callbackUrl
      (allAuthParams template providerConfig session authorizationParams userScope) in
  authorizeURL providerConfig template connectionConfig params = Ok authorizationUri ->
  oauth2Request_ template providerConfig session connectionConfig authorizationParams
    callbackUrl userScope store
  = (Redirect (applyReplacements template authorizationUri),
     <[session_id session := session]> store)
  /\ params !! "code_challenge"
     = Some (base64urlNoPadding (sha256 (bytesOfString (session_codeVerifier session))))
  /\ params !! "code_challenge_method" = Some "S256".
Proof.
  intros Hpkce Hc Hm Hauth Htoken Hgrant Hfree params Hurl.
  destruct (allAuthParams_pkce template providerConfig session authorizationParams
              userScope Hpkce Hc Hm) as [Hchallenge Hmethod].
  split; [|split].
  - assert (Hcode :
      authorizationCodeRequest authorizeURL template providerConfig session connectionConfig
        authorizationParams callbackUrl userScope store
      = (Redirect (applyReplacements template authorizationUri),
         <[session_id session := session]> store)).
    { unfold authorizationCodeRequest, createSession. rewrite Hfree.
      fold params. rewrite Hurl. reflexivity. }
    unfold oauth2Request. rewrite Hauth, Htoken.
    destruct (token_params_grant_type template) as [[grantType|]|] eqn:Hg;
      try exact Hcode.
    rewrite (Hgrant grantType eq_refl). cbn. exact Hcode.
  - unfold params, authorizeParams.
    rewrite <- codeChallenge_base64url.
    apply lookup_union_Some_l. exact Hchallenge.
  - unfold params, authorizeParams. apply lookup_union_Some_l. exact Hmethod.
Qed.

(** A callback leaves no session where there was none. *)
Lemma oauthCallback_keeps_absent (req : CallbackRequest) (store : gmap string OAuthSession)
    (backend : Backend) (id : string) :
  store !! id = None -> (oauthCallback_ req (store, backend)).2.1 !! id = None.
Proof.
  intros Hid. unfold oauthCallback.
  assert (Hrest :
    (match cb_state req with
     | None => (Reported "No state found in callback", (store, backend))
     | Some state =>
         match findSessionById state store with
         | None => (Reported ("No session found for state: " +:+ state), (store, backend))
         | Some session =>
             let store' := deleteSession state store in
             let '(response, backend') := dispatchCallback_ session req backend in
             (Answered response, (store', backend'))
         end
     end).2.1 !! id = None).
  { destruct (cb_state req) as [state|]; [|exact Hid].
    destruct (findSessionById state store) as [session|]; [|exact Hid].
    cbv zeta. destruct (dispatchCallback_ session req backend) as [response backend'].
    cbn [fst snd]. unfold deleteSession.
    destruct (decide (state = id)) as [->|Hne].
    - apply lookup_delete_eq.
    - rewrite lookup_delete_ne by assumption. exact Hid. }
  destruct (given (cb_state req)), (given (cb_installation_id req)),
    (given (cb_setup_action req)); try exact Hrest; exact Hid.
Qed.

Lemma oauthCallbacks_keep_absent (reqs : list CallbackRequest)
    (st : gmap string OAuthSession * Backend) (id : string) :
  st.1 !! id = None -> (oauthCallbacks_ reqs st).1 !! id = None.
Proof.
  revert st. induction reqs as [|req reqs IH]; intros [store backend] Hid; [exact Hid|].
  unfold oauthCallbacks. cbn [fold_left]. apply IH.
  apply oauthCallback_keeps_absent. exact Hid.
Qed.

(** What a callback with a state does, by whether a session is stored under
    the state. *)
Lemma oauthCallback_with_state (req : CallbackRequest) (state : string)
    (store : gmap string OAuthSession) (backend : Backend) :
  cb_state req = Some state -> state <> "" ->
  oauthCallback_ req (store, backend)
  = match findSessionById state store with
    | None => (Reported ("No session found for state: " +:+ state), (store, backend))
    | Some session =>
        (Answered (dispatchCallback_ session req backend).1,
         (deleteSession state store, (dispatchCallback_ session req backend).2))
    end.
Proof.
  intros Hstate Hne. unfold oauthCallback. rewrite Hstate, (given_Some state Hne).
  destruct (findSessionById state store) as [session|]; [|reflexivity].
  destruct (dispatchCallback_ session req backend) as [response backend']. reflexivity.
Qed.

(** C2.  A callback that carries a state (an empty one counts as none) and
    finds the session stored under it deletes the session and only then runs
    the protocol handler, on the store without the session.  After the
    callback, whether it found a session or not, no session is stored under
    the state, and callbacks do not bring one back: a later callback with the
    same state, after any number of other callbacks, reports that no session
    was found, answers nothing, and leaves the sessions, the provider and the
    database untouched. *)
Theorem oauthCallback_session_single_use (req replay : CallbackRequest)
    (between : list CallbackRequest) (state : string)
    (store : gmap string OAuthSession) (backend : Backend) :
  cb_state req = Some state ->
  cb_state replay = Some state ->
  state <> "" ->
  let after := (oauthCallback_ req (store, backend)).2 in
  let later := oauthCallbacks_ between after in
  (forall session, findSessionById state store = Some session ->
     oauthCallback_ req (store, backend)
     = (Answered (dispatchCallback_ session req backend).1,
        (deleteSession state store, (dispatchCallback_ session req backend).2)))
  /\ findSessionById state after.1 = None
  /\ oauthCallback_ replay later
     = (Reported ("No session found for state: " +:+ state), later).
Proof.
  intros Hreq Hreplay Hne after later.
  assert (Hafter : after.1 !! state = None).
  { unfold after. rewrite (oauthCallback_with_state req state store backend Hreq Hne).
    destruct (findSessionById state store) as [session|] eqn:Hfind; cbn [fst snd].
    - apply lookup_delete_eq.
    - exact Hfind. }
  split; [|split].
  - intros session Hfind.
    rewrite (oauthCallback_with_state req state store backend Hreq Hne), Hfind. reflexivity.
  - exact Hafter.
  - assert (Hlater : later.1 !! state = None)
      by (apply oauthCallbacks_keep_absent; exact Hafter).
    destruct later as [store2 backend2].
    rewrite (oauthCallback_with_state replay state store2 backend2 Hreplay Hne).
    unfold findSessionById. cbn [fst] in Hlater. rewrite Hlater. reflexivity.
Qed.
(** An OAuth2 request that passes the checks of [oauthRequest] is handed to
    [oauth2Request] with a session whose [codeVerifier] is the hex form of
    the random bytes and whose id is the generated uuid. *)
Lemma oauthRequest_oauth2 (req : AuthorizeRequest) (environmentId : Z)
    (randomBytes : list Z) (uuid : string) (store : gmap string OAuthSession)
    (connectionId providerConfigKey : string) (config : ProviderConfig)
    (template : Template) :
  req_connection_id req = Some connectionId ->
  req_providerConfigKey req = Some providerConfigKey ->
  checkHmac hmacEnabled hmacVerify req environmentId providerConfigKey connectionId = None ->
  getProviderConfig providerConfigKey environmentId = Some config ->
  getTemplate (provider config) = Some template ->
  auth_mode template = OAuth2 ->
  (let config' := configAfterOverrides req config in
   oauth_client_id config' <> None /\ oauth_client_secret config' <> None
   /\ oauth_scopes config' <> None) ->
  exists session connectionConfig,
    oauthRequest_ req environmentId randomBytes uuid store
    = oauth2Request_ template (configAfterOverrides req config) session connectionConfig
        (default ∅ (req_authorization_params req)) (getOauthCallbackUrl environmentId)
        (req_user_scope req) store
    /\ session_codeVerifier session = hexOfBytes randomBytes
    /\ session_id session = uuid
    /\ session_authMode session = OAuth2.
Proof.
  intros Hconn Hkey Hhmac Hconfig Htemplate Hmode Hpresent.
  unfold configAfterOverrides in *. cbv zeta in Hpresent.
  destruct Hpresent as (Hid & Hsecret & Hscopes).
  unfold oauthRequest. rewrite Hconn, Hkey, Hhmac, Hconfig. cbn [provider withOAuthClient].
  rewrite Htemplate.
  set (config' := applyOverrides _ _ _) in *.
  rewrite Hmode.
  rewrite (bool_decide_false (oauth_client_id config' = None)) by assumption.
  rewrite (bool_decide_false (oauth_client_secret config' = None)) by assumption.
  rewrite (bool_decide_false (oauth_scopes config' = None)) by assumption.
  rewrite andb_false_r.
  eexists _, _. split; [reflexivity|].
  destruct (given (default ∅ (req_credentials req) !! "oauth_client_id_override" ≫= _)),
    (given (default ∅ (req_credentials req) !! "oauth_client_secret_override" ≫= _));
    cbn; rewrite ?Hmode; auto.
Qed.

End ControllerFacts.

Lemma oauthRequest_invalid_provider_config_witness :
  demoGetProviderConfig "gh-draft" 1
  = Some (withOAuthClient githubConfig (Some "id") (Some "secret") None)
  /\ auth_mode githubTemplate <> App
  /\ demoOauthRequest (demoRequest "gh-draft" None) 1 demoRandomBytes "uuid-1" ∅
     = (NotifyErr (Some "ws1") (InvalidProviderConfig "gh-draft"), ∅).
Proof.
  split; [reflexivity|]. split; [discriminate|].
  unfold demoOauthRequest.
  apply (oauthRequest_invalid_provider_config _ _ _ demoGetProviderConfig demoGetTemplate
           _ _ _ _ _ (demoRequest "gh-draft" None) 1 demoRandomBytes "uuid-1" ∅
           "c1" "gh-draft" (withOAuthClient githubConfig (Some "id") (Some "secret") None)
           githubTemplate).
  - reflexivity.
  - reflexivity.
  - reflexivity.
  - reflexivity.
  - reflexivity.
  - discriminate.
  - right. right. reflexivity.
Defined.

(** C5, the claim as stated fails: the mode that the validation exempts is
    App, not None.  For a GitHub App integration that has neither a client id
    nor scopes, the request is not refused: a session is created and the
    browser is redirected. *)
Lemma oauthRequest_app_mode_is_exempt :
  demoGetProviderConfig "gh-app" 1 = Some githubAppConfig
  /\ demoGetTemplate (provider githubAppConfig) = Some githubAppTemplate
  /\ auth_mode githubAppTemplate <> NoneMode
  /\ oauth_client_id (configAfterOverrides (demoRequest "gh-app" None) githubAppConfig) = None
  /\ (demoOauthRequest (demoRequest "gh-app" None) 1 demoRandomBytes "uuid-1" ∅).1
     = Redirect "https://github.com/apps/demo/installations/new?state=uuid-1"
  /\ session_connectionId
       <$> (demoOauthRequest (demoRequest "gh-app" None) 1 demoRandomBytes "uuid-1" ∅).2
           !! "uuid-1"
     = Some "c1".
Proof.
  split; [reflexivity|]. split; [reflexivity|]. split; [discriminate|].
  split; [reflexivity|]. split; vm_compute; reflexivity.
Qed.

Lemma oauth2Request_code_challenge_witness :
  disable_pkce githubTemplate = false
  /\ oauth2Request (fun _ _ => false) demoAuthorizeURL githubTemplate githubConfig
       demoSession ∅ ∅ "https://api.nango.dev/oauth/callback" None ∅
     = (Redirect
          ("https://github.com/login/oauth/authorize?client_id=id&scope=repo user"
           +:+ "&state=uuid-1&code_challenge_method=S256"
           +:+ "&code_challenge=dGbf7TLxKT1O2qJtuTa8VEOHomnQ8gSZ7oxlEZFdj_0"
           +:+ "&redirect_uri=https://api.nango.dev/oauth/callback"),
        <["uuid-1" := demoSession]> ∅)
  /\ base64urlNoPadding (sha256 (bytesOfString (session_codeVerifier demoSession)))
     = "dGbf7TLxKT1O2qJtuTa8VEOHomnQ8gSZ7oxlEZFdj_0".
Proof.
  split; [reflexivity|].
  split; [|vm_compute; reflexivity].
  refine (proj1 (oauth2Request_code_challenge (fun _ _ => false) demoAuthorizeURL
                   githubTemplate githubConfig demoSession ∅ ∅
                   "https://api.nango.dev/oauth/callback" None ∅ _ _ _ _ _ _ _ _ _)).
  - reflexivity.
  - reflexivity.
  - reflexivity.
  - reflexivity.
  - reflexivity.
  - intros grantType H. discriminate H.
  - reflexivity.
  - vm_compute. reflexivity.
Defined.

(** C3, the code at the failing input.  The comment above the PKCE block of
    [oauth2Request] says that PKCE is always implemented unless the template
    turns it off; two statements later the authorization parameters of the
    request are merged over those of the template and over the PKCE pair.  A
    request that names [code_challenge] thus decides what the URL carries
    (here [chosen]), and a request that gives it no value removes it, while
    the session holds the generated verifier, whose challenge is another
    string. *)
Lemma request_params_replace_code_challenge :
  disable_pkce githubTemplate = false
  /\ (demoOauthRequest (demoRequest "gh" (Some {[ "code_challenge" := Some "chosen" ]}))
        1 demoRandomBytes "uuid-1" ∅)
     = (Redirect
          ("https://github.com/login/oauth/authorize?client_id=id&scope=repo user"
           +:+ "&state=uuid-1&code_challenge_method=S256&code_challenge=chosen"
           +:+ "&redirect_uri=https://api.nango.dev/oauth/callback"),
        <["uuid-1" := demoSession]> ∅)
  /\ allAuthParams githubTemplate githubConfig demoSession
       {[ "code_challenge" := Some "chosen" ]} None !! "code_challenge"
     = Some "chosen"
  /\ allAuthParams githubTemplate githubConfig demoSession
       {[ "code_challenge" := None ]} None !! "code_challenge"
     = None
  /\ codeChallenge (session_codeVerifier demoSession)
     = "dGbf7TLxKT1O2qJtuTa8VEOHomnQ8gSZ7oxlEZFdj_0".
Proof.
  split; [reflexivity|]. repeat split; vm_compute; reflexivity.
Qed.

Lemma oauthCallback_session_single_use_witness :
  cb_state demoCallback = Some "uuid-1"
  /\ (demoOauthCallback demoCallback (<["uuid-1" := demoSession]> ∅, 0%nat)).2
     = (∅, 1%nat)
  /\ demoOauthCallback demoCallback (∅, 1%nat)
     = (Reported "No session found for state: uuid-1", (∅, 1%nat)).
Proof.
  split; [reflexivity|]. split; [vm_compute; reflexivity|].
  pose proof (oauthCallback_session_single_use demoGetProviderConfig demoGetTemplate nat
                demoHandler demoHandler demoCallback demoCallback [] "uuid-1"
                (<["uuid-1" := demoSession]> ∅) 0%nat eq_refl eq_refl) as H.
  assert (Hne : "uuid-1" <> "") by discriminate.
  destruct (H Hne) as (_ & _ & Hreplay).
  exact Hreplay.
Defined.


(** ** EncryptionManager: what is written can be read back *)

Lemma demoCipher_keeps_text : EncryptionKeepsText demoCipher.
Proof. intros key random text Hne. exact Hne. Qed.

Section EncryptionManagerFacts.
Variable E : Encryption.
Variable key : string.
Variable entropy : nat -> string.
Hypothesis Hsound : EncryptionSound E.

Lemma decrypt_encrypt random text :
  decrypt E key (encrypt E key random text).1.1 (encrypt E key random text).1.2
    (encrypt E key random text).2 = Ok text.
Proof.
  pose proof (Hsound key random text) as H.
  destruct (encrypt E key random text) as [[enc iv] tag]. exact H.
Qed.

(** X1.  With a key configured, [decryptEnvironment] undoes
    [encryptEnvironment]: the secret key and the pending secret key of the
    environment come back as they were, a pending key that is absent or
    empty staying as it is. *)
Theorem environment_round_trip (environment : Environment) (w : World) :
  key <> "" ->
  EncryptionKeepsText E ->
  exists decrypted,
    decryptEnvironment E key (Some (encryptEnvironment E key entropy environment w).1)
    = Ok (Some decrypted)
    /\ env_id decrypted = env_id environment
    /\ secret_key decrypted = secret_key environment
    /\ pending_secret_key decrypted = pending_secret_key environment.
Proof.
  intros Hkey Hkeeps.
  assert (Hk : shouldEncrypt key = true).
  { unfold shouldEncrypt. apply negb_true_iff, String.eqb_neq. assumption. }
  unfold encryptEnvironment, encryptStep. rewrite Hk. cbn [negb].
  pose proof (decrypt_encrypt (entropy (draws w)) (secret_key environment)) as Hs.
  destruct (encrypt E key (entropy (draws w)) (secret_key environment)) as [[enc iv] tag].
  cbn [fst snd] in Hs.
  destruct (present (pending_secret_key environment)) eqn:Hp.
  - destruct (pending_secret_key environment) as [p|] eqn:Hpending; [|discriminate].
    change (default "" (Some p)) with p. cbn [draws setDraws].
    pose proof (decrypt_encrypt (entropy (S (draws w))) p) as Hs2.
    pose proof (Hkeeps key (entropy (S (draws w))) p) as Hne.
    destruct (encrypt E key (entropy (S (draws w))) p) as [[enc2 iv2] tag2].
    cbn [fst snd] in *.
    assert (p <> "") as Hpne.
    { unfold present in Hp. apply negb_true_iff, String.eqb_neq in Hp. exact Hp. }
    specialize (Hne Hpne).
    unfold decryptEnvironment. cbn [secret_key_iv secret_key_tag secret_key
      pending_secret_key pending_secret_key_iv pending_secret_key_tag env_id].
    rewrite Hs. cbn [mbind Result_bind].
    assert (present (Some enc2) = true) as ->.
    { unfold present. apply negb_true_iff, String.eqb_neq. exact Hne. }
    cbn [stringArg mbind Result_bind]. rewrite Hs2. cbn [mbind Result_bind].
    eexists. split; [reflexivity|]. cbn. auto.
  - unfold decryptEnvironment. cbn [secret_key_iv secret_key_tag secret_key
      pending_secret_key pending_secret_key_iv pending_secret_key_tag env_id fst].
    rewrite Hs. cbn [mbind Result_bind]. rewrite Hp.
    eexists. split; [reflexivity|]. cbn. auto.
Qed.

(** X2.  With a key configured, [decryptProviderConfig] undoes
    [encryptProviderConfig] on a row that was not encrypted before: the
    client secret comes back as it was and [custom] in its JSON form (as it
    was, when it holds JSON values only).  A config without a client secret
    is stored as it is, [custom] included, and read back as it is. *)
Theorem providerConfig_round_trip (config : ProviderConfig) (w : World) :
  key <> "" ->
  oauth_client_secret_iv config = None ->
  exists stored decrypted,
    (encryptProviderConfig E key entropy config w).1 = Ok stored
    /\ decryptProviderConfig E key (Some stored) = Ok (Some decrypted)
    /\ cfg_id decrypted = cfg_id config
    /\ oauth_client_id decrypted = oauth_client_id config
    /\ oauth_client_secret decrypted = oauth_client_secret config
    /\ oauth_scopes decrypted = oauth_scopes config
    /\ toJSON (custom config)
       = (if present (oauth_client_secret config) && truthy (custom config)
          then Some (custom decrypted) else toJSON (custom config))
    /\ (if present (oauth_client_secret config) && truthy (custom config)
           && negb (isPlain (custom config))
        then True else custom decrypted = custom config)
    /\ (if present (oauth_client_secret config) then True else stored = config).
Proof.
  intros Hkey Hplain.
  assert (Hk : shouldEncrypt key = true).
  { unfold shouldEncrypt. apply negb_true_iff, String.eqb_neq. assumption. }
  unfold encryptProviderConfig, encryptStep. rewrite Hk. cbn [negb].
  destruct (present (oauth_client_secret config)) eqn:Hsecret; cbn [negb andb].
  - destruct (oauth_client_secret config) as [secret|] eqn:Hsec; [|discriminate].
    change (default "" (Some secret)) with secret.
    pose proof (decrypt_encrypt (entropy (draws w)) secret) as Hs.
    destruct (encrypt E key (entropy (draws w)) secret) as [[enc iv] tag].
    cbn [fst snd] in Hs.
    destruct (truthy (custom config)) eqn:Hcustom.
    + assert (custom config <> JUndefined) as Hdef
        by (intros Hu; rewrite Hu in Hcustom; discriminate).
      destruct (toJSON_defined _ Hdef) as [d Hd].
      destruct (JSON_parse_stringify _ _ Hd) as [Hstr Hparse].
      rewrite Hstr. cbn [stringArg draws setDraws].
      pose proof (decrypt_encrypt (entropy (S (draws w))) (render d)) as Hs2.
      destruct (encrypt E key (entropy (S (draws w))) (render d)) as [[enc2 iv2] tag2].
      cbn [fst snd] in Hs2.
      eexists _, _. split; [reflexivity|].
      unfold decryptProviderConfig.
      cbn [oauth_client_secret_iv oauth_client_secret_tag oauth_client_secret custom
           stringArg mbind Result_bind truthy getProp lookupField asString String.eqb
           Ascii.eqb Bool.eqb].
      rewrite Hs. cbn [mbind Result_bind]. rewrite Hs2. cbn [mbind Result_bind].
      rewrite Hparse. cbn [mbind Result_bind].
      split; [reflexivity|]. cbn. rewrite Hd. repeat split; try reflexivity.
      destruct (isPlain (custom config)) eqn:Hpl; cbn; [|exact I].
      rewrite (toJSON_plain _ Hpl) in Hd. congruence.
    + eexists _, _. split; [reflexivity|].
      unfold decryptProviderConfig.
      cbn [oauth_client_secret_iv oauth_client_secret_tag oauth_client_secret custom
           stringArg mbind Result_bind].
      rewrite Hs. cbn [mbind Result_bind]. rewrite Hcustom.
      split; [reflexivity|]. cbn. repeat split; reflexivity.
  - exists config, config. split; [reflexivity|].
    unfold decryptProviderConfig. rewrite Hplain.
    split; [reflexivity|]. repeat split; reflexivity.
Qed.

Lemma decryptEach_encryptEach random (vars : list EnvironmentVariable) : forall n,
  exists decrypted,
    decryptEach E key (encryptEach E key random n vars) = Ok decrypted
    /\ map var_id decrypted = map var_id vars
    /\ map value decrypted = map value vars.
Proof.
  induction vars as [|v vars IH]; intros n; [exists []; auto|].
  cbn [encryptEach].
  pose proof (decrypt_encrypt (random n) (value v)) as Hs.
  destruct (encrypt E key (random n) (value v)) as [[enc iv] tag]. cbn [fst snd] in Hs.
  destruct (IH (S n)) as (rest & Hrest & Hids & Hvals).
  cbn [decryptEach value_iv value_tag value var_id]. rewrite Hs. cbn [mbind Result_bind].
  rewrite Hrest. cbn [mbind Result_bind].
  eexists. split; [reflexivity|]. cbn [map value var_id]. rewrite Hids, Hvals. auto.
Qed.

(** X3.  With a key configured, [decryptEnvironmentVariables] undoes
    [encryptEnvironmentVariables]: the same variables, in the same order,
    with the values they had, whatever IV or tag they carried before. *)
Theorem environmentVariables_round_trip (random : nat -> string)
    (environmentVariables : list EnvironmentVariable) :
  key <> "" ->
  exists decrypted,
    decryptEnvironmentVariables E key
      (Some (encryptEnvironmentVariables E key random environmentVariables))
    = Ok (Some decrypted)
    /\ map var_id decrypted = map var_id environmentVariables
    /\ map value decrypted = map value environmentVariables.
Proof.
  intros Hkey.
  assert (Hk : shouldEncrypt key = true).
  { unfold shouldEncrypt. apply negb_true_iff, String.eqb_neq. assumption. }
  unfold encryptEnvironmentVariables, decryptEnvironmentVariables. rewrite Hk. cbn [negb].
  destruct (decryptEach_encryptEach random environmentVariables 0)
    as (decrypted & -> & Hids & Hvals).
  exists decrypted. auto.
Qed.
End EncryptionManagerFacts.

Lemma environment_round_trip_witness :
  exists decrypted,
    decryptEnvironment demoCipher "secret-key"
      (Some (encryptEnvironment demoCipher "secret-key" demoEntropy demoEnvironment
               demoWorld).1)
    = Ok (Some decrypted)
    /\ secret_key decrypted = "sk-live"
    /\ pending_secret_key decrypted = Some "sk-next".
Proof.
  destruct (environment_round_trip demoCipher "secret-key" demoEntropy demoCipher_sound
              demoEnvironment demoWorld ltac:(discriminate) demoCipher_keeps_text)
    as (decrypted & Hrun & _ & Hsecret & Hpending).
  exists decrypted. auto.
Defined.

Lemma providerConfig_round_trip_witness :
  exists stored decrypted,
    (encryptProviderConfig demoCipher "secret-key" demoEntropy customConfig demoWorld).1
    = Ok stored
    /\ decryptProviderConfig demoCipher "secret-key" (Some stored) = Ok (Some decrypted)
    /\ oauth_client_secret decrypted = Some "secret"
    /\ custom decrypted = custom customConfig.
Proof.
  destruct (providerConfig_round_trip demoCipher "secret-key" demoEntropy demoCipher_sound
              customConfig demoWorld ltac:(discriminate) eq_refl)
    as (stored & decrypted & Henc & Hdec & _ & _ & Hsecret & _ & _ & Hcustom & _).
  exists stored, decrypted. auto.
Defined.

Lemma environmentVariables_round_trip_witness :
  exists decrypted,
    decryptEnvironmentVariables demoCipher "secret-key"
      (Some (encryptEnvironmentVariables demoCipher "secret-key" demoEntropy demoVariables))
    = Ok (Some decrypted)
    /\ map value decrypted = ["v1"; ""].
Proof.
  destruct (environmentVariables_round_trip demoCipher "secret-key" demoCipher_sound
              demoEntropy demoVariables ltac:(discriminate))
    as (decrypted & Hrun & _ & Hvals).
  exists decrypted. auto.
Defined.


(** ** Credentials at rest, and the guards of the migration *)

Section AtRestFacts.
Variable E : Encryption.
Variable key : string.
Variable entropy : nat -> string.
Variable getIdByProviderConfigKey : Z -> string -> option Z.
Variable hashEncryptionKey : string -> string -> string.

(** X4.  With a key configured, [upsertConnection] writes no credentials in
    the clear: the row it reports holds an object with the single field
    [encrypted_credentials], next to the IV and the tag under which that text
    decrypts to the JSON text of the credentials; and every row of the table
    is either a row that was there before or a row of that form. *)
Theorem upsertConnection_stores_ciphertext (connectionId providerConfigKey : string)
    (parsedRawCredentials connectionConfig : JsValue) (environment_id : Z)
    (explicitMetadata : JsValue) (now : Z) (w : World) (d : JsValue) :
  key <> "" ->
  tableWf w ->
  toJSON parsedRawCredentials = Some d ->
  exists response w1 row enc iv tag,
    upsertConnection E key entropy getIdByProviderConfigKey connectionId providerConfigKey
      parsedRawCredentials connectionConfig environment_id explicitMetadata now w
    = (Ok response, w1)
    /\ row ∈ connections w1
    /\ id row = upserted_id response
    /\ credentials row = JObject [("encrypted_credentials", JString enc)]
    /\ credentials_iv row = Some iv
    /\ credentials_tag row = Some tag
    /\ (EncryptionSound E -> decrypt E key enc iv tag = Ok (render d))
    /\ Forall (fun r => r ∈ connections w \/ encryptedRow r) (connections w1).
Proof.
  intros Hkey [Hnodup Hids] Hd.
  assert (Hk : shouldEncrypt key = true).
  { unfold shouldEncrypt. apply negb_true_iff, String.eqb_neq. assumption. }
  unfold upsertConnection, encryptConnectionStep. rewrite Hk.
  set (random := entropy (draws w)).
  assert (Hsound : EncryptionSound E ->
            decrypt E key (encrypt E key random (render d)).1.1
              (encrypt E key random (render d)).1.2 (encrypt E key random (render d)).2
            = Ok (render d)).
  { intros Hs. pose proof (Hs key random (render d)) as H.
    destruct (encrypt E key random (render d)) as [[enc iv] tag]. exact H. }
  destruct (checkIfConnectionExists connectionId providerConfigKey environment_id w)
    as [stored|] eqn:Hlookup.
  - destruct (checkIfConnectionExists_Some _ _ _ _ _ Hlookup) as (Hin & Hhas & Hdel).
    rewrite (encryptConnection_enabled E key random _ d Hk) by exact Hd.
    destruct (encrypt E key random (render d)) as [[enc iv] tag]. cbn [fst snd] in Hsound.
    rewrite Forall_forall in Hids. destruct (Hids stored Hin) as (i & Hi & _).
    match goal with
    | |- context [applyUpdate ?p] => set (patch := p)
    end.
    exists {| upserted_id := id stored; operation := OVERRIDE |}.
    eexists. exists (applyUpdate patch stored), enc, iv, tag.
    split; [reflexivity|].
    cbn [connections logWrite setConnections setDraws].
    split; [|split; [reflexivity|split; [reflexivity|split; [reflexivity|split;
              [reflexivity|split; [exact Hsound|]]]]]].
    + apply list_elem_of_fmap. exists stored. split; [|exact Hin].
      assert (liveWithId (id stored) stored = true) as ->; [|reflexivity].
      unfold liveWithId. rewrite Hi, Hdel, Z.eqb_refl. reflexivity.
    + apply Forall_forall. intros r Hr. apply list_elem_of_fmap in Hr as (r0 & -> & Hr0).
      destruct (liveWithId (id stored) r0); [right|left; exact Hr0].
      exists enc, iv, tag. auto.
  - rewrite (encryptConnection_enabled E key random _ d Hk) by exact Hd.
    destruct (encrypt E key random (render d)) as [[enc iv] tag]. cbn [fst snd] in Hsound.
    match goal with
    | |- context [insertedRow ?o ?s] => set (row := insertedRow o s)
    end.
    exists {| upserted_id := Some (connections_id_seq w); operation := CREATION |}.
    eexists. exists row, enc, iv, tag.
    split; [reflexivity|].
    cbn [connections logWrite setConnections setDraws].
    split; [|split; [reflexivity|split; [reflexivity|split; [reflexivity|split;
              [reflexivity|split; [exact Hsound|]]]]]].
    + apply elem_of_app. right. apply list_elem_of_singleton. reflexivity.
    + apply Forall_app. split.
      * apply Forall_forall. intros r Hr. left. exact Hr.
      * constructor; [|constructor]. right. exists enc, iv, tag. auto.
Qed.

(** X5.  Once a key has been recorded, [encryptDatabaseIfNeeded] refuses to
    run with another key or with none: it throws and writes nothing. *)
Theorem encryptDatabaseIfNeeded_key_is_final (w : World) (dbConfig : DBConfig)
    (recorded : string) :
  db_config w = Some dbConfig ->
  encryption_key_hash dbConfig = Some recorded ->
  key = "" \/ hashEncryptionKey key keySalt <> recorded ->
  encryptDatabaseIfNeeded E key entropy hashEncryptionKey w
  = (Err (PlainError "You cannot edit or remove the encryption key once it has been set."),
     w).
Proof.
  intros Hcfg Hhash Hother. unfold encryptDatabaseIfNeeded. rewrite Hcfg.
  cbn [mbind option_bind]. rewrite Hhash.
  assert (Hdiff : Some recorded
                  <> (if negb (String.eqb key "")
                      then Some (hashEncryptionKey key keySalt) else None)).
  { destruct (String.eqb key "") eqn:Hk; cbn [negb]; [discriminate|].
    destruct Hother as [Hempty | Hne].
    - apply String.eqb_neq in Hk. contradiction.
    - congruence. }
  rewrite (bool_decide_false (Some dbConfig = None)) by discriminate.
  rewrite (bool_decide_false _ Hdiff). cbn [andb orb negb].
  rewrite (bool_decide_true (Some recorded <> None)) by discriminate.
  reflexivity.
Qed.

(** X6.  A migration that was started under the key and not completed is
    taken up again: the connection rows that do not carry an IV and a tag yet
    are encrypted, one update each, the others are left alone, and the
    checkpoint is completed. *)
Theorem encryptDatabaseIfNeeded_resumes (w : World) :
  key <> "" ->
  db_config w = Some {| encryption_key_hash := Some (hashEncryptionKey key keySalt);
                        encryption_complete := false |} ->
  tableWf w ->
  storable w ->
  exists w1,
    encryptDatabaseIfNeeded E key entropy hashEncryptionKey w = (Ok (), w1)
    /\ db_config w1 = Some {| encryption_key_hash := Some (hashEncryptionKey key keySalt);
                              encryption_complete := true |}
    /\ Forall2 (migratedRow E key) (connections w) (connections w1)
    /\ connectionUpdates (writes w1)
       = (connectionUpdates (writes w)
          ++ map id (filter (fun r => carriesIvTag r = false) (connections w)))%list.
Proof.
  intros Hkey Hcfg Hwf Hst.
  assert (Hk : String.eqb key "" = false) by (apply String.eqb_neq; assumption).
  unfold encryptDatabaseIfNeeded. rewrite Hcfg, Hk. cbn [mbind option_bind negb
    encryption_key_hash encryption_complete].
  rewrite (bool_decide_false (Some _ = None)) by discriminate.
  rewrite bool_decide_true by reflexivity. cbn [andb orb negb].
  destruct (encryptDatabase_spec E key entropy w Hwf Hst) as (w' & -> & Hall & Hlog & Hdb).
  eexists. split; [reflexivity|].
  cbn [db_config connections writes saveDbConfig setDbConfig logWrite].
  split; [reflexivity|]. split; [exact Hall|].
  rewrite connectionUpdates_app, Hlog. cbn. rewrite app_nil_r. reflexivity.
Qed.
End AtRestFacts.

Lemma upsertConnection_stores_ciphertext_witness :
  exists response w1 row enc iv tag,
    upsertConnection demoCipher "secret-key" demoEntropy demoConfigId "c1" "gh"
      (JObject [("type", JMode ApiKey); ("apiKey", JString "sk_1")]) (JObject []) 1
      JUndefined 1700000000000 demoWorld
    = (Ok response, w1)
    /\ row ∈ connections w1
    /\ id row = upserted_id response
    /\ credentials row = JObject [("encrypted_credentials", JString enc)]
    /\ credentials_iv row = Some iv
    /\ credentials_tag row = Some tag.
Proof.
  destruct (upsertConnection_stores_ciphertext demoCipher "secret-key" demoEntropy
              demoConfigId "c1" "gh"
              (JObject [("type", JMode ApiKey); ("apiKey", JString "sk_1")]) (JObject []) 1
              JUndefined 1700000000000 demoWorld
              (JObject [("type", JMode ApiKey); ("apiKey", JString "sk_1")])
              ltac:(discriminate) demoWorld_wf eq_refl)
    as (response & w1 & row & enc & iv & tag & H1 & H2 & H3 & H4 & H5 & H6 & _).
  exists response, w1, row, enc, iv, tag. auto 10.
Defined.

Lemma encryptDatabaseIfNeeded_key_is_final_witness :
  encryptDatabaseIfNeeded demoCipher "second-key" demoEntropy demoHash keyedWorld
  = (Err (PlainError "You cannot edit or remove the encryption key once it has been set."),
     keyedWorld)
  /\ encryptDatabaseIfNeeded demoCipher "" demoEntropy demoHash keyedWorld
     = (Err (PlainError "You cannot edit or remove the encryption key once it has been set."),
        keyedWorld).
Proof.
  split.
  - apply (encryptDatabaseIfNeeded_key_is_final demoCipher "second-key" demoEntropy demoHash
             keyedWorld _ (demoHash "first-key" "") eq_refl eq_refl).
    right. discriminate.
  - apply (encryptDatabaseIfNeeded_key_is_final demoCipher "" demoEntropy demoHash
             keyedWorld _ (demoHash "first-key" "") eq_refl eq_refl).
    left. reflexivity.
Defined.

Lemma interruptedWorld_wf : tableWf interruptedWorld.
Proof. exact migrationWorld_wf. Qed.

Lemma interruptedWorld_storable : storable interruptedWorld.
Proof. exact migrationWorld_storable. Qed.

Lemma encryptDatabaseIfNeeded_resumes_witness :
  exists w1,
    encryptDatabaseIfNeeded demoCipher "secret-key" demoEntropy demoHash interruptedWorld
    = (Ok (), w1)
    /\ connectionUpdates (writes w1) = [Some 1; Some 3].
Proof.
  destruct (encryptDatabaseIfNeeded_resumes demoCipher "secret-key" demoEntropy demoHash
              interruptedWorld ltac:(discriminate) eq_refl interruptedWorld_wf
              interruptedWorld_storable)
    as (w1 & Hrun & _ & _ & Hlog).
  exists w1. split; [exact Hrun|]. exact Hlog.
Defined.


(** ** The refresh coordinator: every call returns *)

Lemma list_sum_insert {A : Type} (f : A -> nat) (l : list A) : forall i x y,
  l !! i = Some x ->
  (list_sum (map f (<[i := y]> l)) + f x = list_sum (map f l) + f y)%nat.
Proof.
  induction l as [|a l IH]; intros i x y Hi; [discriminate|].
  destruct i as [|i].
  - injection Hi as ->. cbn [map insert list_insert].
    change (list_sum (?a :: ?l)) with (a + list_sum l)%nat. lia.
  - cbn [lookup list_lookup] in Hi. specialize (IH i x y Hi).
    change (<[S i := y]> (a :: l)) with (a :: <[i := y]> l). cbn [map].
    change (list_sum (?a :: ?l)) with (a + list_sum l)%nat. lia.
Qed.

Lemma forallb_false_lookup {A : Type} (f : A -> bool) (l : list A) :
  forallb f l = false -> exists i x, l !! i = Some x /\ f x = false.
Proof.
  induction l as [|a l IH]; [discriminate|]. cbn [forallb]. intros H.
  destruct (f a) eqn:Ha.
  - destruct (IH H) as (i & x & Hi & Hx). exists (S i), x. auto.
  - exists 0%nat, a. auto.
Qed.

Section ProgressFacts.
Variable E : Encryption.
Variable key : string.
Variable entropy : nat -> string.
Variable Date_now : Z.
Variable parseTokenExpirationDate : JsValue -> JsValue.
Variable parseInt10 : JsValue -> option Z.
Variable isTokenExpired : JsValue -> Z -> bool.
Variable shouldIntrospectToken : string -> bool.
Variable introspectedTokenExpired : ProviderConfig -> Connection -> bool.
Variable shouldUseProviderClient : string -> bool.
Variable refreshToken : nat -> Template -> ProviderConfig -> Connection -> Result JsValue.
Variable requestCredentials :
  RefreshPath -> nat -> Template -> ProviderConfig -> Connection -> ServiceResponse JsValue.

#[local] Abbreviation callerStep' :=
  (callerStep E key entropy Date_now parseTokenExpirationDate parseInt10
     isTokenExpired shouldIntrospectToken introspectedTokenExpired
     shouldUseProviderClient refreshToken requestCredentials).
#[local] Abbreviation step' :=
  (step E key entropy Date_now parseTokenExpirationDate parseInt10
     isTokenExpired shouldIntrospectToken introspectedTokenExpired
     shouldUseProviderClient refreshToken requestCredentials).
#[local] Abbreviation steps' :=
  (steps E key entropy Date_now parseTokenExpirationDate parseInt10
     isTokenExpired shouldIntrospectToken introspectedTokenExpired
     shouldUseProviderClient refreshToken requestCredentials).

Lemma steps_trans st1 st2 st3 : steps' st1 st2 -> steps' st2 st3 -> steps' st1 st3.
Proof.
  intros H12 H23. revert H12.
  induction H23 as [st|a b c Hab IHab Hbc]; intros H12; [assumption|].
  eapply steps_step; [apply IHab; exact H12 | exact Hbc].
Qed.

(** A step keeps the reference of the caller and the size of the heap, and
    brings the caller closer to its return. *)
Lemma callerStep_moves c s c1 s1 :
  callerStep' c s = Some (c1, s1) ->
  connection c1 = connection c
  /\ length (heap s1) = length (heap s)
  /\ (remaining (pc c1) < remaining (pc c))%nat.
Proof.
  unfold callerStep. destruct (heap s !! connection c) as [object|]; [|discriminate].
  destruct (pc c) eqn:Hpc.
  - destruct (shouldRefreshCredentials _ _ _ _ _ _ _ _); intros [= <- <-]; cbn; auto with lia.
  - case_bool_decide; [discriminate|]. intros [= <- <-]. cbn; auto with lia.
  - destruct (getNewCredentials _ _ _ _ _ _ _ _ _ _) as [r|e].
    + destruct (response r) as [newCredentials|];
        [destruct (success r && truthy newCredentials)|];
        intros [= <- <-]; cbn; auto with lia.
    + intros [= <- <-]. cbn; auto with lia.
  - destruct (updateConnection _ _ _ _ _) as [[u|e] w];
      intros [= <- <-]; cbn; rewrite length_insert; auto with lia.
  - intros [= <- <-]. cbn; auto with lia.
  - discriminate.
Qed.

(** A caller that has not returned can step, unless it waits for a lock that
    is held. *)
Lemma callerStep_enabled c s :
  is_Some (heap s !! connection c) ->
  isReturned (pc c) = false ->
  (pc c = AtLock -> callerLockKey c ∉ locks s) ->
  exists c1 s1, callerStep' c s = Some (c1, s1).
Proof.
  intros [object Hobj] Hret Hlock. unfold callerStep. rewrite Hobj.
  destruct (pc c) eqn:Hpc; try discriminate.
  - destruct (shouldRefreshCredentials _ _ _ _ _ _ _ _); eauto.
  - rewrite bool_decide_false by auto. eauto.
  - destruct (getNewCredentials _ _ _ _ _ _ _ _ _ _) as [r|e]; [|eauto].
    destruct (response r) as [newCredentials|];
      [destruct (success r && truthy newCredentials)|]; eauto.
  - destruct (updateConnection _ _ _ _ _) as [[u|e] w]; eauto.
  - eauto.
Qed.

Lemma step_lockAccounting held base st st1 :
  step' st st1 -> invariant base st -> lockAccounting held st -> lockAccounting held st1.
Proof.
  intros Hstep ([Hheld Huniq] & _ & _) (Hlocks & Hfree & Hrefs).
  destruct Hstep as [cs s i c c1 s1 Hi Hc]. unfold lockAccounting. cbn [fst snd] in *.
  destruct (callerStep_effect _ _ _ _ _ _ _ _ _ _ _ _ _ _ _ _ Hc) as (Hkey & _ & _ & Heffect).
  destruct (callerStep_moves _ _ _ _ Hc) as (Hconn & Hlen & _).
  pose proof (lookup_lt_Some _ _ _ Hi) as Hlt.
  split; [|split].
  - intros k. split.
    + intros Hk.
      assert (Hcases : k ∈ locks s \/ (inCritical (pc c1) = true /\ k = callerLockKey c)).
      { destruct (inCritical (pc c)), (inCritical (pc c1)); try (left; congruence).
        - left. rewrite Heffect in Hk. apply elem_of_difference in Hk as [Hk _]. exact Hk.
        - destruct Heffect as [_ Heq]. rewrite Heq in Hk.
          apply elem_of_union in Hk as [Hk|Hk]; [|auto].
          apply elem_of_singleton in Hk. auto. }
      destruct Hcases as [Hold | [Hcrit ->]].
      * apply Hlocks in Hold as [Hh | (j & cj & Hj & Hcj & Hkj)]; [auto|].
        destruct (decide (j = i)) as [->|Hne].
        -- assert (cj = c) as -> by congruence.
           destruct (inCritical (pc c1)) eqn:Hafter.
           ++ right. exists i, c1. rewrite list_lookup_insert_eq by assumption.
              split; [reflexivity|]. split; [assumption|]. congruence.
           ++ rewrite Hcj in Heffect. rewrite Heffect in Hk.
              apply elem_of_difference in Hk as [_ Hk]. exfalso. apply Hk.
              apply elem_of_singleton. congruence.
        -- right. exists j, cj. rewrite list_lookup_insert_ne by congruence. auto.
      * right. exists i, c1. rewrite list_lookup_insert_eq by assumption. auto.
    + intros [Hh | (j & cj & Hj & Hcj & Hkj)].
      * assert (k ∈ locks s) as Hold by (apply Hlocks; auto).
        destruct (inCritical (pc c)) eqn:Hb, (inCritical (pc c1)) eqn:Ha;
          try (rewrite Heffect; assumption).
        -- rewrite Heffect. apply elem_of_difference. split; [assumption|].
           intros Hk. apply elem_of_singleton in Hk. subst k.
           exact (Hfree i c Hi Hh).
        -- destruct Heffect as [_ ->]. apply elem_of_union. right. exact Hold.
      * destruct (decide (j = i)) as [->|Hne].
        -- rewrite list_lookup_insert_eq in Hj by assumption. injection Hj as <-.
           destruct (inCritical (pc c)) eqn:Hb; rewrite Hcj in Heffect.
           ++ rewrite Heffect. apply Hlocks. right. exists i, c. split; [assumption|].
              split; [assumption|]. congruence.
           ++ destruct Heffect as [_ ->]. rewrite <- Hkj, Hkey.
              apply elem_of_union. left. apply elem_of_singleton. reflexivity.
        -- rewrite list_lookup_insert_ne in Hj by congruence.
           assert (k ∈ locks s) as Hold by (apply Hlocks; eauto 10).
           destruct (inCritical (pc c)) eqn:Hb, (inCritical (pc c1)) eqn:Ha;
             try (rewrite Heffect; assumption).
           ++ rewrite Heffect. apply elem_of_difference. split; [assumption|].
              intros Hk. apply elem_of_singleton in Hk. apply Hne.
              eapply (Huniq j i cj c); eauto. congruence.
           ++ destruct Heffect as [_ ->]. apply elem_of_union. right. exact Hold.
  - intros j cj Hj. destruct (decide (j = i)) as [->|Hne].
    + rewrite list_lookup_insert_eq in Hj by assumption. injection Hj as <-.
      rewrite Hkey. eauto.
    + rewrite list_lookup_insert_ne in Hj by congruence. eauto.
  - intros j cj Hj.
    assert (Hsome : forall r, is_Some (heap s !! r) -> is_Some (heap s1 !! r)).
    { intros r Hr. apply lookup_lt_is_Some. apply lookup_lt_is_Some in Hr. lia. }
    destruct (decide (j = i)) as [->|Hne].
    + rewrite list_lookup_insert_eq in Hj by assumption. injection Hj as <-.
      rewrite Hconn. eauto.
    + rewrite list_lookup_insert_ne in Hj by congruence. eauto.
Qed.

Lemma initial_lockAccounting cs0 s0 :
  Forall (fun c => pc c = AtStart /\ decided c = None) cs0 ->
  Forall (fun c => (callerLockKey c ∉ locks s0) /\ is_Some (heap s0 !! connection c)) cs0 ->
  lockAccounting (locks s0) (cs0, s0).
Proof.
  intros Hinit Hok. rewrite Forall_lookup in Hinit, Hok.
  split; [|split]; cbn [fst snd].
  - intros k. split; [auto|]. intros [Hk | (i & c & Hi & Hc & _)]; [exact Hk|].
    destruct (Hinit i c Hi) as [Hpc _]. rewrite Hpc in Hc. discriminate.
  - intros i c Hi. apply (Hok i c Hi).
  - intros i c Hi. apply (Hok i c Hi).
Qed.

(** When no call is left to return, the locks are those of before. *)
Lemma lockAccounting_returned held cs s :
  lockAccounting held (cs, s) ->
  forallb (fun c => isReturned (pc c)) cs = true ->
  locks s = held.
Proof.
  intros (Hlocks & _ & _) Hall. cbn [fst snd] in *. apply set_eq. intros k.
  rewrite Hlocks. split; [|auto]. intros [Hk | (i & c & Hi & Hc & _)]; [exact Hk|].
  rewrite forallb_forall in Hall.
  assert (isReturned (pc c) = true) as Hret.
  { apply Hall. apply list_elem_of_In. eapply list_elem_of_lookup_2. exact Hi. }
  destruct (pc c); discriminate.
Qed.

(** As long as a call has not returned, some call can take a step. *)
Lemma progress held base cs s :
  invariant base (cs, s) ->
  lockAccounting held (cs, s) ->
  forallb (fun c => isReturned (pc c)) cs = false ->
  exists st1, step' (cs, s) st1.
Proof.
  intros _ (Hlocks & Hfree & Hrefs) Hnot. cbn [fst snd] in *.
  destruct (decide (Exists (fun c => inCritical (pc c) = true) cs)) as [Hcrit | Hnone].
  - apply Exists_exists in Hcrit as (c & Hin & Hc).
    apply list_elem_of_lookup in Hin as [i Hi].
    destruct (callerStep_enabled c s (Hrefs i c Hi)) as (c1 & s1 & Hstep).
    + destruct (pc c); try discriminate; reflexivity.
    + intros Hpc. rewrite Hpc in Hc. discriminate.
    + eexists. econstructor; eassumption.
  - destruct (forallb_false_lookup _ _ Hnot) as (i & c & Hi & Hc).
    destruct (callerStep_enabled c s (Hrefs i c Hi) Hc) as (c1 & s1 & Hstep).
    + intros _ Hk. apply Hlocks in Hk as [Hk | (j & cj & Hj & Hcj & _)].
      * exact (Hfree i c Hi Hk).
      * apply Hnone. apply Exists_exists. exists cj. split; [|assumption].
        eapply list_elem_of_lookup_2. exact Hj.
    + eexists. econstructor; eassumption.
Qed.

Lemma completion held base : forall n cs s,
  (work cs <= n)%nat ->
  invariant base (cs, s) ->
  lockAccounting held (cs, s) ->
  exists cs' s',
    steps' (cs, s) (cs', s')
    /\ forallb (fun c => isReturned (pc c)) cs' = true
    /\ locks s' = held
    /\ length cs' = length cs.
Proof.
  induction n as [|n IH]; intros cs s Hwork Hinv Hacc.
  - exists cs, s.
    assert (Hall : forallb (fun c => isReturned (pc c)) cs = true).
    { apply forallb_forall. intros c Hc. apply list_elem_of_In in Hc.
      apply list_elem_of_lookup in Hc as [i Hi].
      destruct (isReturned (pc c)) eqn:Hret; [reflexivity|].
      exfalso. unfold work in Hwork.
      pose proof (list_sum_insert (fun c => remaining (pc c)) cs i c c Hi) as _.
      assert (remaining (pc c) <= list_sum (map (fun c => remaining (pc c)) cs))%nat.
      { clear -Hi. revert i Hi. induction cs as [|a cs IHcs]; intros i Hi; [discriminate|].
        cbn [map]. change (list_sum (?a :: ?l)) with (a + list_sum l)%nat.
        destruct i as [|i]; [injection Hi as ->; lia|].
        cbn [lookup list_lookup] in Hi. specialize (IHcs i Hi). lia. }
      destruct (pc c); cbn in *; try discriminate; lia. }
    split; [apply steps_refl|]. split; [exact Hall|].
    split; [eapply lockAccounting_returned; eassumption | reflexivity].
  - destruct (forallb (fun c => isReturned (pc c)) cs) eqn:Hall.
    + exists cs, s. split; [apply steps_refl|]. split; [exact Hall|].
      split; [eapply lockAccounting_returned; eassumption | reflexivity].
    + destruct (progress held base cs s Hinv Hacc Hall) as [[cs1 s1] Hstep].
      pose proof (step_invariant _ _ _ _ _ _ _ _ _ _ _ _ base _ _ Hstep Hinv) as Hinv1.
      pose proof (step_lockAccounting held base _ _ Hstep Hinv Hacc) as Hacc1.
      assert (Hless : (work cs1 <= n)%nat /\ length cs1 = length cs).
      { inversion Hstep as [cs_ s_ i c c1 s1_ Hi Hc]; subst.
        destruct (callerStep_moves _ _ _ _ Hc) as (_ & _ & Hlt).
        pose proof (list_sum_insert (fun c => remaining (pc c)) cs i c c1 Hi) as Hsum.
        unfold work in *. rewrite length_insert. split; [lia | reflexivity]. }
      destruct Hless as [Hless Hlen].
      destruct (IH cs1 s1 Hless Hinv1 Hacc1) as (cs' & s' & Hrun & Hret & Hl & Hlen').
      exists cs', s'. split; [|split; [exact Hret|split; [exact Hl|congruence]]].
      eapply steps_trans; [|exact Hrun].
      eapply steps_step; [apply steps_refl | exact Hstep].
Qed.

(** X7.  Calls of [refreshCredentialsIfNeeded] cannot block one another for
    ever, and leave no lock behind: from every state that concurrent calls
    can reach, the calls can be run on until each of them has returned, and
    then the locks that are held are those that were held before the first
    call; this whatever the provider answers, and whether storing the new
    credentials works or throws. *)
Theorem refresh_calls_all_return (cs0 cs : list Caller) (s0 s : System) :
  Forall (fun c => pc c = AtStart /\ decided c = None) cs0 ->
  Forall (fun c => (callerLockKey c ∉ locks s0) /\ is_Some (heap s0 !! connection c)) cs0 ->
  steps' (cs0, s0) (cs, s) ->
  exists cs' s',
    steps' (cs, s) (cs', s')
    /\ length cs' = length cs0
    /\ forallb (fun c => isReturned (pc c)) cs' = true
    /\ locks s' = locks s0.
Proof.
  intros Hinit Hok Hsteps.
  assert (Hboth : invariant (providerCalls s0) (cs, s)
                  /\ lockAccounting (locks s0) (cs, s) /\ length cs = length cs0).
  { remember (cs0, s0) as st0 eqn:E0. remember (cs, s) as st eqn:E1.
    revert cs s E1. induction Hsteps as [st|st0' st1 st2 H01 IH H12]; intros cs s E1.
    - subst st. injection E1 as <- <-.
      split; [apply initial_invariant; assumption|].
      split; [apply initial_lockAccounting; assumption | reflexivity].
    - destruct st1 as [cs1 s1]. destruct (IH E0 cs1 s1 eq_refl) as (Hinv & Hacc & Hlen).
      subst st2.
      split; [eapply step_invariant; eassumption|].
      split; [eapply step_lockAccounting; eassumption|].
      inversion H12; subst. rewrite length_insert. assumption. }
  destruct Hboth as (Hinv & Hacc & Hlen).
  destruct (completion (locks s0) (providerCalls s0) (work cs) cs s (le_n _) Hinv Hacc)
    as (cs' & s' & Hrun & Hret & Hl & Hlen').
  exists cs', s'. split; [exact Hrun|]. split; [congruence|]. split; assumption.
Qed.
End ProgressFacts.

Lemma refresh_calls_all_return_witness :
  exists cs' s',
    demoSteps twoCallersStart (cs', s')
    /\ length cs' = 2%nat
    /\ forallb (fun c => isReturned (pc c)) cs' = true
    /\ locks s' = ∅.
Proof.
  assert (Hinit : Forall (fun c => pc c = AtStart /\ decided c = None)
                    [demoCaller; demoCaller]) by (repeat constructor).
  assert (Hok : Forall (fun c => (callerLockKey c ∉ locks (expiredSystem (JString "rt0")))
                                 /\ is_Some (heap (expiredSystem (JString "rt0"))
                                               !! connection c))
                  [demoCaller; demoCaller]).
  { repeat constructor; try apply not_elem_of_empty; eexists; reflexivity. }
  destruct (refresh_calls_all_return demoCipher "" demoEntropy demoNow demoParseDate
              demoParseInt demoIsTokenExpired (fun _ => false) (fun _ _ => false)
              (fun _ => false) stubRefreshToken stubProvider
              [demoCaller; demoCaller] [demoCaller; demoCaller]
              (expiredSystem (JString "rt0")) (expiredSystem (JString "rt0"))
              Hinit Hok (steps_refl _ _ _ _ _ _ _ _ _ _ _ _ _))
    as (cs' & s' & Hrun & Hlen & Hret & Hlocks).
  exists cs', s'. auto.
Defined.


(** ** The refresh coordinator: a refresh that fails *)

Section RefreshFailureFacts.
Variable E : Encryption.
Variable key : string.
Variable entropy : nat -> string.
Variable Date_now : Z.
Variable parseTokenExpirationDate : JsValue -> JsValue.
Variable parseInt10 : JsValue -> option Z.
Variable isTokenExpired : JsValue -> Z -> bool.
Variable shouldIntrospectToken : string -> bool.
Variable introspectedTokenExpired : ProviderConfig -> Connection -> bool.
Variable shouldUseProviderClient : string -> bool.
Variable refreshToken : nat -> Template -> ProviderConfig -> Connection -> Result JsValue.
Variable requestCredentials :
  RefreshPath -> nat -> Template -> ProviderConfig -> Connection -> ServiceResponse JsValue.

(** X8.  When a refresh is due, the lock is free and the provider gives no
    new credentials (the request throws, or its answer is without success or
    without credentials), [refreshCredentialsIfNeeded] returns that failure
    and leaves the database, the connection object and the locks as they
    were: the lock it took is released, nothing is stored.  One request was
    made to the provider. *)
Theorem refresh_failure_changes_nothing (ref : nat) (object : Connection)
    (config : ProviderConfig) (tpl : Template) (environment_id : Z) (force : bool)
    (s : System) (result : ServiceResponse JsValue) :
  heap s !! ref = Some object ->
  shouldRefreshCredentials isTokenExpired shouldIntrospectToken introspectedTokenExpired
    object (credentials object) config tpl force = true ->
  lockKey environment_id (provider_config_key object) (connection_id object) ∉ locks s ->
  refusal (getNewCredentials Date_now parseTokenExpirationDate parseInt10
             shouldUseProviderClient refreshToken requestCredentials
             (providerCalls s) object config tpl) = Some result ->
  refreshCredentialsIfNeeded E key entropy Date_now parseTokenExpirationDate parseInt10
    isTokenExpired shouldIntrospectToken introspectedTokenExpired
    shouldUseProviderClient refreshToken requestCredentials
    ref config tpl environment_id force s
  = (Some result, countProviderCall s).
Proof.
  intros Hobj Hshould Hfree Hrefusal.
  unfold refreshCredentialsIfNeeded, enter. rewrite Hobj. cbn [mbind option_bind].
  set (k := lockKey environment_id (provider_config_key object) (connection_id object)) in *.
  assert (Hlocks : ({[k]} ∪ locks s) ∖ {[k]} = locks s).
  { apply set_eq. intros x.
    rewrite elem_of_difference, elem_of_union, elem_of_singleton.
    split; [intros [[->|Hx] Hne]; [contradiction|exact Hx]|].
    intros Hx. split; [auto|]. intros ->. contradiction. }
  unfold runCaller.
  (* entry: the decision *)
  unfold callerStep at 1. cbn [connection pc atPc providerConfig template instantRefresh].
  rewrite Hobj, Hshould.
  (* the lock *)
  unfold callerStep at 1.
  cbn [connection pc atPc decided callerLockKey call_environment_id providerConfigKey
       connectionId].
  rewrite Hobj. fold k. rewrite (bool_decide_false _ Hfree).
  (* the request to the provider *)
  unfold callerStep at 1.
  cbn [connection pc atPc decided heap setLocks providerCalls providerConfig template].
  rewrite Hobj.
  unfold refusal in Hrefusal.
  destruct (getNewCredentials _ _ _ _ _ _ _ _ _ _) as [r|e].
  - destruct (response r) as [newCredentials|] eqn:Hresp.
    + destruct (success r && truthy newCredentials); [discriminate|].
      injection Hrefusal as <-.
      unfold callerStep at 1.
      cbn [connection pc atPc decided heap setLocks countProviderCall callerLockKey
           call_environment_id providerConfigKey connectionId locks].
      rewrite Hobj. fold k.
      unfold callerStep at 1. cbn [connection pc atPc heap setLocks countProviderCall].
      rewrite Hobj. cbn [pc atPc].
      f_equal. unfold countProviderCall, setLocks. cbn [db heap locks providerCalls].
      f_equal. exact Hlocks.
    + injection Hrefusal as <-.
      unfold callerStep at 1.
      cbn [connection pc atPc decided heap setLocks countProviderCall callerLockKey
           call_environment_id providerConfigKey connectionId locks].
      rewrite Hobj. fold k.
      unfold callerStep at 1. cbn [connection pc atPc heap setLocks countProviderCall].
      rewrite Hobj. cbn [pc atPc].
      f_equal. unfold countProviderCall, setLocks. cbn [db heap locks providerCalls].
      f_equal. exact Hlocks.
  - injection Hrefusal as <-.
    unfold callerStep at 1.
    cbn [connection pc atPc decided heap setLocks countProviderCall callerLockKey
         call_environment_id providerConfigKey connectionId locks].
    rewrite Hobj. fold k.
    unfold callerStep at 1. cbn [connection pc atPc heap setLocks countProviderCall].
    rewrite Hobj. cbn [pc atPc].
    f_equal. unfold countProviderCall, setLocks. cbn [db heap locks providerCalls].
    f_equal. exact Hlocks.
Qed.
End RefreshFailureFacts.

Lemma refresh_failure_changes_nothing_witness :
  refreshCredentialsIfNeeded demoCipher "" demoEntropy demoNow demoParseDate demoParseInt
    demoIsTokenExpired (fun _ => false) (fun _ _ => false) (fun _ => false)
    stubRefreshToken failingProvider 0 githubConfig githubTemplate 1 false
    (expiredSystem (JString "rt0"))
  = (Some {| success := false; error := Some (NangoError "refresh_token_external_error");
             response := None |},
     countProviderCall (expiredSystem (JString "rt0"))).
Proof.
  apply (refresh_failure_changes_nothing demoCipher "" demoEntropy demoNow demoParseDate
           demoParseInt demoIsTokenExpired (fun _ => false) (fun _ _ => false)
           (fun _ => false) stubRefreshToken failingProvider 0
           (expiredConnection (JString "rt0")) githubConfig githubTemplate 1 false
           (expiredSystem (JString "rt0"))).
  - reflexivity.
  - vm_compute. reflexivity.
  - apply not_elem_of_empty.
  - reflexivity.
Defined.


(** ** The OAuth controller: sessions from request to callback *)

Lemma sameFlow_refl s : sameFlow s s.
Proof. repeat split. Qed.

Section SessionFacts.
Variable getOauthCallbackUrl : Z -> string.
Variable hmacEnabled : Z -> bool.
Variable hmacVerify : string -> Z -> string -> string -> bool.
Variable getProviderConfig : string -> Z -> option ProviderConfig.
Variable getTemplate : string -> option Template.
Variable missesInterpolationParam : string -> gmap string string -> bool.
Variable interpolateStringFromObject : string -> gmap string string -> string.
Variable authorizeURL :
  ProviderConfig -> Template -> gmap string string -> gmap string string -> Result string.
Variable Backend : Type.
Variable oauth2Callback oauth1Callback :
  Template -> option ProviderConfig -> OAuthSession -> CallbackRequest -> Backend ->
  Response * Backend.
Variable getOAuthRequestToken :
  ProviderConfig -> Template -> string -> Result OAuth1RequestTokenResult.
Variable getAuthorizationURL : ProviderConfig -> Template -> OAuth1RequestTokenResult -> string.

#[local] Abbreviation oauthRequest' :=
  (oauthRequest getOauthCallbackUrl hmacEnabled hmacVerify getProviderConfig getTemplate
     missesInterpolationParam interpolateStringFromObject authorizeURL
     getOAuthRequestToken getAuthorizationURL).
#[local] Abbreviation oauthCallback' :=
  (oauthCallback getProviderConfig getTemplate Backend oauth2Callback oauth1Callback).

Lemma createSession_stored session store store1 :
  createSession session store = Ok store1 ->
  storedAs (session_id session) store store1 session.
Proof.
  unfold createSession. destruct (store !! session_id session) eqn:Hfree; [discriminate|].
  intros [= <-]. repeat split. exact Hfree.
Qed.

Lemma oauth2Request_outcome template providerConfig session connectionConfig
    authorizationParams callbackUrl userScope store :
  outcome session store
    (oauth2Request missesInterpolationParam authorizeURL template providerConfig session
       connectionConfig authorizationParams callbackUrl userScope store).
Proof.
  assert (Hcode : outcome session store
            (authorizationCodeRequest authorizeURL template providerConfig session
               connectionConfig authorizationParams callbackUrl userScope store)).
  { unfold authorizationCodeRequest.
    destruct (createSession session store) as [store1|e] eqn:Hcreate;
      [|left; split; reflexivity].
    right. exists session. split; [apply sameFlow_refl|].
    destruct (authorizeURL _ _ _ _); apply createSession_stored; exact Hcreate. }
  unfold oauth2Request.
  destruct (missesInterpolationParam (authorization_url template) connectionConfig);
    [left; split; reflexivity|].
  destruct (missesInterpolationParam _ connectionConfig); [left; split; reflexivity|].
  destruct (token_params_grant_type template) as [[grantType|]|]; try exact Hcode.
  destruct (String.eqb grantType "authorization_code"); [exact Hcode|].
  left; split; reflexivity.
Qed.

Lemma appRequest_outcome template providerConfig session authorizationParams store :
  outcome session store
    (appRequest missesInterpolationParam interpolateStringFromObject template providerConfig
       session authorizationParams store).
Proof.
  unfold appRequest.
  destruct (missesInterpolationParam _ _); [left; split; reflexivity|].
  destruct (createSession _ store) as [store1|e] eqn:Hcreate; [|left; split; reflexivity].
  right. eexists. split; [|apply (createSession_stored _ _ _ Hcreate)].
  repeat split.
Qed.

Lemma oauth1Request_outcome template config session callbackUrl store :
  outcome session store
    (oauth1Request getOAuthRequestToken getAuthorizationURL template config session
       callbackUrl store).
Proof.
  unfold oauth1Request.
  destruct (getOAuthRequestToken _ _ _) as [tokenResult|e]; [|left; split; reflexivity].
  destruct (createSession _ store) as [store1|e] eqn:Hcreate; [|left; split; reflexivity].
  right. eexists. split; [|apply (createSession_stored _ _ _ Hcreate)].
  repeat split.
Qed.

Lemma oauthRequest_outcome (req : AuthorizeRequest) (environmentId : Z)
    (randomBytes : list Z) (uuid : string) (store : gmap string OAuthSession) :
  let r := oauthRequest' req environmentId randomBytes uuid store in
  (r.2 = store /\ isRedirect r.1 = false)
  \/ exists session config template,
       storedAs uuid store r.2 session
       /\ req_connection_id req = Some (session_connectionId session)
       /\ req_providerConfigKey req = Some (session_providerConfigKey session)
       /\ getProviderConfig (session_providerConfigKey session) environmentId = Some config
       /\ getTemplate (provider config) = Some template
       /\ session_provider session = provider config
       /\ session_authMode session = auth_mode template
       /\ session_environmentId session = environmentId
       /\ session_codeVerifier session = hexOfBytes randomBytes.
Proof.
  cbv zeta. unfold oauthRequest.
  destruct (req_connection_id req) as [connectionId|]; [|left; split; reflexivity].
  destruct (req_providerConfigKey req) as [providerConfigKey|]; [|left; split; reflexivity].
  destruct (checkHmac _ _ _ _ _ _) as [e|]; [left; split; reflexivity|].
  destruct (getProviderConfig providerConfigKey environmentId) as [config|] eqn:Hconfig;
    [|left; split; reflexivity].
  cbn [provider applyOverrides withOAuthClient].
  destruct (getTemplate (provider config)) as [template|] eqn:Htemplate;
    [|left; split; reflexivity].
  match goal with
  | |- context [if ?guard then _ else _] => destruct guard
  end; [left; split; reflexivity|].
  match goal with
  | |- context [oauth2Request _ _ _ _ ?s _ _ _ _ _] => set (session := s)
  end.
  assert (Hsession :
    session_id session = uuid
    /\ session_connectionId session = connectionId
    /\ session_providerConfigKey session = providerConfigKey
    /\ session_provider session = provider config
    /\ session_authMode session = auth_mode template
    /\ session_environmentId session = environmentId
    /\ session_codeVerifier session = hexOfBytes randomBytes).
  { subst session.
    destruct (given (default ∅ (req_credentials req) !! "oauth_client_id_override" ≫= _)),
      (given (default ∅ (req_credentials req) !! "oauth_client_secret_override" ≫= _));
      cbn; auto 10. }
  destruct Hsession as (Hid & Hconn & Hkey & Hprov & Hmode & Henv & Hver).
  assert (Hwrap : forall r, outcome session store r ->
    (r.2 = store /\ isRedirect r.1 = false)
    \/ exists session' config' template',
         storedAs uuid store r.2 session'
         /\ Some connectionId = Some (session_connectionId session')
         /\ Some providerConfigKey = Some (session_providerConfigKey session')
         /\ getProviderConfig (session_providerConfigKey session') environmentId
            = Some config'
         /\ getTemplate (provider config') = Some template'
         /\ session_provider session' = provider config'
         /\ session_authMode session' = auth_mode template'
         /\ session_environmentId session' = environmentId
         /\ session_codeVerifier session' = hexOfBytes randomBytes).
  { intros r [Hsame | (session' & Hflow & Hstored)]; [left; exact Hsame|].
    right. exists session', config, template.
    destruct Hflow as (F1 & F2 & F3 & F4 & F5 & F6 & F7 & F8 & F9).
    rewrite Hid in Hstored. split; [exact Hstored|].
    rewrite F4, F2, F3, F6, F8, F7, Hconn, Hkey, Hprov, Hconfig. auto 10. }
  destruct (auth_mode template); try (left; split; reflexivity); apply Hwrap.
  - apply oauth1Request_outcome.
  - apply oauth2Request_outcome.
  - apply appRequest_outcome.
  - apply appRequest_outcome.
Qed.

(** X9.  [oauthRequest] touches the session store in one way only: it
    either leaves the store as it is, and then it does not redirect, or it
    adds one session under the generated id, which was free.  That session
    belongs to the connection id, the provider config key and the environment
    of the request, carries the auth mode of the provider's template and has
    the hex form of the random bytes as its code verifier.  So a session that
    exists is never replaced, and a redirect is never sent without its
    session being stored. *)
Theorem oauthRequest_sessions (req : AuthorizeRequest) (environmentId : Z)
    (randomBytes : list Z) (uuid : string) (store : gmap string OAuthSession) :
  let r := oauthRequest' req environmentId randomBytes uuid store in
  (r.2 = store /\ isRedirect r.1 = false)
  \/ exists session config template,
       storedAs uuid store r.2 session
       /\ req_connection_id req = Some (session_connectionId session)
       /\ req_providerConfigKey req = Some (session_providerConfigKey session)
       /\ getProviderConfig (session_providerConfigKey session) environmentId = Some config
       /\ getTemplate (provider config) = Some template
       /\ session_provider session = provider config
       /\ session_authMode session = auth_mode template
       /\ session_environmentId session = environmentId
       /\ session_codeVerifier session = hexOfBytes randomBytes.
Proof. apply oauthRequest_outcome. Qed.

(** X10.  From request to callback: when [oauthRequest] has redirected the
    browser, a callback that brings back the generated id as its state finds
    the session of the request, removes it, so that the store is again what
    it was before the request, and hands the session to the protocol handler
    of its auth mode. *)
Theorem oauthRequest_then_callback (req : AuthorizeRequest) (environmentId : Z)
    (randomBytes : list Z) (uuid : string) (store : gmap string OAuthSession)
    (callback : CallbackRequest) (backend : Backend) (url : string) :
  let r := oauthRequest' req environmentId randomBytes uuid store in
  r.1 = Redirect url ->
  cb_state callback = Some uuid ->
  uuid <> "" ->
  exists session,
    r.2 !! uuid = Some session
    /\ req_connection_id req = Some (session_connectionId session)
    /\ oauthCallback' callback (r.2, backend)
       = (Answered (dispatchCallback getProviderConfig getTemplate Backend oauth2Callback
                      oauth1Callback session callback backend).1,
          (store,
           (dispatchCallback getProviderConfig getTemplate Backend oauth2Callback
              oauth1Callback session callback backend).2)).
Proof.
  cbv zeta. intros Hredirect Hstate Hne.
  destruct (oauthRequest_outcome req environmentId randomBytes uuid store)
    as [[_ Hno] | (session & config & template & Hstored & Hconn & _)].
  - rewrite Hredirect in Hno. discriminate.
  - destruct Hstored as (Hfree & Hstore & _).
    exists session. rewrite Hstore. rewrite lookup_insert_eq.
    split; [reflexivity|]. split; [exact Hconn|].
    rewrite (oauthCallback_with_state getProviderConfig getTemplate Backend oauth2Callback
               oauth1Callback callback uuid _ backend Hstate Hne).
    unfold findSessionById, deleteSession. rewrite lookup_insert_eq.
    rewrite delete_insert_id by exact Hfree. reflexivity.
Qed.
End SessionFacts.

Lemma oauthRequest_then_callback_witness :
  exists session,
    (demoOauthRequest (demoRequest "gh" None) 1 demoRandomBytes "uuid-1" ∅).2 !! "uuid-1"
    = Some session
    /\ demoOauthCallback demoCallback
         ((demoOauthRequest (demoRequest "gh" None) 1 demoRandomBytes "uuid-1" ∅).2, 0%nat)
       = (Answered (NotifySuccess (Some "ws1") "gh" "c1"), (∅, 1%nat)).
Proof.
  assert (Hredirect : exists url,
            (demoOauthRequest (demoRequest "gh" None) 1 demoRandomBytes "uuid-1" ∅).1
            = Redirect url) by (vm_compute; eexists; reflexivity).
  destruct Hredirect as [url Hredirect].
  destruct (oauthRequest_then_callback (fun _ => "https://api.nango.dev/oauth/callback")
              (fun _ => false) (fun _ _ _ _ => true) demoGetProviderConfig demoGetTemplate
              (fun _ _ => false) (fun url _ => url) demoAuthorizeURL nat demoHandler
              demoHandler
              (fun _ _ _ => Ok {| request_token := "t"; request_token_secret := "s" |})
              (fun _ _ tokenResult => "https://provider.example/authorize?oauth_token="
                                      +:+ request_token tokenResult)
              (demoRequest "gh" None) 1 demoRandomBytes "uuid-1" ∅ demoCallback 0%nat
              url Hredirect eq_refl ltac:(discriminate))
    as (session & Hsession & _ & Hcallback).
  exists session. split; [exact Hsession|].
  etransitivity; [exact Hcallback|]. clear Hcallback.
  vm_compute in Hsession. injection Hsession as <-. vm_compute. reflexivity.
Defined.

Lemma hexDigit_hex n : 0 <= n < 16 -> In (hexDigit n) (list_ascii_of_string hexAlphabet).
Proof.
  intros Hn.
  assert (Hall : forallb (fun k => bool_decide (hexDigit (Z.of_nat k)
                                                ∈ list_ascii_of_string hexAlphabet))
                   (seq 0 16) = true) by (vm_compute; reflexivity).
  rewrite forallb_forall in Hall. specialize (Hall (Z.to_nat n)).
  rewrite Z2Nat.id in Hall by lia.
  apply list_elem_of_In. eapply bool_decide_eq_true_1. apply Hall, in_seq. lia.
Qed.

(** X11.  The code verifier that [oauthRequest] generates, the hex form of
    the random bytes, has two characters for each byte, all of them digits
    or letters from a to f: for the 24 bytes that are drawn, 48 characters,
    within what RFC 7636 allows for a verifier (43 to 128 unreserved
    characters). *)
Theorem hexOfBytes_shape (bytes : list Z) :
  Forall (fun b => 0 <= b < 256) bytes ->
  String.length (hexOfBytes bytes) = (2 * length bytes)%nat
  /\ charsIn hexAlphabet (hexOfBytes bytes).
Proof.
  induction 1 as [|b bytes Hb _ [IHlen IHchars]]; [split; [reflexivity | constructor]|].
  split.
  - cbn [hexOfBytes String.length length]. rewrite IHlen. lia.
  - unfold charsIn. cbn [hexOfBytes list_ascii_of_string].
    constructor.
    + apply hexDigit_hex. split; [apply Z.div_pos; lia | apply Z.div_lt_upper_bound; lia].
    + constructor; [apply hexDigit_hex; apply Z.mod_pos_bound; lia | exact IHchars].
Qed.

Lemma hexOfBytes_shape_witness :
  String.length (hexOfBytes demoRandomBytes) = 48%nat
  /\ charsIn hexAlphabet (hexOfBytes demoRandomBytes).
Proof.
  apply (hexOfBytes_shape demoRandomBytes).
  unfold demoRandomBytes. apply Forall_forall. intros b Hb.
  apply list_elem_of_fmap in Hb as (n & -> & Hn). apply elem_of_seq in Hn. lia.
Defined.

Lemma sha256Round_length st kw : length (sha256Round st kw) = length st.
Proof.
  destruct st as [|a [|b [|c [|d [|e [|f [|g [|h [|i rest]]]]]]]]]; reflexivity.
Qed.

Lemma sha256Block_length h block : length (sha256Block h block) = length h.
Proof.
  unfold sha256Block. rewrite length_map, length_combine.
  assert (Hfold : forall kws st, length (fold_left sha256Round kws st) = length st).
  { induction kws as [|kw kws IH]; intros st; [reflexivity|].
    cbn [fold_left]. rewrite IH. apply sha256Round_length. }
  rewrite Hfold. lia.
Qed.

Lemma sha256_length msg : length (sha256 msg) = 32%nat.
Proof.
  unfold sha256.
  assert (Hfold : forall blocks h, length (fold_left sha256Block blocks h) = length h).
  { induction blocks as [|b blocks IH]; intros h; [reflexivity|].
    cbn [fold_left]. rewrite IH. apply sha256Block_length. }
  generalize (blocksOf (length (wordsOfBytes (sha256Pad msg))) (wordsOfBytes (sha256Pad msg))).
  intros blocks. specialize (Hfold blocks sha256H0).
  destruct (fold_left sha256Block blocks sha256H0)
    as [|a [|b [|c [|d [|e [|f [|g [|h [|i rest]]]]]]]]]; try discriminate Hfold.
  reflexivity.
Qed.

Lemma sextet_in_alphabet n :
  In (sextet base64urlAlphabet n) (list_ascii_of_string base64urlAlphabet).
Proof.
  unfold sextet.
  assert (Hlt : (Z.to_nat (n mod 64) < 64)%nat)
    by (pose proof (Z.mod_pos_bound n 64 ltac:(lia)); lia).
  revert Hlt. generalize (Z.to_nat (n mod 64)). intros k Hk.
  assert (Hall : forallb (fun k =>
            bool_decide (default "="%char (String.get k base64urlAlphabet)
                         ∈ list_ascii_of_string base64urlAlphabet)) (seq 0 64) = true)
    by (vm_compute; reflexivity).
  pose proof (below_64 _ Hall k Hk) as H. cbn beta in H.
  apply bool_decide_eq_true in H. apply list_elem_of_In. exact H.
Qed.

Lemma encode64_shape : forall bytes,
  (3 * String.length (encode64 base64urlAlphabet false bytes) <= 4 * length bytes + 2
   /\ 4 * length bytes <= 3 * String.length (encode64 base64urlAlphabet false bytes))%nat
  /\ charsIn base64urlAlphabet (encode64 base64urlAlphabet false bytes).
Proof.
  apply list_ind3.
  - split; [cbn; lia | constructor].
  - intros a. split; [cbn; lia|].
    repeat (constructor; [apply sextet_in_alphabet|]). constructor.
  - intros a b. split; [cbn; lia|].
    repeat (constructor; [apply sextet_in_alphabet|]). constructor.
  - intros a b c rest [Hlen Hchars]. split.
    + cbn [encode64 String.length length]. lia.
    + unfold charsIn. cbn [encode64 list_ascii_of_string].
      repeat (constructor; [apply sextet_in_alphabet|]). exact Hchars.
Qed.

(** X12.  Whatever the code verifier, the code challenge that
    [oauth2Request] computes has 43 characters, all of them letters, digits,
    [-] or [_]: the length and the alphabet that RFC 7636 prescribes for an
    S256 challenge, with no padding left. *)
Theorem codeChallenge_shape (codeVerifier : string) :
  String.length (codeChallenge codeVerifier) = 43%nat
  /\ charsIn base64urlAlphabet (codeChallenge codeVerifier).
Proof.
  rewrite codeChallenge_base64url. unfold base64urlNoPadding.
  destruct (encode64_shape (sha256 (bytesOfString codeVerifier))) as [[Hup Hlow] Hchars].
  rewrite sha256_length in Hup, Hlow. split; [lia | exact Hchars].
Qed.


(** ** ConnectionService: reading, changing and deleting connections

    The columns [created_at], [deleted_at] and [last_fetched_at], which this
    service writes and does not read, are not part of [Connection]; the
    statements that set them are in the log of writes. *)

(** ** ConnectionService: reading, changing and deleting connections *)

Lemma lookupField_setField k k' v fs :
  lookupField k (setField k' v fs) = if String.eqb k k' then v else lookupField k fs.
Proof.
  induction fs as [|[k0 v0] fs IH]; cbn [setField lookupField].
  - destruct (String.eqb k k'); reflexivity.
  - destruct (String.eqb k' k0) eqn:H0; cbn [lookupField].
    + apply String.eqb_eq in H0. subst k0. destruct (String.eqb k k'); reflexivity.
    + destruct (String.eqb k k0) eqn:H1; [|exact IH].
      apply String.eqb_eq in H1. subst k0.
      rewrite String.eqb_sym in H0. rewrite H0. reflexivity.
Qed.

Lemma lookupField_absent k fs :
  existsb (fun kv => String.eqb k kv.1) fs = false -> lookupField k fs = JUndefined.
Proof.
  induction fs as [|[k0 v0] fs IH]; [reflexivity|]. cbn [existsb lookupField fst].
  destruct (String.eqb k k0); [discriminate|]. exact IH.
Qed.

Lemma fold_setField_lookup (g : string -> JsValue) k (es : list (string * JsValue)) :
  forall target,
  lookupField k (fold_left (fun acc kv => setField kv.1 (g kv.1) acc) es target)
  = if existsb (fun kv => String.eqb k kv.1) es then g k else lookupField k target.
Proof.
  induction es as [|[k0 v0] es IH]; intros target; [reflexivity|].
  cbn [fold_left existsb fst]. rewrite IH.
  destruct (existsb (fun kv => String.eqb k kv.1) es); [rewrite orb_true_r; reflexivity|].
  rewrite orb_false_r, lookupField_setField.
  destruct (String.eqb k k0) eqn:Hk; [|reflexivity].
  apply String.eqb_eq in Hk. subst k0. reflexivity.
Qed.

Lemma assign_lookup k source target :
  lookupField k (assign target source)
  = if hasOwn source k then lookupField k (ownEntries source) else lookupField k target.
Proof.
  unfold assign, hasOwn.
  apply (fold_setField_lookup (fun k => lookupField k (ownEntries source))).
Qed.

Lemma spread2_lookup a b k :
  getProp (spread2 a b) k
  = if hasOwn b k then lookupField k (ownEntries b) else lookupField k (ownEntries a).
Proof.
  unfold spread2. cbn [getProp]. rewrite !assign_lookup.
  destruct (hasOwn b k); [reflexivity|].
  destruct (hasOwn a k) eqn:Ha; [reflexivity|].
  symmetry. apply lookupField_absent. exact Ha.
Qed.

(** An update that rewrites the first row of a query, and no row before it,
    leaves the rewritten row first. *)
Lemma head_filter_update (p g : Connection -> bool) (f : Connection -> Connection)
    (rows : list Connection) (stored : Connection) :
  head (filter (fun r => p r = true) rows) = Some stored ->
  (forall r, r ∈ rows -> g r = true -> r = stored) ->
  g stored = true ->
  p (f stored) = true ->
  head (filter (fun r => p r = true) (map (fun r => if g r then f r else r) rows))
  = Some (f stored).
Proof.
  intros Hhead Huniq Hg Hp.
  assert (Hstored : p stored = true).
  { apply head_Some_elem_of, list_elem_of_filter in Hhead. apply Hhead. }
  induction rows as [|a rows IH]; [discriminate|].
  cbn [map]. destruct (p a) eqn:Hpa.
  - rewrite filter_cons_True in Hhead by assumption. injection Hhead as ->.
    rewrite Hg. rewrite filter_cons_True by assumption. reflexivity.
  - rewrite filter_cons_False in Hhead by congruence.
    assert (g a = false) as ->.
    { destruct (g a) eqn:Hga; [|reflexivity].
      assert (a = stored) by (apply Huniq; [left|assumption]). congruence. }
    rewrite filter_cons_False by congruence.
    apply IH; [assumption|]. intros r Hr. apply Huniq. right. exact Hr.
Qed.

Section ConnectionReadFacts.
Variable E : Encryption.
Variable key : string.
Variable entropy : nat -> string.
Variable getIdByProviderConfigKey : Z -> string -> option Z.
Variable parseTokenExpirationDate : JsValue -> JsValue.
Variable getEnvironmentName : Z -> Result (option string).
Variable softDeleteSyncsByConnection : Connection -> Result unit.

(** X13.  [updateMetadata] merges and stores: for a connection that is the
    live row of its key, the metadata it returns has, for every key, the
    value of the new metadata where these have the key and the stored value
    elsewhere; the row then holds that metadata, its other columns and the
    other rows being as before, and [getMetadata] returns it. *)
Theorem updateMetadata_merges (connection : Connection) (newValues : JsValue) (w : World) :
  tableWf w ->
  checkIfConnectionExists (connection_id connection) (provider_config_key connection)
    (environment_id connection) w = Some connection ->
  let merged := (updateMetadata connection newValues w).1 in
  let w1 := (updateMetadata connection newValues w).2 in
  (forall k, getProp merged k
             = if hasOwn newValues k then lookupField k (ownEntries newValues)
               else lookupField k (ownEntries (metadata connection)))
  /\ getMetadata connection w1 = merged
  /\ checkIfConnectionExists (connection_id connection) (provider_config_key connection)
       (environment_id connection) w1 = Some (withMetadata connection merged)
  /\ Forall2 (fun r r' => r' = r \/ (r = connection /\ r' = withMetadata connection merged))
       (connections w) (connections w1).
Proof.
  intros Hwf Hlookup merged w1.
  destruct (checkIfConnectionExists_Some _ _ _ _ _ Hlookup) as (Hin & Hkey & Hdel).
  assert (Hexisting : getMetadata connection w = metadata connection).
  { unfold getMetadata. unfold checkIfConnectionExists in Hlookup. rewrite Hlookup.
    reflexivity. }
  assert (Hmerged : merged = spread2 (metadata connection) newValues).
  { subst merged. unfold updateMetadata. cbn [fst]. rewrite Hexisting. reflexivity. }
  assert (Hid : liveWithId (id connection) connection = true).
  { destruct Hwf as [_ Hids]. rewrite Forall_forall in Hids.
    destruct (Hids connection Hin) as (i & Hi & _).
    unfold liveWithId. rewrite Hi, Hdel, Z.eqb_refl. reflexivity. }
  assert (Hrows : connections w1
                  = map (fun r => if liveWithId (id connection) r
                                  then withMetadata r merged else r) (connections w)).
  { subst w1 merged. reflexivity. }
  assert (Hfirst : checkIfConnectionExists (connection_id connection)
                     (provider_config_key connection) (environment_id connection) w1
                   = Some (withMetadata connection merged)).
  { unfold checkIfConnectionExists. rewrite Hrows.
    apply (head_filter_update
             (liveWithKey (connection_id connection) (provider_config_key connection)
                (environment_id connection))
             (liveWithId (id connection)) (fun r => withMetadata r merged)).
    - exact Hlookup.
    - intros r Hr Hlive. eapply liveWithId_unique; eassumption.
    - exact Hid.
    - unfold liveWithKey, hasKey in *. cbn. unfold liveWithKey, hasKey in Hkey.
      rewrite Hdel. rewrite !String.eqb_refl, Z.eqb_refl. reflexivity. }
  split; [|split; [|split]].
  - intros k. rewrite Hmerged. apply spread2_lookup.
  - unfold getMetadata. unfold checkIfConnectionExists in Hfirst. rewrite Hfirst.
    reflexivity.
  - exact Hfirst.
  - rewrite Hrows. apply Forall2_fmap_r, Forall_Forall2_diag, Forall_forall.
    intros r Hr. unfold compose. cbn beta. destruct (liveWithId (id connection) r) eqn:Hlive;
      [|left; reflexivity].
    right. assert (r = connection) as -> by (eapply liveWithId_unique; eassumption).
    auto.
Qed.
(** X14.  [deleteConnection] deletes softly: every live row with the key is
    kept, marked as deleted and stripped of its credentials, IV and tag; the
    other rows are as before; the number of rows changed is returned.
    Afterwards the key is free: the lookup finds nothing, [getConnection]
    answers [unknown_connection], and [upsertConnection] with the key adds a
    row under a new id and reports a creation. *)
Theorem deleteConnection_frees_key (connection : Connection) (providerConfigKey : string)
    (environment_id : Z) (w : World) :
  softDeleteSyncsByConnection connection = Ok () ->
  exists w1,
    deleteConnection softDeleteSyncsByConnection connection providerConfigKey
      environment_id w
    = (Ok (length (filter (fun r => liveWithKey (connection_id connection) providerConfigKey
                                      environment_id r = true) (connections w))), w1)
    /\ Forall2 (fun r r' => r' = if liveWithKey (connection_id connection) providerConfigKey
                                      environment_id r
                                 then deletedRow r else r)
         (connections w) (connections w1)
    /\ checkIfConnectionExists (connection_id connection) providerConfigKey
         environment_id w1 = None
    /\ (forall environmentName,
          environment_id <> 0 -> connection_id connection <> "" -> providerConfigKey <> "" ->
          getEnvironmentName environment_id = Ok environmentName ->
          getConnection E key parseTokenExpirationDate getEnvironmentName
            (connection_id connection) providerConfigKey environment_id w1
          = (Ok (failed "unknown_connection"), w1))
    /\ (forall credentials connectionConfig explicitMetadata now,
          credentials <> JUndefined ->
          exists w2,
            upsertConnection E key entropy getIdByProviderConfigKey
              (connection_id connection) providerConfigKey credentials connectionConfig
              environment_id explicitMetadata now w1
            = (Ok {| upserted_id := Some (connections_id_seq w); operation := CREATION |},
               w2)
            /\ length (connections w2) = S (length (connections w))).
Proof.
  intros Hsync. unfold deleteConnection. rewrite Hsync. eexists. split; [reflexivity|].
  set (matches := liveWithKey (connection_id connection) providerConfigKey environment_id).
  set (rows := map (fun r => if matches r then deletedRow r else r) (connections w)).
  cbn [connections logWrite setConnections].
  assert (Hnone : Forall (fun r => matches r = false) rows).
  { subst rows. apply Forall_fmap, Forall_forall. intros r _. unfold compose.
    destruct (matches r) eqn:Hm; [|exact Hm].
    subst matches. unfold liveWithKey. cbn. apply andb_false_r. }
  assert (Hlookup : head (filter (fun r => matches r = true) rows) = None).
  { unfold matches in *. rewrite (filter_none_live _ _ _ _ Hnone). reflexivity. }
  split; [|split; [exact Hlookup|split]].
  - subst rows. apply Forall2_fmap_r, Forall_Forall2_diag, Forall_forall.
    intros r _. reflexivity.
  - intros environmentName Henv Hcid Hpck Hname. unfold getConnection.
    apply Z.eqb_neq in Henv. apply String.eqb_neq in Hcid, Hpck.
    rewrite Henv, Hcid, Hpck. cbn [connections logWrite setConnections].
    fold matches. rewrite Hlookup, Hname. reflexivity.
  - intros credentials connectionConfig explicitMetadata now Hdef.
    unfold upsertConnection, checkIfConnectionExists.
    cbn [connections logWrite setConnections]. fold matches. rewrite Hlookup.
    match goal with
    | |- context [encryptConnectionStep E key entropy ?o ?w0] =>
        destruct (encryptConnectionStep_ok E key entropy o w0 Hdef)
          as (creds & iv & tag & w' & -> & Hrows & Hseq & _)
    end.
    eexists. cbn [connections_id_seq logWrite setConnections] in Hseq. rewrite Hseq.
    split; [reflexivity|]. cbn [connections logWrite setConnections].
    rewrite length_app, Hrows. cbn [connections logWrite setConnections length].
    subst rows. rewrite length_map. lia.
Qed.
(** X15.  What [upsertConnection] stores, [getConnection] returns: after an
    upsert of credentials that are an object, [getConnection] with the same
    key succeeds with the connection under the id that the upsert reported,
    with the connection config of the upsert and with the credentials of the
    upsert, in their JSON form when a key is configured and as they are
    otherwise, their [expires_at] parsed again for the types OAuth2, App and
    OAuth2CC.  The read changes no row. *)
Theorem getConnection_after_upsert (connectionId providerConfigKey : string)
    (fields : list (string * JsValue)) (connectionConfig : JsValue) (environment_id : Z)
    (explicitMetadata : JsValue) (now : Z) (w : World) (d : JsValue) :
  tableWf w ->
  EncryptionSound E ->
  (key = "" -> Forall (fun r => credentials_iv r = None) (connections w)) ->
  environment_id <> 0 -> connectionId <> "" -> providerConfigKey <> "" ->
  toJSON (JObject fields) = Some d ->
  exists response w1 connection w2,
    upsertConnection E key entropy getIdByProviderConfigKey connectionId providerConfigKey
      (JObject fields) connectionConfig environment_id explicitMetadata now w
    = (Ok response, w1)
    /\ getConnection E key parseTokenExpirationDate getEnvironmentName
         connectionId providerConfigKey environment_id w1
       = (Ok {| success := true; error := None; response := Some connection |}, w2)
    /\ id connection = upserted_id response
    /\ connection_id connection = connectionId
    /\ provider_config_key connection = providerConfigKey
    /\ connection_config connection = connectionConfig
    /\ credentials connection
       = reparseCredentials parseTokenExpirationDate
           (if shouldEncrypt key then d else JObject fields)
    /\ connections w2 = connections w1.
Proof.
  intros Hwf Hsound Hnokey Henv Hcid Hpck Hd.
  assert (Hobj : exists fs, d = JObject fs).
  { cbn in Hd. injection Hd as <-. eauto. }
  destruct Hobj as [fs ->].
  apply Z.eqb_neq in Henv. apply String.eqb_neq in Hcid, Hpck.
  (* what reading a row that holds the stored form gives *)
  assert (Hread : forall row w1,
    head (filter (fun r => liveWithKey connectionId providerConfigKey environment_id r
                            = true) (connections w1)) = Some row ->
    decryptConnection E key (Some row)
    = Ok (Some (withNewCredentials row (if shouldEncrypt key then JObject fs
                                        else JObject fields))) ->
    exists connection w2,
      getConnection E key parseTokenExpirationDate getEnvironmentName
        connectionId providerConfigKey environment_id w1
      = (Ok {| success := true; error := None; response := Some connection |}, w2)
      /\ id connection = id row
      /\ connection_id connection = connection_id row
      /\ provider_config_key connection = provider_config_key row
      /\ connection_config connection = connection_config row
      /\ credentials connection
         = reparseCredentials parseTokenExpirationDate
             (if shouldEncrypt key then JObject fs else JObject fields)
      /\ connections w2 = connections w1).
  { intros row w1 Hhead Hdec. unfold getConnection. rewrite Henv, Hcid, Hpck, Hhead, Hdec.
    cbn [withNewCredentials withCredentials credentials].
    assert (readProp (if shouldEncrypt key then JObject fs else JObject fields) "type"
            = Ok (getProp (if shouldEncrypt key then JObject fs else JObject fields) "type"))
      as -> by (destruct (shouldEncrypt key); reflexivity).
    eexists _, _. split; [reflexivity|]. cbn. auto 10. }
  unfold upsertConnection.
  destruct (checkIfConnectionExists connectionId providerConfigKey environment_id w)
    as [stored|] eqn:Hlookup.
  - (* an update *)
    destruct (checkIfConnectionExists_Some _ _ _ _ _ Hlookup) as (Hin & Hhas & Hdel).
    destruct Hwf as [Hnodup Hids]. pose proof Hids as Hids'.
    rewrite Forall_forall in Hids'. destruct (Hids' stored Hin) as (i & Hi & _).
    assert (Hlive : liveWithId (id stored) stored = true).
    { unfold liveWithId. rewrite Hi, Hdel, Z.eqb_refl. reflexivity. }
    unfold encryptConnectionStep.
    destruct (shouldEncrypt key) eqn:Hk.
    + rewrite (encryptConnection_enabled E key _ _ (JObject fs) Hk) by exact Hd.
      pose proof (Hsound key (entropy (draws w)) (render (JObject fs))) as Hs.
      destruct (encrypt E key (entropy (draws w)) (render (JObject fs))) as [[enc iv] tag].
      match goal with
      | |- context [applyUpdate ?p] => set (patch := p)
      end.
      set (w1 := logWrite _ _).
      destruct (Hread (applyUpdate patch stored) w1)
        as (connection & w2 & Hget & H1 & H2 & H3 & H4 & H5 & H6).
      * subst w1. cbn [connections logWrite setConnections setDraws].
        apply (head_filter_update
                 (liveWithKey connectionId providerConfigKey environment_id)
                 (liveWithId (id stored)) (applyUpdate patch)).
        -- exact Hlookup.
        -- intros r Hr Hl. eapply liveWithId_unique; [split|..]; eassumption.
        -- exact Hlive.
        -- unfold liveWithKey, hasKey. cbn. rewrite Hdel, !String.eqb_refl, Z.eqb_refl.
           reflexivity.
      * unfold decryptConnection. cbn [applyUpdate patch credentials_iv credentials_tag
          credentials withUpdatedAt withCredentials readProp isNullish getProp
          lookupField String.eqb Ascii.eqb Bool.eqb mbind Result_bind asString stringArg].
        rewrite Hs. cbn [mbind Result_bind].
        rewrite (JSON_parse_render (JObject fs)) by (eapply toJSON_isPlain; exact Hd).
        reflexivity.
      * eexists _, w1, connection, w2. split; [reflexivity|]. split; [exact Hget|].
        cbn [upserted_id]. rewrite H1, H2, H3, H4, H5. cbn. auto 10.
    + rewrite encryptConnection_disabled by exact Hk.
      match goal with
      | |- context [applyUpdate ?p] => set (patch := p)
      end.
      set (w1 := logWrite _ _).
      assert (Hiv : credentials_iv stored = None).
      { assert (key = "") as Hempty.
        { unfold shouldEncrypt in Hk. apply negb_false_iff, String.eqb_eq in Hk. exact Hk. }
        specialize (Hnokey Hempty). rewrite Forall_forall in Hnokey. auto. }
      destruct (Hread (applyUpdate patch stored) w1)
        as (connection & w2 & Hget & H1 & H2 & H3 & H4 & H5 & H6).
      * subst w1. cbn [connections logWrite setConnections setDraws].
        apply (head_filter_update
                 (liveWithKey connectionId providerConfigKey environment_id)
                 (liveWithId (id stored)) (applyUpdate patch)).
        -- exact Hlookup.
        -- intros r Hr Hl. eapply liveWithId_unique; [split|..]; eassumption.
        -- exact Hlive.
        -- unfold liveWithKey, hasKey. cbn. rewrite Hdel, !String.eqb_refl, Z.eqb_refl.
           reflexivity.
      * rewrite decryptConnection_unencrypted by (left; cbn; exact Hiv).
        reflexivity.
      * eexists _, w1, connection, w2. split; [reflexivity|]. split; [exact Hget|].
        cbn [upserted_id]. rewrite H1, H2, H3, H4, H5. cbn. auto 10.
  - (* an insertion *)
    pose proof (checkIfConnectionExists_None _ _ _ _ Hlookup) as Hnone.
    unfold encryptConnectionStep.
    destruct (shouldEncrypt key) eqn:Hk.
    + rewrite (encryptConnection_enabled E key _ _ (JObject fs) Hk) by exact Hd.
      pose proof (Hsound key (entropy (draws w)) (render (JObject fs))) as Hs.
      destruct (encrypt E key (entropy (draws w)) (render (JObject fs))) as [[enc iv] tag].
      match goal with
      | |- context [insertedRow ?o ?q] => set (row := insertedRow o q)
      end.
      set (w1 := logWrite _ _).
      destruct (Hread row w1) as (connection & w2 & Hget & H1 & H2 & H3 & H4 & H5 & H6).
      * subst w1. cbn [connections logWrite setConnections setDraws].
        rewrite filter_app, (filter_none_live _ _ _ _ Hnone). cbn [app].
        rewrite filter_cons_True; [reflexivity|].
        unfold liveWithKey, hasKey. cbn. rewrite !String.eqb_refl, Z.eqb_refl. reflexivity.
      * unfold decryptConnection. cbn [row insertedRow credentials_iv credentials_tag
          credentials withCredentials readProp isNullish getProp
          lookupField String.eqb Ascii.eqb Bool.eqb mbind Result_bind asString stringArg].
        rewrite Hs. cbn [mbind Result_bind].
        rewrite (JSON_parse_render (JObject fs)) by (eapply toJSON_isPlain; exact Hd).
        reflexivity.
      * eexists _, w1, connection, w2. split; [reflexivity|]. split; [exact Hget|].
        cbn [upserted_id]. rewrite H1, H2, H3, H4, H5. cbn. auto 10.
    + rewrite encryptConnection_disabled by exact Hk.
      match goal with
      | |- context [insertedRow ?o ?q] => set (row := insertedRow o q)
      end.
      set (w1 := logWrite _ _).
      destruct (Hread row w1) as (connection & w2 & Hget & H1 & H2 & H3 & H4 & H5 & H6).
      * subst w1. cbn [connections logWrite setConnections setDraws].
        rewrite filter_app, (filter_none_live _ _ _ _ Hnone). cbn [app].
        rewrite filter_cons_True; [reflexivity|].
        unfold liveWithKey, hasKey. cbn. rewrite !String.eqb_refl, Z.eqb_refl. reflexivity.
      * rewrite decryptConnection_unencrypted by (left; reflexivity). reflexivity.
      * eexists _, w1, connection, w2. split; [reflexivity|]. split; [exact Hget|].
        cbn [upserted_id]. rewrite H1, H2, H3, H4, H5. cbn. auto 10.
Qed.
End ConnectionReadFacts.

Lemma updateMetadata_merges_witness :
  getMetadata demoLiveRow
    (updateMetadata demoLiveRow (JObject [("plan", JString "pro")]) demoWorld).2
  = JObject [("plan", JString "pro")].
Proof.
  destruct (updateMetadata_merges demoLiveRow (JObject [("plan", JString "pro")]) demoWorld
              demoWorld_wf eq_refl) as (_ & Hget & _).
  exact Hget.
Defined.

Lemma deleteConnection_frees_key_witness :
  exists w1,
    deleteConnection (fun _ => Ok ()) demoLiveRow "gh" 1 demoWorld = (Ok 1%nat, w1)
    /\ checkIfConnectionExists "c2" "gh" 1 w1 = None.
Proof.
  destruct (deleteConnection_frees_key demoCipher "" demoEntropy demoConfigId demoParseDate
              (fun _ => Ok None) (fun _ => Ok ()) demoLiveRow "gh" 1 demoWorld eq_refl)
    as (w1 & Hrun & _ & Hfree & _).
  exists w1. split; [exact Hrun | exact Hfree].
Defined.

Lemma getConnection_after_upsert_witness :
  exists response w1 connection w2,
    upsertConnection demoCipher "secret-key" demoEntropy demoConfigId "c1" "gh"
      (JObject [("type", JMode ApiKey); ("apiKey", JString "sk_1")]) (JObject []) 1
      JUndefined 1700000000000 demoWorld
    = (Ok response, w1)
    /\ getConnection demoCipher "secret-key" demoParseDate (fun _ => Ok None) "c1" "gh" 1 w1
       = (Ok {| success := true; error := None; response := Some connection |}, w2)
    /\ id connection = upserted_id response
    /\ credentials connection
       = JObject [("type", JMode ApiKey); ("apiKey", JString "sk_1")].
Proof.
  destruct (getConnection_after_upsert demoCipher "secret-key" demoEntropy demoConfigId
              demoParseDate (fun _ => Ok None) "c1" "gh"
              [("type", JMode ApiKey); ("apiKey", JString "sk_1")] (JObject []) 1
              JUndefined 1700000000000 demoWorld
              (JObject [("type", JMode ApiKey); ("apiKey", JString "sk_1")])
              demoWorld_wf demoCipher_sound ltac:(discriminate) ltac:(discriminate)
              ltac:(discriminate) ltac:(discriminate) eq_refl)
    as (response & w1 & connection & w2 & Hup & Hget & Hid & _ & _ & _ & Hcreds & _).
  exists response, w1, connection, w2. split; [exact Hup|]. split; [exact Hget|].
  split; [exact Hid|]. exact Hcreds.
Defined.


(** ** The client credentials flow *)

Section ClientCredentialsFacts.
Variable E : Encryption.
Variable key : string.
Variable entropy : nat -> string.
Variable getIdByProviderConfigKey : Z -> string -> option Z.
Variable Date_now : Z.
Variable parseTokenExpirationDate : JsValue -> JsValue.
Variable parseInt10 : JsValue -> option Z.
Variable post : string -> JsValue -> JsValue -> Result JsValue.
Variable hmacEnabled : Z -> bool.
Variable hmacVerify : string -> Z -> string -> string -> bool.
Variable getProviderConfig : string -> Z -> option ProviderConfig.
Variable getTemplate : string -> Result Template.

#[local] Abbreviation getOauthClientCredentials_ :=
  (getOauthClientCredentials Date_now parseTokenExpirationDate parseInt10 post).
#[local] Abbreviation oauth2RequestCC_ :=
  (oauth2RequestCC E key entropy getIdByProviderConfigKey Date_now parseTokenExpirationDate
     parseInt10 post hmacEnabled hmacVerify getProviderConfig getTemplate).

Lemma getOauthClientCredentials_cases template client_id client_secret :
  let r := getOauthClientCredentials_ template client_id client_secret in
  (success r = false /\ response r = None
   /\ (error r = Some (NangoError "client_credentials_fetch_error")
       \/ error r = Some (NangoError "invalid_client_credentials")))
  \/ (exists data fields,
        post (authorization_url template) client_id client_secret = Ok data
        /\ r = {| success := true; error := None; response := Some (JObject fields) |}
        /\ clientCredentialsOf data client_id client_secret fields).
Proof.
  unfold getOauthClientCredentials.
  destruct (post (authorization_url template) client_id client_secret) as [data|e] eqn:Hpost;
    [|left; cbn; auto].
  destruct (truthy data) eqn:Hdata; [|left; cbn; auto].
  destruct (truthy (getProp data "success")) eqn:Hsuccess; [|left; cbn; auto].
  cbn [negb orb]. unfold parseRawCredentials, readProp.
  destruct (isNullish (getProp data "data")) eqn:Hnull; [left; cbn; auto|].
  cbn [mbind Result_bind].
  destruct (truthy (getProp (getProp data "data") "token")) eqn:Htoken;
    [|left; cbn; auto].
  right. eexists data, _. split; [reflexivity|]. split; [reflexivity|].
  unfold clientCredentialsOf. cbn. auto 10.
Qed.

(** X16.  [getOauthClientCredentials] either fails, without a response and
    with one of the errors client_credentials_fetch_error and
    invalid_client_credentials, or it succeeds with credentials of type
    OAUTH2_CC: the provider answered with a truthy [success], the token is
    the truthy [token] of the [data] of the answer, [raw] is that [data],
    and [client_id] and [client_secret] are the ones the call was given, not
    anything the provider sent. *)
Theorem getOauthClientCredentials_result template client_id client_secret :
  let r := getOauthClientCredentials_ template client_id client_secret in
  (success r = false /\ response r = None
   /\ (error r = Some (NangoError "client_credentials_fetch_error")
       \/ error r = Some (NangoError "invalid_client_credentials")))
  \/ (exists data fields,
        post (authorization_url template) client_id client_secret = Ok data
        /\ r = {| success := true; error := None; response := Some (JObject fields) |}
        /\ clientCredentialsOf data client_id client_secret fields).
Proof. apply getOauthClientCredentials_cases. Qed.

Ltac listed :=
  repeat first [apply list_elem_of_here | apply list_elem_of_further].

Lemma upsertConnection_object connectionId providerConfigKey fields connectionConfig
    environment_id explicitMetadata now w :
  exists response w1,
    upsertConnection E key entropy getIdByProviderConfigKey connectionId providerConfigKey
      (JObject fields) connectionConfig environment_id explicitMetadata now w
    = (Ok response, w1).
Proof.
  unfold upsertConnection.
  destruct (checkIfConnectionExists connectionId providerConfigKey environment_id w);
    match goal with
    | |- context [encryptConnectionStep E key entropy ?o ?w0] =>
        destruct (encryptConnectionStep_ok E key entropy o w0) as (? & ? & ? & ? & -> & _);
          [cbn; discriminate|]
    end; eauto.
Qed.

(** X17.  How [oauth2RequestCC] answers.  It answers 200, with the provider
    config key and the connection id of the request, only when both are
    given, the HMAC check passes where HMAC is enabled, the provider config
    exists, its template has the mode OAUTH2_CC and the provider returned
    credentials; the world is then the one [upsertConnection] leaves for
    that key, with credentials that carry the [client_id] and the
    [client_secret] of the body and a connection config that holds the
    [params] of the query and the scopes of the provider's answer.  Every
    other answer leaves the world as it was: one of nine error codes, the
    error that [getTemplate] threw, or the error of a [scope] that is
    neither an array nor a string; and a body that is null or undefined
    makes the handler itself throw. *)
Theorem oauth2RequestCC_answers (req : ClientCredentialsRequest) (environmentId now : Z)
    (w : World) :
  exists answer w',
    oauth2RequestCC_ req environmentId now w = (answer, w') /\
    match answer with
    | Ok (Status200 body) =>
        exists providerConfigKey connectionId config template data fields scopes response,
          given (cc_providerConfigKey req) = Some providerConfigKey
          /\ given (cc_connection_id req) = Some connectionId
          /\ body = JObject [("providerConfigKey", JString providerConfigKey);
                            ("connectionId", JString connectionId)]
          /\ (hmacEnabled environmentId = true ->
              exists hmac, given (cc_hmac req) = Some hmac
                /\ hmacVerify hmac environmentId providerConfigKey connectionId = true)
          /\ getProviderConfig providerConfigKey environmentId = Some config
          /\ getTemplate (provider config) = Ok template
          /\ auth_mode template = OAuth2CC
          /\ clientCredentialsOf data (getProp (cc_body req) "client_id")
               (getProp (cc_body req) "client_secret") fields
          /\ scopesOf (getProp (getProp data "data") "scope") = Ok scopes
          /\ upsertConnection E key entropy getIdByProviderConfigKey connectionId
               providerConfigKey (JObject fields)
               (setProp (JObject (map (fun kv => (kv.1, JString kv.2))
                                      (default [] (cc_params req))))
                        "scopes" scopes)
               environmentId JUndefined now w
             = (Ok response, w')
    | Ok (ErrRes code) =>
        w' = w /\
        code ∈ ["missing_client_id"; "missing_client_secret"; "missing_connection";
                "missing_connection_id"; "missing_hmac"; "invalid_hmac";
                "unknown_provider_config"; "invalid_auth_mode"; "oauth2_cc_error"]
    | Ok (NextErr err) =>
        w' = w /\
        ((exists providerConfigKey config,
            given (cc_providerConfigKey req) = Some providerConfigKey
            /\ getProviderConfig providerConfigKey environmentId = Some config
            /\ getTemplate (provider config) = Err err)
         \/ (exists data, truthy (getProp data "success") = true
               /\ scopesOf (getProp (getProp data "data") "scope") = Err err))
    | Err err => w' = w /\ isNullish (cc_body req) = true
    end.
Proof.
  unfold oauth2RequestCC. unfold readProp.
  destruct (isNullish (cc_body req)) eqn:Hbody;
    [do 2 eexists; split; [reflexivity|]; split; reflexivity|].
  cbv iota.
  destruct (truthy (getProp (cc_body req) "client_id")) eqn:Hid;
    [cbn [negb]|do 2 eexists; split; [reflexivity|]; split; [reflexivity|]; listed].
  destruct (truthy (getProp (cc_body req) "client_secret")) eqn:Hsecret;
    [cbn [negb]|do 2 eexists; split; [reflexivity|]; split; [reflexivity|]; listed].
  destruct (given (cc_providerConfigKey req)) as [providerConfigKey|] eqn:Hpck;
    [|do 2 eexists; split; [reflexivity|]; split; [reflexivity|]; listed].
  destruct (given (cc_connection_id req)) as [connectionId|] eqn:Hcid;
    [|do 2 eexists; split; [reflexivity|]; split; [reflexivity|]; listed].
  set (hmacFailure :=
         if hmacEnabled environmentId then
           match given (cc_hmac req) with
           | None => Some "missing_hmac"
           | Some hmac =>
               if hmacVerify hmac environmentId providerConfigKey connectionId
               then None else Some "invalid_hmac"
           end
         else None).
  assert (Hhmac :
    (hmacFailure = None /\
     (hmacEnabled environmentId = true ->
        exists hmac, given (cc_hmac req) = Some hmac
          /\ hmacVerify hmac environmentId providerConfigKey connectionId = true))
    \/ hmacFailure = Some "missing_hmac" \/ hmacFailure = Some "invalid_hmac").
  { subst hmacFailure. destruct (hmacEnabled environmentId); [|left; split; [reflexivity|discriminate]].
    destruct (given (cc_hmac req)) as [hmac|]; [|auto].
    destruct (hmacVerify hmac environmentId providerConfigKey connectionId) eqn:Hv; eauto. }
  destruct Hhmac as [[-> Hhmac]|[-> | ->]];
    [|do 2 eexists; split; [reflexivity|]; split; [reflexivity|]; listed..].
  destruct (getProviderConfig providerConfigKey environmentId) as [config|] eqn:Hconfig;
    [|do 2 eexists; split; [reflexivity|]; split; [reflexivity|]; listed].
  destruct (getTemplate (provider config)) as [template|err] eqn:Htemplate;
    [|do 2 eexists; split; [reflexivity|]; split; [reflexivity|]; left; eauto].
  case_bool_decide as Hmode;
    [cbn [negb]|do 2 eexists; split; [reflexivity|]; split; [reflexivity|]; listed].
  destruct (getOauthClientCredentials_cases template (getProp (cc_body req) "client_id")
              (getProp (cc_body req) "client_secret"))
    as [(Hs & Hr & _)|(data & fields & Hpost & Hr & Hcreds)].
  - rewrite Hr. do 2 eexists; split; [reflexivity|]; split; [reflexivity|]; listed.
  - rewrite Hr. cbn [response success negb orb truthy getProp].
    destruct Hcreds as (H1 & H2 & H3 & H4 & H5 & H6 & H7).
    rewrite H7. unfold readProp.
    assert (Hnn : isNullish (getProp data "data") = false).
    { destruct (getProp data "data"); try reflexivity;
        rewrite H3 in H4; cbn in H4; discriminate. }
    rewrite Hnn. cbn [mbind Result_bind].
    destruct (scopesOf (getProp (getProp data "data") "scope")) as [scopes|err] eqn:Hscopes;
      [|do 2 eexists; split; [reflexivity|]; split; [reflexivity|]; right; eauto].
    match goal with
    | |- context [upsertConnection E key entropy getIdByProviderConfigKey ?a ?b
                    (JObject fields) ?c ?d ?e ?f ?g] =>
        destruct (upsertConnection_object a b fields c d e f g) as (response & w1 & Hup)
    end.
    rewrite Hup. do 2 eexists; split; [reflexivity|].
    exists providerConfigKey, connectionId, config, template, data, fields, scopes, response.
    repeat split; auto.
Qed.

End ClientCredentialsFacts.


(** ** Reading credentials: getConnectionCredentials *)

Section ConnectionCredentialsFacts.
Variable E : Encryption.
Variable key : string.
Variable entropy : nat -> string.
Variable Date_now : Z.
Variable parseTokenExpirationDate : JsValue -> JsValue.
Variable parseInt10 : JsValue -> option Z.
Variable isTokenExpired : JsValue -> Z -> bool.
Variable shouldIntrospectToken : string -> bool.
Variable introspectedTokenExpired : ProviderConfig -> Connection -> bool.
Variable shouldUseProviderClient : string -> bool.
Variable refreshToken : nat -> Template -> ProviderConfig -> Connection -> Result JsValue.
Variable requestCredentials :
  RefreshPath -> nat -> Template -> ProviderConfig -> Connection -> ServiceResponse JsValue.
Variable getEnvironmentName : Z -> Result (option string).
Variable getProviderConfig : string -> Z -> option ProviderConfig.
Variable getTemplate : string -> Result Template.

#[local] Abbreviation getConnection_ :=
  (getConnection E key parseTokenExpirationDate getEnvironmentName).
#[local] Abbreviation shouldRefreshCredentials_ :=
  (shouldRefreshCredentials isTokenExpired shouldIntrospectToken introspectedTokenExpired).
#[local] Abbreviation getNewCredentials_ :=
  (getNewCredentials Date_now parseTokenExpirationDate parseInt10
     shouldUseProviderClient refreshToken requestCredentials).
#[local] Abbreviation refreshIfNeeded_ :=
  (refreshCredentialsIfNeeded E key entropy Date_now parseTokenExpirationDate parseInt10
     isTokenExpired shouldIntrospectToken introspectedTokenExpired
     shouldUseProviderClient refreshToken requestCredentials).
#[local] Abbreviation getConnectionCredentials_ :=
  (getConnectionCredentials E key entropy Date_now parseTokenExpirationDate parseInt10
     isTokenExpired shouldIntrospectToken introspectedTokenExpired
     shouldUseProviderClient refreshToken requestCredentials
     getEnvironmentName getProviderConfig getTemplate).

Lemma getConnection_rows connectionId providerConfigKey env w r w1 :
  getConnection_ connectionId providerConfigKey env w = (r, w1) ->
  connections w1 = connections w.
Proof.
  unfold getConnection. repeat case_match; intros [= <- <-]; reflexivity.
Qed.

Lemma withNewCredentials_same (c : Connection) :
  withNewCredentials c (credentials c) = c.
Proof. destruct c; reflexivity. Qed.

Lemma lookup_appended (h : list Connection) (c : Connection) :
  (h ++ [c])%list !! length h = Some c.
Proof. rewrite lookup_app_r by lia. rewrite Nat.sub_diag. reflexivity. Qed.

(** The run of a call that finds nothing to refresh. *)
Lemma refresh_not_due ref object config tpl env force s :
  heap s !! ref = Some object ->
  shouldRefreshCredentials_ object (credentials object) config tpl force = false ->
  refreshIfNeeded_ ref config tpl env force s
  = (Some {| success := true; error := None; response := Some (credentials object) |}, s).
Proof.
  intros Hobj Hshould. unfold refreshCredentialsIfNeeded, enter. rewrite Hobj.
  cbn [mbind option_bind]. unfold runCaller.
  unfold callerStep at 1. cbn [connection pc atPc providerConfig template instantRefresh].
  rewrite Hobj, Hshould.
  unfold callerStep at 1. cbn [connection pc atPc]. rewrite Hobj. reflexivity.
Qed.

(** The run of a call that refreshes and stores. *)
Lemma refresh_stores ref object config tpl env force s r creds :
  heap s !! ref = Some object ->
  shouldRefreshCredentials_ object (credentials object) config tpl force = true ->
  lockKey env (provider_config_key object) (connection_id object) ∉ locks s ->
  getNewCredentials_ (providerCalls s) object config tpl = Ok r ->
  success r = true -> response r = Some creds -> truthy creds = true ->
  exists random stored w1,
    encryptConnection E key random (withNewCredentials object creds) = Ok stored
    /\ connections w1
       = map (fun row => if liveWithKey (connection_id object) (provider_config_key object)
                              (environment_id object) row
                         then stored else row)
             (connections (db s))
    /\ refreshIfNeeded_ ref config tpl env force s
       = (Some {| success := true; error := None; response := Some creds |},
          {| db := w1; heap := <[ref := withNewCredentials object creds]> (heap s);
             locks := locks s; providerCalls := S (providerCalls s) |}).
Proof.
  intros Hobj Hshould Hfree Hnew Hsuccess Hresponse Htruthy.
  set (k := lockKey env (provider_config_key object) (connection_id object)) in *.
  assert (Hlocks : ({[k]} ∪ locks s) ∖ {[k]} = locks s).
  { apply set_eq. intros x.
    rewrite elem_of_difference, elem_of_union, elem_of_singleton.
    split; [intros [[->|Hx] Hne]; [contradiction|exact Hx]|].
    intros Hx. split; [auto|]. intros ->. contradiction. }
  assert (Hdef : credentials (withNewCredentials object creds) <> JUndefined).
  { cbn. intros ->. discriminate. }
  destruct (encryptConnectionStep_spec E key entropy (withNewCredentials object creds) (db s))
    as (random & w0 & Hstep & Hrows & _).
  destruct (encryptConnectionStep_ok E key entropy (withNewCredentials object creds) (db s) Hdef)
    as (c & iv & tag & w0' & Hok & _).
  rewrite Hok in Hstep. injection Hstep as Hstored <-.
  exists random, (withCredentials (withNewCredentials object creds) c iv tag).
  eexists. split; [symmetry; exact Hstored|].
  unfold refreshCredentialsIfNeeded, enter. rewrite Hobj. cbn [mbind option_bind].
  unfold runCaller.
  unfold callerStep at 1. cbn [connection pc atPc providerConfig template instantRefresh].
  rewrite Hobj, Hshould.
  unfold callerStep at 1.
  cbn [connection pc atPc decided callerLockKey call_environment_id providerConfigKey
       connectionId].
  rewrite Hobj. fold k. rewrite (bool_decide_false _ Hfree).
  unfold callerStep at 1.
  cbn [connection pc atPc decided heap setLocks providerCalls providerConfig template].
  rewrite Hobj, Hnew, Hresponse, Hsuccess, Htruthy. cbn [andb].
  unfold callerStep at 1.
  cbn [connection pc atPc decided heap setLocks countProviderCall].
  rewrite Hobj. unfold updateConnection.
  cbn [db setHeap countProviderCall setLocks heap locks providerCalls]. rewrite Hok.
  unfold callerStep at 1.
  cbn [connection pc atPc decided heap setDb setHeap callerLockKey call_environment_id
       providerConfigKey connectionId locks].
  rewrite list_lookup_insert_eq by (apply lookup_lt_Some in Hobj; exact Hobj).
  fold k. cbn [pc atPc]. split; cycle 1.
  - f_equal. unfold setLocks, setDb, setHeap, countProviderCall.
    cbn [db heap locks providerCalls]. unfold callerLockKey, atPc.
    cbn [call_environment_id providerConfigKey connectionId].
    fold k. rewrite Hlocks. reflexivity.
  - cbn [connections logWrite setConnections]. rewrite Hrows. reflexivity.
Qed.

Lemma encryptConnection_readback random c stored d :
  EncryptionSound E ->
  (key = "" -> credentials_iv c = None) ->
  toJSON (credentials c) = Some d ->
  encryptConnection E key random c = Ok stored ->
  exists iv tag,
    decryptConnection E key (Some stored)
    = Ok (Some (withCredentials c (if shouldEncrypt key then d else credentials c) iv tag)).
Proof.
  intros Hsound Hnokey Hd Henc. destruct (shouldEncrypt key) eqn:Hk.
  - rewrite (encryptConnection_enabled E key random c d Hk Hd) in Henc.
    pose proof (Hsound key random (render d)) as Hs.
    destruct (encrypt E key random (render d)) as [[enc iv] tag].
    injection Henc as <-. exists (Some iv), (Some tag).
    unfold decryptConnection. cbn [credentials_iv credentials_tag
      credentials withCredentials readProp isNullish getProp
      lookupField String.eqb Ascii.eqb Bool.eqb mbind Result_bind asString stringArg].
    rewrite Hs. cbn [mbind Result_bind].
    rewrite (JSON_parse_render d) by (eapply toJSON_isPlain; exact Hd).
    reflexivity.
  - rewrite encryptConnection_disabled in Henc by exact Hk. injection Henc as <-.
    assert (key = "") as Hempty.
    { unfold shouldEncrypt in Hk. apply negb_false_iff, String.eqb_eq in Hk. exact Hk. }
    rewrite decryptConnection_unencrypted by (left; auto).
    exists (credentials_iv c), (credentials_tag c). destruct c; reflexivity.
Qed.

(** X18.  [getConnectionCredentials] as a plain read: when the connection
    that [getConnection] returns has credentials of another type than
    OAUTH2, APP and OAUTH2_CC, or credentials that are not due for a
    refresh, the call answers with that connection as it is, makes no
    request to the provider, takes no lock and changes no row. *)
Theorem getConnectionCredentials_without_refresh (connectionId providerConfigKey : string)
    (env : Z) (force : bool) (s : System) (c : Connection) (w : World)
    (config : ProviderConfig) (tpl : Template) :
  getConnection_ connectionId providerConfigKey env (db s)
  = (Ok {| success := true; error := None; response := Some c |}, w) ->
  getProviderConfig (provider_config_key c) env = Some config ->
  getTemplate (provider config) = Ok tpl ->
  (refreshable (credentials c) = true ->
   shouldRefreshCredentials_ c (credentials c) config tpl force = false) ->
  exists s',
    getConnectionCredentials_ env (Some connectionId) (Some providerConfigKey) force s
    = (Ok (Some {| success := true; error := None; response := Some c |}), s')
    /\ db s' = w
    /\ connections (db s') = connections (db s)
    /\ locks s' = locks s
    /\ providerCalls s' = providerCalls s.
Proof.
  intros Hget Hconfig Htpl Hdue. pose proof (getConnection_rows _ _ _ _ _ _ Hget) as Hrows.
  unfold getConnectionCredentials. rewrite Hget. cbn [success negb response].
  rewrite Hconfig, Htpl.
  destruct (refreshable (credentials c)) eqn:Htype.
  - rewrite (refresh_not_due (length (heap (setDb s w))) c config tpl env force
               (setHeap (setDb s w) (heap (setDb s w) ++ [c]))
               (lookup_appended _ _) (Hdue eq_refl)).
    cbn [success negb response heap setHeap setDb default].
    rewrite lookup_appended. cbn [default]. rewrite withNewCredentials_same.
    eexists. split; [reflexivity|]. cbn [db locks providerCalls setHeap setDb]. auto.
  - eexists. split; [reflexivity|]. cbn [db locks providerCalls setDb]. auto.
Qed.

(** X19.  [getConnectionCredentials] as a refresh: when the connection that
    [getConnection] returns is due for a refresh, its lock is free and
    [getNewCredentials] succeeds with credentials, the call answers with the
    connection carrying the new credentials, after exactly one request to
    the provider and with the lock released; every live row with the key of
    the connection is overwritten with one stored row, the other rows are
    unchanged, and reading the stored row back with [decryptConnection]
    gives the connection with the new credentials: in their JSON form when a
    key is configured, as they are otherwise. *)
Theorem getConnectionCredentials_refreshes (connectionId providerConfigKey : string)
    (env : Z) (force : bool) (s : System) (c : Connection) (w : World)
    (config : ProviderConfig) (tpl : Template) (r : ServiceResponse JsValue)
    (creds : JsValue) :
  EncryptionSound E ->
  (key = "" -> credentials_iv c = None) ->
  getConnection_ connectionId providerConfigKey env (db s)
  = (Ok {| success := true; error := None; response := Some c |}, w) ->
  getProviderConfig (provider_config_key c) env = Some config ->
  getTemplate (provider config) = Ok tpl ->
  refreshable (credentials c) = true ->
  shouldRefreshCredentials_ c (credentials c) config tpl force = true ->
  lockKey env (provider_config_key c) (connection_id c) ∉ locks s ->
  getNewCredentials_ (providerCalls s) c config tpl = Ok r ->
  success r = true -> response r = Some creds -> truthy creds = true ->
  exists s' stored d iv tag,
    getConnectionCredentials_ env (Some connectionId) (Some providerConfigKey) force s
    = (Ok (Some {| success := true; error := None;
                   response := Some (withNewCredentials c creds) |}), s')
    /\ providerCalls s' = S (providerCalls s)
    /\ locks s' = locks s
    /\ connections (db s')
       = map (fun row => if liveWithKey (connection_id c) (provider_config_key c)
                              (environment_id c) row
                         then stored else row)
             (connections (db s))
    /\ toJSON creds = Some d
    /\ decryptConnection E key (Some stored)
       = Ok (Some (withCredentials c (if shouldEncrypt key then d else creds) iv tag)).
Proof.
  intros Hsound Hnokey Hget Hconfig Htpl Htype Hdue Hfree Hnew Hsuccess Hresponse Htruthy.
  pose proof (getConnection_rows _ _ _ _ _ _ Hget) as Hrows.
  assert (Hdef : creds <> JUndefined) by (intros ->; discriminate).
  destruct (toJSON_defined _ Hdef) as [d Hd].
  destruct (refresh_stores (length (heap (setDb s w))) c config tpl env force
              (setHeap (setDb s w) (heap (setDb s w) ++ [c])) r creds)
    as (random & stored & w1 & Henc & Hstored & Hrun); auto.
  { apply lookup_appended. }
  destruct (encryptConnection_readback random (withNewCredentials c creds) stored d)
    as (iv & tag & Hread); auto.
  unfold getConnectionCredentials. rewrite Hget. cbn [success negb response].
  rewrite Hconfig, Htpl, Htype, Hrun. cbn [success negb response heap default].
  cbn [db heap setHeap setDb] in *.
  rewrite list_lookup_insert_eq by (rewrite length_app; cbn; lia).
  cbn [default].
  eexists _, stored, d, iv, tag.
  split; [reflexivity|]. cbn [db locks providerCalls setHeap].
  split; [reflexivity|]. split; [reflexivity|].
  split; [rewrite Hstored, Hrows; reflexivity|].
  split; [exact Hd|]. exact Hread.
Qed.

End ConnectionCredentialsFacts.

Lemma getConnectionCredentials_without_refresh_witness :
  exists s',
    getConnectionCredentials demoCipher "" demoEntropy demoNow demoParseDate demoParseInt
      demoIsTokenExpired (fun _ => false) (fun _ _ => false) (fun _ => false)
      stubRefreshToken stubProvider (fun _ => Ok (Some "dev"))
      (fun _ _ => Some githubConfig) (fun _ => Ok githubTemplate)
      1 (Some "c2") (Some "gh") false (atRest demoWorld)
    = (Ok (Some {| success := true; error := None; response := Some demoLiveRow |}), s')
    /\ db s' = updateLastFetched (Some 2) demoWorld
    /\ connections (db s') = connections (db (atRest demoWorld))
    /\ locks s' = locks (atRest demoWorld)
    /\ providerCalls s' = providerCalls (atRest demoWorld).
Proof.
  apply (getConnectionCredentials_without_refresh demoCipher "" demoEntropy demoNow
           demoParseDate demoParseInt demoIsTokenExpired (fun _ => false)
           (fun _ _ => false) (fun _ => false) stubRefreshToken stubProvider
           (fun _ => Ok (Some "dev")) (fun _ _ => Some githubConfig)
           (fun _ => Ok githubTemplate)
           "c2" "gh" 1 false (atRest demoWorld) demoLiveRow
           (updateLastFetched (Some 2) demoWorld) githubConfig githubTemplate).
  - reflexivity.
  - reflexivity.
  - reflexivity.
  - intros H. vm_compute in H. discriminate H.
Defined.

Lemma getConnectionCredentials_refreshes_witness :
  exists s' stored d iv tag,
    getConnectionCredentials demoCipher "" demoEntropy demoNow demoParseDate demoParseInt
      demoIsTokenExpired (fun _ => false) (fun _ _ => false) (fun _ => false)
      stubRefreshToken stubProvider (fun _ => Ok (Some "dev"))
      (fun _ _ => Some githubConfig) (fun _ => Ok githubTemplate)
      1 (Some "c1") (Some "gh") false (expiredSystem (JString "rt0"))
    = (Ok (Some {| success := true; error := None;
                   response :=
                     Some (withNewCredentials (expiredConnection (JString "rt0"))
                             (default JNull
                                (response (stubProvider ViaRefreshToken 0 githubTemplate
                                             githubConfig
                                             (expiredConnection (JString "rt0")))))) |}),
       s')
    /\ providerCalls s' = 1%nat
    /\ locks s' = ∅
    /\ connections (db s')
       = map (fun row => if liveWithKey "c1" "gh" 1 row then stored else row)
             [expiredConnection (JString "rt0")]
    /\ toJSON (default JNull
                 (response (stubProvider ViaRefreshToken 0 githubTemplate githubConfig
                              (expiredConnection (JString "rt0"))))) = Some d
    /\ decryptConnection demoCipher "" (Some stored)
       = Ok (Some (withCredentials (expiredConnection (JString "rt0"))
                     (default JNull
                        (response (stubProvider ViaRefreshToken 0 githubTemplate
                                     githubConfig
                                     (expiredConnection (JString "rt0")))))
                     iv tag)).
Proof.
  apply (getConnectionCredentials_refreshes demoCipher "" demoEntropy demoNow
           demoParseDate demoParseInt demoIsTokenExpired (fun _ => false)
           (fun _ _ => false) (fun _ => false) stubRefreshToken stubProvider
           (fun _ => Ok (Some "dev")) (fun _ _ => Some githubConfig)
           (fun _ => Ok githubTemplate)
           "c1" "gh" 1 false (expiredSystem (JString "rt0"))
           (expiredConnection (JString "rt0"))
           (updateLastFetched (Some 1) (db (expiredSystem (JString "rt0"))))
           githubConfig githubTemplate
           (stubProvider ViaRefreshToken 0 githubTemplate githubConfig
              (expiredConnection (JString "rt0")))).
  - exact demoCipher_sound.
  - intros _. reflexivity.
  - reflexivity.
  - reflexivity.
  - reflexivity.
  - reflexivity.
  - vm_compute. reflexivity.
  - apply not_elem_of_empty.
  - reflexivity.
  - reflexivity.
  - reflexivity.
  - reflexivity.
Defined.


(** ** Connections without OAuth *)

Section OtherConnectionsFacts.
Variable E : Encryption.
Variable key : string.
Variable entropy : nat -> string.
Variable getIdByProviderConfigKey : Z -> string -> option Z.
Variable connectionCreatedHook : ConnectionUpsertResponse -> AuthModes -> Result unit.

#[local] Abbreviation upsertApiConnection_ :=
  (upsertApiConnection E key entropy getIdByProviderConfigKey).
#[local] Abbreviation upsertUnauthConnection_ :=
  (upsertUnauthConnection getIdByProviderConfigKey).
#[local] Abbreviation importApiAuthConnection_ :=
  (importApiAuthConnection E key entropy getIdByProviderConfigKey connectionCreatedHook).

Lemma checkIfConnectionExists_appended cid pck env w rows row seq :
  checkIfConnectionExists cid pck env w = None ->
  liveWithKey cid pck env row = true ->
  checkIfConnectionExists cid pck env
    (logWrite (setConnections w (connections w ++ [row])%list seq) rows) = Some row.
Proof.
  intros Hnone Hlive. apply checkIfConnectionExists_None in Hnone.
  unfold checkIfConnectionExists. cbn [connections logWrite setConnections].
  rewrite filter_app, (filter_none_live _ _ _ _ Hnone). cbn [app].
  rewrite filter_cons_True by exact Hlive. reflexivity.
Qed.

Lemma liveWithKey_refl cid pck env (r : Connection) :
  connection_id r = cid -> provider_config_key r = pck -> environment_id r = env ->
  deleted r = false -> liveWithKey cid pck env r = true.
Proof.
  intros <- <- <- Hd. unfold liveWithKey, hasKey.
  rewrite Hd, !String.eqb_refl, Z.eqb_refl. reflexivity.
Qed.

Lemma upsertApiConnection_insert cid pck creds cfg env now w :
  creds <> JUndefined ->
  checkIfConnectionExists cid pck env w = None ->
  exists row w1,
    upsertApiConnection_ cid pck creds cfg env now w
    = (Ok {| upserted_id := Some (connections_id_seq w); operation := CREATION |}, w1)
    /\ connections w1 = (connections w ++ [row])%list
    /\ id row = Some (connections_id_seq w)
    /\ liveWithKey cid pck env row = true
    /\ connection_config row = cfg
    /\ metadata row = JNull
    /\ checkIfConnectionExists cid pck env w1 = Some row.
Proof.
  intros Hdef Hnone. unfold upsertApiConnection. rewrite Hnone.
  match goal with
  | |- context [encryptApiConnection E key _ ?o] => set (object := o)
  end.
  change (if shouldEncrypt key
          then (encryptApiConnection E key (entropy (draws w)) object,
                setDraws w (S (draws w)))
          else (encryptApiConnection E key "" object, w))
    with (encryptConnectionStep E key entropy object w).
  destruct (encryptConnectionStep_ok E key entropy object w Hdef)
    as (c & iv & tag & w0 & -> & Hrows & Hseq & _).
  cbv beta iota. rewrite Hseq. eexists _, _. split; [reflexivity|].
  cbn [connections logWrite setConnections]. rewrite Hrows.
  split; [reflexivity|]. split; [reflexivity|].
  assert (Hlive : liveWithKey cid pck env
                    (insertedRow (withCredentials object c iv tag) (connections_id_seq w))
                  = true) by (apply liveWithKey_refl; reflexivity).
  split; [exact Hlive|]. split; [reflexivity|]. split; [reflexivity|].
  unfold checkIfConnectionExists. cbn [connections logWrite setConnections].
  rewrite filter_app.
  rewrite (filter_none_live _ _ _ _ (checkIfConnectionExists_None _ _ _ _ Hnone)).
  cbn [app]. rewrite filter_cons_True by exact Hlive. reflexivity.
Qed.

(** X20.  [importApiAuthConnection] never overwrites.  When a live
    connection with the key exists it throws connection_already_exists and
    the database is as it was.  Otherwise it inserts one row under the next
    id, live, with the key of the call, an empty connection config and no
    metadata, and reports its creation; the row is stored even when the hook
    that follows throws.  A second import with the same key then throws
    connection_already_exists. *)
Theorem importApiAuthConnection_never_overwrites (connection_id provider_config_key : string)
    (environmentId : Z) (credentials credentials' : JsValue) (now now' : Z) (w : World) :
  credentials <> JUndefined ->
  match checkIfConnectionExists connection_id provider_config_key environmentId w with
  | Some stored =>
      importApiAuthConnection_ connection_id provider_config_key environmentId
        credentials now w
      = (Err (NangoError "connection_already_exists"), w)
  | None =>
      let imported :=
        {| upserted_id := Some (connections_id_seq w); operation := CREATION |} in
      exists row w1,
        importApiAuthConnection_ connection_id provider_config_key environmentId
          credentials now w
        = (match connectionCreatedHook imported ApiKey with
           | Err e => Err e
           | Ok _ => Ok imported
           end, w1)
        /\ connections w1 = (connections w ++ [row])%list
        /\ id row = Some (connections_id_seq w)
        /\ liveWithKey connection_id provider_config_key environmentId row = true
        /\ connection_config row = JObject []
        /\ metadata row = JNull
        /\ importApiAuthConnection_ connection_id provider_config_key environmentId
             credentials' now' w1
           = (Err (NangoError "connection_already_exists"), w1)
  end.
Proof.
  intros Hdef. unfold importApiAuthConnection.
  destruct (checkIfConnectionExists connection_id provider_config_key environmentId w)
    as [stored|] eqn:Hlookup; [reflexivity|].
  destruct (upsertApiConnection_insert connection_id provider_config_key credentials
              (JObject []) environmentId now w Hdef Hlookup)
    as (row & w1 & -> & Hrows & Hid & Hlive & Hcfg & Hmd & Hfound).
  exists row, w1. rewrite Hfound.
  split; [destruct (connectionCreatedHook _ _); reflexivity|]. auto 10.
Qed.

(** X21.  [upsertUnauthConnection] never touches credentials.  When a live
    connection with the key exists, the call reports OVERRIDE with its id
    and every row keeps its id, environment, credentials, IV, tag,
    connection config, metadata and deleted flag.  Otherwise it appends one
    live row under the next id whose credentials are the empty object,
    stored as they are whether or not an encryption key is configured, and
    reports CREATION; a second call with the same key reports OVERRIDE with
    that id and adds no row. *)
Theorem upsertUnauthConnection_keeps_credentials (connectionId providerConfigKey : string)
    (env : Z) (now now' : Z) (w : World) :
  exists response w1,
    upsertUnauthConnection_ connectionId providerConfigKey env now w = (Ok response, w1) /\
    match checkIfConnectionExists connectionId providerConfigKey env w with
    | Some stored =>
        response = {| upserted_id := id stored; operation := OVERRIDE |}
        /\ Forall2 (fun r r' =>
                      id r' = id r /\ environment_id r' = environment_id r
                      /\ credentials r' = credentials r
                      /\ credentials_iv r' = credentials_iv r
                      /\ credentials_tag r' = credentials_tag r
                      /\ connection_config r' = connection_config r
                      /\ metadata r' = metadata r
                      /\ deleted r' = deleted r)
             (connections w) (connections w1)
    | None =>
        response = {| upserted_id := Some (connections_id_seq w); operation := CREATION |}
        /\ (exists row,
              connections w1 = (connections w ++ [row])%list
              /\ id row = Some (connections_id_seq w)
              /\ liveWithKey connectionId providerConfigKey env row = true
              /\ credentials row = JObject []
              /\ credentials_iv row = None /\ credentials_tag row = None)
        /\ (exists w2,
              upsertUnauthConnection_ connectionId providerConfigKey env now' w1
              = (Ok {| upserted_id := Some (connections_id_seq w); operation := OVERRIDE |},
                 w2)
              /\ length (connections w2) = length (connections w1))
    end.
Proof.
  unfold upsertUnauthConnection at 1.
  destruct (checkIfConnectionExists connectionId providerConfigKey env w)
    as [stored|] eqn:Hlookup.
  - eexists _, _. split; [reflexivity|]. split; [reflexivity|].
    cbn [connections logWrite setConnections].
    apply Forall2_fmap_r, Forall_Forall2_diag, Forall_forall. intros r _.
    unfold compose. cbn beta.
    destruct (liveWithId (id stored) r); repeat split; reflexivity.
  - eexists _, _. split; [reflexivity|]. split; [reflexivity|].
    match goal with
    | |- context [(connections w ++ [?r])%list] => set (row := r)
    end.
    assert (Hlive : liveWithKey connectionId providerConfigKey env row = true)
      by (apply liveWithKey_refl; reflexivity).
    split.
    + exists row. cbn [connections logWrite setConnections]. auto 10.
    + unfold upsertUnauthConnection.
      rewrite (checkIfConnectionExists_appended _ _ _ _ _ row _ Hlookup Hlive).
      eexists. split; [reflexivity|].
      cbn [connections logWrite setConnections]. apply length_map.
Qed.

(** What [encryptConnectionStep] hands to the database, and that a row
    holding it reads back. *)
Lemma encryptConnectionStep_reads_back object d w :
  EncryptionSound E ->
  toJSON (credentials object) = Some d ->
  exists c iv tag w0,
    encryptConnectionStep E key entropy object w
    = (Ok (withCredentials object c iv tag), w0)
    /\ connections w0 = connections w
    /\ connections_id_seq w0 = connections_id_seq w
    /\ (if shouldEncrypt key then exists iv' tag', iv = Some iv' /\ tag = Some tag'
        else c = credentials object /\ iv = credentials_iv object
             /\ tag = credentials_tag object)
    /\ forall row,
         credentials row = c ->
         (if shouldEncrypt key
          then credentials_iv row = iv /\ credentials_tag row = tag
          else credentials_iv row = None) ->
         exists plain,
           decryptConnection E key (Some row) = Ok (Some plain)
           /\ credentials plain = (if shouldEncrypt key then d else credentials object).
Proof.
  intros Hsound Hd. unfold encryptConnectionStep. destruct (shouldEncrypt key) eqn:Hk.
  - rewrite (encryptConnection_enabled E key _ object d Hk Hd).
    pose proof (Hsound key (entropy (draws w)) (render d)) as Hs.
    destruct (encrypt E key (entropy (draws w)) (render d)) as [[enc iv] tag].
    eexists _, _, _, _. split; [reflexivity|].
    split; [reflexivity|]. split; [reflexivity|]. split; [eauto|].
    intros row Hc [Hiv Htag]. unfold decryptConnection.
    rewrite Hiv, Htag, Hc.
    cbn [readProp isNullish getProp lookupField String.eqb Ascii.eqb Bool.eqb
         mbind Result_bind asString stringArg].
    rewrite Hs. cbn [mbind Result_bind].
    rewrite (JSON_parse_render d) by (eapply toJSON_isPlain; exact Hd).
    eexists. split; reflexivity.
  - rewrite encryptConnection_disabled by exact Hk.
    exists (credentials object), (credentials_iv object), (credentials_tag object), w.
    split; [destruct object; reflexivity|].
    split; [reflexivity|]. split; [reflexivity|]. split; [auto|].
    intros row Hc Hiv. rewrite decryptConnection_unencrypted by (left; exact Hiv).
    eexists. split; [reflexivity|exact Hc].
Qed.

(** X22.  What [upsertApiConnection] stores reads back, and an update keeps
    the metadata.  After the call, the live row with the key has the id that
    the call reported and the connection config of the call, and
    [decryptConnection] gives its credentials back: in their JSON form when
    a key is configured, as they are otherwise.  When a live connection
    existed, the call reports OVERRIDE with its id, adds no row and leaves
    the metadata of the row as it was; otherwise it reports CREATION with
    the next id and appends the row, without metadata. *)
Theorem upsertApiConnection_reads_back (connectionId providerConfigKey : string)
    (credentials0 connectionConfig : JsValue) (env : Z) (now : Z) (w : World) (d : JsValue) :
  tableWf w ->
  EncryptionSound E ->
  (key = "" -> Forall (fun r => credentials_iv r = None) (connections w)) ->
  toJSON credentials0 = Some d ->
  exists response w1 row plain,
    upsertApiConnection_ connectionId providerConfigKey credentials0 connectionConfig
      env now w = (Ok response, w1)
    /\ checkIfConnectionExists connectionId providerConfigKey env w1 = Some row
    /\ id row = upserted_id response
    /\ connection_config row = connectionConfig
    /\ decryptConnection E key (Some row) = Ok (Some plain)
    /\ credentials plain = (if shouldEncrypt key then d else credentials0)
    /\ match checkIfConnectionExists connectionId providerConfigKey env w with
       | Some stored =>
           response = {| upserted_id := id stored; operation := OVERRIDE |}
           /\ metadata row = metadata stored
           /\ length (connections w1) = length (connections w)
       | None =>
           response = {| upserted_id := Some (connections_id_seq w);
                         operation := CREATION |}
           /\ metadata row = JNull
           /\ connections w1 = (connections w ++ [row])%list
       end.
Proof.
  intros Hwf Hsound Hnokey Hd. unfold upsertApiConnection.
  match goal with
  | |- context [encryptApiConnection E key _ ?o] => set (object := o)
  end.
  change (if shouldEncrypt key
          then (encryptApiConnection E key (entropy (draws w)) object,
                setDraws w (S (draws w)))
          else (encryptApiConnection E key "" object, w))
    with (encryptConnectionStep E key entropy object w).
  destruct (encryptConnectionStep_reads_back object d w Hsound Hd)
    as (c & iv & tag & w0 & Hstep & Hrows & Hseq & Hshape & Hread).
  rewrite Hstep. cbv beta iota.
  destruct (checkIfConnectionExists connectionId providerConfigKey env w)
    as [stored|] eqn:Hlookup.
  - destruct (checkIfConnectionExists_Some _ _ _ _ _ Hlookup) as (Hin & Hhas & Hdel).
    pose proof Hwf as [Hnodup Hids].
    rewrite Forall_forall in Hids. destruct (Hids stored Hin) as (i & Hi & _).
    assert (Hlive : liveWithId (id stored) stored = true).
    { unfold liveWithId. rewrite Hi, Hdel, Z.eqb_refl. reflexivity. }
    set (patch := withUpdatedAt (withCredentials object c iv tag) now).
    destruct (Hread (applyApiUpdate patch stored)) as (plain & Hplain & Hcreds).
    { reflexivity. }
    { cbn [applyApiUpdate patch withUpdatedAt withCredentials credentials_iv credentials_tag].
      destruct (shouldEncrypt key) eqn:Hk.
      - destruct Hshape as (iv' & tag' & -> & ->). auto.
      - destruct Hshape as (_ & -> & _). cbn [object credentials_iv].
        assert (key = "") as Hempty.
        { unfold shouldEncrypt in Hk. apply negb_false_iff, String.eqb_eq in Hk. exact Hk. }
        specialize (Hnokey Hempty). rewrite Forall_forall in Hnokey. auto. }
    eexists _, _, (applyApiUpdate patch stored), plain. split; [reflexivity|].
    split.
    { unfold checkIfConnectionExists. cbn [connections logWrite setConnections].
      rewrite Hrows.
      apply (head_filter_update (liveWithKey connectionId providerConfigKey env)
               (liveWithId (id stored)) (applyApiUpdate patch)).
      - exact Hlookup.
      - intros r Hr Hl. eapply liveWithId_unique; eassumption.
      - exact Hlive.
      - apply liveWithKey_refl; try reflexivity. exact Hdel. }
    split; [reflexivity|]. split; [reflexivity|]. split; [exact Hplain|].
    split; [exact Hcreds|]. split; [reflexivity|]. split; [reflexivity|].
    cbn [connections logWrite setConnections]. rewrite length_map, Hrows. reflexivity.
  - set (row := insertedRow (withCredentials object c iv tag) (connections_id_seq w0)).
    destruct (Hread row) as (plain & Hplain & Hcreds).
    { reflexivity. }
    { cbn [row insertedRow withCredentials credentials_iv credentials_tag].
      destruct (shouldEncrypt key); [auto|].
      destruct Hshape as (_ & -> & _). reflexivity. }
    assert (Hlive : liveWithKey connectionId providerConfigKey env row = true)
      by (apply liveWithKey_refl; reflexivity).
    eexists _, _, row, plain. split; [reflexivity|].
    split.
    { unfold checkIfConnectionExists. cbn [connections logWrite setConnections].
      rewrite Hrows, filter_app.
      rewrite (filter_none_live _ _ _ _ (checkIfConnectionExists_None _ _ _ _ Hlookup)).
      cbn [app]. rewrite filter_cons_True by exact Hlive. reflexivity. }
    split; [cbn; rewrite Hseq; reflexivity|]. split; [reflexivity|].
    split; [exact Hplain|]. split; [exact Hcreds|].
    split; [rewrite Hseq; reflexivity|]. split; [reflexivity|].
    cbn [connections logWrite setConnections]. rewrite Hrows. reflexivity.
Qed.

End OtherConnectionsFacts.

Lemma importApiAuthConnection_never_overwrites_witness :
  exists row w1,
    importApiAuthConnection demoCipher "" demoEntropy demoConfigId (fun _ _ => Ok tt)
      "c9" "gh" 1 (JObject [("type", JMode ApiKey); ("apiKey", JString "k9")]) 10 demoWorld
    = (Ok {| upserted_id := Some (connections_id_seq demoWorld); operation := CREATION |}, w1)
    /\ connections w1 = (connections demoWorld ++ [row])%list
    /\ id row = Some (connections_id_seq demoWorld)
    /\ liveWithKey "c9" "gh" 1 row = true
    /\ connection_config row = JObject []
    /\ metadata row = JNull
    /\ importApiAuthConnection demoCipher "" demoEntropy demoConfigId (fun _ _ => Ok tt)
         "c9" "gh" 1 (JObject [("type", JMode ApiKey); ("apiKey", JString "other")]) 20 w1
       = (Err (NangoError "connection_already_exists"), w1).
Proof.
  apply (importApiAuthConnection_never_overwrites demoCipher "" demoEntropy demoConfigId
           (fun _ _ => Ok tt) "c9" "gh" 1
           (JObject [("type", JMode ApiKey); ("apiKey", JString "k9")])
           (JObject [("type", JMode ApiKey); ("apiKey", JString "other")]) 10 20 demoWorld).
  discriminate.
Defined.

Lemma upsertApiConnection_reads_back_witness :
  exists response w1 row plain,
    upsertApiConnection demoCipher "secret" demoEntropy demoConfigId "c2" "gh"
      (JObject [("type", JMode ApiKey); ("apiKey", JString "k3")]) (JObject []) 1 10
      demoWorld = (Ok response, w1)
    /\ checkIfConnectionExists "c2" "gh" 1 w1 = Some row
    /\ id row = upserted_id response
    /\ connection_config row = JObject []
    /\ decryptConnection demoCipher "secret" (Some row) = Ok (Some plain)
    /\ credentials plain
       = (if shouldEncrypt "secret"
          then JObject [("type", JMode ApiKey); ("apiKey", JString "k3")]
          else JObject [("type", JMode ApiKey); ("apiKey", JString "k3")])
    /\ match checkIfConnectionExists "c2" "gh" 1 demoWorld with
       | Some stored =>
           response = {| upserted_id := id stored; operation := OVERRIDE |}
           /\ metadata row = metadata stored
           /\ length (connections w1) = length (connections demoWorld)
       | None =>
           response = {| upserted_id := Some (connections_id_seq demoWorld);
                         operation := CREATION |}
           /\ metadata row = JNull
           /\ connections w1 = (connections demoWorld ++ [row])%list
       end.
Proof.
  apply (upsertApiConnection_reads_back demoCipher "secret" demoEntropy demoConfigId
           "c2" "gh" (JObject [("type", JMode ApiKey); ("apiKey", JString "k3")])
           (JObject []) 1 10 demoWorld
           (JObject [("type", JMode ApiKey); ("apiKey", JString "k3")])).
  - exact demoWorld_wf.
  - exact demoCipher_sound.
  - intros H. discriminate H.
  - reflexivity.
Defined.


Section ImportFacts.
Variable E : Encryption.
Variable key : string.
Variable entropy : nat -> string.
Variable getIdByProviderConfigKey : Z -> string -> option Z.
Variable connectionCreatedHook : ConnectionUpsertResponse -> AuthModes -> Result unit.

#[local] Abbreviation importOAuthConnection_ :=
  (importOAuthConnection E key entropy getIdByProviderConfigKey connectionCreatedHook).

Lemma jsOr_undefined (a b : JsValue) : jsOr (jsOr a JUndefined) b = jsOr a b.
Proof. unfold jsOr. destruct (truthy a) eqn:Ha; [rewrite Ha|]; reflexivity. Qed.

(** X23.  [importOAuthConnection] over an existing connection: the live row
    with the key keeps its id; its metadata is the [metadata] of the
    imported object when that is truthy and the stored metadata (null when
    that is falsy) otherwise; its connection config is the
    [connection_config] of the imported object, or the empty object when
    that is falsy.  The row is written before the hook is awaited, so it is
    stored also when the hook throws; then the import throws. *)
Theorem importOAuthConnection_over_existing (connection_id0 provider_config_key0 : string)
    (env : Z) (fields : list (string * JsValue)) (now : Z) (w : World)
    (stored : Connection) :
  tableWf w ->
  checkIfConnectionExists connection_id0 provider_config_key0 env w = Some stored ->
  let imported := {| upserted_id := id stored; operation := OVERRIDE |} in
  exists w1 row,
    importOAuthConnection_ connection_id0 provider_config_key0 env (JObject fields) now w
    = (match connectionCreatedHook imported OAuth2 with
       | Err e => Err e
       | Ok _ => Ok imported
       end, w1)
    /\ checkIfConnectionExists connection_id0 provider_config_key0 env w1 = Some row
    /\ id row = id stored
    /\ metadata row
       = jsOr (lookupField "metadata" fields) (jsOr (metadata stored) JNull)
    /\ connection_config row
       = jsOr (lookupField "connection_config" fields) (JObject [])
    /\ length (connections w1) = length (connections w).
Proof.
  intros Hwf Hlookup imported. unfold importOAuthConnection, upsertConnection.
  cbn [readProp isNullish getProp]. rewrite Hlookup.
  destruct (checkIfConnectionExists_Some _ _ _ _ _ Hlookup) as (Hin & Hhas & Hdel).
  pose proof Hwf as [Hnodup Hids].
  rewrite Forall_forall in Hids. destruct (Hids stored Hin) as (i & Hi & _).
  assert (Hlive : liveWithId (id stored) stored = true).
  { unfold liveWithId. rewrite Hi, Hdel, Z.eqb_refl. reflexivity. }
  match goal with
  | |- context [encryptConnectionStep E key entropy ?o ?w0] =>
      destruct (encryptConnectionStep_ok E key entropy o w0)
        as (c & iv & tag & w0' & -> & Hrows & Hseq & _); [cbn; discriminate|];
      set (object := o)
  end.
  set (patch := withUpdatedAt (withCredentials object c iv tag) now).
  eexists _, (applyUpdate patch stored).
  split; [fold imported; destruct (connectionCreatedHook imported OAuth2); reflexivity|].
  split.
  { unfold checkIfConnectionExists. cbn [connections logWrite setConnections].
    rewrite Hrows.
    apply (head_filter_update (liveWithKey connection_id0 provider_config_key0 env)
             (liveWithId (id stored)) (applyUpdate patch)).
    - exact Hlookup.
    - intros r Hr Hl. eapply liveWithId_unique; eassumption.
    - exact Hlive.
    - apply liveWithKey_refl; try reflexivity. exact Hdel. }
  split; [reflexivity|].
  split; [cbn; apply jsOr_undefined|]. split; [reflexivity|].
  cbn [connections logWrite setConnections]. rewrite length_map, Hrows. reflexivity.
Qed.

End ImportFacts.

Lemma importOAuthConnection_over_existing_witness :
  exists w1 row,
    importOAuthConnection demoCipher "" demoEntropy demoConfigId (fun _ _ => Ok tt)
      "c2" "gh" 1
      (JObject [("type", JMode OAuth2); ("access_token", JString "t");
                ("metadata", JObject [("plan", JString "pro")])]) 10 demoWorld
    = (Ok {| upserted_id := id demoLiveRow; operation := OVERRIDE |}, w1)
    /\ checkIfConnectionExists "c2" "gh" 1 w1 = Some row
    /\ id row = id demoLiveRow
    /\ metadata row
       = jsOr (JObject [("plan", JString "pro")]) (jsOr (metadata demoLiveRow) JNull)
    /\ connection_config row = jsOr JUndefined (JObject [])
    /\ length (connections w1) = length (connections demoWorld).
Proof.
  apply (importOAuthConnection_over_existing demoCipher "" demoEntropy demoConfigId
           (fun _ _ => Ok tt) "c2" "gh" 1
           [("type", JMode OAuth2); ("access_token", JString "t");
            ("metadata", JObject [("plan", JString "pro")])] 10 demoWorld demoLiveRow).
  - exact demoWorld_wf.
  - reflexivity.
Defined.


(** ** The protocol handlers of the callback *)

Lemma lookupField_of_list (l : list (string * string)) (k : string) :
  lookupField k (map (fun kv => (kv.1, JString kv.2)) l)
  = match (list_to_map l : gmap string string) !! k with
    | Some v => JString v
    | None => JUndefined
    end.
Proof.
  induction l as [|[k' v] l IH].
  { cbn [map lookupField list_to_map foldr].
    rewrite (lookup_empty (M := gmap string)). reflexivity. }
  cbn [map lookupField fst snd list_to_map foldr]. destruct (String.eqb k k') eqn:Hk.
  - apply String.eqb_eq in Hk. subst k'. rewrite lookup_insert_eq. reflexivity.
  - apply String.eqb_neq in Hk. rewrite lookup_insert_ne by congruence. exact IH.
Qed.

Lemma getProp_objectOfMap (m : gmap string string) (k : string) :
  getProp (objectOfMap m) k
  = match m !! k with
    | Some v => JString v
    | None => JUndefined
    end.
Proof.
  unfold objectOfMap. cbn [getProp]. rewrite lookupField_of_list, list_to_map_to_list.
  reflexivity.
Qed.

Section OAuth1CallbackFacts.
Variable E : Encryption.
Variable key : string.
Variable entropy : nat -> string.
Variable getIdByProviderConfigKey : Z -> string -> option Z.
Variable Date_now : Z.
Variable parseTokenExpirationDate : JsValue -> JsValue.
Variable parseInt10 : JsValue -> option Z.
Variable getConnectionMetadataFromCallbackRequest :
  gmap string string -> Template -> gmap string string.
Variable getAccountIdFromEnvironment : Z -> Result (option Z).
Variable getOAuthAccessToken :
  ProviderConfig -> Template -> string -> option string -> string -> Result JsValue.

#[local] Abbreviation oauth1Callback_ :=
  (oauth1Callback E key entropy getIdByProviderConfigKey Date_now parseTokenExpirationDate
     parseInt10 getConnectionMetadataFromCallbackRequest getAccountIdFromEnvironment
     getOAuthAccessToken).

(** X24.  How [oauth1Callback] ends.  Every notification goes to the channel
    of the session and names the provider config key and the connection id
    of the session.  Success is notified only when the callback carries a
    non-empty [oauth_token] and [oauth_verifier] and the provider answered
    the exchange (made with the request token secret of the session) with a
    truthy [oauth_token] and [oauth_token_secret]; the database is then the
    one that [upsertConnection] leaves for the key and the environment of
    the session, with credentials of type OAUTH1 holding that token and
    secret, and a connection config in which the metadata of the callback
    comes before the connection config of the session.  Every other end
    leaves the database as it was. *)
Theorem oauth1Callback_outcomes (template : Template) (config : ProviderConfig)
    (session : OAuthSession) (req : CallbackRequest) (now : Z) (w : World) :
  exists answer w',
    oauth1Callback_ template config session req now w = (answer, w') /\
    match answer with
    | NotifiedSuccess channel providerConfigKey connectionId pending =>
        channel = session_webSocketClientId session
        /\ providerConfigKey = session_providerConfigKey session
        /\ connectionId = session_connectionId session
        /\ pending = false
        /\ exists oauth_token oauth_verifier result connectionConfig response,
             given (cb_query req !! "oauth_token") = Some oauth_token
             /\ given (cb_query req !! "oauth_verifier") = Some oauth_verifier
             /\ getOAuthAccessToken config template oauth_token
                  (session_requestTokenSecret session) oauth_verifier = Ok result
             /\ truthy (getProp result "oauth_token") = true
             /\ truthy (getProp result "oauth_token_secret") = true
             /\ (forall k,
                   getProp connectionConfig k
                   = match getConnectionMetadataFromCallbackRequest (cb_query req)
                             template !! k with
                     | Some v => JString v
                     | None =>
                         match session_connectionConfig session !! k with
                         | Some v => JString v
                         | None => JUndefined
                         end
                     end)
             /\ upsertConnection E key entropy getIdByProviderConfigKey
                  (session_connectionId session) (session_providerConfigKey session)
                  (JObject [ ("type", JMode OAuth1);
                             ("oauth_token", getProp result "oauth_token");
                             ("oauth_token_secret", getProp result "oauth_token_secret");
                             ("raw", result) ])
                  connectionConfig (session_environmentId session) JUndefined now w
                = (Ok response, w')
    | NotifiedErr channel providerConfigKey connectionId error =>
        w' = w
        /\ channel = session_webSocketClientId session
        /\ providerConfigKey = session_providerConfigKey session
        /\ connectionId = session_connectionId session
        /\ ((error = InvalidCallbackOAuth1
             /\ (given (cb_query req !! "oauth_token") = None
                 \/ given (cb_query req !! "oauth_verifier") = None))
            \/ exists cause, error = UnknownHandlerError (Some cause))
    | Redirected url => False
    | Threw e =>
        w' = w /\ getAccountIdFromEnvironment (session_environmentId session) = Err e
    end.
Proof.
  unfold oauth1Callback.
  destruct (given (cb_query req !! "oauth_token")) as [oauth_token|] eqn:Htoken;
    [|do 2 eexists; split; [reflexivity|]; cbn; auto 10].
  destruct (given (cb_query req !! "oauth_verifier")) as [oauth_verifier|] eqn:Hverifier;
    [|do 2 eexists; split; [reflexivity|]; cbn; auto 10].
  destruct (getAccountIdFromEnvironment (session_environmentId session))
    as [accountId|e] eqn:Haccount;
    [|do 2 eexists; split; [reflexivity|]; cbn; auto].
  destruct (getOAuthAccessToken config template oauth_token
              (session_requestTokenSecret session) oauth_verifier)
    as [result|err] eqn:Hexchange;
    [|do 2 eexists; split; [reflexivity|]; cbn; eauto 10].
  unfold parseRawCredentials, readProp.
  destruct (isNullish result) eqn:Hnull;
    [do 2 eexists; split; [reflexivity|]; cbn; eauto 10|].
  cbn [mbind Result_bind].
  destruct (truthy (getProp result "oauth_token")) eqn:Htok;
    [|do 2 eexists; split; [reflexivity|]; cbn; eauto 10].
  destruct (truthy (getProp result "oauth_token_secret")) eqn:Hsecret;
    [|do 2 eexists; split; [reflexivity|]; cbn; eauto 10].
  cbn [negb orb].
  match goal with
  | |- context [upsertConnection E key entropy getIdByProviderConfigKey ?a ?b
                  (JObject ?fields) ?c ?d ?e ?f ?g] =>
      destruct (upsertConnection_object E key entropy getIdByProviderConfigKey
                  a b fields c d e f g) as (response & w1 & Hup)
  end.
  rewrite Hup. do 2 eexists. split; [reflexivity|].
  split; [reflexivity|]. split; [reflexivity|]. split; [reflexivity|].
  split; [reflexivity|].
  eexists oauth_token, oauth_verifier, result, _, response.
  split; [reflexivity|]. split; [reflexivity|]. split; [exact Hexchange|].
  split; [exact Htok|]. split; [exact Hsecret|]. split; [|exact Hup].
  intros k. rewrite getProp_objectOfMap, lookup_union.
  destruct (getConnectionMetadataFromCallbackRequest (cb_query req) template !! k);
    destruct (session_connectionConfig session !! k); reflexivity.
Qed.

End OAuth1CallbackFacts.


(** ** The OAuth2 callback *)

Lemma setProp_object (o : JsValue) (k : string) (v : JsValue) :
  (exists fs, o = JObject fs) -> exists fs, setProp o k v = JObject fs.
Proof. intros [fs ->]. cbn. eauto. Qed.

Lemma connectionToStore_credentials template config session installationId activityLogId
    tokenMetadata callbackMetadata fields creds cc pending :
  connectionToStore template config session installationId activityLogId
    tokenMetadata callbackMetadata (JObject fields) = Ok (creds, cc, pending) ->
  exists fs, creds = JObject fs.
Proof.
  unfold connectionToStore. intros H.
  match type of H with
  | mbind _ ?X = _ => destruct X as [[cc0 p0]|e]; [|discriminate]
  end.
  cbn [mbind Result_bind] in H. cbv beta iota zeta in H.
  repeat match type of H with
         | context [if truthy ?x then _ else _] =>
             destruct (truthy x) eqn:?; cbv beta iota zeta in H
         end;
    match type of H with
    | mbind _ ?X = _ => destruct X; [|discriminate]
    end;
    cbn [mbind Result_bind] in H; injection H as <- _ _; cbn [setProp]; eauto.
Qed.

Lemma getProp_setProp_ne (o : JsValue) (k k' : string) (x : JsValue) :
  String.eqb k k' = false -> getProp (setProp o k' x) k = getProp o k.
Proof.
  intros Hk. destruct o; try reflexivity. cbn [setProp getProp].
  rewrite lookupField_setField, Hk. reflexivity.
Qed.

Lemma getProp_setProp_eq (fs : list (string * JsValue)) (k : string) (x : JsValue) :
  getProp (setProp (JObject fs) k x) k = x.
Proof. cbn [setProp getProp]. rewrite lookupField_setField, String.eqb_refl. reflexivity. Qed.

Lemma lookupField_keys (g : string -> JsValue) (l : list string) (k : string) :
  lookupField k (map (fun k => (k, g k)) l) = if bool_decide (k ∈ l) then g k else JUndefined.
Proof.
  induction l as [|k0 l IH]; [reflexivity|]. cbn [map lookupField].
  destruct (String.eqb k k0) eqn:Hk.
  - apply String.eqb_eq in Hk. subst k0.
    rewrite bool_decide_eq_true_2 by apply list_elem_of_here. reflexivity.
  - apply String.eqb_neq in Hk. rewrite IH.
    destruct (bool_decide (k ∈ l)) eqn:Hin.
    + apply bool_decide_eq_true_1 in Hin.
      rewrite bool_decide_eq_true_2 by (apply list_elem_of_further; exact Hin). reflexivity.
    + apply bool_decide_eq_false_1 in Hin.
      rewrite bool_decide_eq_false_2; [reflexivity|].
      intros [?|?]%elem_of_cons; [congruence|contradiction].
Qed.

Lemma getProp_sessionKeysExcept_name name cfg cc :
  getProp (sessionKeysExcept name cfg cc) name = JUndefined.
Proof.
  unfold sessionKeysExcept. cbn [getProp]. rewrite lookupField_keys.
  rewrite bool_decide_eq_false_2; [reflexivity|].
  intros [Hne _]%list_elem_of_filter. congruence.
Qed.

Lemma getProp_sessionKeysExcept_absent name (cfg : gmap string string) cc k :
  cfg !! k = None -> getProp (sessionKeysExcept name cfg cc) k = JUndefined.
Proof.
  intros Hk. unfold sessionKeysExcept. cbn [getProp]. rewrite lookupField_keys.
  rewrite bool_decide_eq_false_2; [reflexivity|].
  intros [_ Hin]%list_elem_of_filter.
  apply list_elem_of_fmap in Hin as ([k' v] & -> & Hin).
  apply elem_of_map_to_list in Hin. cbn in Hk. congruence.
Qed.

Lemma getProp_sessionKeysExcept_undefined name name' (cfg : gmap string string) cc :
  getProp cc name = JUndefined ->
  getProp (sessionKeysExcept name' cfg cc) name = JUndefined.
Proof.
  intros Hcc. unfold sessionKeysExcept. cbn [getProp]. rewrite lookupField_keys, Hcc.
  destruct (bool_decide _); reflexivity.
Qed.

Ltac read_override :=
  cbn [setProp getProp]; rewrite ?lookupField_setField, ?String.eqb_refl; cbn;
  rewrite ?lookupField_setField, ?String.eqb_refl; reflexivity.

(** A client id override that reaches [connectionToStore] goes into the
    credentials and not into the connection config. *)
Lemma connectionToStore_client_id_override template config session installationId
    activityLogId tokenMetadata callbackMetadata fields creds cc pending v :
  connectionToStore template config session installationId activityLogId
    tokenMetadata callbackMetadata (JObject fields) = Ok (creds, cc, pending) ->
  (callbackMetadata ∪ tokenMetadata ∪ session_connectionConfig session)
    !! "oauth_client_id_override" = Some v ->
  v <> "" ->
  getProp (getProp creds "config_override") "client_id" = JString v
  /\ getProp cc "oauth_client_id_override" = JUndefined
  /\ forall k, session_connectionConfig session !! k = None -> getProp cc k = JUndefined.
Proof.
  intros H Hv Hne. unfold connectionToStore in H.
  pose proof (getProp_objectOfMap
                (callbackMetadata ∪ tokenMetadata ∪ session_connectionConfig session)
                "oauth_client_id_override") as H0.
  rewrite Hv in H0.
  set (cc0 := objectOfMap (callbackMetadata ∪ tokenMetadata
                           ∪ session_connectionConfig session)) in *.
  (* the pending stage *)
  match type of H with
  | mbind _ ?X = _ => destruct X as [[cc1 p1]|e] eqn:HX; [|discriminate]
  end.
  assert (H1 : getProp cc1 "oauth_client_id_override" = JString v).
  { destruct (_ && _ && _) in HX.
    - destruct (readProp (custom config) "app_id") as [app_id|]; [|discriminate].
      cbn [mbind Result_bind] in HX. injection HX as <- _.
      change (getProp (setProp (setProp (setProp cc0 "app_id" app_id)
                                  "pending" (JBool true))
                         "pendingLog" (JString (showZ activityLogId)))
                "oauth_client_id_override" = JString v).
      rewrite !getProp_setProp_ne by reflexivity. exact H0.
    - injection HX as <- _. exact H0. }
  clear HX H0. cbn [mbind Result_bind] in H. cbv beta iota zeta in H.
  (* the installation stage *)
  match type of H with
  | context [truthy (getProp ?c "oauth_client_id_override")] => set (cc2 := c) in *
  end.
  assert (H2 : getProp cc2 "oauth_client_id_override" = JString v).
  { subst cc2. destruct installationId; [destruct (bool_decide _)|]; try exact H1.
    rewrite getProp_setProp_ne by reflexivity. exact H1. }
  rewrite H2 in H. cbn [truthy] in H.
  apply String.eqb_neq in Hne. rewrite Hne in H. cbn [negb] in H.
  cbv beta iota zeta in H.
  (* the secret stage and the scopes stage *)
  remember (sessionKeysExcept "oauth_client_id_override"
              (session_connectionConfig session) cc2) as cc3 eqn:E3.
  assert (H3 : getProp cc3 "oauth_client_id_override" = JUndefined)
    by (rewrite E3; apply getProp_sessionKeysExcept_name).
  assert (K3 : forall k, session_connectionConfig session !! k = None ->
                         getProp cc3 k = JUndefined)
    by (intros k Hk; rewrite E3; apply getProp_sessionKeysExcept_absent; exact Hk).
  clear E3.
  destruct (truthy (getProp cc3 "oauth_client_secret_override")) eqn:Hsecret;
    cbv beta iota zeta in H.
  - remember (sessionKeysExcept "oauth_client_secret_override"
                (session_connectionConfig session) cc3) as cc4 eqn:E4.
    assert (H4 : getProp cc4 "oauth_client_id_override" = JUndefined)
      by (rewrite E4; apply getProp_sessionKeysExcept_undefined; exact H3).
    assert (K4 : forall k, session_connectionConfig session !! k = None ->
                           getProp cc4 k = JUndefined)
      by (intros k Hk; rewrite E4; apply getProp_sessionKeysExcept_absent; exact Hk).
    clear E4.
    destruct (truthy (getProp cc4 "oauth_scopes_override")) eqn:Hscopes.
    + destruct (getProp cc4 "oauth_scopes_override") eqn:Hs; try discriminate;
        cbn [mbind Result_bind] in H; injection H as <- <- _.
      * split; [|split].
        -- read_override.
        -- rewrite getProp_setProp_ne by reflexivity. exact H4.
        -- intros k Hk. destruct (String.eqb k "oauth_scopes_override") eqn:Hks.
           ++ apply String.eqb_eq in Hks. subst k. rewrite (K4 _ Hk) in Hs. discriminate.
           ++ rewrite getProp_setProp_ne by exact Hks. apply K4. exact Hk.
      * split; [|split]; [|exact H4|exact K4].
        read_override.
    + cbn [mbind Result_bind] in H. injection H as <- <- _.
      split; [|split]; [|exact H4|exact K4].
      read_override.
  - destruct (truthy (getProp cc3 "oauth_scopes_override")) eqn:Hscopes.
    + destruct (getProp cc3 "oauth_scopes_override") eqn:Hs; try discriminate;
        cbn [mbind Result_bind] in H; injection H as <- <- _.
      * split; [|split].
        -- read_override.
        -- rewrite getProp_setProp_ne by reflexivity. exact H3.
        -- intros k Hk. destruct (String.eqb k "oauth_scopes_override") eqn:Hks.
           ++ apply String.eqb_eq in Hks. subst k. rewrite (K3 _ Hk) in Hs. discriminate.
           ++ rewrite getProp_setProp_ne by exact Hks. apply K3. exact Hk.
      * split; [|split]; [|exact H3|exact K3].
        read_override.
    + cbn [mbind Result_bind] in H. injection H as <- <- _.
      split; [|split]; [|exact H3|exact K3].
      read_override.
Qed.

Section OAuth2CallbackFacts.
Variable E : Encryption.
Variable key : string.
Variable entropy : nat -> string.
Variable getIdByProviderConfigKey : Z -> string -> option Z.
Variable Date_now : Z.
Variable parseTokenExpirationDate : JsValue -> JsValue.
Variable parseInt10 : JsValue -> option Z.
Variable getConnectionMetadataFromCallbackRequest :
  gmap string string -> Template -> gmap string string.
Variable getConnectionMetadataFromTokenResponse : JsValue -> Template -> gmap string string.
Variable getAccountIdFromEnvironment : Z -> Result (option Z).
Variable token_params : Template -> option (gmap string string).
Variable newAuthorizationCode :
  ProviderConfig -> Template -> gmap string string -> option Error.
Variable simpleGetToken :
  ProviderConfig -> Template -> gmap string string ->
  gmap string string -> gmap string string -> Result JsValue.
Variable shouldUseProviderClient : string -> bool.
Variable providerGetToken :
  ProviderConfig -> string -> string -> string -> string -> Result JsValue.
Variable getAppCredentialsAndFinishConnection :
  string -> ProviderConfig -> Template -> JsValue -> Z -> World -> Result unit * World.

#[local] Abbreviation oauth2Callback_ :=
  (oauth2Callback E key entropy getIdByProviderConfigKey Date_now parseTokenExpirationDate
     parseInt10 getConnectionMetadataFromCallbackRequest
     getConnectionMetadataFromTokenResponse getAccountIdFromEnvironment token_params
     newAuthorizationCode simpleGetToken shouldUseProviderClient providerGetToken
     getAppCredentialsAndFinishConnection).
#[local] Abbreviation exchangeCode_ :=
  (exchangeCode token_params simpleGetToken shouldUseProviderClient providerGetToken).
#[local] Abbreviation parse_ :=
  (parseRawCredentials Date_now parseTokenExpirationDate parseInt10).
#[local] Abbreviation upsert_ :=
  (upsertConnection E key entropy getIdByProviderConfigKey).

Lemma parseRawCredentials_object raw mode parsed :
  parse_ raw mode = Ok parsed -> exists fs, parsed = JObject fs.
Proof.
  unfold parseRawCredentials, readProp. intros H.
  destruct mode; try discriminate;
    destruct (isNullish raw); try discriminate; cbn [mbind Result_bind] in H;
    repeat match type of H with
           | context [if ?b then _ else _] => destruct b
           end; try discriminate; injection H as <-; eauto.
Qed.

(** The ways in which [oauth2Callback] ends. *)
Lemma oauth2Callback_cases template config session req activityLogId now w :
  let channel := session_webSocketClientId session in
  let providerConfigKey := session_providerConfigKey session in
  let connectionId := session_connectionId session in
  let config' := callbackOverrides config (session_connectionConfig session) in
  let unknown :=
    NotifiedErr channel providerConfigKey connectionId (UnknownHandlerError None) in
  let result := oauth2Callback_ template config session req activityLogId now w in
  (given (cb_query req !! "code") = None
   /\ result = (NotifiedErr channel providerConfigKey connectionId InvalidCallbackOAuth2, w))
  \/ exists code,
       given (cb_query req !! "code") = Some code /\
       ((updateRequested session req = true
         /\ (result = (Redirected (default "https://github.com" (given (cb_referer req))), w)
             \/ result = (NotifiedSuccess channel providerConfigKey connectionId false, w)))
        \/ (updateRequested session req = false /\
            ((exists e,
                newAuthorizationCode config' template (session_connectionConfig session)
                = Some e /\ result = (Threw e, w))
             \/ (newAuthorizationCode config' template (session_connectionConfig session)
                 = None /\
                 (result = (unknown, w)
                  \/ exists raw fields creds cc pending response w1,
                       exchangeCode_ template config' session code = Ok raw
                       /\ parse_ raw OAuth2 = Ok (JObject fields)
                       /\ connectionToStore template config' session
                            (given (cb_installation_id req)) activityLogId
                            (getConnectionMetadataFromTokenResponse raw template)
                            (getConnectionMetadataFromCallbackRequest (cb_query req) template)
                            (JObject fields)
                          = Ok (creds, cc, pending)
                       /\ upsert_ connectionId providerConfigKey creds cc
                            (session_environmentId session) JUndefined now w
                          = (Ok response, w1)
                       /\ (if finishesApp template req
                           then exists r w2,
                                  getAppCredentialsAndFinishConnection connectionId config'
                                    template cc activityLogId w1 = (r, w2)
                                  /\ result
                                     = (match r with
                                        | Err _ => unknown
                                        | Ok _ => NotifiedSuccess channel providerConfigKey
                                                    connectionId false
                                        end, w2)
                           else result = (NotifiedSuccess channel providerConfigKey
                                            connectionId pending, w1))))))).
Proof.
  intros channel providerConfigKey connectionId config' unknown result.
  subst result. unfold oauth2Callback.
  destruct (given (cb_query req !! "code")) as [code|] eqn:Hcode; [|left; auto].
  right. exists code. split; [reflexivity|].
  fold (updateRequested session req).
  destruct (updateRequested session req) eqn:Hupdate.
  { left. split; [reflexivity|]. destruct (given (cb_state req)); auto. }
  right. split; [reflexivity|]. fold config'.
  destruct (newAuthorizationCode config' template (session_connectionConfig session))
    as [e|] eqn:Hnew; [left; eauto|].
  right. split; [reflexivity|]. fold channel providerConfigKey connectionId unknown.
  destruct (exchangeCode_ template config' session code) as [raw|err] eqn:Hexchange;
    [|left; reflexivity].
  destruct (parse_ raw OAuth2) as [parsed|err] eqn:Hparse; [|left; reflexivity].
  destruct (parseRawCredentials_object _ _ _ Hparse) as [fields ->].
  destruct (getAccountIdFromEnvironment (session_environmentId session));
    [|left; reflexivity].
  destruct (connectionToStore template config' session (given (cb_installation_id req))
              activityLogId (getConnectionMetadataFromTokenResponse raw template)
              (getConnectionMetadataFromCallbackRequest (cb_query req) template)
              (JObject fields)) as [[[creds cc] pending]|err] eqn:Hstore;
    [|left; reflexivity].
  destruct (connectionToStore_credentials _ _ _ _ _ _ _ _ _ _ _ Hstore) as [fs ->].
  destruct (upsertConnection_object E key entropy getIdByProviderConfigKey
              connectionId providerConfigKey fs cc (session_environmentId session)
              JUndefined now w) as (response & w1 & Hup).
  rewrite Hup. right. exists raw, fields, (JObject fs), cc, pending, response, w1.
  split; [first [reflexivity|exact Hexchange]|].
  split; [first [reflexivity|exact Hparse]|].
  split; [first [reflexivity|exact Hstore]|].
  split; [exact Hup|]. fold (finishesApp template req).
  destruct (finishesApp template req); [|reflexivity].
  destruct (getAppCredentialsAndFinishConnection connectionId config' template cc
              activityLogId w1) as [[u|err] w2]; eauto.
Qed.

(** X25.  What [oauth2Callback] leaves in the database.  Every notification
    goes to the channel of the session and names its provider config key
    and connection id.  Unless the credentials of an app installation are
    fetched afterwards (a custom template with an installation id), an
    error, a redirect or a rejection leaves the database as it was, and a
    success leaves either the database as it was (the update request of a
    custom app) or the one that a single [upsertConnection] for the key and
    the environment of the session leaves.  The error is
    InvalidCallbackOAuth2 exactly when the callback carries no code. *)
Theorem oauth2Callback_stores_only_on_success (template : Template)
    (config : ProviderConfig) (session : OAuthSession) (req : CallbackRequest)
    (activityLogId now : Z) (w : World) :
  exists answer w',
    oauth2Callback_ template config session req activityLogId now w = (answer, w') /\
    match answer with
    | NotifiedSuccess channel providerConfigKey connectionId pending =>
        channel = session_webSocketClientId session
        /\ providerConfigKey = session_providerConfigKey session
        /\ connectionId = session_connectionId session
        /\ (finishesApp template req = true
            \/ w' = w
            \/ exists creds cc response,
                 upsert_ (session_connectionId session) (session_providerConfigKey session)
                   creds cc (session_environmentId session) JUndefined now w
                 = (Ok response, w'))
    | NotifiedErr channel providerConfigKey connectionId error =>
        channel = session_webSocketClientId session
        /\ providerConfigKey = session_providerConfigKey session
        /\ connectionId = session_connectionId session
        /\ (finishesApp template req = true \/ w' = w)
        /\ (error = InvalidCallbackOAuth2 <-> given (cb_query req !! "code") = None)
    | Redirected url => w' = w
    | Threw e => w' = w
    end.
Proof.
  destruct (oauth2Callback_cases template config session req activityLogId now w)
    as [[Hcode ->]|(code & Hcode & [[_ [-> | ->]]|[_ [(e & _ & ->)|[_ [-> | H]]]]])].
  - do 2 eexists. split; [reflexivity|]. cbn. rewrite Hcode. tauto.
  - do 2 eexists. split; [reflexivity|]. reflexivity.
  - do 2 eexists. split; [reflexivity|]. cbn. auto 10.
  - do 2 eexists. split; [reflexivity|]. reflexivity.
  - do 2 eexists. split; [reflexivity|]. cbn. rewrite Hcode.
    repeat split; auto; discriminate.
  - destruct H as (raw & fields & creds & cc & pending & response & w1
                   & _ & _ & _ & Hup & Hend).
    destruct (finishesApp template req).
    + destruct Hend as (r & w2 & _ & ->). do 2 eexists. split; [reflexivity|].
      destruct r; cbn; rewrite ?Hcode; repeat split; auto; discriminate.
    + rewrite Hend. do 2 eexists. split; [reflexivity|]. cbn. eauto 10.
Qed.

(** X26.  The token request of [oauth2Callback].  When the generic client
    is used, the code is exchanged with the client id, secret and scopes
    that the connection config of the session overrides, and with
    parameters that hold the code verifier of the session unless the
    template disables PKCE (whatever [code_verifier] the template names in
    its [token_params]); for the other keys the [token_params] of the
    template come first, then the code of the callback and, as
    [redirect_uri], the callback URL of the session.  When that request
    fails, or its answer cannot be parsed as OAuth2 credentials, the unknown
    error is notified and the database is as it was. *)
Theorem oauth2Callback_token_request (template : Template) (config : ProviderConfig)
    (session : OAuthSession) (req : CallbackRequest) (activityLogId now : Z) (w : World)
    (code : string) :
  let config' := callbackOverrides config (session_connectionConfig session) in
  given (cb_query req !! "code") = Some code ->
  updateRequested session req = false ->
  newAuthorizationCode config' template (session_connectionConfig session) = None ->
  shouldUseProviderClient (session_provider session) = false ->
  exists params,
    exchangeCode_ template config' session code
    = simpleGetToken config' template (session_connectionConfig session) params
        (tokenRequestHeaders template config')
    /\ params !! "code_verifier"
       = (if disable_pkce template
          then default ∅ (token_params template) !! "code_verifier"
          else Some (session_codeVerifier session))
    /\ (forall k, k <> "code_verifier" ->
         params !! k
         = match default ∅ (token_params template) !! k with
           | Some v => Some v
           | None =>
               if String.eqb k "code" then Some code
               else if String.eqb k "redirect_uri" then Some (session_callbackUrl session)
               else None
           end)
    /\ ((forall parsed,
           simpleGetToken config' template (session_connectionConfig session) params
             (tokenRequestHeaders template config') ≫= (fun raw => parse_ raw OAuth2)
           <> Ok parsed) ->
        oauth2Callback_ template config session req activityLogId now w
        = (NotifiedErr (session_webSocketClientId session)
             (session_providerConfigKey session) (session_connectionId session)
             (UnknownHandlerError None), w)).
Proof.
  intros config' Hcode Hupdate Hnew Hgeneric.
  exists (additionalTokenParams token_params template session
          ∪ {[ "code" := code; "redirect_uri" := session_callbackUrl session ]}).
  assert (Hexchange :
    exchangeCode_ template config' session code
    = simpleGetToken config' template (session_connectionConfig session)
        (additionalTokenParams token_params template session
         ∪ {[ "code" := code; "redirect_uri" := session_callbackUrl session ]})
        (tokenRequestHeaders template config')).
  { unfold exchangeCode. rewrite Hgeneric. reflexivity. }
  split; [exact Hexchange|]. split; [|split].
  - unfold additionalTokenParams. rewrite lookup_union.
    destruct (disable_pkce template); cbn [negb].
    + destruct (default ∅ (token_params template) !! "code_verifier"); reflexivity.
    + rewrite lookup_insert_eq. reflexivity.
  - intros k Hk. unfold additionalTokenParams. rewrite lookup_union.
    assert (Hbase :
      ({[ "code" := code; "redirect_uri" := session_callbackUrl session ]}
         : gmap string string) !! k
      = if String.eqb k "code" then Some code
        else if String.eqb k "redirect_uri" then Some (session_callbackUrl session)
        else None).
    { destruct (String.eqb k "code") eqn:H1.
      - apply String.eqb_eq in H1. subst k. apply lookup_insert_eq.
      - apply String.eqb_neq in H1. rewrite lookup_insert_ne by congruence.
        destruct (String.eqb k "redirect_uri") eqn:H2.
        + apply String.eqb_eq in H2. subst k. apply lookup_singleton_eq.
        + apply String.eqb_neq in H2. apply lookup_singleton_ne. congruence. }
    rewrite Hbase.
    destruct (disable_pkce template); cbn [negb];
      rewrite ?lookup_insert_ne by congruence;
      destruct (default ∅ (token_params template) !! k);
      destruct (String.eqb k "code"); try reflexivity;
      destruct (String.eqb k "redirect_uri"); reflexivity.
  - intros Hfail. rewrite <- Hexchange in Hfail.
    unfold oauth2Callback. rewrite Hcode. fold (updateRequested session req).
    rewrite Hupdate. fold config'. rewrite Hnew.
    destruct (exchangeCode_ template config' session code) as [raw|err]; [|reflexivity].
    cbn [mbind Result_bind] in Hfail.
    destruct (parse_ raw OAuth2) as [parsed|err]; [|reflexivity].
    exfalso. exact (Hfail parsed eq_refl).
Qed.

(** X27.  Overrides of the client are kept out of the stored connection
    config.  When [oauth2Callback] notifies success after an exchange, the
    database is the one that [upsertConnection] leaves for the session; and
    if the connection config merged from the session, the token response and
    the callback holds a non-empty [oauth_client_id_override], the stored
    credentials carry it as [config_override.client_id], the stored
    connection config has no value for [oauth_client_id_override], and it
    has no value either for any key that the connection config of the
    session does not have: what the token response and the callback added
    under other keys is dropped. *)
Theorem oauth2Callback_override_kept_out_of_config (template : Template)
    (config : ProviderConfig) (session : OAuthSession) (req : CallbackRequest)
    (activityLogId now : Z) (w : World) (channel : option string)
    (providerConfigKey connectionId : string) (pending : bool) (w' : World) :
  oauth2Callback_ template config session req activityLogId now w
  = (NotifiedSuccess channel providerConfigKey connectionId pending, w') ->
  updateRequested session req = false ->
  finishesApp template req = false ->
  exists code raw creds cc response,
    given (cb_query req !! "code") = Some code
    /\ exchangeCode_ template (callbackOverrides config (session_connectionConfig session))
         session code = Ok raw
    /\ upsert_ (session_connectionId session) (session_providerConfigKey session)
         creds cc (session_environmentId session) JUndefined now w
       = (Ok response, w')
    /\ forall v,
         (getConnectionMetadataFromCallbackRequest (cb_query req) template
          ∪ getConnectionMetadataFromTokenResponse raw template
          ∪ session_connectionConfig session) !! "oauth_client_id_override" = Some v ->
         v <> "" ->
         getProp (getProp creds "config_override") "client_id" = JString v
         /\ getProp cc "oauth_client_id_override" = JUndefined
         /\ forall k, session_connectionConfig session !! k = None ->
                      getProp cc k = JUndefined.
Proof.
  intros Hresult Hupdate Hfinish.
  destruct (oauth2Callback_cases template config session req activityLogId now w)
    as [[_ H]|(code & Hcode & [[Hu _]|[_ [(e & _ & H)|[_ [H | H]]]]])];
    try (rewrite H in Hresult; discriminate);
    try congruence.
  destruct H as (raw & fields & creds & cc & pending' & response & w1
                 & Hexchange & _ & Hstore & Hup & Hend).
  rewrite Hfinish in Hend. rewrite Hend in Hresult. injection Hresult as _ _ _ _ <-.
  exists code, raw, creds, cc, response.
  split; [exact Hcode|]. split; [exact Hexchange|]. split; [exact Hup|].
  intros v Hv Hne.
  exact (connectionToStore_client_id_override _ _ _ _ _ _ _ _ _ _ _ _ Hstore Hv Hne).
Qed.

End OAuth2CallbackFacts.

Lemma oauth2Callback_token_request_witness :
  exists params,
    exchangeCode (fun _ => None) demoGetToken (fun _ => false)
      (fun _ _ _ _ _ => Err (PlainError "no provider client"))
      githubTemplate (callbackOverrides githubConfig (session_connectionConfig demoSession))
      demoSession "granted"
    = demoGetToken (callbackOverrides githubConfig (session_connectionConfig demoSession))
        githubTemplate (session_connectionConfig demoSession) params
        (tokenRequestHeaders githubTemplate
           (callbackOverrides githubConfig (session_connectionConfig demoSession)))
    /\ params !! "code_verifier"
       = (if disable_pkce githubTemplate
          then default ∅ (@None (gmap string string)) !! "code_verifier"
          else Some (session_codeVerifier demoSession))
    /\ (forall k, k <> "code_verifier" ->
         params !! k
         = match default ∅ (@None (gmap string string)) !! k with
           | Some v => Some v
           | None =>
               if String.eqb k "code" then Some "granted"
               else if String.eqb k "redirect_uri"
                    then Some (session_callbackUrl demoSession)
                    else None
           end)
    /\ ((forall parsed,
           demoGetToken (callbackOverrides githubConfig (session_connectionConfig demoSession))
             githubTemplate (session_connectionConfig demoSession) params
             (tokenRequestHeaders githubTemplate
                (callbackOverrides githubConfig (session_connectionConfig demoSession)))
           ≫= (fun raw => parseRawCredentials demoNow demoParseDate demoParseInt raw OAuth2)
           <> Ok parsed) ->
        demoOauth2Callback githubTemplate githubConfig demoSession demoCallback 5 demoNow
          demoWorld
        = (NotifiedErr (session_webSocketClientId demoSession)
             (session_providerConfigKey demoSession) (session_connectionId demoSession)
             (UnknownHandlerError None), demoWorld)).
Proof.
  apply (oauth2Callback_token_request demoCipher "" demoEntropy demoConfigId demoNow
           demoParseDate demoParseInt (fun _ _ => ∅) (fun _ _ => ∅)
           (fun _ => Ok (Some 1)) (fun _ => None) (fun _ _ _ => None) demoGetToken
           (fun _ => false) (fun _ _ _ _ _ => Err (PlainError "no provider client"))
           (fun _ _ _ _ _ w => (Ok tt, w))
           githubTemplate githubConfig demoSession demoCallback 5 demoNow demoWorld
           "granted").
  - vm_compute. reflexivity.
  - vm_compute. reflexivity.
  - reflexivity.
  - reflexivity.
Defined.

Lemma oauth2Callback_override_kept_out_of_config_witness :
  exists code raw creds cc response,
    given (cb_query demoCallback !! "code") = Some code
    /\ exchangeCode (fun _ => None) demoGetToken (fun _ => false)
         (fun _ _ _ _ _ => Err (PlainError "no provider client")) githubTemplate
         (callbackOverrides githubConfig (session_connectionConfig overrideSession))
         overrideSession code = Ok raw
    /\ upsertConnection demoCipher "" demoEntropy demoConfigId
         (session_connectionId overrideSession) (session_providerConfigKey overrideSession)
         creds cc (session_environmentId overrideSession) JUndefined demoNow demoWorld
       = (Ok response,
          (demoOauth2Callback githubTemplate githubConfig overrideSession demoCallback 5
             demoNow demoWorld).2)
    /\ forall v,
         ((∅ : gmap string string) ∪ ∅ ∪ session_connectionConfig overrideSession)
           !! "oauth_client_id_override" = Some v ->
         v <> "" ->
         getProp (getProp creds "config_override") "client_id" = JString v
         /\ getProp cc "oauth_client_id_override" = JUndefined
         /\ forall k, session_connectionConfig overrideSession !! k = None ->
                      getProp cc k = JUndefined.
Proof.
  apply (oauth2Callback_override_kept_out_of_config demoCipher "" demoEntropy demoConfigId
           demoNow demoParseDate demoParseInt (fun _ _ => ∅) (fun _ _ => ∅)
           (fun _ => Ok (Some 1)) (fun _ => None) (fun _ _ _ => None) demoGetToken
           (fun _ => false) (fun _ _ _ _ _ => Err (PlainError "no provider client"))
           (fun _ _ _ _ _ w => (Ok tt, w))
           githubTemplate githubConfig overrideSession demoCallback 5 demoNow demoWorld
           (Some "ws1") "gh" "c1" false).
  - vm_compute. reflexivity.
  - vm_compute. reflexivity.
  - vm_compute. reflexivity.
Defined.


(** ** Data records *)

Lemma render_nonempty (v : JsValue) : render v <> "".
Proof.
  intros H. pose proof (render_head v) as Hh. rewrite H in Hh. exact Hh.
Qed.

Lemma lookupField_filter_ne (k name : string) (fs : list (string * JsValue)) :
  k <> name ->
  lookupField k (filter (fun kv => kv.1 <> name) fs) = lookupField k fs.
Proof.
  intros Hk. induction fs as [|[k0 v0] fs IH]; [reflexivity|].
  destruct (decide (k0 = name)) as [->|Hne].
  - rewrite filter_cons_False by (cbn; tauto). cbn [lookupField].
    apply String.eqb_neq in Hk. rewrite Hk. exact IH.
  - rewrite filter_cons_True by (cbn; exact Hne). cbn [lookupField]. rewrite IH.
    reflexivity.
Qed.

Lemma assign_object_lookup (k : string) (fs : list (string * JsValue)) :
  lookupField k (assign [] (JObject fs)) = lookupField k fs.
Proof.
  rewrite assign_lookup. unfold hasOwn. cbn [ownEntries].
  destruct (existsb (fun kv => String.eqb k kv.1) fs) eqn:Hown; [reflexivity|].
  cbn [lookupField]. symmetry. apply lookupField_absent. exact Hown.
Qed.

Section DataRecordFacts.
Variable E : Encryption.
Variable key : string.
Hypothesis Hsound : EncryptionSound E.
Hypothesis Hkeeps : EncryptionKeepsText E.

Lemma decryptRecords_encryptRecords (random : nat -> string) (dataRecords : list JsValue) :
  Forall (fun r => exists fs d, r = JObject fs /\ toJSON (lookupField "json" fs) = Some d)
         dataRecords ->
  forall n,
  exists encrypted decrypted,
    encryptRecords E key random n dataRecords = Ok encrypted
    /\ decryptRecords E key "json" encrypted = Ok decrypted
    /\ Forall2 readsBackAs dataRecords decrypted.
Proof.
  induction 1 as [|r rest (fs & d & -> & Hd) _ IH]; intros n.
  { exists [], []. repeat split. constructor. }
  destruct (IH (S n)) as (encrypted & decrypted & Henc & Hdec & Hall).
  cbn [encryptRecords readProp isNullish getProp mbind Result_bind].
  unfold JSON_stringify. rewrite Hd. cbn [fmap option_fmap option_map stringArg mbind Result_bind].
  pose proof (Hsound key (random n) (render d)) as Hs.
  pose proof (Hkeeps key (random n) (render d) (render_nonempty d)) as Hne.
  destruct (encrypt E key (random n) (render d)) as [[enc iv] tag]. cbn [fst] in Hne.
  rewrite Henc. cbn [mbind Result_bind].
  eexists _, _. split; [reflexivity|].
  cbn [decryptRecords readProp isNullish setProp getProp mbind Result_bind].
  rewrite lookupField_setField, String.eqb_refl.
  cbn [readProp isNullish mbind Result_bind getProp lookupField String.eqb Ascii.eqb
       Bool.eqb truthy asString stringArg].
  apply String.eqb_neq in Hne. rewrite Hne. cbn [negb].
  rewrite Hs. cbn [mbind Result_bind].
  rewrite (JSON_parse_render d) by (eapply toJSON_isPlain; exact Hd).
  cbn [mbind Result_bind]. rewrite Hdec. cbn [mbind Result_bind].
  split; [reflexivity|]. constructor; [|exact Hall].
  exists d. cbn [getProp]. split; [exact Hd|].
  split; [rewrite lookupField_setField, String.eqb_refl; reflexivity|].
  split.
  - rewrite lookupField_setField. cbn [String.eqb Ascii.eqb Bool.eqb].
    unfold withoutField. rewrite lookupField_filter_ne by discriminate.
    rewrite assign_object_lookup, lookupField_setField, String.eqb_refl.
    cbn [getProp lookupField String.eqb Ascii.eqb Bool.eqb truthy]. rewrite Hne. reflexivity.
  - intros k Hjson Hrecord. rewrite lookupField_setField.
    apply String.eqb_neq in Hrecord. rewrite Hrecord.
    unfold withoutField. rewrite lookupField_filter_ne by (apply String.eqb_neq; exact Hrecord).
    rewrite assign_object_lookup, lookupField_setField.
    apply String.eqb_neq in Hjson. rewrite Hjson. reflexivity.
Qed.

(** X28.  Data records through [encryptDataRecords] and
    [decryptDataRecords].  With a key configured, records that are objects
    with a [json] that has a JSON form are all encrypted and all decrypted
    again, in their order; what comes back for a record is not the record
    as it was: the content of its [json] comes back under [record], as a
    copy of the parsed JSON form, its [json] is still the envelope with the
    ciphertext, and every other property is as it was. *)
Theorem dataRecords_round_trip (random : nat -> string) (dataRecords : list JsValue) :
  key <> "" ->
  Forall (fun r => exists fs d, r = JObject fs /\ toJSON (lookupField "json" fs) = Some d)
         dataRecords ->
  exists encrypted decrypted,
    encryptDataRecords E key random dataRecords = Ok encrypted
    /\ decryptDataRecords E key (Some encrypted) "json" = Ok (Some decrypted)
    /\ Forall2 readsBackAs dataRecords decrypted.
Proof.
  intros Hkey Hrecords.
  assert (Hk : shouldEncrypt key = true).
  { unfold shouldEncrypt. apply negb_true_iff, String.eqb_neq. assumption. }
  unfold encryptDataRecords, decryptDataRecords. rewrite Hk. cbn [negb].
  destruct (decryptRecords_encryptRecords random dataRecords Hrecords 0)
    as (encrypted & decrypted & Henc & Hdec & Hall).
  exists encrypted, decrypted. rewrite Henc, Hdec. auto.
Qed.

End DataRecordFacts.

Lemma dataRecords_round_trip_witness :
  exists encrypted decrypted,
    encryptDataRecords demoCipher "secret-key" demoEntropy demoDataRecords = Ok encrypted
    /\ decryptDataRecords demoCipher "secret-key" (Some encrypted) "json"
       = Ok (Some decrypted)
    /\ Forall2 readsBackAs demoDataRecords decrypted.
Proof.
  apply (dataRecords_round_trip demoCipher "secret-key" demoCipher_sound
           demoCipher_keeps_text demoEntropy demoDataRecords).
  - discriminate.
  - repeat constructor; eexists _, _; (split; [reflexivity|reflexivity]).
Defined.


(** ** PKCE across the request and the callback *)

Section PkceFacts.
Variable authorizeURL :
  ProviderConfig -> Template -> gmap string string -> gmap string string -> Result string.
Variable token_params : Template -> option (gmap string string).
Variable simpleGetToken :
  ProviderConfig -> Template -> gmap string string ->
  gmap string string -> gmap string string -> Result JsValue.
Variable shouldUseProviderClient : string -> bool.
Variable providerGetToken :
  ProviderConfig -> string -> string -> string -> string -> Result JsValue.

(** X29.  The verifier of the callback matches the challenge of the
    request.  For a template that does not disable PKCE and a request whose
    own [authorization_params] name neither [code_challenge] nor
    [code_challenge_method]: the parameters from which [oauth2Request]
    builds the authorization URL of a session and the parameters with which
    [oauth2Callback] exchanges the code for the same session agree, in that
    the [code_challenge] of the first is the S256 challenge of the
    [code_verifier] of the second, which is the code verifier of the
    session; and when neither the template nor the request sets a
    [redirect_uri] of its own and the session holds the callback URL of the
    request, both carry the same [redirect_uri]. *)
Theorem pkce_verifier_matches_challenge (template : Template)
    (requestConfig callbackConfig : ProviderConfig) (session : OAuthSession)
    (connectionConfig : gmap string string)
    (authorizationParams : gmap string (option string)) (callbackUrl : string)
    (userScope : option string) (store : gmap string OAuthSession) (code : string) :
  disable_pkce template = false ->
  authorizationParams !! "code_challenge" = None ->
  authorizationParams !! "code_challenge_method" = None ->
  shouldUseProviderClient (session_provider session) = false ->
  exists requestParams tokenParams,
    (forall authorizationUri,
       store !! session_id session = None ->
       authorizeURL requestConfig template connectionConfig requestParams
       = Ok authorizationUri ->
       authorizationCodeRequest authorizeURL template requestConfig session connectionConfig
         authorizationParams callbackUrl userScope store
       = (Redirect (applyReplacements template authorizationUri),
          <[session_id session := session]> store))
    /\ exchangeCode token_params simpleGetToken shouldUseProviderClient providerGetToken
         template callbackConfig session code
       = simpleGetToken callbackConfig template (session_connectionConfig session)
           tokenParams (tokenRequestHeaders template callbackConfig)
    /\ tokenParams !! "code_verifier" = Some (session_codeVerifier session)
    /\ requestParams !! "code_challenge"
       = codeChallenge <$> tokenParams !! "code_verifier"
    /\ requestParams !! "code_challenge_method" = Some "S256"
    /\ (session_callbackUrl session = callbackUrl ->
        default ∅ (token_params template) !! "redirect_uri" = None ->
        allAuthParams template requestConfig session authorizationParams userScope
          !! "redirect_uri" = None ->
        requestParams !! "redirect_uri" = Some callbackUrl
        /\ tokenParams !! "redirect_uri" = Some callbackUrl).
Proof.
  intros Hpkce Hc Hm Hgeneric.
  destruct (allAuthParams_pkce template requestConfig session authorizationParams
              userScope Hpkce Hc Hm) as [Hchallenge Hmethod].
  exists (authorizeParams template requestConfig session callbackUrl
            (allAuthParams template requestConfig session authorizationParams userScope)),
    (additionalTokenParams token_params template session
     ∪ {[ "code" := code; "redirect_uri" := session_callbackUrl session ]}).
  assert (Hverifier :
    (additionalTokenParams token_params template session
     ∪ {[ "code" := code; "redirect_uri" := session_callbackUrl session ]})
      !! "code_verifier" = Some (session_codeVerifier session)).
  { apply lookup_union_Some_l. unfold additionalTokenParams. rewrite Hpkce. cbn [negb].
    apply lookup_insert_eq. }
  split; [|split; [|split; [|split; [|split]]]].
  - intros authorizationUri Hfree Hurl.
    unfold authorizationCodeRequest, createSession. rewrite Hfree, Hurl. reflexivity.
  - unfold exchangeCode. rewrite Hgeneric. reflexivity.
  - exact Hverifier.
  - rewrite Hverifier. cbn [fmap option_fmap option_map]. unfold authorizeParams.
    apply lookup_union_Some_l. exact Hchallenge.
  - unfold authorizeParams. apply lookup_union_Some_l. exact Hmethod.
  - intros Hsame Htoken Hrequest. split.
    + unfold authorizeParams. rewrite lookup_union_r by exact Hrequest.
      apply lookup_insert_eq.
    + rewrite lookup_union_r.
      * rewrite lookup_insert_ne by discriminate. rewrite Hsame. apply lookup_singleton_eq.
      * unfold additionalTokenParams. rewrite Hpkce. cbn [negb].
        rewrite lookup_insert_ne by discriminate. exact Htoken.
Qed.

End PkceFacts.

Lemma pkce_verifier_matches_challenge_witness :
  exists requestParams tokenParams,
    (forall authorizationUri,
       (∅ : gmap string OAuthSession) !! session_id demoSession = None ->
       demoAuthorizeURL githubConfig githubTemplate ∅ requestParams = Ok authorizationUri ->
       authorizationCodeRequest demoAuthorizeURL githubTemplate githubConfig demoSession ∅
         ∅ "https://api.nango.dev/oauth/callback" None ∅
       = (Redirect (applyReplacements githubTemplate authorizationUri),
          <[session_id demoSession := demoSession]> ∅))
    /\ exchangeCode (fun _ => None) demoGetToken (fun _ => false)
         (fun _ _ _ _ _ => Err (PlainError "no provider client"))
         githubTemplate githubConfig demoSession "granted"
       = demoGetToken githubConfig githubTemplate (session_connectionConfig demoSession)
           tokenParams (tokenRequestHeaders githubTemplate githubConfig)
    /\ tokenParams !! "code_verifier" = Some (session_codeVerifier demoSession)
    /\ requestParams !! "code_challenge"
       = codeChallenge <$> tokenParams !! "code_verifier"
    /\ requestParams !! "code_challenge_method" = Some "S256"
    /\ (session_callbackUrl demoSession = "https://api.nango.dev/oauth/callback" ->
        default ∅ (@None (gmap string string)) !! "redirect_uri" = None ->
        allAuthParams githubTemplate githubConfig demoSession ∅ None
          !! "redirect_uri" = None ->
        requestParams !! "redirect_uri" = Some "https://api.nango.dev/oauth/callback"
        /\ tokenParams !! "redirect_uri" = Some "https://api.nango.dev/oauth/callback").
Proof.
  apply (pkce_verifier_matches_challenge demoAuthorizeURL (fun _ => None) demoGetToken
           (fun _ => false) (fun _ _ _ _ _ => Err (PlainError "no provider client"))
           githubTemplate githubConfig githubConfig demoSession ∅ ∅
           "https://api.nango.dev/oauth/callback" None ∅ "granted").
  - reflexivity.
  - reflexivity.
  - reflexivity.
  - reflexivity.
Defined.


(** ** Connections without credentials *)

Ltac in_list :=
  repeat first [apply list_elem_of_here | apply list_elem_of_further].

Section UnAuthControllerFacts.
Variable getIdByProviderConfigKey : Z -> string -> option Z.
Variable hmacEnabled : Z -> bool.
Variable hmacVerify : string -> Z -> string -> string -> bool.
Variable getProviderConfig : string -> Z -> option ProviderConfig.
Variable getTemplate : string -> Result Template.

#[local] Abbreviation create_ :=
  (create getIdByProviderConfigKey hmacEnabled hmacVerify getProviderConfig getTemplate).

Lemma upsertUnauthConnection_rows connectionId providerConfigKey env now w :
  exists response w1,
    upsertUnauthConnection getIdByProviderConfigKey connectionId providerConfigKey env now w
    = (Ok response, w1)
    /\ forall i r,
         connections w !! i = Some r ->
         exists r',
           connections w1 !! i = Some r'
           /\ id r' = id r
           /\ credentials r' = credentials r
           /\ credentials_iv r' = credentials_iv r
           /\ credentials_tag r' = credentials_tag r
           /\ deleted r' = deleted r.
Proof.
  unfold upsertUnauthConnection.
  destruct (checkIfConnectionExists connectionId providerConfigKey env w) as [stored|].
  - eexists _, _. split; [reflexivity|]. intros i r Hi.
    cbn [connections logWrite setConnections]. rewrite list_lookup_fmap, Hi.
    cbn [fmap option_fmap option_map].
    eexists. split; [reflexivity|]. destruct (liveWithId (id stored) r); auto 10.
  - eexists _, _. split; [reflexivity|]. intros i r Hi.
    cbn [connections logWrite setConnections].
    exists r. split; [apply lookup_app_l_Some; exact Hi|]. auto 10.
Qed.

(** X30.  [create] of the controller for connections without credentials
    never alters stored credentials.  It answers 200, with the provider
    config key and the connection id of the request, only when both are
    given, the HMAC check passes where HMAC is enabled, the provider config
    exists and its template has the auth mode NONE; the database is then
    the one that [upsertUnauthConnection] leaves, in which every row that
    was there is still at its place with its id, credentials, IV, tag and
    deleted flag.  Every other answer, one of six error codes or the error
    that [getTemplate] threw, leaves the database as it was. *)
Theorem create_keeps_credentials (req : UnauthRequest) (environmentId now : Z) (w : World) :
  exists answer w',
    create_ req environmentId now w = (answer, w') /\
    match answer with
    | Status200 body =>
        exists providerConfigKey connectionId config template response,
          given (ua_providerConfigKey req) = Some providerConfigKey
          /\ given (ua_connection_id req) = Some connectionId
          /\ body = JObject [("providerConfigKey", JString providerConfigKey);
                            ("connectionId", JString connectionId)]
          /\ (hmacEnabled environmentId = true ->
              exists hmac, given (ua_hmac req) = Some hmac
                /\ hmacVerify hmac environmentId providerConfigKey connectionId = true)
          /\ getProviderConfig providerConfigKey environmentId = Some config
          /\ getTemplate (provider config) = Ok template
          /\ auth_mode template = NoneMode
          /\ upsertUnauthConnection getIdByProviderConfigKey connectionId providerConfigKey
               environmentId now w = (Ok response, w')
          /\ forall i r,
               connections w !! i = Some r ->
               exists r',
                 connections w' !! i = Some r'
                 /\ id r' = id r
                 /\ credentials r' = credentials r
                 /\ credentials_iv r' = credentials_iv r
                 /\ credentials_tag r' = credentials_tag r
                 /\ deleted r' = deleted r
    | ErrRes code =>
        w' = w /\
        code ∈ ["missing_connection"; "missing_connection_id"; "missing_hmac";
                "invalid_hmac"; "unknown_provider_config"; "invalid_auth_mode"]
    | NextErr err =>
        w' = w /\
        exists providerConfigKey config,
          given (ua_providerConfigKey req) = Some providerConfigKey
          /\ getProviderConfig providerConfigKey environmentId = Some config
          /\ getTemplate (provider config) = Err err
    end.
Proof.
  unfold create.
  destruct (given (ua_providerConfigKey req)) as [providerConfigKey|] eqn:Hpck;
    [|do 2 eexists; split; [reflexivity|]; split; [reflexivity|]; in_list].
  destruct (given (ua_connection_id req)) as [connectionId|] eqn:Hcid;
    [|do 2 eexists; split; [reflexivity|]; split; [reflexivity|]; in_list].
  set (hmacFailure :=
         if hmacEnabled environmentId then
           match given (ua_hmac req) with
           | None => Some "missing_hmac"
           | Some hmac =>
               if hmacVerify hmac environmentId providerConfigKey connectionId
               then None else Some "invalid_hmac"
           end
         else None).
  assert (Hhmac :
    (hmacFailure = None /\
     (hmacEnabled environmentId = true ->
        exists hmac, given (ua_hmac req) = Some hmac
          /\ hmacVerify hmac environmentId providerConfigKey connectionId = true))
    \/ hmacFailure = Some "missing_hmac" \/ hmacFailure = Some "invalid_hmac").
  { subst hmacFailure.
    destruct (hmacEnabled environmentId); [|left; split; [reflexivity|discriminate]].
    destruct (given (ua_hmac req)) as [hmac|]; [|auto].
    destruct (hmacVerify hmac environmentId providerConfigKey connectionId) eqn:Hv; eauto. }
  destruct Hhmac as [[-> Hhmac]|[-> | ->]];
    [|do 2 eexists; split; [reflexivity|]; split; [reflexivity|]; in_list..].
  destruct (getProviderConfig providerConfigKey environmentId) as [config|] eqn:Hconfig;
    [|do 2 eexists; split; [reflexivity|]; split; [reflexivity|]; in_list].
  destruct (getTemplate (provider config)) as [template|err] eqn:Htemplate;
    [|do 2 eexists; split; [reflexivity|]; split; [reflexivity|]; eauto].
  case_bool_decide as Hmode;
    [cbn [negb]|do 2 eexists; split; [reflexivity|]; split; [reflexivity|]; in_list].
  destruct (upsertUnauthConnection_rows connectionId providerConfigKey environmentId now w)
    as (response & w1 & Hup & Hrows).
  rewrite Hup. do 2 eexists. split; [reflexivity|].
  exists providerConfigKey, connectionId, config, template, response.
  repeat split; auto.
Qed.

End UnAuthControllerFacts.

